(* ===== verification/_CoqProject ===== *)
-Q . S2P
Prelude.v
CBuf.v
State.v
MsgFormat.v
Wire.v
CsmMsg.v
Port.v
AppCsm.v
Csm.v
MsgLogRing.v
SyncPrepare.v
Receive.v
Handshake.v
Syncd.v
MacTable.v
Kernel.v
MacInv.v
Decode.v
MacSync.v
Senders.v
Neigh.v
MacSend.v
SendAll.v
PortSync.v
Consistency.v
LinkMac.v
LinkMacInv.v
LinkMacSpec.v
Isolation.v
LinkState.v
SyncUpdate.v
MlacpFsm.v
Session.v
SyncdRecv.v
Lifecycle.v
LifecycleSpec.v
Config.v
ConfigSpec.v
Learn.v
LinkEvents.v
Connect.v
Show.v
Mclagdctl.v
ShowSpec.v
StageFrame.v
ProcInv.v
ConnectSpec.v
NeighSpec.v
LearnSpec.v
StageSpec.v
StageNet.v
ShowRows.v
Witnesses.v
StageWitnesses.v
ConfigWitnesses.v
ProcWitnesses.v
ShowWitnesses.v
