(* ===== verification/Prelude.v ===== *)
(** * The MCLAG daemon of SONiC

    [iccpd] (under [src/src/iccpd]) keeps two switches that share link
    aggregation groups in step.  This library models its protocol core and
    proves what the core promises.

    ** The program

    A _connection state machine_ (CSM, [iccp_csm.c]) per peer opens a session over
    TCP: it exchanges capability and connect messages until the session is
    operational.  The _scheduler_ ([scheduler.c]) reads the socket, cuts the byte
    stream into messages and queues them.  The _application state machine_
    ([app_csm.c]) hands mLACP messages to the _mLACP application_
    ([mlacp_fsm.c]), which builds its own messages with [mlacp_sync_prepare.c]
    and applies the peer's with [mlacp_sync_update.c].  The application keeps the
    MAC table that both switches share, the queues of MAC, ARP and ND entries to
    send, the local interfaces bound to the CSM and the peer's interfaces
    ([port.c]).  [iccp_consistency_check.c] compares the two ends of an interface.
    Events of interfaces and of the session arrive in [mlacp_link_handler.c],
    which changes the MAC table and asks [mclagsyncd], over a local socket, to
    program the switch.  The kernel reports interfaces, addresses and neighbours
    ([iccp_netlink.c], [iccp_ifm.c]).  One thread does all of this: a turn of its
    loop handles the ready descriptors and then lets every CSM take a step.  A user
    asks for the state with [mclagdctl], which the daemon answers over its control
    socket.

    ** How it is modelled

    Code is translated into a state monad [M] whose only failure, [None], is
    undefined behaviour: an access outside an object, a use of freed memory, a
    signed overflow.  Code that works on one CSM runs on the state [CS] (the CSM,
    the globals, the heap of interfaces, the system instance); code that looks at
    the whole process runs on [World].  Memory that the program shares by pointer (MAC
    entries, interfaces) is a finite map from addresses: an absent address is a
    dangling pointer.  Integers are [Z], with the wrap-around of their C type
    written out.  Bytes that leave the process are appended to a trace; what
    [recv] and [write] return is scripted by the state.

    ** The files

    - [Prelude]: record update, the monad and its weakest preconditions.
    - [CBuf], [MsgFormat], [Wire]: byte buffers, the packed structs of
      [msg_format.h] and [mlacp_tlv.h], and the messages as RFC 7275 draws them.
    - [State]: the records of the process.
    - [CsmMsg], [Csm], [Handshake]: [iccp_csm.c]; builders and the send log, the
      readers and the transit, and two peers that run against each other.
    - [AppCsm], [MsgLogRing]: [app_csm.c] and the ring of sent messages.
    - [Receive]: the receive callback of [scheduler.c].
    - [SyncPrepare]: [mlacp_sync_prepare.c].
    - [Senders], [MacSend], [SendAll]: the senders of [mlacp_fsm.c] and the reply to
      a synchronisation request.
    - [MacTable], [MacInv], [Decode], [MacSync]: the MAC table, its invariant and
      the updates of the peer.
    - [Syncd]: the socket to mclagsyncd and the requests sent over it.
    - [LinkMac], [LinkMacInv], [LinkMacSpec]: what ports, peer link, session and
      switch do to the MAC table ([mlacp_link_handler.c]).
    - [Isolation]: port isolation ([mlacp_link_handler.c]).
    - [Kernel], [Neigh]: requests to the kernel, the MAC addresses of interfaces on the
      standby switch ([iccp_netlink.c]), ARP and ND entries.
    - [LinkState]: link states, routes, connection and disconnection of the peer
      ([mlacp_link_handler.c]).
    - [SyncUpdate], [NeighSpec]: the other updates of [mlacp_sync_update.c]; the
      neighbour tables as finite maps.
    - [MlacpFsm]: the receivers, the stages and the transit of [mlacp_fsm.c].
    - [StageFrame], [StageSpec], [StageNet]: what leaves the stage alone, the
      automaton that the transit implements, and two switches that synchronise.  The
      frame also covers the addresses of interfaces, for [ProcInv].
    - [Session]: the end of a session ([scheduler.c], [iccp_csm.c], [app_csm.c]).
    - [Port], [PortSync], [Consistency]: [port.c], the port-channel update and
      [iccp_consistency_check.c].
    - [SyncdRecv]: the reception of mclagsyncd's messages.
    - [Lifecycle], [LifecycleSpec]: CSMs and local interfaces come and go ([system.c],
      [port.c], parts of [iccp_csm.c], [iccp_ifm.c] and [iccp_netlink.c]); VLANs that
      are announced ahead of their interface.
    - [Config], [ConfigSpec]: [iccp_cli.c], [iccp_cmd.c] and the configuration
      messages of mclagsyncd.
    - [Learn], [LearnSpec]: neighbours that the kernel reports and that ARP and ND
      packets announce ([iccp_ifm.c], [iccp_netlink.c]).
    - [LinkEvents]: interfaces and addresses that come, change and go
      ([iccp_netlink.c], [iccp_ifm.c]).
    - [Connect], [ConnectSpec]: roles, the client and the server side of a connection,
      the whole transit of a CSM and a turn of the main loop ([scheduler.c],
      [iccp_csm.c], the events of [iccp_netlink.c]).
    - [ProcInv]: the invariant of the process that every turn of the main loop keeps.
    - [Show]: the dumps of the state ([iccp_cmd_show.c]) and the control socket that
      answers requests for them ([mlacp_link_handler.c]).
    - [Mclagdctl]: the client ([mclagdctl.c]): commands, requests, replies as text.
    - [ShowSpec], [ShowRows]: client and daemon together; what the rows say.
    - [Witnesses], [StageWitnesses], [ConfigWitnesses], [ProcWitnesses],
      [ShowWitnesses]: concrete states at which the theorems apply.

    ** What is proved

    - Sessions: the transit refines an abstract protocol; two peers of one group
      become operational under every fair schedule, peers of different groups never do.
    - Synchronisation: the transit refines an automaton of the stages; two switches
      reach the exchange state under every fair schedule, whatever else arrives; what
      the stages send; the loop ends; the end of a session resets the CSM.
    - Connection: of two switches exactly one connects and the same one is active.
    - The process: after any number of turns of the main loop, whatever the kernel,
      mclagsyncd and the peer do, the layer 3 flags agree with addresses and VRF, and
      the transit does not release the CSM that its caller goes on to use.
    - Neighbours: the ARP and ND tables are finite maps and the peer's entries are
      operations on them; what the kernel and packets teach, and what the peer is told.
    - Transport: messages survive any segmentation; the read loops end; the ring
      finds the last 128 messages.
    - Messages: builders produce exactly the wire encoding of their data, over any
      old contents of the buffer, and refuse what does not fit; readers get it back.
    - MAC table: well-formedness is kept by every message of the peer and by every
      event of ports, session and switch; what an addition, a deletion, a
      resynchronisation and a lost session do to table, queue and switch.
    - mclagsyncd: a send ends with the whole message or a strict prefix; accepted
      requests decode to what was meant; when a port is isolated and what is sent.
    - Interfaces: VLAN trees stay sorted and counted; a port channel is mirrored
      at the peer; the consistency check decides equality of the two ends.
    - Configuration: messages are delivered in order whatever the batches, and the
      cases in which one is lost; handlers do record by record what was encoded; a
      new domain has the attributes of its message; MAC addresses are read back.
    - Show commands: client and daemon together print the tables of a domain, however
      the sockets cut the bytes and whatever fresh memory holds; the lines of the ARP, ND
      and MAC tables entry by entry; VLAN lists as ranges.
    - Defects: where the code reads or writes outside an object, or uses freed
      memory, a theorem states the inputs that make it do so.

    ** Bounds and fuel

    The receive loops take fuel: the header loop 8 (each pass reads at least one
    byte of 8), the data loop [data_len + 11] (each pass reads a byte or is one
    of at most ten retries); [Receive.read_loops_terminate] shows it is enough.
    The loop of the synchronisation reply takes eight passes, one for each state.
    The loop of the transit takes one turn for each message and two more
    ([StageSpec.transit_terminates]).
    The send loop to mclagsyncd takes [length + 6]: each pass sends a byte or is
    one of at most five retries; [Syncd.send_to_mclagsyncd_outcome] shows that it
    is enough for every behaviour of the socket.  The loops that complete a header or
    a message of mclagsyncd take a byte or one of six retries a pass, the loop over
    the messages at least one byte, the loop over records one record of the buffer.
    A pass over the attributes of a netlink message takes four bytes or more, one over
    the messages of a dump sixteen, one over the options of an ND packet eight; their
    fuel is the length of the buffer.  [inet_addr] reads at most four numbers.

    ** Not modelled

    The set-up of sockets and the callbacks that libnl wants for them, the dumps of
    the kernel's state at start-up and after a receive error (parts of
    [iccp_netlink.c], [iccp_ifm.c], [scheduler.c], [system.c]), the options of the
    process ([cmd_option.c]), process set-up and logging ([iccp_main.c], [logger.c]; the
    level of the logger is modelled), and the red-black tree of [openbsd_tree.c],
    which stands for its in-order sequence.  The other C code of the repository, the
    daemon for port access control ([sonic-pac]) and the drivers of the platforms, is
    no part of this program.  [malloc] is assumed to succeed. *)

From Stdlib Require Import ZArith Lia.
From stdpp Require Import base list numbers option sets.

(** ** Functional record update

    C code assigns struct members; [r <| f := v |>] is the record [r] with
    member [f] replaced.  A record type declares one [Eta] instance (its
    constructor applied to its own projections) and [solve_setter] derives the
    setter of a projection from it. *)

Class Eta (R : Type) := eta : R -> R.

Class Setter {R T : Type} (proj : R -> T) := set : (T -> T) -> R -> R.
Arguments set {R T} proj {_} _ _.

Ltac solve_setter :=
  match goal with
  | |- @Setter ?R ?T ?proj =>
      let e := constr:(_ : Eta R) in
      let f := fresh "f" in
      let r := fresh "r" in
      intros f r;
      let e' := eval hnf in e in
      let t := eval cbv beta in (e' r) in
      let p := eval pattern (proj r) in t in
      match p with
      | ?g _ => let t' := eval cbv beta in (g (f (proj r))) in exact t'
      end
  end.

#[export] Hint Extern 1 (Setter _) => solve_setter : typeclass_instances.

Declare Scope iccp_scope.
Delimit Scope iccp_scope with iccp.

#[warnings="-postfix-notation-not-level-1"]
Notation "x <| proj := v |>" := (set proj (fun _ => v) x)
  (at level 12, left associativity) : iccp_scope.
#[warnings="-postfix-notation-not-level-1"]
Notation "x <| proj ::= f |>" := (set proj f x)
  (at level 12, f at next level, left associativity) : iccp_scope.
Open Scope iccp_scope.

(** ** Stateful code that may be undefined

    [M S A] is the type of a C function body over the state [S] returning an
    [A].  [None] stands for undefined behaviour (an access outside an object),
    never for an error code: error codes are ordinary results. *)

Definition M (S A : Type) : Type := S -> option (A * S).

#[export] Instance M_ret {S} : MRet (M S) := fun A a s => Some (a, s).
#[export] Instance M_bind {S} : MBind (M S) := fun A B k c s =>
  match c s with
  | Some (a, s') => k a s'
  | None => None
  end.

Section Monad.
Context {S : Type}.

Definition get : M S S := fun s => Some (s, s).
Definition put (s : S) : M S unit := fun _ => Some (tt, s).
Definition gets {A} (f : S -> A) : M S A := fun s => Some (f s, s).
Definition modify (f : S -> S) : M S unit := fun s => Some (tt, f s).

(** A value that exists only where the C expression is defined. *)
Definition lift {A} (o : option A) : M S A := fun s => a ← o; Some (a, s).
Definition ub {A} : M S A := fun _ => None.

(** [if (b) c;] *)
Definition when (b : bool) (c : M S unit) : M S unit :=
  if b then c else mret tt.

(** [LIST_FOREACH] over a list that the body leaves in place. *)
Fixpoint foreach {A} (f : A -> M S unit) (l : list A) : M S unit :=
  match l with
  | [] => mret tt
  | a :: l' => f a ;; foreach f l'
  end.

Lemma bind_Some {A B} (c : M S A) (k : A -> M S B) s a s' :
  c s = Some (a, s') -> (c ≫= k) s = k a s'.
Proof. intros E. unfold mbind, M_bind. by rewrite E. Qed.

Lemma lift_Some {A} (o : option A) a s : o = Some a -> lift o s = Some (a, s).
Proof. by intros ->. Qed.

Lemma bind_None {A B} (c : M S A) (k : A -> M S B) s :
  c s = None -> (c ≫= k) s = None.
Proof. intros E. unfold mbind, M_bind. by rewrite E. Qed.

Lemma bind_inv {A B} (c : M S A) (k : A -> M S B) s b s'' :
  (c ≫= k) s = Some (b, s'') ->
  exists a s', c s = Some (a, s') /\ k a s' = Some (b, s'').
Proof. unfold mbind, M_bind. destruct (c s) as [[a s']|]; naive_solver. Qed.

(** [wp c Q s]: the body is defined from [s], and its result satisfies [Q]. *)
Definition wp {A} (c : M S A) (Q : A -> S -> Prop) (s : S) : Prop :=
  exists a s', c s = Some (a, s') /\ Q a s'.

Lemma wp_ret {A} (a : A) (Q : A -> S -> Prop) s : Q a s -> wp (mret a) Q s.
Proof. intros H. by exists a, s. Qed.

Lemma wp_bind {A B} (c : M S A) (k : A -> M S B) (Q : B -> S -> Prop) s :
  wp c (fun a s' => wp (k a) Q s') s -> wp (c ≫= k) Q s.
Proof.
  intros (a & s' & Hc & b & s'' & Hk & HQ). exists b, s''.
  split; [|done]. by rewrite (bind_Some _ _ _ _ _ Hc).
Qed.

Lemma wp_unit (c : M S unit) (Q : S -> Prop) s :
  wp c (fun _ => Q) s -> exists s', c s = Some (tt, s') /\ Q s'.
Proof. intros ([] & s' & H). by exists s'. Qed.

Lemma bind_assoc {A B C} (c : M S A) (k : A -> M S B) (l : B -> M S C) s :
  (c ≫= (fun a => k a ≫= l)) s = ((c ≫= k) ≫= l) s.
Proof. unfold mbind, M_bind. by destruct (c s) as [[a s']|]. Qed.

(** A body that runs into undefined behaviour after [c]. *)
Lemma wp_crash {A B} (c : M S A) (k : A -> M S B) s :
  wp c (fun a s' => k a s' = None) s -> (c ≫= k) s = None.
Proof. intros (a & s' & Hc & Hk). by rewrite (bind_Some _ _ _ _ _ Hc). Qed.

Lemma wp_mono {A} (c : M S A) (Q Q' : A -> S -> Prop) s :
  wp c Q s -> (forall a s', Q a s' -> Q' a s') -> wp c Q' s.
Proof. intros (a & s' & Hc & HQ) H. exists a, s'. auto. Qed.

Lemma wp_gets {A} (f : S -> A) (Q : A -> S -> Prop) s : Q (f s) s -> wp (gets f) Q s.
Proof. intros H. by exists (f s), s. Qed.

Lemma wp_modify (f : S -> S) (Q : unit -> S -> Prop) s : Q tt (f s) -> wp (modify f) Q s.
Proof. intros H. by exists tt, (f s). Qed.

Lemma wp_lift {A} (o : option A) a (Q : A -> S -> Prop) s :
  o = Some a -> Q a s -> wp (lift o) Q s.
Proof. intros -> H. by exists a, s. Qed.

Lemma wp_when (b : bool) (c : M S unit) (Q : unit -> S -> Prop) s :
  (b = true -> wp c Q s) -> (b = false -> Q tt s) -> wp (when b c) Q s.
Proof. destruct b; intros Ht Hf; [auto|]. apply wp_ret. auto. Qed.

Lemma wp_foreach {A} (I : list A -> S -> Prop) (f : A -> M S unit) l s :
  (forall a l' s, I (a :: l') s -> wp (f a) (fun _ => I l') s) ->
  I l s -> wp (foreach f l) (fun _ => I []) s.
Proof.
  intros Hf. revert s. induction l as [|a l IH]; intros s H; simpl; [by apply wp_ret|].
  apply wp_bind. eapply wp_mono; [by apply Hf|]. intros ? s' H'. by apply IH.
Qed.
End Monad.

Create HintDb iccp.
#[export] Hint Resolve wp_ret wp_gets wp_modify : iccp.

(** ** Fixed-width integers

    A [uintN_t] object holds the value modulo [2^N]. *)

Open Scope Z_scope.

Definition u8 (x : Z) : Z := x mod 2 ^ 8.
Definition u16 (x : Z) : Z := x mod 2 ^ 16.
Definition u32 (x : Z) : Z := x mod 2 ^ 32.
Definition u64 (x : Z) : Z := x mod 2 ^ 64.

(** Conversion of an unsigned value to [int]. *)
Definition s32 (x : Z) : Z := (x + 2 ^ 31) mod 2 ^ 32 - 2 ^ 31.

(** [int] arguments used as conditions. *)
Definition truth (x : Z) : bool := negb (x =? 0).
Definition of_bool (b : bool) : Z := if b then 1 else 0.

Lemma u16_range x : 0 <= u16 x < 2 ^ 16.
Proof. apply Z.mod_pos_bound. lia. Qed.
Lemma u32_range x : 0 <= u32 x < 2 ^ 32.
Proof. apply Z.mod_pos_bound. lia. Qed.
Lemma u16_small x : 0 <= x < 2 ^ 16 -> u16 x = x.
Proof. apply Z.mod_small. Qed.
Lemma u32_small x : 0 <= x < 2 ^ 32 -> u32 x = x.
Proof. apply Z.mod_small. Qed.
#[export] Hint Resolve u16_range u32_range : iccp.

(** ** Tactics *)

(** Case analysis on the scrutinee of the first [match] of the goal. *)
Ltac case_goal :=
  match goal with
  | |- context [match ?x with _ => _ end] => destruct x eqn:?
  end.

(** Boolean tests on integers, as propositions. *)
Ltac zbool :=
  repeat match goal with
  | H : (_ =? _) = true |- _ => apply Z.eqb_eq in H
  | H : (_ =? _) = false |- _ => apply Z.eqb_neq in H
  | H : (_ <=? _) = true |- _ => apply Z.leb_le in H
  | H : (_ <=? _) = false |- _ => apply Z.leb_gt in H
  | H : (_ <? _) = true |- _ => apply Z.ltb_lt in H
  | H : (_ <? _) = false |- _ => apply Z.ltb_ge in H
  | H : (_ && _)%bool = true |- _ => apply andb_true_iff in H as [? ?]
  | H : (_ || _)%bool = false |- _ => apply orb_false_iff in H as [? ?]
  | H : negb _ = true |- _ => apply negb_true_iff in H
  | H : negb _ = false |- _ => apply negb_false_iff in H
  end.

(** ** Lists *)

Section Lists.
Context {A : Type}.
Implicit Types (l k : list A) (P : A -> bool).

(** First element satisfying a test, as the search loops of the code do. *)
Fixpoint find_first P l : option A :=
  match l with
  | [] => None
  | x :: l' => if P x then Some x else find_first P l'
  end.

Lemma find_first_Some P l x : find_first P l = Some x -> x ∈ l /\ P x = true.
Proof.
  induction l as [|y l IH]; simpl; [done|].
  destruct (P y) eqn:E; [intros Hx; simplify_eq; set_solver|].
  intros Hf. destruct (IH Hf). set_solver.
Qed.

Lemma find_first_None P l : find_first P l = None -> Forall (fun x => P x = false) l.
Proof.
  induction l as [|y l IH]; simpl; [constructor|].
  destruct (P y) eqn:E; [done|]. constructor; auto.
Qed.

Lemma fmap_ext_in {B} (f g : A -> B) l :
  (forall x, x ∈ l -> f x = g x) -> f <$> l = g <$> l.
Proof.
  induction l as [|a l IH]; intros H; [done|]. simpl.
  f_equal; [apply H|apply IH]; set_solver.
Qed.

Lemma take_app_exact n l k : length l = n -> take n (l ++ k) = l.
Proof. intros <-. by rewrite take_app_length. Qed.

Lemma drop_app_exact n l k : length l = n -> drop n (l ++ k) = k.
Proof. intros <-. by rewrite drop_app_length. Qed.

Lemma take_drop_split n m l : take n l ++ take m (drop n l) = take (n + m) l.
Proof.
  revert l. induction n as [|n IH]; intros l; [done|].
  destruct l as [|x l]; simpl; [by rewrite take_nil|]. by rewrite IH.
Qed.
End Lists.
