(* ===== verification/CBuf.v ===== *)
(** Byte buffers as C sees them: objects of a fixed length, read and written at
    an offset through integers in host (little-endian) order, bit-fields inside
    16-bit words, [htons]/[htonl], and NUL-terminated character arrays.

    An access that leaves the object is undefined behaviour: [rd] and [wr]
    answer [None].  The second half relates the host-order view to the
    big-endian encoding [be] in which the protocol's formats are written. *)

From Stdlib Require Import ZArith Lia Strings.Byte.
From stdpp Require Import base list numbers option.
From coqutil Require Import Byte Word.LittleEndianList.
From S2P Require Import Prelude.

Abbreviation buf := (list byte).

#[export] Instance byte_eq_dec : EqDecision byte := Byte.byte_eq_dec.

(** ** Access at an offset *)

Definition rd (off n : nat) (b : buf) : option (list byte) :=
  if (off + n <=? length b)%nat then Some (take n (drop off b)) else None.

Definition wr (off : nat) (bs : list byte) (b : buf) : option buf :=
  if (off + length bs <=? length b)%nat
  then Some (take off b ++ bs ++ drop (off + length bs) b) else None.

(** [memset(b, 0, n)] for the whole object. *)
Definition zeros (n : Z) : buf := replicate (Z.to_nat n) Byte.x00.

Definition rd8 (off : nat) (b : buf) : option Z := le_combine <$> rd off 1 b.
Definition rd16 (off : nat) (b : buf) : option Z := le_combine <$> rd off 2 b.
Definition rd32 (off : nat) (b : buf) : option Z := le_combine <$> rd off 4 b.
Definition wr8 (off : nat) (v : Z) (b : buf) : option buf := wr off (le_split 1 v) b.
Definition wr16 (off : nat) (v : Z) (b : buf) : option buf := wr off (le_split 2 v) b.
Definition wr32 (off : nat) (v : Z) (b : buf) : option buf := wr off (le_split 4 v) b.

(** ** Byte order *)

Definition htons (x : Z) : Z := le_combine (rev (le_split 2 x)).
Definition ntohs (x : Z) : Z := htons x.
Definition htonl (x : Z) : Z := le_combine (rev (le_split 4 x)).
Definition ntohl (x : Z) : Z := htonl x.

(** Big-endian encoding: the order of the fields on the wire. *)
Definition be (n : nat) (x : Z) : list byte := rev (le_split n x).

(** ** Bit-fields of a 16-bit word

    GCC allocates bit-fields of a little-endian target from the least
    significant bit: a field of [width] bits at position [pos]. *)

Definition bf_get (pos width : Z) (w : Z) : Z :=
  Z.land (Z.shiftr w pos) (Z.ones width).

Definition bf_set (pos width : Z) (v w : Z) : Z :=
  Z.lor (Z.ldiff w (Z.shiftl (Z.ones width) pos))
        (Z.shiftl (Z.land v (Z.ones width)) pos).

(** Read and write a bit-field of the word at [off]. *)
Definition rdbf (off : nat) (pos width : Z) (b : buf) : option Z :=
  bf_get pos width <$> rd16 off b.

Definition wrbf (off : nat) (pos width v : Z) (b : buf) : option buf :=
  w ← rd16 off b; wr16 off (bf_set pos width v w) b.

(** The byte swap in place, [htons] of the word at a location stored back to it,
    that turns a word of bit-fields from host to network order and back. *)
Definition swap16 (off : nat) (b : buf) : option buf :=
  w ← rd16 off b; wr16 off (htons w) b.

(** ** Character arrays *)

Definition is_nul (c : byte) : bool := (byte.unsigned c =? 0).

(** The characters before the terminator; the whole array when there is none
    (where [strlen] would run past the object). *)
Fixpoint cstr (a : list byte) : list byte :=
  match a with
  | [] => []
  | c :: a' => if is_nul c then [] else c :: cstr a'
  end.

Definition strlen (a : list byte) : Z := Z.of_nat (length (cstr a)).

Definition streq (a b : list byte) : bool := bool_decide (cstr a = cstr b).

(** The array of [n] characters left by [snprintf(a, n, "%s", s)] on a zeroed
    array: at most [n - 1] characters, then zeros. *)
Definition carray (n : nat) (s : list byte) : list byte :=
  let t := take (n - 1) (cstr s) in t ++ replicate (n - length t) Byte.x00.

Definition has_nul (a : list byte) : bool := existsb is_nul a.

(** ** Laws of buffer access *)

Section Access.
Implicit Types (b : buf) (off n : nat) (bs : list byte).

Lemma rd_inv off n b bs :
  rd off n b = Some bs -> (off + n <= length b)%nat /\ length bs = n.
Proof.
  unfold rd. destruct (Nat.leb_spec (off + n) (length b)); [|done].
  intros [= <-]. rewrite length_take, length_drop. lia.
Qed.

Lemma rd_total off n b : (off + n <= length b)%nat -> is_Some (rd off n b).
Proof. intros H. unfold rd. rewrite (proj2 (Nat.leb_le _ _) H). eauto. Qed.

Lemma wr_length off bs b b' : wr off bs b = Some b' -> length b' = length b.
Proof.
  unfold wr. destruct (Nat.leb_spec (off + length bs) (length b)); [|done].
  intros [= <-]. rewrite !length_app, length_take, length_drop. lia.
Qed.

Lemma wr_total off bs b :
  (off + length bs <= length b)%nat -> is_Some (wr off bs b).
Proof. intros H. unfold wr. rewrite (proj2 (Nat.leb_le _ _) H). eauto. Qed.

(** Reads and writes inside a prefix do not see what follows it. *)
Lemma rd_app_l off n p r :
  (off + n <= length p)%nat -> rd off n (p ++ r) = rd off n p.
Proof.
  intros H. unfold rd. rewrite length_app.
  rewrite (proj2 (Nat.leb_le (off + n) (length p)) H).
  rewrite (proj2 (Nat.leb_le (off + n) (length p + length r)) ltac:(lia)).
  by rewrite drop_app_le, take_app_le by (rewrite ?length_drop; lia).
Qed.

Lemma rd_app_r off n p r :
  (length p <= off)%nat -> rd off n (p ++ r) = rd (off - length p) n r.
Proof.
  intros H. unfold rd. rewrite length_app, drop_app_ge by lia.
  by replace (off + n <=? length p + length r)%nat
    with (off - length p + n <=? length r)%nat
    by (apply eq_true_iff_eq; rewrite !Nat.leb_le; lia).
Qed.

Lemma wr_app_l off bs p r :
  (off + length bs <= length p)%nat ->
  wr off bs (p ++ r) = (fun p' => p' ++ r) <$> wr off bs p.
Proof.
  intros H. unfold wr. rewrite length_app.
  rewrite (proj2 (Nat.leb_le _ (length p)) H).
  rewrite (proj2 (Nat.leb_le (off + length bs) (length p + length r)) ltac:(lia)).
  simpl.
  by rewrite take_app_le, drop_app_le, !app_assoc by lia.
Qed.

Lemma rd_wr_eq off bs b b' :
  wr off bs b = Some b' -> rd off (length bs) b' = Some bs.
Proof.
  intros Hw. pose proof (wr_length _ _ _ _ Hw) as Hl. revert Hw. unfold wr, rd.
  destruct (Nat.leb_spec (off + length bs) (length b)); [|done].
  intros [= <-]. rewrite Hl.
  rewrite (proj2 (Nat.leb_le (off + length bs) (length b)) ltac:(lia)).
  rewrite drop_app_exact by (rewrite length_take; lia).
  by rewrite take_app_exact.
Qed.

Lemma rd_wr_before off n off' bs b b' :
  wr off' bs b = Some b' -> (off + n <= off')%nat -> rd off n b' = rd off n b.
Proof.
  intros Hw H. pose proof (wr_length _ _ _ _ Hw) as Hl. revert Hw. unfold wr.
  destruct (Nat.leb_spec (off' + length bs) (length b)); [|done]. intros [= <-].
  rewrite rd_app_l by (rewrite length_take; lia).
  transitivity (rd off n (take off' b ++ drop off' b)); [|by rewrite take_drop].
  by rewrite rd_app_l by (rewrite length_take; lia).
Qed.

Lemma rd_wr_after off n off' bs b b' :
  wr off' bs b = Some b' -> (off' + length bs <= off)%nat ->
  rd off n b' = rd off n b.
Proof.
  intros Hw H. pose proof (wr_length _ _ _ _ Hw) as Hl. revert Hw. unfold wr.
  destruct (Nat.leb_spec (off' + length bs) (length b)) as [Hb|]; [|done].
  intros [= <-]. rewrite app_assoc.
  rewrite rd_app_r by (rewrite length_app, length_take; lia).
  set (k := (off' + length bs)%nat) in *.
  transitivity (rd off n (take k b ++ drop k b)); [|by rewrite take_drop].
  rewrite rd_app_r by (rewrite length_take; lia). f_equal.
  rewrite length_app, !length_take. lia.
Qed.
End Access.

(** ** Chunked buffers

    A message is a concatenation of chunks, one per field.  These lemmas move
    an access to the chunk it falls in; [chunk] does so by rewriting. *)

Section Chunks.
Implicit Types (b c p r : buf) (off n : nat) (bs : list byte).

Lemma wr_app_r off bs p r :
  (length p <= off)%nat ->
  wr off bs (p ++ r) = (fun r' => p ++ r') <$> wr (off - length p) bs r.
Proof.
  intros H. unfold wr. rewrite length_app.
  replace (off + length bs <=? length p + length r)%nat
    with (off - length p + length bs <=? length r)%nat
    by (apply eq_true_iff_eq; rewrite !Nat.leb_le; lia).
  destruct (_ <=? _)%nat; [|done]. simpl.
  rewrite take_app_ge, drop_app_ge by lia.
  replace (off + length bs - length p)%nat with (off - length p + length bs)%nat by lia.
  by rewrite <- app_assoc.
Qed.

Lemma rd_full n c : length c = n -> rd 0 n c = Some c.
Proof.
  intros <-. unfold rd. rewrite Nat.leb_refl. by rewrite drop_0, firstn_all.
Qed.

Lemma wr_full bs c : length bs = length c -> wr 0 bs c = Some bs.
Proof.
  intros Hl. unfold wr. simpl. rewrite Hl, Nat.leb_refl.
  by rewrite drop_ge, app_nil_r by lia.
Qed.

Lemma rd_head n c r : length c = n -> rd 0 n (c ++ r) = Some c.
Proof. intros H. rewrite rd_app_l by lia. by apply rd_full. Qed.

Lemma wr_head bs c r :
  length bs = length c -> wr 0 bs (c ++ r) = Some (bs ++ r).
Proof. intros H. rewrite wr_app_l by lia. by rewrite wr_full. Qed.

Lemma rd_skip off n c r k :
  length c = k -> (k <= off)%nat -> rd off n (c ++ r) = rd (off - k) n r.
Proof. intros <- ?. by apply rd_app_r. Qed.

Lemma wr_skip off bs c r k :
  length c = k -> (k <= off)%nat ->
  wr off bs (c ++ r) = (fun r' => c ++ r') <$> wr (off - k) bs r.
Proof. intros <- ?. by apply wr_app_r. Qed.

Lemma zeros_length (z : Z) : length (zeros z) = Z.to_nat z.
Proof. apply length_replicate. Qed.

Lemma zeros_split (k z : Z) : 0 <= k <= z -> zeros z = zeros k ++ zeros (z - k).
Proof.
  intros H. unfold zeros. rewrite <- replicate_add. f_equal. lia.
Qed.
End Chunks.

(** Accesses relative to the end of a prefix. *)
Lemma wr_shift p x e k v :
  length p = e -> wr (e + k) v (p ++ x) = (fun x' => p ++ x') <$> wr k v x.
Proof. intros <-. rewrite wr_app_r by lia. do 2 f_equal. lia. Qed.

Lemma wr_shift0 p x e v :
  length p = e -> wr e v (p ++ x) = (fun x' => p ++ x') <$> wr 0 v x.
Proof. intros H. rewrite <- (wr_shift p x e 0 v H). f_equal. lia. Qed.

Lemma chunk_split (a b : nat) (h : buf) :
  length h = (a + b)%nat ->
  exists h1 h2, h = h1 ++ h2 /\ length h1 = a /\ length h2 = b.
Proof.
  intros H. exists (take a h), (drop a h).
  rewrite take_drop, length_take, length_drop. repeat split; lia.
Qed.

(** ** Byte order laws *)

Section ByteOrder.
Lemma be_length n x : length (be n x) = n.
Proof. unfold be. by rewrite length_rev, length_le_split. Qed.

Lemma le_split_combine n bs : length bs = n -> le_split n (le_combine bs) = bs.
Proof. apply split_le_combine'. Qed.

Lemma le_split_htons x : le_split 2 (htons x) = be 2 x.
Proof. apply le_split_combine, be_length. Qed.

Lemma le_split_htonl x : le_split 4 (htonl x) = be 4 x.
Proof. apply le_split_combine, be_length. Qed.

Lemma le_combine_range bs n : length bs = n -> 0 <= le_combine bs < 2 ^ (8 * Z.of_nat n).
Proof. intros <-. apply le_combine_bound. Qed.

Lemma htons_range x : 0 <= htons x < 2 ^ 16.
Proof. apply (le_combine_range (be 2 x) 2), be_length. Qed.

Lemma htonl_range x : 0 <= htonl x < 2 ^ 32.
Proof. apply (le_combine_range (be 4 x) 4), be_length. Qed.

Lemma ntohs_be x : ntohs (le_combine (be 2 x)) = u16 x.
Proof.
  unfold ntohs, htons. rewrite le_split_combine by apply be_length.
  unfold be. rewrite rev_involutive. apply (le_combine_split 2 x).
Qed.

Lemma ntohl_be x : ntohl (le_combine (be 4 x)) = u32 x.
Proof.
  unfold ntohl, htonl. rewrite le_split_combine by apply be_length.
  unfold be. rewrite rev_involutive. apply (le_combine_split 4 x).
Qed.

Lemma ntohs_htons x : ntohs (htons x) = u16 x.
Proof. rewrite <- ntohs_be. unfold htons at 1, ntohs, be. done. Qed.

Lemma ntohl_htonl x : ntohl (htonl x) = u32 x.
Proof. rewrite <- ntohl_be. unfold htonl at 1, ntohl, be. done. Qed.

Lemma le_combine_u8 x : le_combine (le_split 1 x) = u8 x.
Proof. apply (le_combine_split 1 x). Qed.

Lemma le_split_u16 x : le_split 2 x = le_split 2 (u16 x).
Proof. apply (le_split_mod x 2). Qed.

Lemma be_u16 x : be 2 (u16 x) = be 2 x.
Proof. unfold be. by rewrite <- le_split_u16. Qed.

Lemma be_u32 x : be 4 (u32 x) = be 4 x.
Proof. unfold be. f_equal. symmetry. apply (le_split_mod x 4). Qed.

Lemma be_inj n x y : be n x = be n y -> x mod 2 ^ (Z.of_nat n * 8) = y mod 2 ^ (Z.of_nat n * 8).
Proof.
  unfold be. intros E%(f_equal (@rev byte)). rewrite !rev_involutive in E.
  by rewrite <- !le_combine_split, E.
Qed.
End ByteOrder.

(** ** Bit-field laws *)

(** Equality of integers bit by bit; the comparisons of bit positions are
    decided by case analysis. *)
Ltac bits_cases :=
  repeat match goal with
  | |- context [?a <=? ?b] => destruct (Z.leb_spec a b)
  | |- context [?a <? ?b] => destruct (Z.ltb_spec a b)
  end; simpl; rewrite ?andb_true_r, ?andb_false_r, ?orb_false_r, ?orb_true_r.

Ltac bits i :=
  apply Z.bits_inj'; intros i ?;
  repeat rewrite ?Z.lor_spec, ?Z.ldiff_spec, ?Z.land_spec, ?Z.bits_0;
  rewrite ?Z.shiftl_spec by lia;
  repeat rewrite ?Z.lor_spec, ?Z.ldiff_spec, ?Z.land_spec, ?Z.bits_0;
  rewrite ?Z.testbit_ones by lia; rewrite ?Z.sub_0_r; bits_cases.

Section BitFields.
Lemma testbit_high w n i : 0 <= w < 2 ^ n -> 0 <= n <= i -> Z.testbit w i = false.
Proof.
  intros Hw Hi. rewrite <- (Z.mod_small w (2 ^ n)) by lia.
  apply Z.mod_pow2_bits_high. lia.
Qed.

(** The members of a word assigned one after the other leave nothing of the
    word's old value: [u_bit] and a 15-bit field... *)
Lemma bf_fill_15 v w :
  0 <= w < 2 ^ 16 ->
  bf_set 0 15 v (bf_set 15 1 0 w) = Z.land v (Z.ones 15).
Proof.
  intros Hw. unfold bf_set. bits i; try done; try lia.
  apply (testbit_high w 16); lia.
Qed.

(** ... and two single bits and a 14-bit field. *)
Lemma bf_fill_14 v w :
  0 <= w < 2 ^ 16 ->
  bf_set 0 14 v (bf_set 14 1 0 (bf_set 15 1 0 w)) = Z.land v (Z.ones 14).
Proof.
  intros Hw. unfold bf_set. bits i; try done; try lia.
  apply (testbit_high w 16); lia.
Qed.
End BitFields.

(** ** Strings without a terminator inside *)

Lemma cstr_whole s : existsb is_nul s = false -> cstr s = s.
Proof. induction s as [|c s IH]; [done|]. cbn. intros [-> H]%orb_false_elim. by rewrite IH. Qed.
Lemma cstr_ends s r : existsb is_nul s = false -> cstr (s ++ Byte.x00 :: r) = s.
Proof. induction s as [|c s IH]; [done|]. cbn. intros [-> H]%orb_false_elim. by rewrite IH. Qed.
