(* ===== verification/State.v ===== *)
(** The data of the daemon: the enumerations and structs of [msg_format.h],
    [port.h], [mlacp_tlv.h], [mlacp_fsm.h], [app_csm.h], [iccp_csm.h] and
    [system.h].

    Members keep their source names behind a prefix that says which struct they
    belong to.  Intrusive lists ([LIST_ENTRY], [TAILQ_ENTRY]) become lists held
    by the owner of the list head.  Structs that several lists share are
    reached through pointers: a [ptr] is a key of the heap that [World] holds
    (of [ml_mac_heap] for the MAC entries, which belong to one CSM).
    The red-black trees are their in-order sequences.  The mutex of a CSM (its
    lock functions are stubs that return constants) and the unused
    [sock_read_event_ptr] are left out. *)

From Stdlib Require Import ZArith.
From stdpp Require Import base list gmap numbers.
From S2P Require Import Prelude CBuf.

Definition ptr : Type := nat.

(** ** Constants *)

Definition MCLAG_ERROR : Z := -1.
Definition ETHER_ADDR_LEN : nat := 6.
Definition MAX_L_PORT_NAME : nat := 20.
Definition INET_ADDRSTRLEN : nat := 16.
Definition IFNAMSIZ : nat := 16.
Definition MAX_L_ICC_SENDER_NAME : nat := 80.
Definition CSM_BUFFER_SIZE : Z := 65536.
Definition MAX_MSG_LOG_SIZE : nat := 128.

Definition PORT_STATE_UP : Z := 0.
Definition PORT_STATE_DOWN : Z := 1.
Definition IF_T_UNKNOW : Z := -1.
Definition IF_T_PORT : Z := 0.
Definition IF_T_PORT_CHANNEL : Z := 1.
Definition IF_T_VLAN : Z := 2.
Definition IF_T_VXLAN : Z := 3.
Definition WARM_REBOOT : Z := 1.

Definition CONNECT_INTERVAL_SEC : Z := 1.
Definition HEARTBEAT_TIMEOUT_SEC : Z := 15.

(** ** Enumerations *)

Inductive ICCP_CONNECTION_STATE :=
  | ICCP_NONEXISTENT | ICCP_INITIALIZED | ICCP_CAPSENT | ICCP_CAPREC
  | ICCP_CONNECTING | ICCP_OPERATIONAL.

Inductive APP_CONNECTION_STATE :=
  | APP_NONEXISTENT | APP_RESET | APP_CONNSENT | APP_CONNREC
  | APP_CONNECTING | APP_OPERATIONAL.

Inductive MLACP_APP_STATE :=
  | MLACP_STATE_INIT | MLACP_STATE_STAGE1 | MLACP_STATE_STAGE2
  | MLACP_STATE_EXCHANGE | MLACP_STATE_ERROR.

Inductive MLACP_SYNC_STATE :=
  | MLACP_SYNC_SYSCONF | MLACP_SYNC_AGGCONF | MLACP_SYNC_AGGSTATE
  | MLACP_SYNC_AGGINFO | MLACP_SYNC_PEERLINKINFO | MLACP_SYNC_ARP_INFO
  | MLACP_SYNC_NDISC_INFO | MLACP_SYNC_DONE.

Inductive stp_role_type := STP_ROLE_NONE | STP_ROLE_ACTIVE | STP_ROLE_STANDBY.

#[export] Instance iccp_state_eq_dec : EqDecision ICCP_CONNECTION_STATE.
Proof. solve_decision. Defined.
#[export] Instance app_state_eq_dec : EqDecision APP_CONNECTION_STATE.
Proof. solve_decision. Defined.
#[export] Instance mlacp_state_eq_dec : EqDecision MLACP_APP_STATE.
Proof. solve_decision. Defined.
#[export] Instance sync_state_eq_dec : EqDecision MLACP_SYNC_STATE.
Proof. solve_decision. Defined.
#[export] Instance role_eq_dec : EqDecision stp_role_type.
Proof. solve_decision. Defined.

(** ** Ports *)

Record VLAN_ID := mkVlan {
  vlan_vid : Z;
  vlan_removed : Z;
  vlan_itf : option ptr;
}.

Record PeerInterface := mkPif {
  pif_ifindex : Z;
  pif_type : Z;
  pif_name : buf;
  pif_mac_addr : buf;
  pif_state : Z;
  pif_ipv4_addr : Z;
  pif_l3_mode : Z;
  pif_is_peer_link : Z;
  pif_po_id : Z;
  pif_po_active : Z;
  pif_csm : option ptr;
  pif_vlan_tree : list VLAN_ID;
}.

Record LocalInterface := mkLif {
  lif_ifindex : Z;
  lif_type : Z;
  lif_name : buf;
  lif_mac_addr : buf;
  lif_mac_addr_ori : buf;
  lif_state : Z;
  lif_ipv4_addr : Z;
  lif_prefixlen : Z;
  lif_ipv6_addr : list Z;
  lif_prefixlen_v6 : Z;
  lif_ipv6_ll_addr : list Z;
  lif_ll_prefixlen_v6 : Z;
  lif_l3_mode : Z;
  lif_l3_mac_addr : buf;
  lif_is_peer_link : Z;
  lif_portchannel_member_buf : buf;
  lif_is_arp_accept : Z;
  lif_po_id : Z;
  lif_po_active : Z;
  lif_mlacp_state : MLACP_APP_STATE;
  lif_isolate_to_peer_link : Z;
  lif_po_down_time : Z;
  lif_csm : option ptr;
  lif_changed : Z;
  lif_port_config_sync : Z;
  lif_is_traffic_disable : bool;
  lif_is_l3_proto_enabled : bool;
  lif_vlan_count : Z;
  lif_master_ifindex : Z;
  lif_vlan_tree : list VLAN_ID;
}.

(** ** Messages *)

Record Msg := mkMsg { msg_buf : buf; msg_len : Z }.

Record MACMsg := mkMac {
  mac_vid : Z;
  mac_addr : buf;
  mac_op_type : Z;
  mac_fdb_type : Z;
  mac_ifname : buf;
  mac_origin_ifname : buf;
  mac_age_flag : Z;
  mac_pending_local_del : Z;
  mac_add_to_syncd : Z;
}.

Record MsgTypeSet := mkLog { log_msg_id : Z; log_type : Z; log_tlv : Z }.

Record MsgLog := mkMsgLog { log_msg : list MsgTypeSet; log_end_index : Z }.

(** ** Connection state machines *)

Record IccpInfo := mkInfo {
  icc_rg_id : Z;
  sender_name : buf;
  status_code : Z;
  peer_capability_flag : Z;
  peer_rg_connect_flag : Z;
  sender_capability_flag : Z;
  sender_rg_connect_flag : Z;
  rejected_msg_id : Z;
}.

Record Remote_System := mkRemote {
  rs_system_id : buf;
  rs_system_priority : Z;
  rs_node_id : Z;
}.

Record mLACP := mkMlacp {
  ml_id : Z;
  ml_sync_req_num : Z;
  ml_current_state : MLACP_APP_STATE;
  ml_sync_state : MLACP_SYNC_STATE;
  ml_wait_for_sync_data : Z;
  ml_need_to_sync : Z;
  ml_node_id : Z;
  ml_system_id : buf;
  ml_system_priority : Z;
  ml_system_config_changed : Z;
  ml_remote_system : Remote_System;
  ml_mlacp_msg_list : list Msg;
  ml_arp_msg_list : list Msg;
  ml_arp_list : list Msg;
  ml_ndisc_msg_list : list Msg;
  ml_ndisc_list : list Msg;
  ml_mac_msg_list : list ptr;
  ml_mac_rb : list ptr;
  ml_mac_heap : gmap ptr MACMsg;
  ml_lif_list : list ptr;
  ml_lif_purge_list : list ptr;
  ml_pif_list : list PeerInterface;
  ml_dbg_counters : gmap (Z * Z * Z) Z;
}.

Record AppCSM := mkApp {
  app_mlacp : mLACP;
  app_current_state : APP_CONNECTION_STATE;
  app_rx_connect_msg_id : Z;
  app_tx_connect_msg_id : Z;
  app_invalid_msg_id : Z;
  app_msg_list : list Msg;
  app_invalid_msg : Z;
  app_nak_msg : Z;
}.

Record CSM := mkCsm {
  csm_mlag_id : Z;
  csm_sock_fd : Z;
  csm_connTimePrev : Z;
  csm_heartbeat_send_time : Z;
  csm_heartbeat_update_time : Z;
  csm_peer_warm_reboot_time : Z;
  csm_warm_reboot_disconn_time : Z;
  csm_peer_itf_name : buf;
  csm_peer_link_learning_retry_time : Z;
  csm_peer_ip : buf;
  csm_sender_ip : buf;
  csm_keepalive_time : Z;
  csm_session_timeout : Z;
  csm_peer_link_learning_enable : Z;
  csm_msg_list : list Msg;
  csm_role_type : stp_role_type;
  csm_peer_link_if : option ptr;
  csm_iccp_info : IccpInfo;
  csm_app_csm : AppCSM;
  csm_current_state : ICCP_CONNECTION_STATE;
  csm_icc_msg_in_count : Z;
  csm_icc_msg_out_count : Z;
  csm_u_msg_in_count : Z;
  csm_i_msg_in_count : Z;
  csm_msg_log : MsgLog;
  csm_if_bind_list : list buf;
}.

#[export] Instance eta_vlan : Eta VLAN_ID := fun r =>
  mkVlan (vlan_vid r) (vlan_removed r) (vlan_itf r).
#[export] Instance eta_pif : Eta PeerInterface := fun r =>
  mkPif (pif_ifindex r) (pif_type r) (pif_name r) (pif_mac_addr r) (pif_state r)
    (pif_ipv4_addr r) (pif_l3_mode r) (pif_is_peer_link r) (pif_po_id r)
    (pif_po_active r) (pif_csm r) (pif_vlan_tree r).
#[export] Instance eta_lif : Eta LocalInterface := fun r =>
  mkLif (lif_ifindex r) (lif_type r) (lif_name r) (lif_mac_addr r)
    (lif_mac_addr_ori r) (lif_state r) (lif_ipv4_addr r) (lif_prefixlen r)
    (lif_ipv6_addr r) (lif_prefixlen_v6 r) (lif_ipv6_ll_addr r)
    (lif_ll_prefixlen_v6 r) (lif_l3_mode r) (lif_l3_mac_addr r)
    (lif_is_peer_link r) (lif_portchannel_member_buf r) (lif_is_arp_accept r)
    (lif_po_id r) (lif_po_active r) (lif_mlacp_state r)
    (lif_isolate_to_peer_link r) (lif_po_down_time r) (lif_csm r) (lif_changed r)
    (lif_port_config_sync r) (lif_is_traffic_disable r)
    (lif_is_l3_proto_enabled r) (lif_vlan_count r) (lif_master_ifindex r)
    (lif_vlan_tree r).
#[export] Instance eta_mac : Eta MACMsg := fun r =>
  mkMac (mac_vid r) (mac_addr r) (mac_op_type r) (mac_fdb_type r) (mac_ifname r)
    (mac_origin_ifname r) (mac_age_flag r) (mac_pending_local_del r)
    (mac_add_to_syncd r).
#[export] Instance eta_msglog : Eta MsgLog := fun r =>
  mkMsgLog (log_msg r) (log_end_index r).
#[export] Instance eta_msg : Eta Msg := fun r => mkMsg (msg_buf r) (msg_len r).
#[export] Instance eta_info : Eta IccpInfo := fun r =>
  mkInfo (icc_rg_id r) (sender_name r) (status_code r) (peer_capability_flag r)
    (peer_rg_connect_flag r) (sender_capability_flag r)
    (sender_rg_connect_flag r) (rejected_msg_id r).
#[export] Instance eta_remote : Eta Remote_System := fun r =>
  mkRemote (rs_system_id r) (rs_system_priority r) (rs_node_id r).
#[export] Instance eta_mlacp : Eta mLACP := fun r =>
  mkMlacp (ml_id r) (ml_sync_req_num r) (ml_current_state r) (ml_sync_state r)
    (ml_wait_for_sync_data r) (ml_need_to_sync r) (ml_node_id r)
    (ml_system_id r) (ml_system_priority r) (ml_system_config_changed r)
    (ml_remote_system r) (ml_mlacp_msg_list r) (ml_arp_msg_list r)
    (ml_arp_list r) (ml_ndisc_msg_list r) (ml_ndisc_list r)
    (ml_mac_msg_list r) (ml_mac_rb r) (ml_mac_heap r) (ml_lif_list r) (ml_lif_purge_list r)
    (ml_pif_list r) (ml_dbg_counters r).
#[export] Instance eta_app : Eta AppCSM := fun r =>
  mkApp (app_mlacp r) (app_current_state r) (app_rx_connect_msg_id r)
    (app_tx_connect_msg_id r) (app_invalid_msg_id r) (app_msg_list r)
    (app_invalid_msg r) (app_nak_msg r).
#[export] Instance eta_csm : Eta CSM := fun r =>
  mkCsm (csm_mlag_id r) (csm_sock_fd r) (csm_connTimePrev r)
    (csm_heartbeat_send_time r) (csm_heartbeat_update_time r)
    (csm_peer_warm_reboot_time r) (csm_warm_reboot_disconn_time r)
    (csm_peer_itf_name r) (csm_peer_link_learning_retry_time r)
    (csm_peer_ip r) (csm_sender_ip r) (csm_keepalive_time r)
    (csm_session_timeout r) (csm_peer_link_learning_enable r)
    (csm_msg_list r) (csm_role_type r) (csm_peer_link_if r) (csm_iccp_info r)
    (csm_app_csm r) (csm_current_state r) (csm_icc_msg_in_count r)
    (csm_icc_msg_out_count r) (csm_u_msg_in_count r) (csm_i_msg_in_count r)
    (csm_msg_log r) (csm_if_bind_list r).

(** [MLACP(csm)] *)
Definition MLACP (csm : CSM) : mLACP := app_mlacp (csm_app_csm csm).
Definition set_MLACP (f : mLACP -> mLACP) (csm : CSM) : CSM :=
  csm <| csm_app_csm ::= fun a => a <| app_mlacp ::= f |> |>.
Definition set_info (f : IccpInfo -> IccpInfo) (csm : CSM) : CSM :=
  csm <| csm_iccp_info ::= f |>.

(** ** Objects after [bzero] *)

Definition zero_log : MsgLog := mkMsgLog (replicate MAX_MSG_LOG_SIZE (mkLog 0 0 0)) 0.

Definition zero_mlacp : mLACP :=
  mkMlacp 0 0 MLACP_STATE_INIT MLACP_SYNC_SYSCONF 0 0 0
    (replicate ETHER_ADDR_LEN Byte.x00) 0 0
    (mkRemote (replicate ETHER_ADDR_LEN Byte.x00) 0 0)
    [] [] [] [] [] [] [] ∅ [] [] [] ∅.

Definition zero_app : AppCSM := mkApp zero_mlacp APP_NONEXISTENT 0 0 0 [] 0 0.

Definition zero_csm : CSM :=
  mkCsm 0 0 0 0 0 0 0 (replicate IFNAMSIZ Byte.x00) 0
    (replicate INET_ADDRSTRLEN Byte.x00) (replicate INET_ADDRSTRLEN Byte.x00)
    0 0 0 [] STP_ROLE_NONE None
    (mkInfo 0 (replicate MAX_L_ICC_SENDER_NAME Byte.x00) 0 0 0 0 0 0)
    zero_app ICCP_NONEXISTENT 0 0 0 0 zero_log [].

(** ** Globals of the process that the message code touches

    [g_ICCP_MSG_ID] and [g_csm_buf] are the two global variables of
    [iccp_csm.c]; [g_cnt] holds the debug counters of the [System] instance.
    [g_now] is the value [time(NULL)] returns during one pass of the scheduler.
    [g_wr] scripts the results of the next [write(2)] calls on the peer socket
    (past the end of the script a write succeeds in full), and [g_sent] is the
    trace of what was handed to the kernel: descriptor and bytes, in order.
    [g_rd] scripts what the next [recv(2)] calls find (past the end of the script
    the peer has closed), and [g_slept] adds up the microseconds passed to
    [usleep].  [g_acts] is the trace of the calls that leave the daemon: bytes
    that mclagsyncd accepted, commands, requests to the kernel.  [g_sd] scripts
    the results of [send] and [write] on the socket of mclagsyncd (past the end
    it takes everything), [g_nl] those of requests to the kernel and of commands
    whose result the code looks at (past the end they succeed).  [g_syncd_tx] is [syncd_tx_counters] of the [System] instance,
    [g_prev_state] the static [prev_state] of [mlacp_fsm_transit], and
    [g_once_connected] the one of [mlacp_peer_conn_handler]. *)

(** Calls that leave the daemon, other than traffic on the peer socket. *)
Inductive Action :=
  | Act_close (fd : Z)
  | Act_epoll_add (fd : Z)
  | Act_epoll_del (fd : Z)
  | Act_syncd (bs : buf)
  | Act_ebtables (insert : bool) (src dst : buf)
  | Act_neigh (add : bool) (family : Z) (addr mac : buf) (ifindex : Z) (permanent : bool)
  | Act_hwaddr (ifindex : Z) (mac : buf)
  | Act_link (ifindex : Z) (up : bool)
  | Act_command (line : buf).

(** What a [send] or [write] to mclagsyncd does: take up to [k] bytes, find the
    socket full, or fail. *)
Inductive SendEv :=
  | Sd_take (k : nat)
  | Sd_again
  | Sd_err.

Inductive RecvEv :=
  | Rx_data (bs : buf)
  | Rx_zero
  | Rx_again
  | Rx_err.

Record Globals := mkG {
  g_ICCP_MSG_ID : Z;
  g_csm_buf : buf;
  g_now : Z;
  g_wr : list Z;
  g_sent : list (Z * buf);
  g_rd : list RecvEv;
  g_slept : Z;
  g_cnt : gmap Z Z;
  g_acts : list Action;
  g_sd : list SendEv;
  g_nl : list Z;
  g_syncd_tx : gmap (Z * Z) Z;
  g_prev_state : MLACP_APP_STATE;
  g_once_connected : Z;
}.

#[export] Instance eta_globals : Eta Globals := fun r =>
  mkG (g_ICCP_MSG_ID r) (g_csm_buf r) (g_now r) (g_wr r) (g_sent r) (g_rd r)
    (g_slept r) (g_cnt r) (g_acts r) (g_sd r) (g_nl r) (g_syncd_tx r) (g_prev_state r)
    (g_once_connected r).

(** ** The system instance *)

Record System := mkSys {
  sys_server_fd : Z;
  sys_sync_fd : Z;
  sys_csm_list : list ptr;
  sys_lif_list : list ptr;
  sys_lif_purge_list : list ptr;
  sys_unq_ip_if_list : list buf;
  sys_pending_vlan_mbr_if_list : list (buf * list VLAN_ID);
  sys_warmboot_start : Z;
  sys_warmboot_exit : Z;
  sys_readfd : list Z;
  sys_readfd_count : Z;
}.

#[export] Instance eta_sys : Eta System := fun r =>
  mkSys (sys_server_fd r) (sys_sync_fd r) (sys_csm_list r) (sys_lif_list r)
    (sys_lif_purge_list r) (sys_unq_ip_if_list r)
    (sys_pending_vlan_mbr_if_list r) (sys_warmboot_start r)
    (sys_warmboot_exit r) (sys_readfd r) (sys_readfd_count r).

(** The state of code that works on one CSM: the CSM, the globals, the heap of
    interfaces, the system instance, the address of the CSM, and the other CSMs
    of the process. *)
Record CS := mkCS {
  cs_csm : CSM;
  cs_g : Globals;
  cs_lifs : gmap ptr LocalInterface;
  cs_sys : System;
  cs_self : ptr;
  cs_csms : gmap ptr CSM;
}.

#[export] Instance eta_cs : Eta CS := fun r =>
  mkCS (cs_csm r) (cs_g r) (cs_lifs r) (cs_sys r) (cs_self r) (cs_csms r).

Definition on_csm (f : CSM -> CSM) : M CS unit := modify (fun s => s <| cs_csm ::= f |>).
Definition on_g (f : Globals -> Globals) : M CS unit := modify (fun s => s <| cs_g ::= f |>).
Definition the_csm : M CS CSM := gets cs_csm.
Definition the_buf : M CS buf := gets (fun s => g_csm_buf (cs_g s)).

(** A step on the global buffer. *)
Definition on_buf (f : buf -> option buf) : M CS unit := fun s =>
  b ← f (g_csm_buf (cs_g s)); Some (tt, s <| cs_g ::= fun g => g <| g_csm_buf := b |> |>).

Definition act (a : Action) : M CS unit := on_g (fun g => g <| g_acts ::= fun t => t ++ [a] |>).
Definition now : M CS Z := gets (fun s => g_now (cs_g s)).

(** [usleep] of an [int] expression; the expression overflows outside [int]. *)
Definition usleep (x : Z) : M CS unit :=
  if (- 2 ^ 31 <=? x) && (x <? 2 ^ 31)
  then on_g (fun g => g <| g_slept ::= fun t => t + u32 x |>)
  else ub.

(** Interfaces, and the interface heap. *)
Definition get_lif (l : ptr) : M CS LocalInterface := fun s =>
  lif ← cs_lifs s !! l; Some (lif, s).
Definition set_lif (l : ptr) (f : LocalInterface -> LocalInterface) : M CS unit := fun s =>
  lif ← cs_lifs s !! l; Some (tt, s <| cs_lifs ::= <[l := f lif]> |>).

Definition memset_buf : M CS unit :=
  on_g (fun g => g <| g_csm_buf := zeros CSM_BUFFER_SIZE |>).

(** ** The process

    [w_csms] and [w_lifs] are the heaps of [struct CSM] and [struct
    LocalInterface]: an absent key is a dangling pointer, and using one is
    undefined behaviour. *)

Record World := mkW {
  w_sys : System;
  w_csms : gmap ptr CSM;
  w_lifs : gmap ptr LocalInterface;
  w_g : Globals;
}.

#[export] Instance eta_world : Eta World := fun r =>
  mkW (w_sys r) (w_csms r) (w_lifs r) (w_g r).

(** Dereferences. *)
Definition get_csm (c : ptr) : M World CSM := fun w =>
  csm ← w_csms w !! c; Some (csm, w).
Definition w_get_lif (l : ptr) : M World LocalInterface := fun w =>
  lif ← w_lifs w !! l; Some (lif, w).
Definition set_csm (c : ptr) (f : CSM -> CSM) : M World unit := fun w =>
  csm ← w_csms w !! c; Some (tt, w <| w_csms ::= <[c := f csm]> |>).
Definition w_set_lif (l : ptr) (f : LocalInterface -> LocalInterface) : M World unit :=
  fun w => lif ← w_lifs w !! l; Some (tt, w <| w_lifs ::= <[l := f lif]> |>).
Definition set_sys (f : System -> System) : M World unit :=
  modify (fun w => w <| w_sys ::= f |>).

(** Code on one CSM, run inside the process. *)
Definition with_csm {A} (c : ptr) (m : M CS A) : M World A := fun w =>
  csm ← w_csms w !! c;
  r ← m (mkCS csm (w_g w) (w_lifs w) (w_sys w) c (delete c (w_csms w)));
  Some (r.1, w <| w_csms := <[c := cs_csm r.2]> (cs_csms r.2) |> <| w_g := cs_g r.2 |>
               <| w_lifs := cs_lifs r.2 |> <| w_sys := cs_sys r.2 |>).

(** Code that turns from its CSM to the one at [c], and back. *)
Definition csm_at (c : ptr) : M CS CSM := fun s =>
  if bool_decide (c = cs_self s) then Some (cs_csm s, s)
  else csm ← cs_csms s !! c; Some (csm, s).

Definition focus {A} (c : ptr) (m : M CS A) : M CS A := fun s =>
  if bool_decide (c = cs_self s) then m s
  else
    csm ← cs_csms s !! c;
    r ← m (mkCS csm (cs_g s) (cs_lifs s) (cs_sys s) c (<[cs_self s := cs_csm s]> (delete c (cs_csms s))));
    csm ← cs_csms r.2 !! cs_self s;
    Some (r.1, mkCS csm (cs_g r.2) (cs_lifs r.2) (cs_sys r.2) (cs_self s)
                 (<[c := cs_csm r.2]> (delete (cs_self s) (cs_csms r.2)))).
