(* ===== verification/MsgFormat.v ===== *)
(** Message formats ([msg_format.h], [mlacp_tlv.h]).

    Part 1 transcribes the packed structs as offsets inside a byte buffer, with
    the bit-fields of the little-endian branch of the [#if].  Part 2 is the
    abstract format: the RFC 7275 messages the daemon exchanges, as a data type
    [Tlv] and its encoding [wire_msg] in network byte order.  The modules that
    build and parse messages work on part 1; their theorems say that what they
    build is [wire_msg] of the intended value. *)

From Stdlib Require Import ZArith Lia.
From stdpp Require Import base list numbers option.
From coqutil Require Import Byte Word.LittleEndianList.
From S2P Require Import Prelude CBuf State.

(** ** Numbers of the protocol *)

Definition MSG_T_CAPABILITY : Z := 0x0202.
Definition MSG_L_INCLUD_U_BIT_MSG_T_L_FIELDS : Z := 4.
Definition MSG_T_RG_CONNECT : Z := 0x0700.
Definition MSG_T_RG_DISCONNECT : Z := 0x0701.
Definition MSG_T_NOTIFICATION : Z := 0x0702.
Definition MSG_T_RG_APP_DATA : Z := 0x0703.

Definition TLV_T_ICCP_CAPABILITY : Z := 0x0700.
Definition TLV_L_ICCP_CAPABILITY : Z := 0x4.
Definition TLV_T_ICC_SENDER_NAME : Z := 0x0001.
Definition TLV_T_NAK : Z := 0x0002.
Definition TLV_T_DISCONNECT_CODE : Z := 0x0004.
Definition TLV_L_DISCONNECT_CODE : Z := 0x4.
Definition TLV_T_ICC_RG_ID : Z := 0x0005.
Definition TLV_L_ICC_RG_ID : Z := 0x4.

Definition TLV_T_MLACP_CONNECT : Z := 0x0030.
Definition TLV_T_MLACP_DISCONNECT : Z := 0x0031.
Definition TLV_T_MLACP_SYSTEM_CONFIG : Z := 0x0032.
Definition TLV_T_MLACP_PORT_CONFIG : Z := 0x0033.
Definition TLV_T_MLACP_PORT_PRIORITY : Z := 0x0034.
Definition TLV_T_MLACP_PORT_STATE : Z := 0x0035.
Definition TLV_T_MLACP_AGGREGATOR_CONFIG : Z := 0x0036.
Definition TLV_T_MLACP_AGGREGATOR_STATE : Z := 0x0037.
Definition TLV_T_MLACP_SYNC_REQUEST : Z := 0x0038.
Definition TLV_T_MLACP_SYNC_DATA : Z := 0x0039.
Definition TLV_T_MLACP_HEARTBEAT : Z := 0x003A.
Definition TLV_T_MLACP_PORT_CHANNEL_INFO : Z := 0x1034.
Definition TLV_T_MLACP_PEERLINK_INFO : Z := 0x1035.
Definition TLV_T_MLACP_ARP_INFO : Z := 0x1036.
Definition TLV_T_MLACP_STP_INFO : Z := 0x1037.
Definition TLV_T_MLACP_MAC_INFO : Z := 0x1038.
Definition TLV_T_MLACP_WARMBOOT_FLAG : Z := 0x1039.
Definition TLV_T_MLACP_NDISC_INFO : Z := 0x103A.
Definition TLV_T_MLACP_IF_UP_ACK : Z := 0x103B.
Definition TLV_T_MLACP_LIST_END : Z := 0x104a.

Definition STATUS_CODE_U_ICCP_RG : Z := 0x00010001.
Definition STATUS_CODE_ICCP_REJECTED_MSG : Z := 0x00010006.
Definition STATUS_CODE_ICCP_RG_REMOVED : Z := 0x00010010.

Definition IF_UP_ACK_TYPE_PORT_CHANNEL : Z := 1.
Definition PORT_ISOLATION_STATE_ENABLE : Z := 1.

(** ** Packed structs *)

Module LDPHdr.
Definition sizeof : nat := 8.
Definition get_msg_type : buf -> option Z := rdbf 0 0 15.
Definition set_u_bit : Z -> buf -> option buf := wrbf 0 15 1.
Definition set_msg_type : Z -> buf -> option buf := wrbf 0 0 15.
Definition get_msg_len : buf -> option Z := rd16 2.
Definition set_msg_len : Z -> buf -> option buf := wr16 2.
Definition get_msg_id : buf -> option Z := rd32 4.
Definition set_msg_id : Z -> buf -> option buf := wr32 4.
End LDPHdr.

Module ICCHdr.
Definition sizeof : nat := 16.
Definition set_rg_type : Z -> buf -> option buf := wr16 8.
Definition set_rg_len : Z -> buf -> option buf := wr16 10.
Definition get_icc_rg_id : buf -> option Z := rd32 12.
Definition set_icc_rg_id : Z -> buf -> option buf := wr32 12.
End ICCHdr.

(** An [ICCParameter] starting at offset [p]. *)
Module ICCParameter.
Definition sizeof : nat := 4.
Definition get_u_bit (p : nat) : buf -> option Z := rdbf p 15 1.
Definition set_u_bit (p : nat) : Z -> buf -> option buf := wrbf p 15 1.
Definition get_f_bit (p : nat) : buf -> option Z := rdbf p 14 1.
Definition set_f_bit (p : nat) : Z -> buf -> option buf := wrbf p 14 1.
Definition get_type (p : nat) : buf -> option Z := rdbf p 0 14.
Definition set_type (p : nat) : Z -> buf -> option buf := wrbf p 0 14.
Definition get_len (p : nat) : buf -> option Z := rd16 (p + 2).
Definition set_len (p : nat) : Z -> buf -> option buf := wr16 (p + 2).
End ICCParameter.

(** [LDPICCPCapabilityTLV] at [p]; [s_bit] is the top bit of the third word. *)
Module LDPICCPCapabilityTLV.
Definition sizeof : nat := 8.
Definition get_s_bit (p : nat) : buf -> option Z := rdbf (p + 4) 15 1.
Definition set_s_bit (p : nat) : Z -> buf -> option buf := wrbf (p + 4) 15 1.
Definition get_major_ver (p : nat) : buf -> option Z := rd8 (p + 6).
Definition set_major_ver (p : nat) : Z -> buf -> option buf := wr8 (p + 6).
Definition get_minior_ver (p : nat) : buf -> option Z := rd8 (p + 7).
Definition set_minior_ver (p : nat) : Z -> buf -> option buf := wr8 (p + 7).
End LDPICCPCapabilityTLV.

(** The TLV that follows an ICC header starts here. *)
Definition TLV : nat := ICCHdr.sizeof.

Module NAKTLV.
Definition sizeof : nat := 12.
Definition set_iccp_status_code : Z -> buf -> option buf := wr32 (TLV + 4).
Definition get_rejected_msg_id : buf -> option Z := rd32 (TLV + 8).
Definition set_rejected_msg_id : Z -> buf -> option buf := wr32 (TLV + 8).
End NAKTLV.

Module DisconnectCodeTLV.
Definition sizeof : nat := 8.
Definition get_iccp_status_code : buf -> option Z := rd32 (TLV + 4).
Definition set_iccp_status_code : Z -> buf -> option buf := wr32 (TLV + 4).
End DisconnectCodeTLV.

Module mLACPSyncReqTLV.
Definition sizeof : nat := 12.
Definition get_req_num : buf -> option Z := rd16 (TLV + 4).
Definition set_req_num : Z -> buf -> option buf := wr16 (TLV + 4).
Definition set_c_bit : Z -> buf -> option buf := wrbf (TLV + 6) 15 1.
Definition set_s_bit : Z -> buf -> option buf := wrbf (TLV + 6) 14 1.
Definition set_req_type : Z -> buf -> option buf := wrbf (TLV + 6) 0 14.
Definition set_port_num_agg_id : Z -> buf -> option buf := wr16 (TLV + 8).
Definition set_actor_key : Z -> buf -> option buf := wr16 (TLV + 10).
End mLACPSyncReqTLV.

Module mLACPSyncDataTLV.
Definition sizeof : nat := 8.
Definition set_req_num : Z -> buf -> option buf := wr16 (TLV + 4).
Definition get_flags : buf -> option Z := rd16 (TLV + 6).
Definition set_flags : Z -> buf -> option buf := wr16 (TLV + 6).
End mLACPSyncDataTLV.

Module mLACPSysConfigTLV.
Definition sizeof : nat := 13.
Definition get_sys_id : buf -> option buf := rd (TLV + 4) 6.
Definition set_sys_id : buf -> buf -> option buf := wr (TLV + 4).
Definition get_sys_priority : buf -> option Z := rd16 (TLV + 10).
Definition set_sys_priority : Z -> buf -> option buf := wr16 (TLV + 10).
Definition get_node_id : buf -> option Z := rd8 (TLV + 12).
Definition set_node_id : Z -> buf -> option buf := wr8 (TLV + 12).
End mLACPSysConfigTLV.

Module mLACPAggConfigTLV.
Definition sizeof : nat := 46.
Definition get_agg_id : buf -> option Z := rd16 (TLV + 12).
Definition set_agg_id : Z -> buf -> option buf := wr16 (TLV + 12).
Definition get_mac_addr : buf -> option buf := rd (TLV + 14) 6.
Definition set_mac_addr : buf -> buf -> option buf := wr (TLV + 14).
Definition get_flags : buf -> option Z := rd8 (TLV + 24).
Definition set_flags : Z -> buf -> option buf := wr8 (TLV + 24).
Definition get_agg_name_len : buf -> option Z := rd8 (TLV + 25).
Definition set_agg_name_len : Z -> buf -> option buf := wr8 (TLV + 25).
Definition get_agg_name : buf -> option buf := rd (TLV + 26) 20.
Definition set_agg_name : buf -> buf -> option buf := wr (TLV + 26).
End mLACPAggConfigTLV.

Module mLACPAggPortStateTLV.
Definition sizeof : nat := 19.
Definition set_partner_sys_priority : Z -> buf -> option buf := wr16 (TLV + 10).
Definition set_partner_key : Z -> buf -> option buf := wr16 (TLV + 12).
Definition get_agg_id : buf -> option Z := rd16 (TLV + 14).
Definition set_agg_id : Z -> buf -> option buf := wr16 (TLV + 14).
Definition set_actor_key : Z -> buf -> option buf := wr16 (TLV + 16).
Definition get_agg_state : buf -> option Z := rd8 (TLV + 18).
Definition set_agg_state : Z -> buf -> option buf := wr8 (TLV + 18).
End mLACPAggPortStateTLV.

Module mLACPPortChannelInfoTLV.
Definition sizeof : nat := 36.
Definition get_agg_id : buf -> option Z := rd16 (TLV + 4).
Definition set_agg_id : Z -> buf -> option buf := wr16 (TLV + 4).
Definition get_if_name : buf -> option buf := rd (TLV + 6) 20.
Definition set_if_name : buf -> buf -> option buf := wr (TLV + 6).
Definition set_if_name_len : Z -> buf -> option buf := wr8 (TLV + 26).
Definition get_l3_mode : buf -> option Z := rd8 (TLV + 27).
Definition set_l3_mode : Z -> buf -> option buf := wr8 (TLV + 27).
Definition get_ipv4_addr : buf -> option Z := rd32 (TLV + 28).
Definition set_ipv4_addr : Z -> buf -> option buf := wr32 (TLV + 28).
Definition get_po_id : buf -> option Z := rd16 (TLV + 32).
Definition set_po_id : Z -> buf -> option buf := wr16 (TLV + 32).
Definition get_num_of_vlan_id : buf -> option Z := rd16 (TLV + 34).
Definition set_num_of_vlan_id : Z -> buf -> option buf := wr16 (TLV + 34).
Definition get_vlan_id (i : nat) : buf -> option Z := rd16 (TLV + 36 + 2 * i).
Definition set_vlan_id (i : nat) : Z -> buf -> option buf := wr16 (TLV + 36 + 2 * i).
End mLACPPortChannelInfoTLV.

Module mLACPPeerLinkInfoTLV.
Definition sizeof : nat := 25.
Definition get_if_name : buf -> option buf := rd (TLV + 4) 20.
Definition set_if_name : buf -> buf -> option buf := wr (TLV + 4).
Definition get_port_type : buf -> option Z := rd8 (TLV + 24).
Definition set_port_type : Z -> buf -> option buf := wr8 (TLV + 24).
End mLACPPeerLinkInfoTLV.

Module mLACPIfUpAckTLV.
Definition sizeof : nat := 8.
Definition get_if_type : buf -> option Z := rd8 (TLV + 4).
Definition set_if_type : Z -> buf -> option buf := wr8 (TLV + 4).
Definition set_port_isolation_state : Z -> buf -> option buf := wr8 (TLV + 5).
Definition get_if_id : buf -> option Z := rd16 (TLV + 6).
Definition set_if_id : Z -> buf -> option buf := wr16 (TLV + 6).
End mLACPIfUpAckTLV.

(** [mLACPHeartbeatTLV] and [mLACPWarmbootTLV]: one byte of payload. *)
Module mLACPFlagTLV.
Definition sizeof : nat := 5.
Definition get_flag : buf -> option Z := rd8 (TLV + 4).
Definition set_flag : Z -> buf -> option buf := wr8 (TLV + 4).
End mLACPFlagTLV.

(** [mLACPMACInfoTLV], [mLACPARPInfoTLV] and [mLACPNDISCInfoTLV]: a count, then
    entries of a fixed size. *)
Module mLACPListTLV.
Definition sizeof : nat := 6.
Definition get_num_of_entry : buf -> option Z := rd16 (TLV + 4).
Definition set_num_of_entry : Z -> buf -> option buf := wr16 (TLV + 4).
Definition entry_off (size i : nat) : nat := TLV + sizeof + size * i.
End mLACPListTLV.

(** [mLACPMACData] at [e]: packed. *)
Module mLACPMACData.
Definition sizeof : nat := 30.
Definition get_type (e : nat) : buf -> option Z := rd8 e.
Definition set_type (e : nat) : Z -> buf -> option buf := wr8 e.
Definition get_mac_type (e : nat) : buf -> option Z := rd8 (e + 1).
Definition set_mac_type (e : nat) : Z -> buf -> option buf := wr8 (e + 1).
Definition get_mac_addr (e : nat) : buf -> option buf := rd (e + 2) 6.
Definition set_mac_addr (e : nat) : buf -> buf -> option buf := wr (e + 2).
Definition get_vid (e : nat) : buf -> option Z := rd16 (e + 8).
Definition set_vid (e : nat) : Z -> buf -> option buf := wr16 (e + 8).
Definition get_ifname (e : nat) : buf -> option buf := rd (e + 10) 20.
Definition set_ifname (e : nat) : buf -> buf -> option buf := wr (e + 10).
End mLACPMACData.

(** [struct ARPMsg] at [e]: not packed, so one byte of padding before the
    address (offset 24) and two at the end. *)
Module ARPMsg.
Definition sizeof : nat := 36.
Definition get_op_type (e : nat) : buf -> option Z := rd8 e.
Definition set_op_type (e : nat) : Z -> buf -> option buf := wr8 e.
Definition get_flag (e : nat) : buf -> option Z := rd8 (e + 1).
Definition set_flag (e : nat) : Z -> buf -> option buf := wr8 (e + 1).
Definition get_learn_flag (e : nat) : buf -> option Z := rd8 (e + 2).
Definition get_ifname (e : nat) : buf -> option buf := rd (e + 3) 20.
Definition set_ifname (e : nat) : buf -> buf -> option buf := wr (e + 3).
Definition get_ipv4_addr (e : nat) : buf -> option Z := rd32 (e + 24).
Definition set_ipv4_addr (e : nat) : Z -> buf -> option buf := wr32 (e + 24).
Definition get_mac_addr (e : nat) : buf -> option buf := rd (e + 28) 6.
Definition set_mac_addr (e : nat) : buf -> buf -> option buf := wr (e + 28).
End ARPMsg.

(** [struct NDISCMsg] at [e]: the same with a 16-byte address. *)
Module NDISCMsg.
Definition sizeof : nat := 48.
Definition get_op_type (e : nat) : buf -> option Z := rd8 e.
Definition set_op_type (e : nat) : Z -> buf -> option buf := wr8 e.
Definition get_flag (e : nat) : buf -> option Z := rd8 (e + 1).
Definition set_flag (e : nat) : Z -> buf -> option buf := wr8 (e + 1).
Definition get_ifname (e : nat) : buf -> option buf := rd (e + 3) 20.
Definition set_ifname (e : nat) : buf -> buf -> option buf := wr (e + 3).
Definition get_ipv6_addr (e : nat) : buf -> option buf := rd (e + 24) 16.
Definition set_ipv6_addr (e : nat) : buf -> buf -> option buf := wr (e + 24).
Definition get_mac_addr (e : nat) : buf -> option buf := rd (e + 40) 6.
Definition set_mac_addr (e : nat) : buf -> buf -> option buf := wr (e + 40).
End NDISCMsg.
