(* ===== verification/CsmMsg.v ===== *)
(** Messages of the connection state machine: the [iccp_csm_prepare_*]
    functions and [iccp_csm_send] of [iccp_csm.c], with the transmit counters
    of [mlacp_fsm.c].

    Every caller passes the global buffer and its size, so the functions work
    on [g_csm_buf] of the state. *)

From Stdlib Require Import ZArith Lia.
From stdpp Require Import base list gmap numbers option.
From coqutil Require Import Byte Word.LittleEndianList.
From S2P Require Import Prelude CBuf State MsgFormat Wire.

(** ** Debug counters *)

Definition ICCP_DBG_CNTR_MSG_MAX : Z := 29.
Definition ICCP_DBG_CNTR_DIR_TX : Z := 0.
Definition ICCP_DBG_CNTR_DIR_RX : Z := 1.
Definition ICCP_DBG_CNTR_STS_OK : Z := 0.
Definition ICCP_DBG_CNTR_STS_ERR : Z := 1.
Definition ICCP_DBG_CNTR_STS_MAX : Z := 2.

Definition mlacp_fsm_iccp_to_dbg_msg_type (tlv_type : Z) : Z :=
  if tlv_type =? TLV_T_MLACP_SYSTEM_CONFIG then 0
  else if tlv_type =? TLV_T_MLACP_AGGREGATOR_CONFIG then 1
  else if tlv_type =? TLV_T_MLACP_AGGREGATOR_STATE then 2
  else if tlv_type =? TLV_T_MLACP_SYNC_REQUEST then 11
  else if tlv_type =? TLV_T_MLACP_SYNC_DATA then 10
  else if tlv_type =? TLV_T_MLACP_HEARTBEAT then 8
  else if tlv_type =? TLV_T_MLACP_PORT_CHANNEL_INFO then 6
  else if tlv_type =? TLV_T_MLACP_PEERLINK_INFO then 7
  else if tlv_type =? TLV_T_MLACP_ARP_INFO then 4
  else if tlv_type =? TLV_T_MLACP_MAC_INFO then 3
  else if tlv_type =? TLV_T_MLACP_WARMBOOT_FLAG then 12
  else if tlv_type =? TLV_T_MLACP_IF_UP_ACK then 13
  else ICCP_DBG_CNTR_MSG_MAX.

Definition bump_counter (dir tlv_type status : Z) (csm : CSM) : CSM :=
  let dbg_type := mlacp_fsm_iccp_to_dbg_msg_type tlv_type in
  if (dbg_type <? ICCP_DBG_CNTR_MSG_MAX) && (status <? ICCP_DBG_CNTR_STS_MAX)
  then set_MLACP (fun m => m <| ml_dbg_counters ::= fun c =>
         <[(dbg_type, dir, status) :=
             u64 (default 0 (c !! (dbg_type, dir, status)) + 1)]> c |>) csm
  else csm.

Definition MLACP_SET_ICCP_TX_DBG_COUNTER (tlv_type status : Z) : CSM -> CSM :=
  bump_counter ICCP_DBG_CNTR_DIR_TX tlv_type status.
Definition MLACP_SET_ICCP_RX_DBG_COUNTER (tlv_type status : Z) : CSM -> CSM :=
  bump_counter ICCP_DBG_CNTR_DIR_RX tlv_type status.

(** ** Building messages *)

(** [ICCP_MSG_ID++] *)
Definition next_msg_id : M CS Z :=
  id ← gets (fun s => g_ICCP_MSG_ID (cs_g s));
  on_g (fun g => g <| g_ICCP_MSG_ID := u32 (id + 1) |>);;
  mret id.

Definition iccp_csm_fill_icc_rg_id_tlv (csm : CSM) (b : buf) : option buf :=
  b ← ICCHdr.set_rg_type (htons TLV_T_ICC_RG_ID) b;
  b ← ICCHdr.set_rg_len (htons TLV_L_ICC_RG_ID) b;
  ICCHdr.set_icc_rg_id (htonl (icc_rg_id (csm_iccp_info csm))) b.

(** The ICC header, as every prepare function writes it: [u_bit], type, length,
    identifier and the RG identifier TLV. *)
Definition fill_icc_hdr (csm : CSM) (ty total id : Z) (b : buf) : option buf :=
  b ← LDPHdr.set_u_bit 0 b;
  b ← LDPHdr.set_msg_type (htons ty) b;
  b ← LDPHdr.set_msg_len (htons (total - MSG_L_INCLUD_U_BIT_MSG_T_L_FIELDS)) b;
  b ← LDPHdr.set_msg_id (htonl id) b;
  iccp_csm_fill_icc_rg_id_tlv csm b.

(** [u_bit = 0; f_bit = 0; type = htons(ty); len = htons(len)] *)
Definition fill_icc_parameter (ty len : Z) (b : buf) : option buf :=
  b ← ICCParameter.set_u_bit TLV 0 b;
  b ← ICCParameter.set_f_bit TLV 0 b;
  b ← ICCParameter.set_type TLV (htons ty) b;
  ICCParameter.set_len TLV (htons len) b.

Definition iccp_csm_prepare_capability_msg : M CS Z :=
  csm ← the_csm;
  let cap := LDPHdr.sizeof in
  let msg_len := Z.of_nat (LDPHdr.sizeof + LDPICCPCapabilityTLV.sizeof) in
  memset_buf;;
  id ← next_msg_id;
  on_buf (fun b =>
    b ← LDPHdr.set_u_bit 0 b;
    b ← LDPHdr.set_msg_type (htons MSG_T_CAPABILITY) b;
    b ← LDPHdr.set_msg_len (htons (msg_len - MSG_L_INCLUD_U_BIT_MSG_T_L_FIELDS)) b;
    b ← LDPHdr.set_msg_id (htonl id) b;
    b ← ICCParameter.set_u_bit cap 1 b;
    b ← ICCParameter.set_f_bit cap 0 b;
    b ← ICCParameter.set_type cap TLV_T_ICCP_CAPABILITY b;
    b ← swap16 cap b;
    b ← ICCParameter.set_len cap (htons TLV_L_ICCP_CAPABILITY) b;
    b ← LDPICCPCapabilityTLV.set_s_bit cap (sender_capability_flag (csm_iccp_info csm)) b;
    b ← swap16 (cap + ICCParameter.sizeof) b;
    b ← LDPICCPCapabilityTLV.set_major_ver cap 1 b;
    LDPICCPCapabilityTLV.set_minior_ver cap 0 b);;
  mret msg_len.

Definition iccp_csm_prepare_nak_msg : M CS Z :=
  csm ← the_csm;
  let info := csm_iccp_info csm in
  let msg_len := Z.of_nat (ICCHdr.sizeof + NAKTLV.sizeof) in
  memset_buf;;
  id ← next_msg_id;
  on_buf (fun b =>
    b ← fill_icc_hdr csm MSG_T_NOTIFICATION msg_len id b;
    b ← fill_icc_parameter TLV_T_NAK (4 + 4) b;
    if status_code info =? STATUS_CODE_U_ICCP_RG then
      b ← NAKTLV.set_iccp_status_code (htonl (status_code info)) b;
      NAKTLV.set_rejected_msg_id (htonl (rejected_msg_id info)) b
    else Some b);;
  mret msg_len.

Definition iccp_csm_prepare_rg_connect_msg : M CS Z :=
  csm ← the_csm;
  let name := cstr (sender_name (csm_iccp_info csm)) in
  let name_len := strlen (sender_name (csm_iccp_info csm)) in
  let msg_len := Z.of_nat (ICCHdr.sizeof + ICCParameter.sizeof) + name_len in
  memset_buf;;
  id ← next_msg_id;
  on_buf (fun b =>
    b ← fill_icc_hdr csm MSG_T_RG_CONNECT msg_len id b;
    b ← fill_icc_parameter TLV_T_ICC_SENDER_NAME name_len b;
    wr (TLV + ICCParameter.sizeof) name b);;
  mret msg_len.

Definition iccp_csm_prepare_rg_disconnect_msg : M CS Z :=
  csm ← the_csm;
  let msg_len := Z.of_nat (ICCHdr.sizeof + DisconnectCodeTLV.sizeof) in
  memset_buf;;
  id ← next_msg_id;
  on_buf (fun b =>
    b ← fill_icc_hdr csm MSG_T_RG_DISCONNECT msg_len id b;
    b ← fill_icc_parameter TLV_T_DISCONNECT_CODE 4 b;
    DisconnectCodeTLV.set_iccp_status_code
      (htonl (status_code (csm_iccp_info csm))) b);;
  mret msg_len.

(** The result is a [size_t] initialised to -1, returned as an [int]. *)
Definition iccp_csm_prepare_iccp_msg : M CS Z :=
  csm ← the_csm;
  let info := csm_iccp_info csm in
  match csm_current_state csm with
  | ICCP_NONEXISTENT => mret (-1)
  | ICCP_INITIALIZED => iccp_csm_prepare_capability_msg
  | ICCP_CAPSENT => mret (-1)
  | ICCP_CAPREC =>
      if status_code info >? 0 then iccp_csm_prepare_nak_msg
      else iccp_csm_prepare_rg_connect_msg
  | ICCP_CONNECTING =>
      if status_code info >? 0 then iccp_csm_prepare_nak_msg else mret (-1)
  | ICCP_OPERATIONAL =>
      if peer_rg_connect_flag info =? 0 then iccp_csm_prepare_rg_disconnect_msg
      else mret (-1)
  end.

(** ** Sending *)

(** [write(fd, b, n)] on the peer socket: the script of results decides; what
    the kernel accepted is traced. *)
Definition sock_write (fd : Z) (b : buf) (n : Z) : M CS Z :=
  bs ← lift (rd 0 (Z.to_nat n) b);
  wrs ← gets (fun s => g_wr (cs_g s));
  let rc := match wrs with [] => n | r :: _ => r end in
  on_g (fun g => g <| g_wr ::= tail |>
                   <| g_sent ::= fun t => t ++ [(fd, take (Z.to_nat rc) bs)] |>);;
  mret rc.

(** The ring of the last 128 message identifiers sent. *)
Definition log_push (e : MsgTypeSet) (l : MsgLog) : option MsgLog :=
  if (0 <=? log_end_index l) && (log_end_index l <? Z.of_nat (length (log_msg l))) then
    let i := u32 (log_end_index l + 1) in
    Some (mkMsgLog (<[Z.to_nat (log_end_index l) := e]> (log_msg l))
            (if i >=? 128 then 0 else i))
  else None.

Definition iccp_csm_send (b : buf) (msg_len : Z) : M CS Z :=
  csm ← the_csm;
  if (csm_sock_fd csm <=? 0) || (msg_len <=? 0) then mret MCLAG_ERROR
  else
    ty ← lift (LDPHdr.get_msg_type b);
    let p := if ntohs ty =? MSG_T_CAPABILITY then LDPHdr.sizeof else ICCHdr.sizeof in
    pty ← lift (ICCParameter.get_type p b);
    id ← lift (LDPHdr.get_msg_id b);
    let tlv_type := ntohs pty in
    log ← lift (log_push (mkLog (ntohl id) (ntohs ty) tlv_type) (csm_msg_log csm));
    on_csm (fun c => c <| csm_msg_log := log |>);;
    rc ← sock_write (csm_sock_fd csm) b msg_len;
    on_csm (MLACP_SET_ICCP_TX_DBG_COUNTER tlv_type
      (if (rc <=? 0) || negb (rc =? msg_len)
       then ICCP_DBG_CNTR_STS_ERR else ICCP_DBG_CNTR_STS_OK));;
    mret rc.

(** ** What the header writers produce *)

Lemma fill_icc_hdr_spec csm ty total id h r :
  length h = 16%nat -> 0 <= htons ty < 2 ^ 15 ->
  fill_icc_hdr csm ty total id (h ++ r)
  = Some (wire_icc_hdr ty total id (icc_rg_id (csm_iccp_info csm)) ++ r).
Proof.
  intros Hh Ht.
  apply (chunk_split 2 14) in Hh as (h1 & h' & -> & H1 & Hh).
  apply (chunk_split 2 12) in Hh as (h2 & h'' & -> & H2 & Hh).
  apply (chunk_split 4 8) in Hh as (h3 & h' & -> & H3 & Hh).
  apply (chunk_split 2 6) in Hh as (h4 & h'' & -> & H4 & Hh).
  apply (chunk_split 2 4) in Hh as (h5 & h6 & -> & H5 & H6).
  unfold fill_icc_hdr, LDPHdr.set_u_bit, LDPHdr.set_msg_type, LDPHdr.set_msg_len,
    LDPHdr.set_msg_id, iccp_csm_fill_icc_rg_id_tlv, ICCHdr.set_rg_type,
    ICCHdr.set_rg_len, ICCHdr.set_icc_rg_id, wr16, wr32.
  rewrite <- !app_assoc.
  do 7 bstep.
  rewrite ldp_type_word, !le_split_htons, !le_split_htonl by done.
  unfold wire_icc_hdr, wire_ldp_hdr. by rewrite <- !app_assoc.
Qed.

Lemma fill_icc_parameter_spec ty len h c r :
  length h = 16%nat -> length c = 4%nat -> 0 <= htons ty < 2 ^ 14 ->
  fill_icc_parameter ty len (h ++ c ++ r) = Some (h ++ wire_param ty len ++ r).
Proof.
  intros Hh Hc Ht. apply (chunk_split 2 2) in Hc as (c1 & c2 & -> & H1 & H2).
  unfold fill_icc_parameter, ICCParameter.set_u_bit, ICCParameter.set_f_bit,
    ICCParameter.set_type, ICCParameter.set_len, wr16, TLV, ICCHdr.sizeof.
  rewrite <- !app_assoc. do 4 bstep.
  rewrite param_type_word, le_split_htons by done.
  unfold wire_param. by rewrite <- app_assoc.
Qed.

(** The state after [bs] was prepared in the global buffer. *)
Definition with_msg (s : CS) (bs : buf) : CS :=
  s <| cs_g ::= fun g => g <| g_ICCP_MSG_ID ::= fun i => u32 (i + 1) |>
         <| g_csm_buf := bs ++ zeros (CSM_BUFFER_SIZE - Z.of_nat (length bs)) |> |>.

Definition cur_id (s : CS) : Z := g_ICCP_MSG_ID (cs_g s).
Definition rg_id (s : CS) : Z := icc_rg_id (csm_iccp_info (cs_csm s)).

(** Every message is prepared by the same three steps. *)
Lemma prepare_run {s : CS} {n : Z} {F : Z -> buf -> option buf} {bs : buf} :
  F (cur_id s) (zeros CSM_BUFFER_SIZE)
    = Some (bs ++ zeros (CSM_BUFFER_SIZE - Z.of_nat (length bs))) ->
  (memset_buf;; id ← next_msg_id; on_buf (F id);; mret n) s = Some (n, with_msg s bs).
Proof.
  intros HF. unfold mbind, M_bind, memset_buf, next_msg_id, on_buf, on_g, gets,
    modify, mret, M_ret. simpl.
  unfold cur_id in HF. rewrite HF. simpl. by destruct s as [c [] ? ? ?].
Qed.

Lemma bind_the_csm {A} (k : CSM -> M CS A) s : (the_csm ≫= k) s = k (cs_csm s) s.
Proof. done. Qed.

Lemma zeros_app (a b : Z) : 0 <= a -> 0 <= b -> zeros (a + b) = zeros a ++ zeros b.
Proof.
  intros. rewrite (zeros_split a (a + b)) by lia. do 2 f_equal. lia.
Qed.

(** A zeroed buffer is the space of a message, then zeros. *)
Lemma zeros_room (n : Z) :
  0 <= n <= CSM_BUFFER_SIZE ->
  zeros CSM_BUFFER_SIZE = zeros n ++ zeros (CSM_BUFFER_SIZE - n).
Proof. apply zeros_split. Qed.

(** Message types survive the 15-bit field, parameter types the 14-bit one:
    the byte-swapped value must fit, that is the low byte must be small. *)
Lemma msg_types_fit :
  Forall (fun t => 0 <= htons t < 2 ^ 15)
    [MSG_T_CAPABILITY; MSG_T_RG_CONNECT; MSG_T_RG_DISCONNECT; MSG_T_NOTIFICATION;
     MSG_T_RG_APP_DATA].
Proof. repeat constructor; vm_compute; congruence. Qed.

Lemma wire_type_fits t : 0 <= htons (wire_type t) < 2 ^ 14.
Proof. destruct t; split; vm_compute; congruence. Qed.

(** The header and parameter of a message of the format, written over zeros. *)
Lemma fill_msg_start s ty t id r :
  0 <= htons ty < 2 ^ 15 ->
  (b ← fill_icc_hdr (cs_csm s) ty (wire_size t) id (zeros 20 ++ r);
   fill_icc_parameter (wire_type t) (Z.of_nat (length (wire_payload t))) b)
  = Some (wire_icc_hdr ty (wire_size t) id (rg_id s)
          ++ wire_param (wire_type t) (Z.of_nat (length (wire_payload t))) ++ r).
Proof.
  intros Ht. change (zeros 20) with (zeros 16 ++ zeros 4). rewrite <- app_assoc.
  rewrite fill_icc_hdr_spec by done. cbn [mbind option_bind].
  apply fill_icc_parameter_spec; [|done|apply wire_type_fits].
  unfold wire_icc_hdr, wire_ldp_hdr. len.
Qed.

(** A payload writer [P] fills the space after a 20-byte header with the payload
    of [t]. *)
Definition fills (P : buf -> option buf) (t : Tlv) : Prop :=
  forall h r, length h = 20%nat ->
    P (h ++ zeros (Z.of_nat (length (wire_payload t))) ++ r)
    = Some (h ++ wire_payload t ++ r).

Lemma wire_icc_hdr_length ty n id rg : length (wire_icc_hdr ty n id rg) = 16%nat.
Proof. unfold wire_icc_hdr, wire_ldp_hdr. len. Qed.

Lemma wire_param_length ty n : length (wire_param ty n) = 4%nat.
Proof. unfold wire_param. len. Qed.

Lemma wire_msg_length ty id rg t : Z.of_nat (length (wire_msg ty id rg t)) = wire_size t.
Proof.
  unfold wire_msg, wire_size.
  rewrite !length_app, wire_icc_hdr_length, wire_param_length. lia.
Qed.

Lemma prepare_msg_run (s : CS) (n ty : Z) (t : Tlv) (P : buf -> option buf) :
  0 <= htons ty < 2 ^ 15 -> n = wire_size t -> n <= CSM_BUFFER_SIZE -> fills P t ->
  (memset_buf;; id ← next_msg_id;
   on_buf (fun b =>
     b ← fill_icc_hdr (cs_csm s) ty n id b;
     b ← fill_icc_parameter (wire_type t) (Z.of_nat (length (wire_payload t))) b;
     P b);; mret n) s
  = Some (n, with_msg s (wire_msg ty (cur_id s) (rg_id s) t)).
Proof.
  intros Ht -> Hn HP.
  apply (prepare_run (F := fun id b =>
     b ← fill_icc_hdr (cs_csm s) ty (wire_size t) id b;
     b ← fill_icc_parameter (wire_type t) (Z.of_nat (length (wire_payload t))) b;
     P b)).
  rewrite wire_msg_length, (zeros_room (wire_size t)) by (unfold wire_size in *; lia).
  set (z := zeros (CSM_BUFFER_SIZE - wire_size t)).
  unfold wire_size at 2. rewrite zeros_app, <- app_assoc by lia.
  pose proof (fill_msg_start s ty t (cur_id s)
    (zeros (Z.of_nat (length (wire_payload t))) ++ z) Ht) as E.
  destruct (fill_icc_hdr _ _ _ _ _) as [b|]; [|done]. cbn [mbind option_bind] in *.
  rewrite E. cbn [mbind option_bind].
  rewrite app_assoc, HP
    by (rewrite length_app, wire_icc_hdr_length, wire_param_length; done).
  unfold wire_msg. by rewrite <- !app_assoc.
Qed.

(** ** The connection messages *)

Lemma prepare_rg_connect_wire s :
  let name := cstr (sender_name (csm_iccp_info (cs_csm s))) in
  strlen (sender_name (csm_iccp_info (cs_csm s))) <= Z.of_nat MAX_L_ICC_SENDER_NAME ->
  iccp_csm_prepare_rg_connect_msg s
  = Some (20 + Z.of_nat (length name),
          with_msg s (wire_msg MSG_T_RG_CONNECT (cur_id s) (rg_id s) (T_SenderName name))).
Proof.
  intros name Hn. unfold strlen, MAX_L_ICC_SENDER_NAME in Hn. fold name in Hn.
  unfold iccp_csm_prepare_rg_connect_msg. rewrite bind_the_csm. unfold strlen. fold name.
  apply (prepare_msg_run s _ _ (T_SenderName name)).
  - by apply (Forall_lookup_1 _ _ 1 _ msg_types_fit).
  - done.
  - unfold CSM_BUFFER_SIZE, ICCHdr.sizeof, ICCParameter.sizeof. lia.
  - intros h r Hh. cbn [wire_payload].
    unfold TLV, ICCHdr.sizeof, ICCParameter.sizeof. bstep. done.
Qed.

Lemma prepare_rg_disconnect_wire s :
  iccp_csm_prepare_rg_disconnect_msg s
  = Some (24, with_msg s (wire_msg MSG_T_RG_DISCONNECT (cur_id s) (rg_id s)
                (T_DisconnectCode (status_code (csm_iccp_info (cs_csm s)))))).
Proof.
  unfold iccp_csm_prepare_rg_disconnect_msg. rewrite bind_the_csm.
  apply (prepare_msg_run s _ _ (T_DisconnectCode _)).
  - by apply (Forall_lookup_1 _ _ 2 _ msg_types_fit).
  - done.
  - done.
  - intros h r Hh. unfold DisconnectCodeTLV.set_iccp_status_code, TLV, ICCHdr.sizeof, wr32.
    cbn [wire_payload]. rewrite be_length, le_split_htonl. bstep. done.
Qed.

Lemma prepare_nak_wire s :
  let info := csm_iccp_info (cs_csm s) in
  let t := if status_code info =? STATUS_CODE_U_ICCP_RG
           then T_Nak (status_code info) (rejected_msg_id info) else T_Nak 0 0 in
  iccp_csm_prepare_nak_msg s
  = Some (28, with_msg s (wire_msg MSG_T_NOTIFICATION (cur_id s) (rg_id s) t)).
Proof.
  intros info t. unfold iccp_csm_prepare_nak_msg. fold info.
  assert (Ht : wire_type t = TLV_T_NAK /\ length (wire_payload t) = 8%nat).
  { unfold t. destruct (_ =? _); (split; [done|]); cbn [wire_payload]; len. }
  pose proof (prepare_msg_run s 28 MSG_T_NOTIFICATION t (fun b =>
    if status_code info =? STATUS_CODE_U_ICCP_RG then
      b ← NAKTLV.set_iccp_status_code (htonl (status_code info)) b;
      NAKTLV.set_rejected_msg_id (htonl (rejected_msg_id info)) b
    else Some b)) as E.
  destruct Ht as [Ht1 Ht2]. rewrite Ht1, Ht2 in E. apply E.
  - by apply (Forall_lookup_1 _ _ 3 _ msg_types_fit).
  - unfold wire_size. rewrite Ht2. done.
  - done.
  - intros h r Hh. rewrite Ht2. unfold t. destruct (_ =? _); cbn [wire_payload]; [|done].
    change (zeros (Z.of_nat 8)) with (zeros 4 ++ zeros 4). rewrite <- !app_assoc.
    unfold NAKTLV.set_iccp_status_code, NAKTLV.set_rejected_msg_id, TLV, ICCHdr.sizeof, wr32.
    rewrite !le_split_htonl. do 2 bstep. done.
Qed.

Lemma prepare_capability_wire s :
  let f := sender_capability_flag (csm_iccp_info (cs_csm s)) in
  0 <= f <= 1 ->
  iccp_csm_prepare_capability_msg s
  = Some (16, with_msg s (wire_capability (cur_id s) f)).
Proof.
  intros f Hf. unfold iccp_csm_prepare_capability_msg.
  rewrite bind_the_csm. cbn zeta. fold f.
  apply prepare_run. unfold wire_capability, wire_ldp_hdr.
  replace (Z.of_nat (length _)) with 16 by len.
  rewrite (zeros_room 16) by done.
  change (zeros 16) with (zeros 2 ++ zeros 2 ++ zeros 4 ++ zeros 2 ++ zeros 2
    ++ zeros 2 ++ zeros 1 ++ zeros 1). rewrite <- !app_assoc.
  unfold LDPHdr.set_u_bit, LDPHdr.set_msg_type, LDPHdr.set_msg_len,
    LDPHdr.set_msg_id, ICCParameter.set_u_bit, ICCParameter.set_f_bit,
    ICCParameter.set_type, ICCParameter.set_len, LDPICCPCapabilityTLV.set_s_bit,
    LDPICCPCapabilityTLV.set_major_ver, LDPICCPCapabilityTLV.set_minior_ver,
    wr8, wr16, wr32, LDPHdr.sizeof, ICCParameter.sizeof.
  do 4 bstep. do 4 bstep. do 5 bstep.
  rewrite ldp_type_word, !le_split_htons, !le_split_htonl by done.
  assert (f = 0 \/ f = 1) as [-> | ->] by lia; vm_words; reflexivity.
Qed.

(** The message the protocol expects a CSM to send in its current state. *)
Definition expected_iccp_msg (s : CS) : option buf :=
  let info := csm_iccp_info (cs_csm s) in
  let nak := wire_msg MSG_T_NOTIFICATION (cur_id s) (rg_id s)
    (if status_code info =? STATUS_CODE_U_ICCP_RG
     then T_Nak (status_code info) (rejected_msg_id info) else T_Nak 0 0) in
  match csm_current_state (cs_csm s) with
  | ICCP_INITIALIZED => Some (wire_capability (cur_id s) (sender_capability_flag info))
  | ICCP_CAPREC =>
      if status_code info >? 0 then Some nak
      else Some (wire_msg MSG_T_RG_CONNECT (cur_id s) (rg_id s)
                   (T_SenderName (cstr (sender_name info))))
  | ICCP_CONNECTING => if status_code info >? 0 then Some nak else None
  | ICCP_OPERATIONAL =>
      if peer_rg_connect_flag info =? 0
      then Some (wire_msg MSG_T_RG_DISCONNECT (cur_id s) (rg_id s)
                   (T_DisconnectCode (status_code info)))
      else None
  | _ => None
  end.

(** The members a [uint8_t : 1] and a [char[80]] can hold. *)
Definition info_ok (i : IccpInfo) : Prop :=
  0 <= sender_capability_flag i <= 1 /\
  length (sender_name i) = MAX_L_ICC_SENDER_NAME.

Lemma cstr_length a : (length (cstr a) <= length a)%nat.
Proof. induction a as [|c a IH]; simpl; [lia|]. destruct (is_nul c); simpl; lia. Qed.

Lemma prepare_iccp_msg_expected s :
  info_ok (csm_iccp_info (cs_csm s)) ->
  iccp_csm_prepare_iccp_msg s =
    match expected_iccp_msg s with
    | Some bs => Some (Z.of_nat (length bs), with_msg s bs)
    | None => Some (-1, s)
    end.
Proof.
  intros [Hf Hn]. unfold iccp_csm_prepare_iccp_msg. rewrite bind_the_csm.
  assert (strlen (sender_name (csm_iccp_info (cs_csm s))) <= Z.of_nat MAX_L_ICC_SENDER_NAME).
  { unfold strlen. pose proof (cstr_length (sender_name (csm_iccp_info (cs_csm s)))). lia. }
  unfold expected_iccp_msg. cbn zeta.
  destruct (csm_current_state (cs_csm s)); try done.
  - rewrite prepare_capability_wire by done. do 2 f_equal.
  - destruct (_ >? _).
    + rewrite prepare_nak_wire, wire_msg_length. cbn zeta. by destruct (_ =? _).
    + by rewrite prepare_rg_connect_wire, wire_msg_length.
  - destruct (_ >? _); [|done].
    rewrite prepare_nak_wire, wire_msg_length. cbn zeta. by destruct (_ =? _).
  - destruct (_ =? _); [|done]. by rewrite prepare_rg_disconnect_wire, wire_msg_length.
Qed.

(** ** Sending a well-formed message *)

Definition log_ok (l : MsgLog) : Prop :=
  length (log_msg l) = MAX_MSG_LOG_SIZE /\ 0 <= log_end_index l < 128.

Lemma log_push_ok e l :
  log_ok l -> exists l', log_push e l = Some l' /\ log_ok l'
    /\ log_msg l' = <[Z.to_nat (log_end_index l) := e]> (log_msg l)
    /\ log_end_index l' = (log_end_index l + 1) mod 128.
Proof.
  intros [Hl Hi]. unfold log_push, log_ok. rewrite Hl. unfold MAX_MSG_LOG_SIZE in *.
  replace ((0 <=? log_end_index l) && (log_end_index l <? Z.of_nat 128)) with true
    by (symmetry; apply andb_true_iff; rewrite Z.leb_le, Z.ltb_lt; lia).
  eexists. split; [done|]. simpl. rewrite length_insert.
  rewrite u32_small by lia. destruct (Z.geb_spec (log_end_index l + 1) 128).
  - replace (log_end_index l) with 127 by lia. split; [lia|done].
  - rewrite Z.mod_small by lia. split; [lia|done].
Qed.

(** State after [bs], of type [ty] with parameter [tlv], was handed in full to
    the kernel. *)
Definition after_send (bs : buf) (e : MsgTypeSet) (s : CS) : CS :=
  s <| cs_csm ::= fun c => MLACP_SET_ICCP_TX_DBG_COUNTER (log_tlv e) ICCP_DBG_CNTR_STS_OK
         (c <| csm_msg_log := default (csm_msg_log c) (log_push e (csm_msg_log c)) |>) |>
    <| cs_g ::= fun g => g <| g_sent ::= fun t => t ++ [(csm_sock_fd (cs_csm s), bs)] |> |>.

Lemma iccp_csm_send_run s bs r ty pty id p :
  0 < csm_sock_fd (cs_csm s) -> log_ok (csm_msg_log (cs_csm s)) -> g_wr (cs_g s) = [] ->
  bs <> [] ->
  LDPHdr.get_msg_type (bs ++ r) = Some ty ->
  p = (if ntohs ty =? MSG_T_CAPABILITY then LDPHdr.sizeof else ICCHdr.sizeof) ->
  ICCParameter.get_type p (bs ++ r) = Some pty ->
  LDPHdr.get_msg_id (bs ++ r) = Some id ->
  iccp_csm_send (bs ++ r) (Z.of_nat (length bs)) s
  = Some (Z.of_nat (length bs),
          after_send bs (mkLog (ntohl id) (ntohs ty) (ntohs pty)) s).
Proof.
  intros Hfd Hlog Hwr Hbs Hty -> Hp Hid.
  assert (0 < Z.of_nat (length bs)) by (destruct bs; simpl in *; [done|lia]).
  unfold iccp_csm_send. rewrite bind_the_csm.
  replace ((csm_sock_fd (cs_csm s) <=? 0) || (Z.of_nat (length bs) <=? 0)) with false
    by (symmetry; apply orb_false_iff; split; apply Z.leb_gt; lia).
  destruct (log_push_ok (mkLog (ntohl id) (ntohs ty) (ntohs pty)) _ Hlog)
    as (l & Hpush & _).
  rewrite (bind_Some _ _ _ _ _ (lift_Some _ _ _ Hty)). cbn zeta.
  rewrite (bind_Some _ _ _ _ _ (lift_Some _ _ _ Hp)).
  rewrite (bind_Some _ _ _ _ _ (lift_Some _ _ _ Hid)). cbn zeta.
  rewrite (bind_Some _ _ _ _ _ (lift_Some _ _ _ Hpush)).
  unfold sock_write, mbind, M_bind, lift, gets, on_csm, on_g, modify, mret, M_ret.
  rewrite Nat2Z.id, rd_head by done. simpl. rewrite Hwr. simpl.
  rewrite Nat2Z.id, take_ge by lia.
  replace ((Z.of_nat (length bs) <=? 0) || negb (Z.of_nat (length bs) =? Z.of_nat (length bs)))
    with false by (symmetry; apply orb_false_iff; rewrite Z.eqb_refl, Z.leb_gt; split; [lia|done]).
  unfold after_send, set. cbn [cs_csm cs_g]. rewrite Hpush.
  destruct s as [c [] ? ? ?]. simpl in *. by rewrite Hwr.
Qed.
