(* ===== verification/Port.v ===== *)
(** Interfaces and their VLANs ([port.c]): the VLAN tree of an interface, the
    peer's interfaces, and the update of a peer port channel from its TLV
    ([mlacp_fsm_update_port_channel_info] of [mlacp_sync_update.c]).

    A VLAN tree is the in-order sequence of the red-black tree: increasing VLAN
    identifiers.  [RB_FIND], [RB_INSERT] and [RB_REMOVE] are the operations on
    that sequence. *)

From Stdlib Require Import ZArith Lia Sorted.
From stdpp Require Import base list gmap numbers option.
From coqutil Require Import Byte Word.LittleEndianList.
From S2P Require Import Prelude CBuf State MsgFormat Wire CsmMsg.

(** ** The VLAN tree *)

(** [vlan_node_compare] *)
Definition vlan_node_compare (a b : Z) : Z :=
  if a <? b then -1 else if a >? b then 1 else 0.

Definition vlan_find (vid : Z) : list VLAN_ID -> option VLAN_ID :=
  find_first (fun v => vlan_node_compare vid (vlan_vid v) =? 0).

(** [RB_INSERT] leaves the tree alone when the key is present. *)
Fixpoint vlan_insert (v : VLAN_ID) (t : list VLAN_ID) : list VLAN_ID :=
  match t with
  | [] => [v]
  | x :: t' =>
      let c := vlan_node_compare (vlan_vid v) (vlan_vid x) in
      if c <? 0 then v :: x :: t' else if c >? 0 then x :: vlan_insert v t' else x :: t'
  end.

(** [VLAN_RB_REMOVE] of the node with this identifier. *)
Definition vlan_remove (vid : Z) : list VLAN_ID -> list VLAN_ID :=
  filter (fun v => vlan_vid v <> vid).

(** Assignment through a node pointer. *)
Definition vlan_update (vid : Z) (f : VLAN_ID -> VLAN_ID) : list VLAN_ID -> list VLAN_ID :=
  map (fun v => if vlan_vid v =? vid then f v else v).

(** [vlan_info_init], then the identifier *)
Definition vlan_info_init : VLAN_ID := mkVlan (u16 (-1)) 0 None.

(** ** Local interfaces *)

(** [local_if_find_by_name]: the first interface of the system list. *)
Fixpoint lif_by_name (name : buf) (ls : list ptr) : M CS (option ptr) :=
  match ls with
  | [] => mret None
  | l :: ls' =>
      lif ← get_lif l;
      if streq (lif_name lif) name then mret (Some l) else lif_by_name name ls'
  end.

Definition local_if_find_by_name (name : buf) : M CS (option ptr) :=
  ls ← gets (fun s => sys_lif_list (cs_sys s));
  lif_by_name name ls.

Fixpoint lif_by_ifindex (ifindex : Z) (ls : list ptr) : M CS (option ptr) :=
  match ls with
  | [] => mret None
  | l :: ls' =>
      lif ← get_lif l;
      if lif_ifindex lif =? ifindex then mret (Some l) else lif_by_ifindex ifindex ls'
  end.

Definition local_if_find_by_ifindex (ifindex : Z) : M CS (option ptr) :=
  ls ← gets (fun s => sys_lif_list (cs_sys s));
  lif_by_ifindex ifindex ls.

Definition local_if_is_l3_mode (lif : LocalInterface) : bool :=
  negb (lif_ipv4_addr lif =? 0) || negb (bool_decide (lif_ipv6_addr lif = [0; 0; 0; 0]))
  || negb (lif_master_ifindex lif =? 0).

(** [local_if_change_flag_clear] and the VLAN counts of one interface *)
Definition local_if_change_flag_clear : M CS unit :=
  ls ← gets (fun s => sys_lif_list (cs_sys s));
  foreach (fun l =>
    lif ← get_lif l;
    when (lif_changed lif =? 1) (set_lif l (fun i => i <| lif_changed := 0 |>))) ls.

(** The tree and counters of [local_if_add_vlan]; [itf] is the VLAN interface
    that [local_if_find_by_name] returned for a new node. *)
Definition lif_add_vlan (vid : Z) (itf : option ptr) (lif : LocalInterface) : LocalInterface :=
  let lif :=
    match vlan_find vid (lif_vlan_tree lif) with
    | Some _ => lif
    | None =>
        lif <| lif_vlan_count := u32 (lif_vlan_count lif + 1) |>
            <| lif_port_config_sync := 1 |>
            <| lif_vlan_tree ::= vlan_insert (vlan_info_init <| vlan_vid := vid |>
                                                             <| vlan_itf := itf |>) |>
    end in
  lif <| lif_vlan_tree ::= vlan_update vid (fun v => v <| vlan_removed := 0 |>) |>.

Definition local_if_del_vlan (vid : Z) (lif : LocalInterface) : LocalInterface :=
  match vlan_find vid (lif_vlan_tree lif) with
  | None => lif
  | Some _ =>
      lif <| lif_vlan_tree ::= vlan_remove vid |> <| lif_port_config_sync := 1 |>
          <| lif_vlan_count := u32 (lif_vlan_count lif - 1) |>
  end.

(** [RB_FOREACH_SAFE] that removes every node *)
Definition local_if_del_all_vlan (lif : LocalInterface) : LocalInterface :=
  foldl (fun i v => i <| lif_vlan_tree ::= vlan_remove (vlan_vid v) |>
                      <| lif_vlan_count := u32 (lif_vlan_count i - 1) |>)
    lif (lif_vlan_tree lif).

(** ** Peer interfaces *)

Definition zero_pif : PeerInterface :=
  mkPif 0 0 (replicate MAX_L_PORT_NAME Byte.x00) (replicate ETHER_ADDR_LEN Byte.x00)
    0 0 0 0 0 0 None [].

Definition peer_if_create (peer_if_number type : Z) : M CS (option PeerInterface) :=
  if peer_if_number <? 0 then mret None
  else if negb (type =? IF_T_PORT) && negb (type =? IF_T_PORT_CHANNEL) then mret None
  else
    self ← gets cs_self;
    let p := zero_pif <| pif_ifindex := peer_if_number |> <| pif_type := type |> in
    let p := if type =? IF_T_PORT then p <| pif_csm := Some self |> else p in
    on_csm (set_MLACP (fun m => m <| ml_pif_list ::= cons p |>));;
    mret (Some p).

Definition peer_if_find_by_name (name : buf) (csm : CSM) : option PeerInterface :=
  find_first (fun p => streq (pif_name p) name) (ml_pif_list (MLACP csm)).

Definition peer_if_del_all_vlan (p : PeerInterface) : PeerInterface :=
  foldl (fun i v => i <| pif_vlan_tree ::= vlan_remove (vlan_vid v) |>) p (pif_vlan_tree p).

(** Assignment through the pointer that a search loop stopped at. *)
Fixpoint update_first {A} (P : A -> bool) (f : A -> A) (l : list A) : list A :=
  match l with
  | [] => []
  | x :: l' => if P x then f x :: l' else x :: update_first P f l'
  end.

Fixpoint remove_first {A} (P : A -> bool) (l : list A) : list A :=
  match l with
  | [] => []
  | x :: l' => if P x then l' else x :: remove_first P l'
  end.

(** [peer_if_destroy] of the interface found under [name] *)
Definition peer_if_destroy (name : buf) : CSM -> CSM :=
  set_MLACP (fun m => m <| ml_pif_list ::= remove_first (fun p => streq (pif_name p) name) |>).

Definition peer_if_add_vlan (vid : Z) (p : PeerInterface) : PeerInterface :=
  let p :=
    match vlan_find vid (pif_vlan_tree p) with
    | Some _ => p
    | None => p <| pif_vlan_tree ::= vlan_insert (vlan_info_init <| vlan_vid := vid |>) |>
    end in
  p <| pif_vlan_tree ::= vlan_update vid (fun v => v <| vlan_removed := 0 |>) |>.

(** The traversal removes a node one step after it was visited. *)
Fixpoint clean_loop (todo : list VLAN_ID) (peer_vlan : option VLAN_ID)
    (tree : list VLAN_ID) : list VLAN_ID :=
  let tree' := match peer_vlan with Some v => vlan_remove (vlan_vid v) tree | None => tree end in
  match todo with
  | [] => tree'
  | next :: todo' => clean_loop todo' (if vlan_removed next =? 1 then Some next else None) tree'
  end.

Definition peer_if_clean_unused_vlan (p : PeerInterface) : PeerInterface :=
  p <| pif_vlan_tree := clean_loop (pif_vlan_tree p) None (pif_vlan_tree p) |>.

(** ** Port channel information from the peer *)

Fixpoint read_vlans (i n : nat) (b : buf) : option (list Z) :=
  match n with
  | O => Some []
  | S n' =>
      v ← mLACPPortChannelInfoTLV.get_vlan_id i b;
      vs ← read_vlans (S i) n' b;
      Some (ntohs v :: vs)
  end.

(** The interface the TLV is about. *)
Definition is_peer_po (agg_id : Z) (p : PeerInterface) : bool :=
  (pif_type p =? IF_T_PORT_CHANNEL) && (pif_po_id p =? agg_id).

Definition mlacp_fsm_update_port_channel_info (msg : Msg) : M CS Z :=
  let b := msg_buf msg in
  csm ← the_csm;
  if negb (existsb (fun p => pif_type p =? IF_T_PORT_CHANNEL) (ml_pif_list (MLACP csm)))
  then mret 0
  else
      agg ← lift (mLACPPortChannelInfoTLV.get_agg_id b);
      match find_first (is_peer_po (ntohs agg)) (ml_pif_list (MLACP csm)) with
      | None => mret 0
      | Some _ =>
          ip ← lift (mLACPPortChannelInfoTLV.get_ipv4_addr b);
          l3 ← lift (mLACPPortChannelInfoTLV.get_l3_mode b);
          num ← lift (mLACPPortChannelInfoTLV.get_num_of_vlan_id b);
          vs ← lift (read_vlans 0 (Z.to_nat (ntohs num)) b);
          on_csm (set_MLACP (fun m => m <| ml_pif_list ::=
            update_first (is_peer_po (ntohs agg)) (fun p =>
              let p := p <| pif_vlan_tree ::= map (fun v => v <| vlan_removed := 1 |>) |>
                         <| pif_ipv4_addr := ntohl ip |> <| pif_l3_mode := l3 |> in
              peer_if_clean_unused_vlan (foldl (fun p v => peer_if_add_vlan v p) p vs)) |>));;
          mret 0
      end.

(** ** Laws of the tree *)

Definition vids (t : list VLAN_ID) : list Z := map vlan_vid t.
Definition sorted_vids (t : list VLAN_ID) : Prop := StronglySorted Z.lt (vids t).

Lemma vlan_compare_eq a b : (vlan_node_compare a b =? 0) = (a =? b).
Proof.
  unfold vlan_node_compare. rewrite Z.gtb_ltb.
  destruct (Z.ltb_spec a b), (Z.ltb_spec b a), (Z.eqb_spec a b); simpl; done || lia.
Qed.

Lemma vlan_find_spec vid t :
  match vlan_find vid t with
  | Some v => v ∈ t /\ vlan_vid v = vid
  | None => vid ∉ vids t
  end.
Proof.
  unfold vlan_find. destruct (find_first _ t) as [v|] eqn:E.
  - apply find_first_Some in E as [? E]. rewrite vlan_compare_eq in E. zbool. done.
  - apply find_first_None in E. unfold vids. intros (v & -> & Hv)%list_elem_of_fmap.
    rewrite List.Forall_forall in E. apply list_elem_of_In in Hv.
    specialize (E v Hv). rewrite vlan_compare_eq in E. by rewrite Z.eqb_refl in E.
Qed.

Lemma vlan_insert_elem v t x :
  vlan_vid v ∉ vids t -> x ∈ vids (vlan_insert v t) <-> x = vlan_vid v \/ x ∈ vids t.
Proof.
  induction t as [|y t IH]; simpl; intros Hn; [set_solver|].
  unfold vlan_node_compare. rewrite !Z.gtb_ltb.
  destruct (Z.ltb_spec (vlan_vid v) (vlan_vid y)); simpl; [set_solver|].
  destruct (Z.ltb_spec (vlan_vid y) (vlan_vid v)); simpl.
  - rewrite !elem_of_cons, IH by set_solver. set_solver.
  - exfalso. apply Hn. replace (vlan_vid v) with (vlan_vid y) by lia. set_solver.
Qed.

Lemma Forall_lt_elem (a : Z) l : Forall (Z.lt a) l <-> (forall x, x ∈ l -> a < x).
Proof.
  rewrite List.Forall_forall. split; intros H x Hx; apply H; by apply list_elem_of_In.
Qed.

Lemma vlan_insert_sorted v t : sorted_vids t -> vlan_vid v ∉ vids t -> sorted_vids (vlan_insert v t).
Proof.
  unfold sorted_vids. induction t as [|y t IH]; simpl; intros Hs Hn; [repeat constructor|].
  apply StronglySorted_inv in Hs as [Hs Hy].
  unfold vlan_node_compare. rewrite !Z.gtb_ltb.
  destruct (Z.ltb_spec (vlan_vid v) (vlan_vid y)); simpl.
  - constructor; [by constructor|]. constructor; [done|].
    rewrite Forall_lt_elem in *. intros x Hx. specialize (Hy x Hx). lia.
  - destruct (Z.ltb_spec (vlan_vid y) (vlan_vid v)); simpl.
    + constructor; [apply IH; [done|set_solver]|]. rewrite Forall_lt_elem in *.
      intros x [->|Hx]%vlan_insert_elem; [done|by apply Hy|set_solver].
    + by constructor.
Qed.

Lemma vlan_insert_length v t :
  vlan_vid v ∉ vids t -> length (vlan_insert v t) = S (length t).
Proof.
  induction t as [|y t IH]; simpl; intros Hn; [done|].
  unfold vlan_node_compare. rewrite !Z.gtb_ltb.
  destruct (Z.ltb_spec (vlan_vid v) (vlan_vid y)); simpl; [done|].
  destruct (Z.ltb_spec (vlan_vid y) (vlan_vid v)); simpl; [rewrite IH by set_solver; done|].
  exfalso. apply Hn. replace (vlan_vid v) with (vlan_vid y) by lia. set_solver.
Qed.

Lemma vids_update vid f t :
  (forall v, vlan_vid (f v) = vlan_vid v) -> vids (vlan_update vid f t) = vids t.
Proof.
  intros Hf. unfold vids, vlan_update. rewrite map_map. apply map_ext.
  intros v. case_match; [apply Hf|done].
Qed.

Lemma sorted_filter (P : VLAN_ID -> Prop) `{!forall x, Decision (P x)} t :
  sorted_vids t -> sorted_vids (filter P t).
Proof.
  unfold sorted_vids. induction t as [|y t IH]; simpl; intros Hs; [done|].
  apply StronglySorted_inv in Hs as [Hs Hy]. rewrite filter_cons.
  destruct (decide (P y)); [|auto]. simpl. constructor; [auto|].
  rewrite Forall_lt_elem in *. intros x (v & -> & Hv)%list_elem_of_fmap.
  apply Hy, list_elem_of_fmap. exists v. split; [done|].
  by apply list_elem_of_filter in Hv as [_ Hv].
Qed.

Lemma sorted_inj t v w : sorted_vids t -> v ∈ t -> w ∈ t -> vlan_vid v = vlan_vid w -> v = w.
Proof.
  unfold sorted_vids. induction t as [|y t IH]; simpl; intros Hs Hv Hw E; [set_solver|].
  apply StronglySorted_inv in Hs as [Hs Hy]. rewrite Forall_lt_elem in Hy.
  assert (Hin : forall u, u ∈ t -> vlan_vid y < vlan_vid u)
    by (intros u Hu; apply Hy; by apply (list_elem_of_fmap_2 vlan_vid)).
  apply elem_of_cons in Hv as [->|Hv], Hw as [->|Hw]; [done|..|auto].
  - specialize (Hin w Hw). lia.
  - specialize (Hin v Hv). lia.
Qed.

Lemma filter_keep (P : VLAN_ID -> Prop) `{!forall x, Decision (P x)} (t : list VLAN_ID) :
  (forall x, x ∈ t -> P x) -> filter P t = t.
Proof.
  induction t as [|y t IH]; intros Hk; [done|]. rewrite filter_cons.
  rewrite decide_True by (apply Hk; set_solver). f_equal. apply IH. set_solver.
Qed.

(** The one-step-behind traversal removes exactly the marked nodes. *)
Lemma clean_loop_filter todo p tree :
  clean_loop todo p tree
  = filter (fun v => vlan_vid v ∉ vids (option_list p ++ filter (fun v => vlan_removed v = 1) todo))
      tree.
Proof.
  revert p tree. induction todo as [|x todo IH]; intros p tree; cbn [clean_loop].
  - rewrite filter_nil, app_nil_r. destruct p as [v|]; simpl.
    + unfold vlan_remove. apply list_filter_iff. intros w. set_solver.
    + symmetry. apply filter_keep. intros w _. set_solver.
  - rewrite IH. rewrite filter_cons.
    assert (E : (if vlan_removed x =? 1 then Some x else None)
      = (if decide (vlan_removed x = 1) then Some x else None)).
    { destruct (Z.eqb_spec (vlan_removed x) 1), (decide (vlan_removed x = 1)); done. }
    rewrite E. destruct p as [v|]; simpl.
    + unfold vlan_remove. rewrite list_filter_filter. apply list_filter_iff. intros w.
      destruct (decide (vlan_removed x = 1)); set_solver.
    + apply list_filter_iff. intros w. destruct (decide (vlan_removed x = 1)); set_solver.
Qed.

Lemma vlan_insert_In v t x :
  vlan_vid v ∉ vids t -> x ∈ vlan_insert v t <-> x = v \/ x ∈ t.
Proof.
  induction t as [|y t IH]; simpl; intros Hn; [set_solver|].
  unfold vlan_node_compare. rewrite !Z.gtb_ltb.
  destruct (Z.ltb_spec (vlan_vid v) (vlan_vid y)); simpl; [set_solver|].
  destruct (Z.ltb_spec (vlan_vid y) (vlan_vid v)); simpl.
  - rewrite !elem_of_cons, IH by set_solver. set_solver.
  - exfalso. apply Hn. replace (vlan_vid v) with (vlan_vid y) by lia. set_solver.
Qed.

Lemma vlan_update_In vid f t x :
  x ∈ vlan_update vid f t <-> exists v, v ∈ t /\ x = (if vlan_vid v =? vid then f v else v).
Proof. unfold vlan_update. rewrite list_elem_of_fmap. naive_solver. Qed.

(** The tree while a peer's VLANs are re-learnt: [vs] were seen so far, the
    other nodes are still marked. *)
Record relearn (vs : list Z) (t : list VLAN_ID) : Prop := mk_relearn {
  rl_sorted : sorted_vids t;
  rl_seen : forall x, x ∈ vs -> x ∈ vids t;
  rl_marks : forall v, v ∈ t ->
    (vlan_vid v ∈ vs /\ vlan_removed v = 0) \/ (~ vlan_vid v ∈ vs /\ vlan_removed v = 1);
}.

Lemma relearn_start t :
  sorted_vids t -> relearn [] (map (fun v => v <| vlan_removed := 1 |>) t).
Proof.
  intros Hs. split; [|set_solver|].
  - unfold sorted_vids, vids in *. by rewrite map_map.
  - intros v (w & -> & _)%list_elem_of_fmap. right. set_solver.
Qed.

Lemma relearn_add vs p vid :
  relearn vs (pif_vlan_tree p) -> relearn (vs ++ [vid]) (pif_vlan_tree (peer_if_add_vlan vid p)).
Proof.
  intros [Hs Hseen Hm]. unfold peer_if_add_vlan.
  pose proof (vlan_find_spec vid (pif_vlan_tree p)) as Hf.
  set (n := vlan_info_init <| vlan_vid := vid |>).
  assert (exists t, pif_vlan_tree (match vlan_find vid (pif_vlan_tree p) with
      | Some _ => p | None => p <| pif_vlan_tree ::= vlan_insert n |> end) = t
    /\ sorted_vids t /\ vid ∈ vids t /\ (forall x, x ∈ vids (pif_vlan_tree p) -> x ∈ vids t)
    /\ forall v, v ∈ t -> v ∈ pif_vlan_tree p \/ vlan_vid v = vid) as (t & Et & Hst & Hvt & Hsub & Hin).
  { destruct (vlan_find vid (pif_vlan_tree p)) as [w|].
    - exists (pif_vlan_tree p). destruct Hf as [Hw <-]. split; [done|]. split; [done|].
      split; [by apply (list_elem_of_fmap_2 vlan_vid)|]. auto.
    - exists (vlan_insert n (pif_vlan_tree p)). split; [done|].
      split; [by apply vlan_insert_sorted|]. split; [apply vlan_insert_elem; [done|by left]|].
      split; [intros x Hx; apply vlan_insert_elem; [done|by right]|].
      intros v [->|Hv]%vlan_insert_In; [by right|by left|done]. }
  cbn [set pif_vlan_tree eta_pif]. set (f := fun v : VLAN_ID => v <| vlan_removed := 0 |>).
  fold n. rewrite Et.
  split.
  - unfold sorted_vids. rewrite vids_update; [exact Hst|intros ?; reflexivity].
  - intros x. rewrite vids_update by done. rewrite elem_of_app, list_elem_of_singleton.
    intros [Hx| ->]; auto.
  - intros v (w & Hw & ->)%vlan_update_In.
    destruct (Z.eqb_spec (vlan_vid w) vid) as [E|E]; simpl.
    + left. split; [set_solver|done].
    + destruct (Hin w Hw) as [Hp|]; [|done].
      destruct (Hm w Hp) as [[??]|[??]]; [left; set_solver|right]. split; [|done].
      set_solver.
Qed.

Lemma relearn_all us vs p :
  relearn us (pif_vlan_tree p) ->
  relearn (us ++ vs) (pif_vlan_tree (foldl (fun p v => peer_if_add_vlan v p) p vs)).
Proof.
  revert us p. induction vs as [|v vs IH]; intros us p H; simpl; [by rewrite app_nil_r|].
  replace (us ++ v :: vs) with ((us ++ [v]) ++ vs) by by rewrite <- app_assoc.
  by apply IH, relearn_add.
Qed.

Lemma clean_relearnt vs p :
  relearn vs (pif_vlan_tree p) ->
  let t := pif_vlan_tree (peer_if_clean_unused_vlan p) in
  sorted_vids t /\ (forall x, x ∈ vids t <-> x ∈ vs) /\ (forall v, v ∈ t -> vlan_removed v = 0).
Proof.
  intros [Hs Hseen Hm]. unfold peer_if_clean_unused_vlan. cbn [set pif_vlan_tree].
  cbn. rewrite clean_loop_filter. simpl.
  assert (Hv : forall v, v ∈ pif_vlan_tree p ->
    vlan_vid v ∉ vids (filter (fun v => vlan_removed v = 1) (pif_vlan_tree p)) <-> vlan_vid v ∈ vs).
  { intros v Hv. split.
    - intros Hn. destruct (Hm v Hv) as [[? ?]|[? Hr]]; [done|]. destruct Hn.
      apply (list_elem_of_fmap_2 vlan_vid), list_elem_of_filter. done.
    - intros Hvs (w & E & [Hr Hw]%list_elem_of_filter)%list_elem_of_fmap.
      assert (v = w) by by apply (sorted_inj (pif_vlan_tree p)). subst w.
      destruct (Hm v Hv) as [[? ?]|[? ?]]; [congruence|done]. }
  split; [by apply sorted_filter|]. split.
  - intros x. split.
    + intros (v & -> & [Hn Hp]%list_elem_of_filter)%list_elem_of_fmap. by apply Hv.
    + intros Hx. pose proof (Hseen x Hx) as (v & -> & Hp)%list_elem_of_fmap.
      apply (list_elem_of_fmap_2 vlan_vid), list_elem_of_filter. split; [by apply Hv|done].
  - intros v [Hn Hp]%list_elem_of_filter.
    destruct (Hm v Hp) as [[? ?]|[? ?]]; [done|]. by apply Hv in Hn.
Qed.

Lemma sorted_ext (l k : list Z) :
  StronglySorted Z.lt l -> StronglySorted Z.lt k -> (forall x, x ∈ l <-> x ∈ k) -> l = k.
Proof.
  intros Hl. revert k. induction Hl as [|a l Hl IH Ha]; intros k Hk E.
  - destruct k as [|b k]; [done|]. exfalso. apply (not_elem_of_nil b), E. set_solver.
  - destruct k as [|b k]; [exfalso; apply (not_elem_of_nil a), E; set_solver|].
    apply StronglySorted_inv in Hk as [Hk Hb]. rewrite Forall_lt_elem in *.
    assert (a = b) as <-.
    { destruct (Z.lt_trichotomy a b) as [Hab|[Hab|Hab]]; [|done|].
      - assert (a ∈ b :: k) as [?|Hx]%elem_of_cons by (apply E; set_solver); [lia|].
        specialize (Hb a Hx). lia.
      - assert (b ∈ a :: l) as [?|Hx]%elem_of_cons by (apply E; set_solver); [lia|].
        specialize (Ha b Hx). lia. }
    f_equal. apply IH; [done|]. intros x. specialize (E x). rewrite !elem_of_cons in E.
    split; intros Hx.
    + destruct (proj1 E (or_intror Hx)) as [->|]; [|done]. specialize (Ha a Hx). lia.
    + destruct (proj2 E (or_intror Hx)) as [->|]; [|done]. specialize (Hb a Hx). lia.
Qed.
