(* ===== verification/AppCsm.v ===== *)
(** The application state machine ([app_csm.c]): message demultiplexing towards
    the mLACP application, the application NAK, and binding of local
    interfaces to a CSM. *)

From Stdlib Require Import ZArith Lia.
From stdpp Require Import base list gmap numbers option.
From coqutil Require Import Byte Word.LittleEndianList.
From S2P Require Import Prelude CBuf State MsgFormat Wire CsmMsg.

(** ** Queues *)

Definition mlacp_enqueue_msg (msg : Msg) : CSM -> CSM :=
  set_MLACP (fun m => m <| ml_mlacp_msg_list ::= fun l => l ++ [msg] |>).

Definition mlacp_dequeue_msg : M CS (option Msg) :=
  csm ← the_csm;
  match ml_mlacp_msg_list (MLACP csm) with
  | [] => mret None
  | msg :: l => on_csm (set_MLACP (fun m => m <| ml_mlacp_msg_list := l |>));; mret (Some msg)
  end.

Definition app_insert_tail (msg : Msg) (csm : CSM) : CSM :=
  csm <| csm_app_csm ::= fun a => a <| app_msg_list ::= fun l => l ++ [msg] |> |>.

Definition app_csm_dequeue_msg : M CS (option Msg) :=
  csm ← the_csm;
  match app_msg_list (csm_app_csm csm) with
  | [] => mret None
  | msg :: l =>
      on_csm (fun c => c <| csm_app_csm ::= fun a => a <| app_msg_list := l |> |>);;
      mret (Some msg)
  end.

(** The log entry of a rejected message: the first slot with its identifier. *)
Definition find_log (id : Z) (l : MsgLog) : option MsgTypeSet :=
  find_first (fun e => id =? log_msg_id e) (log_msg l).

Definition app_csm_enqueue_msg (msg : Msg) : M CS unit :=
  b ← lift (swap16 TLV (msg_buf msg));
  let msg := msg <| msg_buf := b |> in
  ty ← lift (LDPHdr.get_msg_type b);
  csm ← the_csm;
  if ty =? MSG_T_RG_APP_DATA then
    pty ← lift (ICCParameter.get_type TLV b);
    on_csm (if (pty >? TLV_T_MLACP_CONNECT) && (pty <? TLV_T_MLACP_LIST_END)
            then mlacp_enqueue_msg msg else app_insert_tail msg)
  else if ty =? MSG_T_NOTIFICATION then
    rj ← lift (NAKTLV.get_rejected_msg_id b);
    let tlv := match find_log (ntohl rj) (csm_msg_log csm) with
               | Some e => log_tlv e | None => -1 end in
    on_csm (if (tlv >? TLV_T_MLACP_CONNECT) && (tlv <=? TLV_T_MLACP_MAC_INFO)
            then mlacp_enqueue_msg msg else app_insert_tail msg)
  else mret tt.

Definition app_csm_transit : M CS unit :=
  csm ← the_csm;
  let st := app_current_state (csm_app_csm csm) in
  if bool_decide (st <> APP_NONEXISTENT) && (csm_sock_fd csm <=? 0) then
    on_csm (fun c => c <| csm_app_csm ::= fun a => a <| app_current_state := APP_NONEXISTENT |> |>)
  else when (bool_decide (st <> APP_OPERATIONAL)
             && bool_decide (csm_current_state csm = ICCP_OPERATIONAL))
    (on_csm (fun c => c <| csm_app_csm ::= fun a => a <| app_current_state := APP_OPERATIONAL |> |>)).

Definition app_csm_prepare_nak_msg : M CS Z :=
  csm ← the_csm;
  let msg_len := Z.of_nat (ICCHdr.sizeof + NAKTLV.sizeof) in
  memset_buf;;
  id ← next_msg_id;
  on_buf (fun b =>
    b ← fill_icc_hdr csm MSG_T_NOTIFICATION msg_len id b;
    b ← fill_icc_parameter TLV_T_NAK (Z.of_nat NAKTLV.sizeof - 4) b;
    b ← NAKTLV.set_iccp_status_code (htonl STATUS_CODE_ICCP_REJECTED_MSG) b;
    NAKTLV.set_rejected_msg_id (htonl (app_invalid_msg_id (csm_app_csm csm))) b);;
  mret msg_len.

(** ** Interfaces bound to a CSM *)

Definition list_remove (l : ptr) : list ptr -> list ptr := filter (fun p => p <> l).

Definition mlacp_unbind_local_if (l : ptr) : M World Z :=
  lif ← w_get_lif l;
  match lif_csm lif with
  | None => mret 0
  | Some c =>
      csm ← get_csm c;
      set_csm c (set_MLACP (fun m => m <| ml_lif_list ::= list_remove l |>));;
      when (bool_decide (ml_current_state (MLACP csm) = MLACP_STATE_EXCHANGE)
            && (lif_type lif =? IF_T_PORT_CHANNEL))
        (set_csm c (set_MLACP (fun m => m <| ml_lif_purge_list ::= cons l |>)));;
      when (lif_type lif =? IF_T_PORT) (w_set_lif l (fun i => i <| lif_po_id := -1 |>));;
      w_set_lif l (fun i => i <| lif_csm := None |>);;
      mret 0
  end.

(** First port channel with identifier [po_id] in a list of interfaces. *)
Fixpoint find_po (po_id : Z) (ls : list ptr) : M World (option ptr) :=
  match ls with
  | [] => mret None
  | p :: ls' =>
      lif ← w_get_lif p;
      if (lif_type lif =? IF_T_PORT_CHANNEL) && (lif_po_id lif =? po_id)
      then mret (Some p) else find_po po_id ls'
  end.

Definition local_if_find_by_po_id (po_id : Z) : M World (option ptr) :=
  ls ← gets (fun w => sys_lif_list (w_sys w));
  find_po po_id ls.

Section Bind.
(** [update_if_ipmac_on_standby] of the link handler, called when a member
    joins a port channel that is already bound. *)
Variable update_if_ipmac_on_standby : ptr -> Z -> M World unit.

Definition mlacp_bind_local_if (c l : ptr) : M World Z :=
  csm ← get_csm c;
  lif ← w_get_lif l;
  if bool_decide (lif_csm lif = Some c) then mret 0
  else
    set_csm c (set_MLACP (fun m => m <| ml_lif_purge_list ::= list_remove l |>));;
    if bool_decide (l ∈ ml_lif_list (MLACP csm)) then mret 0
    else
      when (bool_decide (lif_csm lif <> None)) (mlacp_unbind_local_if l;; mret tt);;
      set_csm c (set_MLACP (fun m => m <| ml_lif_list ::= cons l |>));;
      w_set_lif l (fun i => i <| lif_csm := Some c |>);;
      when (lif_type lif =? IF_T_PORT_CHANNEL)
        (w_set_lif l (fun i => i <| lif_port_config_sync := 1 |>));;
      if lif_type lif =? IF_T_PORT_CHANNEL then mret 0
      else
        csm ← get_csm c;
        lif ← w_get_lif l;
        po ← find_po (lif_po_id lif) (ml_lif_list (MLACP csm));
        match po with
        | Some p => update_if_ipmac_on_standby p 1;; mret 0
        | None =>
            po ← local_if_find_by_po_id (lif_po_id lif);
            match po with
            | None => mret MCLAG_ERROR
            | Some p =>
                w_set_lif p (fun i => i <| lif_csm := Some c |>);;
                set_csm c (set_MLACP (fun m => m <| ml_lif_list ::= cons p |>));;
                w_set_lif p (fun i => i <| lif_port_config_sync := 1 |>);;
                mret 0
            end
        end.
End Bind.
