(* ===== verification/Csm.v ===== *)
(** The connection state machine ([iccp_csm.c]): reception of connection
    messages, the message queue, reset, and the transition function. *)

From Stdlib Require Import ZArith Lia.
From stdpp Require Import base list gmap numbers option.
From coqutil Require Import Byte Word.LittleEndianList.
From S2P Require Import Prelude CBuf State MsgFormat Wire CsmMsg AppCsm.

(** ** Receiving *)

(** [a && b] where reading [b] may be undefined. *)
Definition sc_and (a b : option bool) : option bool :=
  match a with Some true => b | Some false => Some false | None => None end.
Infix "&&?" := sc_and (at level 40, left associativity) : iccp_scope.

Definition holds (r : option Z) (v : Z) : option bool := (fun x => x =? v) <$> r.

Definition iccp_csm_check_id_from_msg (msg : Msg) : M CS unit :=
  let b := msg_buf msg in
  ty ← lift (LDPHdr.get_msg_type b);
  if ty =? MSG_T_CAPABILITY then mret tt
  else
    rg ← lift (ICCHdr.get_icc_rg_id b);
    csm ← the_csm;
    let info := csm_iccp_info csm in
    if ntohl rg =? icc_rg_id info then
      when (status_code info =? STATUS_CODE_U_ICCP_RG)
        (on_csm (set_info (fun i => i <| status_code := 0 |> <| rejected_msg_id := 0 |>)))
    else
      on_csm (set_info (fun i => i <| status_code := STATUS_CODE_U_ICCP_RG |>
                                   <| rejected_msg_id := ntohl rg |>)).

Definition iccp_csm_correspond_from_capability_msg (msg : Msg) : M CS unit :=
  let cap := LDPHdr.sizeof in
  b ← lift (swap16 cap (msg_buf msg));
  b ← lift (swap16 (cap + ICCParameter.sizeof) b);
  ok ← lift (holds (ICCParameter.get_u_bit cap b) 1
             &&? holds (ICCParameter.get_f_bit cap b) 0
             &&? holds (ICCParameter.get_type cap b) TLV_T_ICCP_CAPABILITY
             &&? holds (ntohs <$> ICCParameter.get_len cap b) TLV_L_ICCP_CAPABILITY
             &&? holds (LDPICCPCapabilityTLV.get_s_bit cap b) 1
             &&? holds (LDPICCPCapabilityTLV.get_major_ver cap b) 1
             &&? holds (LDPICCPCapabilityTLV.get_minior_ver cap b) 0);
  when ok (on_csm (set_info (fun i => i <| peer_capability_flag := 1 |>))).

Definition iccp_csm_correspond_from_rg_connect_msg (msg : Msg) : M CS unit :=
  b ← lift (swap16 TLV (msg_buf msg));
  ok ← lift (holds (ICCParameter.get_u_bit TLV b) 0
             &&? holds (ICCParameter.get_f_bit TLV b) 0
             &&? holds (ICCParameter.get_type TLV b) TLV_T_ICC_SENDER_NAME);
  when ok (on_csm (set_info (fun i => i <| peer_rg_connect_flag := 1 |>))).

Definition iccp_csm_correspond_from_rg_disconnect_msg (msg : Msg) : M CS unit :=
  b ← lift (swap16 TLV (msg_buf msg));
  ok ← lift (holds (ICCParameter.get_u_bit TLV b) 0
             &&? holds (ICCParameter.get_f_bit TLV b) 0
             &&? holds (ICCParameter.get_type TLV b) TLV_T_DISCONNECT_CODE
             &&? holds (ntohs <$> ICCParameter.get_len TLV b) TLV_L_DISCONNECT_CODE
             &&? holds (ntohl <$> DisconnectCodeTLV.get_iccp_status_code b)
                    STATUS_CODE_ICCP_RG_REMOVED);
  when ok (on_csm (set_info (fun i => i <| sender_rg_connect_flag := 0 |>
                                        <| peer_rg_connect_flag := 0 |>))).

(** The notification branch logs the status code through
    [(NAKTLV* )(icc_hdr + sizeof(ICCHdr))]: pointer arithmetic on an [ICCHdr*],
    so the TLV is taken 16 headers after the start of the message. *)
Definition nak_log_offset : nat := ICCHdr.sizeof * ICCHdr.sizeof.

Definition iccp_csm_correspond_from_msg (msg : Msg) : M CS unit :=
  iccp_csm_check_id_from_msg msg;;
  ty ← lift (LDPHdr.get_msg_type (msg_buf msg));
  if ty =? MSG_T_CAPABILITY then iccp_csm_correspond_from_capability_msg msg
  else if ty =? MSG_T_RG_CONNECT then iccp_csm_correspond_from_rg_connect_msg msg
  else if ty =? MSG_T_RG_DISCONNECT then iccp_csm_correspond_from_rg_disconnect_msg msg
  else if ty =? MSG_T_NOTIFICATION then
    _ ← lift (rd32 (nak_log_offset + 4) (msg_buf msg)); mret tt
  else if ty =? MSG_T_RG_APP_DATA then mret tt
  else on_csm (fun c => c <| csm_u_msg_in_count := u64 (csm_u_msg_in_count c + 1) |>).

(** ** Queue *)

Definition iccp_csm_insert_tail (msg : Msg) (csm : CSM) : CSM :=
  csm <| csm_msg_list ::= fun l => l ++ [msg] |>.

Definition iccp_csm_enqueue_msg (msg : Msg) : M CS unit :=
  b ← lift (swap16 0 (msg_buf msg));
  let msg := msg <| msg_buf := b |> in
  ty ← lift (LDPHdr.get_msg_type b);
  if ty =? MSG_T_RG_APP_DATA then app_csm_enqueue_msg msg
  else if ty =? MSG_T_NOTIFICATION then
    rj ← lift (NAKTLV.get_rejected_msg_id b);
    csm ← the_csm;
    let type := match find_log (ntohl rj) (csm_msg_log csm) with
                | Some e => log_type e | None => -1 end in
    if type =? MSG_T_RG_APP_DATA then app_csm_enqueue_msg msg
    else on_csm (iccp_csm_insert_tail msg)
  else on_csm (iccp_csm_insert_tail msg).

Definition iccp_csm_dequeue_msg : M CS (option Msg) :=
  csm ← the_csm;
  match csm_msg_list csm with
  | [] => mret None
  | msg :: l => on_csm (fun c => c <| csm_msg_list := l |>);; mret (Some msg)
  end.

(** [inl rc] when no message is made; allocation is taken to succeed. *)
Definition iccp_csm_init_msg (data : buf) (len : Z) : option (Z + Msg) :=
  if len <=? 0 then Some (inl MCLAG_ERROR)
  else bs ← rd 0 (Z.to_nat len) data; Some (inr (mkMsg bs len)).

(** ** State entry actions *)

Definition iccp_csm_enter_state_initialized : CSM -> CSM :=
  set_info (fun i => i <| sender_capability_flag := 1 |>).
Definition iccp_csm_enter_state_caprec : CSM -> CSM :=
  set_info (fun i => i <| sender_capability_flag := 1 |> <| peer_capability_flag := 1 |>).
Definition iccp_csm_enter_state_connecting : CSM -> CSM :=
  set_info (fun i => i <| sender_rg_connect_flag := 1 |>).
Definition iccp_csm_enter_state_operational : CSM -> CSM :=
  set_info (fun i => i <| sender_rg_connect_flag := 1 |> <| peer_rg_connect_flag := 1 |>).

(** [if (msg) iccp_csm_correspond_from_msg(csm, msg)] *)
Definition correspond_opt (om : option Msg) : M CS unit :=
  match om with Some m => iccp_csm_correspond_from_msg m | None => mret tt end.

Definition set_state (st : ICCP_CONNECTION_STATE) : M CS unit :=
  on_csm (fun c => c <| csm_current_state := st |>).

(** Prepare the message of the current state and send it. *)
Definition prepare_and_send : M CS unit :=
  len ← iccp_csm_prepare_iccp_msg;
  b ← the_buf;
  iccp_csm_send b len;; mret tt.

(** The five connected cases of the [switch] of [iccp_csm_transit]. *)
Definition iccp_csm_transit_connected (om : option Msg) : M CS unit :=
  csm ← the_csm;
  match csm_current_state csm with
  | ICCP_NONEXISTENT => mret tt
  | ICCP_INITIALIZED =>
      correspond_opt om;; prepare_and_send;;
      csm ← the_csm;
      let i := csm_iccp_info csm in
      if (sender_capability_flag i =? 1) && (peer_capability_flag i =? 0)
      then set_state ICCP_CAPSENT
      else when ((sender_capability_flag i =? 1) && (peer_capability_flag i =? 1))
             (set_state ICCP_CAPREC)
  | ICCP_CAPSENT =>
      correspond_opt om;;
      csm ← the_csm;
      let i := csm_iccp_info csm in
      when ((sender_capability_flag i =? 1) && (peer_capability_flag i =? 1))
        (set_state ICCP_CAPREC)
  | ICCP_CAPREC =>
      correspond_opt om;; memset_buf;; prepare_and_send;;
      csm ← the_csm;
      let i := csm_iccp_info csm in
      if (peer_rg_connect_flag i =? 0) && (status_code i =? 0)
      then set_state ICCP_CONNECTING
      else when ((peer_rg_connect_flag i =? 1) && (status_code i =? 0))
             (set_state ICCP_OPERATIONAL)
  | ICCP_CONNECTING =>
      correspond_opt om;; memset_buf;; prepare_and_send;;
      csm ← the_csm;
      let i := csm_iccp_info csm in
      if status_code i >? 0 then set_state ICCP_CAPREC
      else when ((peer_rg_connect_flag i =? 1) && (status_code i =? 0))
             (set_state ICCP_OPERATIONAL)
  | ICCP_OPERATIONAL =>
      correspond_opt om;;
      csm ← the_csm;
      let i := csm_iccp_info csm in
      when ((sender_rg_connect_flag i =? 0) || (peer_rg_connect_flag i =? 0))
        (memset_buf;; prepare_and_send;; set_state ICCP_CAPREC)
  end.

(** The second [switch]: entry actions of the new state. *)
Definition iccp_csm_enter_state (st : ICCP_CONNECTION_STATE) : CSM -> CSM :=
  match st with
  | ICCP_INITIALIZED => iccp_csm_enter_state_initialized
  | ICCP_CAPREC => iccp_csm_enter_state_caprec
  | ICCP_CONNECTING => iccp_csm_enter_state_connecting
  | ICCP_OPERATIONAL => iccp_csm_enter_state_operational
  | _ => id
  end.

(** One pass over a connected CSM: dequeue, the case of the current state, the
    entry action.  [iccp_csm_transit] adds the cases that touch the socket. *)
Definition iccp_csm_transit_body : M CS unit :=
  csm ← the_csm;
  let prev_state := csm_current_state csm in
  om ← iccp_csm_dequeue_msg;
  iccp_csm_transit_connected om;;
  csm ← the_csm;
  let st := csm_current_state csm in
  when (bool_decide (prev_state <> st)
        || (bool_decide (st <> ICCP_NONEXISTENT) && bool_decide (om <> None)))
    (on_csm (iccp_csm_enter_state st)).

(** ** Messages as they sit in the queues

    Enqueueing turns the first word of a message (and, for application data, of
    its parameter) to host order. *)

Definition rx_hdr (ty total id rg : Z) : buf :=
  le_split 2 ty ++ be 2 (total - MSG_L_INCLUD_U_BIT_MSG_T_L_FIELDS) ++ be 4 id
  ++ be 2 TLV_T_ICC_RG_ID ++ be 2 TLV_L_ICC_RG_ID ++ be 4 rg.

Definition rx_msg (ty id rg : Z) (t : Tlv) : buf :=
  rx_hdr ty (wire_size t) id rg
  ++ wire_param (wire_type t) (Z.of_nat (length (wire_payload t))) ++ wire_payload t.

Definition rx_capability (id s_bit : Z) : buf :=
  le_split 2 MSG_T_CAPABILITY ++ be 2 12 ++ be 4 id
  ++ be 2 (0x8000 + TLV_T_ICCP_CAPABILITY) ++ be 2 TLV_L_ICCP_CAPABILITY
  ++ be 2 (Z.shiftl s_bit 15) ++ b8 1 ++ b8 0.

Lemma rev_be n x : rev (be n x) = le_split n x.
Proof. apply rev_involutive. Qed.

Lemma swap_wire_msg ty id rg t :
  swap16 0 (wire_msg ty id rg t) = Some (rx_msg ty id rg t).
Proof.
  unfold wire_msg, wire_icc_hdr, wire_ldp_hdr, rx_msg, rx_hdr.
  rewrite <- !app_assoc. rewrite swap16_head by len. by rewrite rev_be.
Qed.

Lemma swap_wire_capability id f :
  swap16 0 (wire_capability id f) = Some (rx_capability id f).
Proof.
  unfold wire_capability, wire_ldp_hdr, rx_capability.
  rewrite <- !app_assoc. rewrite swap16_head by len. by rewrite rev_be.
Qed.

Lemma rx_type ty r :
  0 <= ty < 2 ^ 15 -> LDPHdr.get_msg_type (le_split 2 ty ++ r) = Some ty.
Proof.
  intros H. unfold LDPHdr.get_msg_type. rewrite rdbf_head by len. f_equal.
  rewrite le_combine_split2 by lia. unfold bf_get. rewrite Z.shiftr_0_r.
  by apply word_land.
Qed.

Lemma rx_msg_type ty id rg t :
  0 <= ty < 2 ^ 15 -> LDPHdr.get_msg_type (rx_msg ty id rg t) = Some ty.
Proof.
  intros. unfold rx_msg, rx_hdr. rewrite <- !app_assoc. by apply rx_type.
Qed.

Lemma rx_msg_rg ty id rg t :
  0 <= rg < 2 ^ 32 -> ntohl <$> ICCHdr.get_icc_rg_id (rx_msg ty id rg t) = Some rg.
Proof.
  intros. unfold rx_msg, rx_hdr, ICCHdr.get_icc_rg_id, rd32. rewrite <- !app_assoc.
  skip_chunks. rewrite rd_head by len. simpl. f_equal. by rewrite ntohl_be, u32_small.
Qed.

Lemma holds_true r v : r = Some v -> holds r v = Some true.
Proof. intros ->. unfold holds. simpl. by rewrite Z.eqb_refl. Qed.

Definition on_info (f : IccpInfo -> IccpInfo) (s : CS) : CS :=
  s <| cs_csm ::= set_info f |>.

Lemma on_info_ext f g s :
  f (csm_iccp_info (cs_csm s)) = g (csm_iccp_info (cs_csm s)) -> on_info f s = on_info g s.
Proof. intros H. destruct s as [[] ? ? ? ?]. unfold on_info, set_info, set in *. cbn in *. by rewrite H. Qed.

Lemma on_info_id f s :
  f (csm_iccp_info (cs_csm s)) = csm_iccp_info (cs_csm s) -> on_info f s = s.
Proof. intros H. rewrite (on_info_ext f id) by done. by destruct s as [[] ? ? ? ?]. Qed.

(** Evaluate a conjunction of field tests on a chunked buffer. *)
Ltac field_test :=
  apply holds_true; cbv [ICCParameter.get_u_bit ICCParameter.get_f_bit
    ICCParameter.get_type ICCParameter.get_len LDPICCPCapabilityTLV.get_s_bit
    LDPICCPCapabilityTLV.get_major_ver LDPICCPCapabilityTLV.get_minior_ver
    DisconnectCodeTLV.get_iccp_status_code rd8 rd16 rd32
    ICCParameter.sizeof ICCHdr.sizeof LDPHdr.sizeof TLV Nat.add];
  bop; vm_compute; reflexivity.

Ltac lstep E := rewrite (bind_Some _ _ _ _ _ (lift_Some _ _ _ E)).

Lemma recv_capability id n s :
  iccp_csm_correspond_from_msg (mkMsg (rx_capability id 1) n) s
  = Some (tt, on_info (fun i => i <| peer_capability_flag := 1 |>) s).
Proof.
  assert (Ht : LDPHdr.get_msg_type (rx_capability id 1) = Some MSG_T_CAPABILITY)
    by by apply rx_type.
  unfold iccp_csm_correspond_from_msg, iccp_csm_check_id_from_msg.
  cbn [msg_buf]. rewrite (bind_Some _ _ s tt s)
    by by (rewrite (bind_Some _ _ _ _ _ (lift_Some _ _ _ Ht))).
  lstep Ht. rewrite Z.eqb_refl. unfold iccp_csm_correspond_from_capability_msg.
  cbn [msg_buf].
  assert (E1 : swap16 LDPHdr.sizeof (rx_capability id 1)
    = Some (le_split 2 MSG_T_CAPABILITY ++ be 2 12 ++ be 4 id
        ++ le_split 2 (0x8000 + TLV_T_ICCP_CAPABILITY) ++ be 2 TLV_L_ICCP_CAPABILITY
        ++ be 2 (Z.shiftl 1 15) ++ b8 1 ++ b8 0)).
  { unfold rx_capability, LDPHdr.sizeof. bop. by rewrite rev_be. }
  lstep E1.
  erewrite bind_Some by (apply lift_Some; unfold LDPHdr.sizeof, ICCParameter.sizeof;
    cbn [Nat.add]; bop; reflexivity).
  rewrite rev_be.
  erewrite bind_Some; [|apply lift_Some; unfold sc_and].
  2: { repeat match goal with |- context [holds ?r ?v] =>
         let E := fresh in assert (E : holds r v = Some true) by field_test;
         rewrite E; clear E end. reflexivity. }
  done.
Qed.

(** What the identifier check does to the session data. *)
Definition checked (rg : Z) (i : IccpInfo) : IccpInfo :=
  if rg =? icc_rg_id i then
    if status_code i =? STATUS_CODE_U_ICCP_RG
    then i <| status_code := 0 |> <| rejected_msg_id := 0 |> else i
  else i <| status_code := STATUS_CODE_U_ICCP_RG |> <| rejected_msg_id := rg |>.

Lemma recv_check_id ty id rg t n s :
  0 <= ty < 2 ^ 15 -> ty <> MSG_T_CAPABILITY -> 0 <= rg < 2 ^ 32 ->
  iccp_csm_check_id_from_msg (mkMsg (rx_msg ty id rg t) n) s
  = Some (tt, on_info (checked rg) s).
Proof.
  intros Ht Hc Hr. pose proof (rx_msg_rg ty id rg t Hr) as Hg.
  unfold iccp_csm_check_id_from_msg. cbn [msg_buf]. lstep (rx_msg_type ty id rg t Ht).
  rewrite (proj2 (Z.eqb_neq _ _) Hc).
  destruct (ICCHdr.get_icc_rg_id _) as [v|] eqn:Ev; [|done]. injection Hg as Hg.
  rewrite (bind_Some _ _ _ _ _ (lift_Some _ _ _ eq_refl)), bind_the_csm, Hg. cbn zeta.
  set (i := csm_iccp_info (cs_csm s)).
  destruct (rg =? icc_rg_id i) eqn:E1; [destruct (status_code i =? _) eqn:E2|].
  - unfold when. rewrite (on_info_ext (checked rg) (fun i => i <| status_code := 0 |>
      <| rejected_msg_id := 0 |>)); [done|]. unfold checked. fold i. by rewrite E1, E2.
  - unfold when. rewrite (on_info_id (checked rg)); [done|].
    unfold checked. fold i. by rewrite E1, E2.
  - rewrite (on_info_ext (checked rg) (fun i => i <| status_code := STATUS_CODE_U_ICCP_RG |>
      <| rejected_msg_id := rg |>)); [done|]. unfold checked. fold i. by rewrite E1.
Qed.

(** Messages with a parameter, received by the connection layer. *)
Lemma recv_connect id rg name n s :
  0 <= rg < 2 ^ 32 ->
  iccp_csm_correspond_from_msg
    (mkMsg (rx_msg MSG_T_RG_CONNECT id rg (T_SenderName name)) n) s
  = Some (tt, on_info (fun i => checked rg i <| peer_rg_connect_flag := 1 |>) s).
Proof.
  intros Hr. unfold iccp_csm_correspond_from_msg.
  rewrite (bind_Some _ _ _ _ _ (recv_check_id _ id rg (T_SenderName name) n s
    ltac:(done) ltac:(done) Hr)). cbn [msg_buf].
  lstep (rx_msg_type MSG_T_RG_CONNECT id rg (T_SenderName name) ltac:(done)).
  cbn [Z.eqb MSG_T_RG_CONNECT MSG_T_CAPABILITY Pos.eqb].
  unfold iccp_csm_correspond_from_rg_connect_msg. cbn [msg_buf].
  assert (E : swap16 TLV (rx_msg MSG_T_RG_CONNECT id rg (T_SenderName name))
    = Some (rx_hdr MSG_T_RG_CONNECT (wire_size (T_SenderName name)) id rg
        ++ le_split 2 TLV_T_ICC_SENDER_NAME ++ be 2 (Z.of_nat (length name)) ++ name)).
  { unfold rx_msg, wire_param, TLV, ICCHdr.sizeof. rewrite <- app_assoc.
    rewrite (swap16_skip 16 _ _ 16) by first [unfold rx_hdr; len | done]. cbn [Nat.sub].
    rewrite swap16_head by len. cbn [fmap option_fmap option_map]. by rewrite rev_be. }
  lstep E. erewrite bind_Some; [|apply lift_Some; unfold sc_and].
  2: { unfold rx_hdr. rewrite <- !app_assoc.
       repeat match goal with |- context [holds ?r ?v] =>
         let E := fresh in assert (E : holds r v = Some true) by field_test;
         rewrite E; clear E end. reflexivity. }
  done.
Qed.

Lemma recv_disconnect id rg code n s :
  0 <= rg < 2 ^ 32 -> 0 <= code < 2 ^ 32 ->
  iccp_csm_correspond_from_msg
    (mkMsg (rx_msg MSG_T_RG_DISCONNECT id rg (T_DisconnectCode code)) n) s
  = Some (tt, on_info (fun i =>
      if code =? STATUS_CODE_ICCP_RG_REMOVED
      then checked rg i <| sender_rg_connect_flag := 0 |> <| peer_rg_connect_flag := 0 |>
      else checked rg i) s).
Proof.
  intros Hr Hcode. unfold iccp_csm_correspond_from_msg.
  rewrite (bind_Some _ _ _ _ _ (recv_check_id _ id rg (T_DisconnectCode code) n s
    ltac:(done) ltac:(done) Hr)). cbn [msg_buf].
  lstep (rx_msg_type MSG_T_RG_DISCONNECT id rg (T_DisconnectCode code) ltac:(done)).
  cbn [Z.eqb MSG_T_RG_CONNECT MSG_T_CAPABILITY MSG_T_RG_DISCONNECT Pos.eqb].
  unfold iccp_csm_correspond_from_rg_disconnect_msg. cbn [msg_buf].
  assert (E : swap16 TLV (rx_msg MSG_T_RG_DISCONNECT id rg (T_DisconnectCode code))
    = Some (rx_hdr MSG_T_RG_DISCONNECT 24 id rg
        ++ le_split 2 TLV_T_DISCONNECT_CODE ++ be 2 4 ++ be 4 code)).
  { unfold rx_msg, wire_param, TLV, ICCHdr.sizeof. rewrite <- app_assoc.
    rewrite (swap16_skip 16 _ _ 16) by first [unfold rx_hdr; len | done]. cbn [Nat.sub].
    rewrite swap16_head by len. cbn [fmap option_fmap option_map]. by rewrite rev_be. }
  lstep E. erewrite bind_Some; [|apply lift_Some; unfold sc_and].
  2: { unfold rx_hdr. rewrite <- !app_assoc.
       do 4 match goal with |- context [holds ?r ?v] =>
         let E := fresh in assert (E : holds r v = Some true) by field_test;
         rewrite E; clear E end.
       unfold holds, DisconnectCodeTLV.get_iccp_status_code, rd32, TLV, ICCHdr.sizeof.
       cbn [Nat.add]. bop. rewrite ntohl_be, u32_small by done. reflexivity. }
  by destruct (code =? STATUS_CODE_ICCP_RG_REMOVED).
Qed.

(** ** Enqueueing the connection messages *)

Definition queued (m : Msg) (s : CS) : CS := s <| cs_csm ::= iccp_csm_insert_tail m |>.

Lemma enqueue_capability id f n s :
  iccp_csm_enqueue_msg (mkMsg (wire_capability id f) n) s
  = Some (tt, queued (mkMsg (rx_capability id f) n) s).
Proof.
  unfold iccp_csm_enqueue_msg. cbn [msg_buf]. lstep (swap_wire_capability id f).
  assert (Ht : LDPHdr.get_msg_type (rx_capability id f) = Some MSG_T_CAPABILITY)
    by by apply rx_type.
  by lstep Ht.
Qed.

Lemma enqueue_conn ty id rg t n s :
  ty = MSG_T_RG_CONNECT \/ ty = MSG_T_RG_DISCONNECT ->
  iccp_csm_enqueue_msg (mkMsg (wire_msg ty id rg t) n) s
  = Some (tt, queued (mkMsg (rx_msg ty id rg t) n) s).
Proof.
  intros Hty. unfold iccp_csm_enqueue_msg. cbn [msg_buf].
  lstep (swap_wire_msg ty id rg t).
  assert (Ht : 0 <= ty < 2 ^ 15) by (destruct Hty; subst; done).
  lstep (rx_msg_type ty id rg t Ht). by destruct Hty; subst.
Qed.

(** ** Sending the message of the current state *)

(** A CSM whose socket is open and whose writes go through. *)
Record ready (s : CS) : Prop := mk_ready {
  rdy_fd : 0 < csm_sock_fd (cs_csm s);
  rdy_log : log_ok (csm_msg_log (cs_csm s));
  rdy_wr : g_wr (cs_g s) = [];
  rdy_info : info_ok (csm_iccp_info (cs_csm s));
  rdy_id : 0 <= cur_id s < 2 ^ 32;
}.

(** What a step of the state machine may touch besides the session data. *)
Definition sent_more (bs : list buf) (s s' : CS) : Prop :=
  g_sent (cs_g s') = g_sent (cs_g s) ++ map (pair (csm_sock_fd (cs_csm s))) bs
  /\ csm_iccp_info (cs_csm s') = csm_iccp_info (cs_csm s)
  /\ csm_current_state (cs_csm s') = csm_current_state (cs_csm s)
  /\ csm_msg_list (cs_csm s') = csm_msg_list (cs_csm s)
  /\ csm_sock_fd (cs_csm s') = csm_sock_fd (cs_csm s).

Lemma bump_counter_frame d t st c :
  csm_iccp_info (bump_counter d t st c) = csm_iccp_info c
  /\ csm_current_state (bump_counter d t st c) = csm_current_state c
  /\ csm_msg_list (bump_counter d t st c) = csm_msg_list c
  /\ csm_sock_fd (bump_counter d t st c) = csm_sock_fd c
  /\ csm_msg_log (bump_counter d t st c) = csm_msg_log c.
Proof. unfold bump_counter. by case_match. Qed.

Lemma after_send_frame bs e s :
  log_ok (csm_msg_log (cs_csm s)) ->
  sent_more [bs] s (after_send bs e s) /\ log_ok (csm_msg_log (cs_csm (after_send bs e s)))
  /\ g_wr (cs_g (after_send bs e s)) = g_wr (cs_g s).
Proof.
  intros Hl. destruct (log_push_ok e _ Hl) as (l & El & Hl' & _).
  destruct s as [c g ? ? ?].
  unfold after_send, sent_more, MLACP_SET_ICCP_TX_DBG_COUNTER. unfold set. cbn in *.
  rewrite El. cbn [default].
  match goal with |- context [bump_counter ?d ?t ?st ?c] =>
    destruct (bump_counter_frame d t st c) as (-> & -> & -> & -> & ->) end.
  done.
Qed.

Lemma wire_msg_type_word ty id rg t r :
  ntohs <$> LDPHdr.get_msg_type (wire_msg ty id rg t ++ r)
  = Some (ntohs (bf_get 0 15 (le_combine (be 2 ty)))).
Proof.
  unfold wire_msg, wire_icc_hdr, wire_ldp_hdr, LDPHdr.get_msg_type.
  rewrite <- !app_assoc. bop. done.
Qed.

Lemma wire_msg_id ty id rg t r :
  0 <= id < 2 ^ 32 -> ntohl <$> LDPHdr.get_msg_id (wire_msg ty id rg t ++ r) = Some id.
Proof.
  intros. unfold wire_msg, wire_icc_hdr, wire_ldp_hdr, LDPHdr.get_msg_id, rd32.
  rewrite <- !app_assoc. bop. by rewrite ntohl_be, u32_small.
Qed.

Lemma wire_msg_param ty id rg t r :
  ntohs <$> ICCParameter.get_type TLV (wire_msg ty id rg t ++ r) = Some (wire_type t).
Proof.
  unfold wire_msg, wire_icc_hdr, wire_ldp_hdr, wire_param, ICCParameter.get_type, TLV,
    ICCHdr.sizeof.
  rewrite <- !app_assoc. bop. f_equal. destruct t; vm_compute; reflexivity.
Qed.

(** Sending a prepared message logs its identifier, type and parameter. *)
Lemma send_wire_msg s ty id rg t r :
  ready s -> 0 <= id < 2 ^ 32 -> 
  ty ∈ [MSG_T_RG_CONNECT; MSG_T_RG_DISCONNECT; MSG_T_NOTIFICATION; MSG_T_RG_APP_DATA] ->
  iccp_csm_send (wire_msg ty id rg t ++ r) (wire_size t) s
  = Some (wire_size t, after_send (wire_msg ty id rg t) (mkLog id ty (wire_type t)) s).
Proof.
  intros [Hfd Hl Hw Hi _] Hid Hty.
  pose proof (wire_msg_type_word ty id rg t r) as H1.
  pose proof (wire_msg_id ty id rg t r Hid) as H2.
  pose proof (wire_msg_param ty id rg t r) as H3.
  destruct (LDPHdr.get_msg_type _) as [w|] eqn:E1; [|done].
  destruct (LDPHdr.get_msg_id _) as [i|] eqn:E2; [|done].
  destruct (ICCParameter.get_type _ _) as [p|] eqn:E3; [|done].
  injection H1 as H1. injection H2 as H2. injection H3 as H3.
  assert (ntohs w = ty) as Hw'.
  { rewrite H1. clear -Hty. set_unfold. destruct_or?; subst; vm_compute; done. }
  rewrite <- (wire_msg_length ty id rg t).
  rewrite (iccp_csm_send_run s _ r w p i ICCHdr.sizeof); try done.
  - by rewrite H2, H3, Hw'.
  - rewrite Hw'. clear -Hty. set_unfold. by destruct_or?; subst.
Qed.

Lemma send_capability s id f r :
  ready s -> 0 <= id < 2 ^ 32 ->
  iccp_csm_send (wire_capability id f ++ r) 16 s
  = Some (16, after_send (wire_capability id f) (mkLog id MSG_T_CAPABILITY 0x8700) s).
Proof.
  intros [Hfd Hl Hw Hi _] Hid.
  assert (E1 : LDPHdr.get_msg_type (wire_capability id f ++ r) = Some 0x0202).
  { unfold wire_capability, wire_ldp_hdr, LDPHdr.get_msg_type.
    rewrite <- !app_assoc. bop. f_equal. }
  assert (E2 : LDPHdr.get_msg_id (wire_capability id f ++ r) = Some (le_combine (be 4 id))).
  { unfold wire_capability, wire_ldp_hdr, LDPHdr.get_msg_id, rd32.
    rewrite <- !app_assoc. by bop. }
  assert (E3 : ICCParameter.get_type LDPHdr.sizeof (wire_capability id f ++ r) = Some 0x87).
  { unfold wire_capability, wire_ldp_hdr, ICCParameter.get_type, LDPHdr.sizeof.
    rewrite <- !app_assoc. bop. f_equal. }
  assert (El : 16 = Z.of_nat (length (wire_capability id f)))
    by (unfold wire_capability, wire_ldp_hdr; len).
  assert (Hne : wire_capability id f <> []) by (intros E; by rewrite E in El).
  rewrite El, (iccp_csm_send_run s _ r _ _ _ LDPHdr.sizeof Hfd Hl Hw Hne E1
    ltac:(done) E3 E2).
  by rewrite ntohl_be, u32_small.
Qed.

Lemma ready_with_msg s bs : ready s -> ready (with_msg s bs).
Proof.
  intros [????]. split; [done..|]. unfold cur_id, with_msg, set. cbn.
  pose proof (u32_range (g_ICCP_MSG_ID (cs_g s) + 1)). unfold u32 in *. lia.
Qed.

Lemma ready_after_send bs e s : ready s -> ready (after_send bs e s).
Proof.
  intros [H1 H2 H3 H4 H5].
  destruct (after_send_frame bs e s H2) as ((_ & Hi & _ & _ & Hf) & Hl & Hw).
  split; [lia | done | congruence | by rewrite Hi | done].
Qed.

Lemma ready_info f s :
  ready s -> info_ok (f (csm_iccp_info (cs_csm s))) -> ready (on_info f s).
Proof. intros [????] ?. by split. Qed.

(** The prepared message is the one sent, byte for byte. *)
Lemma send_expected s bs :
  ready s -> expected_iccp_msg s = Some bs ->
  exists e, forall r s', ready s' ->
    iccp_csm_send (bs ++ r) (Z.of_nat (length bs)) s'
    = Some (Z.of_nat (length bs), after_send bs e s').
Proof.
  intros Hs E. unfold expected_iccp_msg in E. cbn zeta in E.
  pose proof (rdy_id _ Hs) as Hid.
  assert (Hm : forall ty t, bs = wire_msg ty (cur_id s) (rg_id s) t ->
    ty ∈ [MSG_T_RG_CONNECT; MSG_T_RG_DISCONNECT; MSG_T_NOTIFICATION; MSG_T_RG_APP_DATA] ->
    exists e, forall r s', ready s' ->
      iccp_csm_send (bs ++ r) (Z.of_nat (length bs)) s'
      = Some (Z.of_nat (length bs), after_send bs e s')).
  { intros ty t -> Hty. eexists. intros r s' Hs'. rewrite wire_msg_length.
    by apply send_wire_msg. }
  destruct (csm_current_state (cs_csm s)); try discriminate E.
  - injection E as <-. eexists. intros r s' Hs'.
    replace (Z.of_nat (length (wire_capability _ _))) with 16
      by (unfold wire_capability, wire_ldp_hdr; len).
    by apply send_capability.
  - destruct (_ >? _); injection E as E; eapply Hm; first [symmetry; exact E | clear; set_solver].
  - destruct (_ >? _); [|discriminate E].
    injection E as E; eapply Hm; first [symmetry; exact E | clear; set_solver].
  - destruct (_ =? _); [|discriminate E].
    injection E as E; eapply Hm; first [symmetry; exact E | clear; set_solver].
Qed.

Lemma prepare_and_send_run s :
  ready s -> exists s', prepare_and_send s = Some (tt, s') /\ ready s'
    /\ sent_more (option_list (expected_iccp_msg s)) s s'.
Proof.
  intros Hs. unfold prepare_and_send.
  pose proof (prepare_iccp_msg_expected s (rdy_info _ Hs)) as Hp.
  destruct (expected_iccp_msg s) as [bs|] eqn:E.
  - destruct (send_expected s bs Hs E) as [e He].
    rewrite (bind_Some _ _ _ _ _ Hp). pose proof (ready_with_msg s bs Hs) as Hs'.
    exists (after_send bs e (with_msg s bs)). split; [|split].
    + rewrite (bind_Some the_buf _ _ _ _ eq_refl).
      by erewrite bind_Some by apply (He _ _ Hs').
    + by apply ready_after_send.
    + destruct (after_send_frame bs e (with_msg s bs) (rdy_log _ Hs')) as [H _]. done.
  - rewrite (bind_Some _ _ _ _ _ Hp). exists s. split; [|split; [done|]].
    + rewrite (bind_Some the_buf _ _ _ _ eq_refl).
      rewrite (bind_Some _ _ s MCLAG_ERROR s); [done|].
      unfold iccp_csm_send. rewrite bind_the_csm. by rewrite orb_true_r.
    + unfold sent_more. simpl. by rewrite app_nil_r.
Qed.

(** ** A peer of another redundancy group *)

(** The capability messages and the connect messages of other groups. *)
Inductive foreign (rg : Z) : Msg -> Prop :=
  | foreign_cap id n : foreign rg (mkMsg (rx_capability id 1) n)
  | foreign_conn id rg' name n :
      rg' <> rg -> 0 <= rg' < 2 ^ 32 ->
      foreign rg (mkMsg (rx_msg MSG_T_RG_CONNECT id rg' (T_SenderName name)) n).

(** No group member was heard: either no connect message arrived, or the last
    one was rejected. *)
Definition unheard (i : IccpInfo) : Prop :=
  status_code i = 0 /\ peer_rg_connect_flag i = 0 \/ status_code i = STATUS_CODE_U_ICCP_RG.

Record mismatched (rg : Z) (s : CS) : Prop := mk_mismatched {
  mm_ready : ready s;
  mm_rg : rg_id s = rg;
  mm_queue : Forall (foreign rg) (csm_msg_list (cs_csm s));
  mm_state : csm_current_state (cs_csm s) <> ICCP_OPERATIONAL;
  mm_live : csm_current_state (cs_csm s) <> ICCP_NONEXISTENT;
  mm_info : unheard (csm_iccp_info (cs_csm s));
}.

Lemma mm_receive rg s om :
  mismatched rg s -> (forall m, om = Some m -> foreign rg m) ->
  exists s', correspond_opt om s = Some (tt, s') /\ mismatched rg s'
    /\ csm_current_state (cs_csm s') = csm_current_state (cs_csm s).
Proof.
  intros [Hr Hg Hq Hs Hl Hi] Hom. destruct om as [m|]; [|by exists s].
  destruct (Hom m eq_refl) as [id n|id rg' name n Hne Hrg]; cbn [correspond_opt].
  - eexists. split; [apply recv_capability|]. split; [|done].
    split; try done. apply ready_info; [done|apply (rdy_info _ Hr)].
  - eexists. split; [by apply recv_connect|]. split; [|done].
    assert (E : checked rg' (csm_iccp_info (cs_csm s))
      = csm_iccp_info (cs_csm s) <| status_code := STATUS_CODE_U_ICCP_RG |>
          <| rejected_msg_id := rg' |>).
    { unfold checked. unfold rg_id in Hg. rewrite Hg. by rewrite (proj2 (Z.eqb_neq _ _) Hne). }
    rewrite (on_info_ext _ (fun i => i <| status_code := STATUS_CODE_U_ICCP_RG |>
      <| rejected_msg_id := rg' |> <| peer_rg_connect_flag := 1 |>)) by by rewrite E.
    split; try done; [apply ready_info; [done|apply (rdy_info _ Hr)]|by right].
Qed.

Lemma mm_frame rg bs s s' : mismatched rg s -> ready s' -> sent_more bs s s' -> mismatched rg s'.
Proof.
  intros [Hr Hg Hq Hs Hl Hi] Hr' (_ & H1 & H2 & H3 & _). unfold rg_id in *.
  split; unfold rg_id; rewrite ?H1, ?H2, ?H3; done.
Qed.

Lemma mm_set_state rg st s :
  mismatched rg s -> st <> ICCP_OPERATIONAL -> st <> ICCP_NONEXISTENT ->
  exists s', set_state st s = Some (tt, s') /\ mismatched rg s'.
Proof.
  intros [[????] Hg Hq Hs Hl Hi] H1 H2. eexists. split; [done|]. by split.
Qed.

Lemma mm_send rg s :
  mismatched rg s -> exists s', prepare_and_send s = Some (tt, s') /\ mismatched rg s'
    /\ csm_current_state (cs_csm s') = csm_current_state (cs_csm s).
Proof.
  intros Hm. destruct (prepare_and_send_run s (mm_ready _ _ Hm)) as (s' & E & Hr & Hs).
  exists s'. split; [done|]. split; [by eapply mm_frame|apply Hs].
Qed.

Lemma mm_memset rg s :
  mismatched rg s -> exists s', memset_buf s = Some (tt, s') /\ mismatched rg s'
    /\ csm_current_state (cs_csm s') = csm_current_state (cs_csm s).
Proof. intros [[????] Hg Hq Hs Hl Hi]. eexists. split; [done|]. by split. Qed.

Lemma mm_connected rg s om :
  mismatched rg s -> (forall m, om = Some m -> foreign rg m) ->
  exists s', iccp_csm_transit_connected om s = Some (tt, s') /\ mismatched rg s'.
Proof.
  intros Hm Hom. unfold iccp_csm_transit_connected. rewrite bind_the_csm.
  destruct (mm_receive rg s om Hm Hom) as (s1 & E1 & M1 & S1).
  assert (Hi1 := mm_info _ _ M1).
  destruct (csm_current_state (cs_csm s)) eqn:Es;
    [by destruct (mm_live _ _ Hm)| | | | |by destruct (mm_state _ _ Hm)];
    rewrite (bind_Some _ _ _ _ _ E1).
  - destruct (mm_send rg s1 M1) as (s2 & E2 & M2 & S2).
    rewrite (bind_Some _ _ _ _ _ E2), bind_the_csm. cbn zeta. unfold when.
    repeat case_match; first [by apply mm_set_state | by exists s2].
  - rewrite bind_the_csm. cbn zeta. unfold when.
    repeat case_match; first [by apply mm_set_state | by exists s1].
  - destruct (mm_memset rg s1 M1) as (s2 & E2 & M2 & S2).
    rewrite (bind_Some _ _ _ _ _ E2).
    destruct (mm_send rg s2 M2) as (s3 & E3 & M3 & S3).
    rewrite (bind_Some _ _ _ _ _ E3), bind_the_csm. cbn zeta. unfold when.
    destruct (mm_info _ _ M3) as [[-> ->]| ->]; cbn.
    + by apply mm_set_state.
    + rewrite !andb_false_r. by exists s3.
  - destruct (mm_memset rg s1 M1) as (s2 & E2 & M2 & S2).
    rewrite (bind_Some _ _ _ _ _ E2).
    destruct (mm_send rg s2 M2) as (s3 & E3 & M3 & S3).
    rewrite (bind_Some _ _ _ _ _ E3), bind_the_csm. cbn zeta. unfold when.
    destruct (mm_info _ _ M3) as [[-> ->]| ->]; cbn.
    + by exists s3.
    + by apply mm_set_state.
Qed.

Lemma mm_enter rg s :
  mismatched rg s ->
  mismatched rg (s <| cs_csm ::= iccp_csm_enter_state (csm_current_state (cs_csm s)) |>).
Proof.
  intros [Hr Hg Hq Hs Hl Hi]. pose proof (rdy_info _ Hr) as [Hi1 Hi2].
  destruct Hr as [? ? ? ? ?].
  destruct (csm_current_state (cs_csm s)) eqn:Es; try done.
  all: split; try (simpl; rewrite Es; done); try done; split; try done; split; simpl; (done || lia).
Qed.

Lemma mm_transit rg s :
  mismatched rg s -> exists s', iccp_csm_transit_body s = Some (tt, s') /\ mismatched rg s'.
Proof.
  intros Hm. unfold iccp_csm_transit_body. rewrite bind_the_csm. cbn zeta.
  assert (exists om s1, iccp_csm_dequeue_msg s = Some (om, s1) /\ mismatched rg s1
    /\ forall m, om = Some m -> foreign rg m) as (om & s1 & E1 & M1 & Hom).
  { destruct Hm as [[????] Hg Hq Hs Hl Hi]. unfold iccp_csm_dequeue_msg. rewrite bind_the_csm.
    destruct (csm_msg_list (cs_csm s)) as [|m l] eqn:El.
    - exists None, s. split; [done|]. split; [|done]. split; try done. by rewrite El.
    - apply Forall_cons_1 in Hq as [Hm Hq]. do 2 eexists. split; [done|].
      split; [by split|]. by intros ? [= <-]. }
  rewrite (bind_Some _ _ _ _ _ E1).
  destruct (mm_connected rg s1 om M1 Hom) as (s2 & E2 & M2).
  rewrite (bind_Some _ _ _ _ _ E2), bind_the_csm. unfold when.
  case_match; [|by exists s2]. eexists. split; [done|]. by apply mm_enter.
Qed.

(** ** Properties *)

(** Passes over a CSM, with the messages that arrive before each of them. *)
Fixpoint passes (arrivals : list (list Msg)) : M CS unit :=
  match arrivals with
  | [] => mret tt
  | ms :: rest =>
      foreach (fun m => on_csm (iccp_csm_insert_tail m)) ms;;
      iccp_csm_transit_body;;
      passes rest
  end.

Lemma mm_arrive rg ms s :
  mismatched rg s -> Forall (foreign rg) ms ->
  exists s', foreach (fun m => on_csm (iccp_csm_insert_tail m)) ms s = Some (tt, s')
    /\ mismatched rg s'.
Proof.
  revert s. induction ms as [|m ms IH]; intros s Hs Hms; [by exists s|].
  apply Forall_cons_1 in Hms as [Hm Hms]. cbn [foreach].
  rewrite (bind_Some _ _ s tt (queued m s)) by done. apply IH; [|done].
  destruct Hs as [[????] Hg Hq Hs Hl Hi]. split; try done.
  simpl. apply Forall_app. split; [done|by constructor].
Qed.

(** C3. A peer of another redundancy group never brings the session up: while the
    only connect messages that arrive carry a different RG identifier, in any
    number and mixed with capability messages, every pass is defined and the
    connection never reaches OPERATIONAL. *)
Theorem rg_mismatch_never_operational rg s arrivals :
  mismatched rg s -> Forall (Forall (foreign rg)) arrivals ->
  exists s', passes arrivals s = Some (tt, s')
    /\ csm_current_state (cs_csm s') <> ICCP_OPERATIONAL.
Proof.
  intros Hm Ha. revert s Hm. induction Ha as [|ms rest Hms Hrest IH]; intros s Hm.
  - exists s. split; [done|apply (mm_state _ _ Hm)].
  - destruct (mm_arrive rg ms s Hm Hms) as (s1 & E1 & M1).
    destruct (mm_transit rg s1 M1) as (s2 & E2 & M2). cbn [passes].
    rewrite (bind_Some _ _ _ _ _ E1), (bind_Some _ _ _ _ _ E2). by apply IH.
Qed.

(** The notification branch reads out of bounds: the status code it logs is
    taken 256 bytes after the start of the message, so handling any notification
    of the connection layer shorter than 264 bytes (a NAK is 28 bytes) is
    undefined. *)
Theorem recv_notification_out_of_bounds msg s :
  LDPHdr.get_msg_type (msg_buf msg) = Some MSG_T_NOTIFICATION ->
  (length (msg_buf msg) < 264)%nat ->
  iccp_csm_correspond_from_msg msg s = None.
Proof.
  intros Ht Hl. unfold iccp_csm_correspond_from_msg.
  destruct (iccp_csm_check_id_from_msg msg s) as [[[] s1]|] eqn:E; [|by apply bind_None].
  rewrite (bind_Some _ _ _ _ _ E). lstep Ht.
  cbn [Z.eqb MSG_T_NOTIFICATION MSG_T_CAPABILITY MSG_T_RG_CONNECT MSG_T_RG_DISCONNECT Pos.eqb].
  apply bind_None. unfold lift, rd32, rd, nak_log_offset, ICCHdr.sizeof.
  by rewrite (proj2 (Nat.leb_gt _ _)) by (cbn [Nat.mul Nat.add]; lia).
Qed.

(** C24. The connection messages survive the trip: what one CSM prepares, once
    enqueued and handled by another, sets exactly the flag it announces, and a
    connect message is checked against the receiver's redundancy group. *)
Theorem connection_messages_roundtrip a b n m :
  info_ok (csm_iccp_info (cs_csm a)) -> 0 <= rg_id a < 2 ^ 32 ->
  sender_capability_flag (csm_iccp_info (cs_csm a)) = 1 ->
  (exists a', iccp_csm_prepare_capability_msg a = Some (16, a')
   /\ rd 0 16 (g_csm_buf (cs_g a')) = Some (wire_capability (cur_id a) 1)
   /\ exists q, iccp_csm_enqueue_msg (mkMsg (wire_capability (cur_id a) 1) n) b
        = Some (tt, queued q b)
      /\ iccp_csm_correspond_from_msg q b
        = Some (tt, on_info (fun i => i <| peer_capability_flag := 1 |>) b))
  /\ (exists len a' bs, iccp_csm_prepare_rg_connect_msg a = Some (len, a')
   /\ rd 0 (Z.to_nat len) (g_csm_buf (cs_g a')) = Some bs
   /\ exists q, iccp_csm_enqueue_msg (mkMsg bs m) b = Some (tt, queued q b)
      /\ iccp_csm_correspond_from_msg q b
        = Some (tt, on_info (fun i => checked (rg_id a) i <| peer_rg_connect_flag := 1 |>) b)).
Proof.
  intros [Hc Hn] Hr Hs. split.
  - eexists. split; [apply prepare_capability_wire; by rewrite Hs|]. rewrite Hs.
    split; [apply rd_head; unfold wire_capability, wire_ldp_hdr; len|].
    eexists. split; [apply enqueue_capability|]. apply recv_capability.
  - do 3 eexists. split; [apply prepare_rg_connect_wire|split; [|eexists; split]].
    + unfold strlen. pose proof (cstr_length (sender_name (csm_iccp_info (cs_csm a)))). lia.
    + apply rd_head.
      match goal with |- length (wire_msg ?t ?i ?g ?x) = _ =>
        pose proof (wire_msg_length t i g x) as L end.
      unfold wire_size in L. cbn [wire_payload] in L. lia.
    + apply enqueue_conn. by left.
    + by apply recv_connect.
Qed.
