(* ===== verification/MsgLogRing.v ===== *)
(** The log of sent messages and the demultiplexing that relies on it.

    [iccp_csm_send] records the identifier, type and TLV of every message in a
    ring of 128 slots; a NAK carries the identifier of the message it rejects,
    and the ring decides which state machine gets it.  This file shows that the
    ring remembers the last 128 messages and that enqueueing routes every
    application message and every NAK to the layer that owns it. *)

From Stdlib Require Import ZArith Lia.
From stdpp Require Import base list gmap numbers option.
From coqutil Require Import Byte Word.LittleEndianList.
From S2P Require Import Prelude CBuf State MsgFormat Wire CsmMsg AppCsm Csm.

(** ** The ring *)

(** The log after the messages [es] were sent, oldest first. *)
Definition log_of (es : list MsgTypeSet) : option MsgLog :=
  foldl (fun ol e => l ← ol; log_push e l) (Some zero_log) es.

Lemma zero_log_ok : log_ok zero_log.
Proof. done. Qed.

Record ring (es : list MsgTypeSet) (l : MsgLog) : Prop := mk_ring {
  ring_ok : log_ok l;
  ring_end : log_end_index l = Z.of_nat (length es) mod 128;
  ring_sound : forall e, e ∈ log_msg l -> e = mkLog 0 0 0 \/ e ∈ es;
  ring_last : forall j e, es !! j = Some e -> (length es <= j + 128)%nat ->
    log_msg l !! (j mod 128)%nat = Some e;
}.

Lemma ring_zero : ring [] zero_log.
Proof.
  split; [apply zero_log_ok|done| |done].
  intros e He. left. by apply elem_of_replicate in He as [-> _].
Qed.

Lemma nat_mod_to_Z (n : nat) : Z.to_nat (Z.of_nat n mod 128) = (n mod 128)%nat.
Proof.
  change 128 with (Z.of_nat 128). rewrite <- Nat2Z.inj_mod. apply Nat2Z.id.
Qed.

Lemma mod_neq (j n : nat) : (j < n)%nat -> (n < j + 128)%nat -> (j mod 128 <> n mod 128)%nat.
Proof.
  intros H1 H2 E. pose proof (Nat.div_mod_eq j 128). pose proof (Nat.div_mod_eq n 128). nia.
Qed.

Lemma ring_push es l e :
  ring es l -> exists l', log_push e l = Some l' /\ ring (es ++ [e]) l'.
Proof.
  intros [Hok He Hs Hl]. destruct (log_push_ok e l Hok) as (l' & E & Hok' & Hm & Hi).
  exists l'. split; [done|]. rewrite He, nat_mod_to_Z in Hm.
  pose proof Hok as [Hlen _]. unfold MAX_MSG_LOG_SIZE in Hlen.
  pose proof (Nat.mod_upper_bound (length es) 128 ltac:(lia)) as Hub.
  split; [done| | |].
  - rewrite Hi, He, length_app. simpl. rewrite Zplus_mod_idemp_l. f_equal. lia.
  - intros x. rewrite Hm. intros (i & Hx)%list_elem_of_lookup.
    apply list_lookup_insert_Some in Hx as [(_ & <- & _)|(_ & Hx)].
    + right. set_solver.
    + apply list_elem_of_lookup_2 in Hx. destruct (Hs x Hx); [by left|right; set_solver].
  - intros j x Hj Hjl. rewrite length_app in Hjl. simpl in Hjl. rewrite Hm.
    apply lookup_app_Some in Hj as [Hj|[Hj1 Hj2]].
    + pose proof (lookup_lt_Some _ _ _ Hj) as Hlt.
      rewrite list_lookup_insert_ne by (apply not_eq_sym, mod_neq; lia).
      apply Hl; [done|lia].
    + destruct (j - length es)%nat eqn:Ej; [|done]. simpl in Hj2. injection Hj2 as <-.
      replace j with (length es) by lia. apply list_lookup_insert_eq. lia.
Qed.

Lemma log_of_snoc es e : log_of (es ++ [e]) = (l ← log_of es; log_push e l).
Proof. unfold log_of. by rewrite foldl_app. Qed.

Lemma log_of_ring es : exists l, log_of es = Some l /\ ring es l.
Proof.
  induction es as [|e es IH] using rev_ind; [exists zero_log; split; [done|apply ring_zero]|].
  destruct IH as (l & E & Hr). destruct (ring_push es l e Hr) as (l' & E' & Hr').
  exists l'. rewrite log_of_snoc, E. by split.
Qed.

Lemma nodup_ids es e e' :
  NoDup (map log_msg_id es) -> e ∈ es -> e' ∈ es -> log_msg_id e = log_msg_id e' -> e = e'.
Proof.
  induction es as [|x es IH]; cbn [map]; intros Hn He He' Eq; [set_solver|].
  inversion Hn as [|? ? Hx Hn']; subst.
  assert (Hin : forall y, y ∈ es -> log_msg_id y ∈ map log_msg_id es)
    by (intros y Hy; by apply (list_elem_of_fmap_2 log_msg_id)).
  apply elem_of_cons in He as [->|He], He' as [->|He']; [done|..].
  - destruct Hx. rewrite Eq. by apply Hin.
  - destruct Hx. rewrite <- Eq. by apply Hin.
  - by apply IH.
Qed.

Lemma ring_find es l j e :
  ring es l -> NoDup (map log_msg_id es) -> log_msg_id e <> 0 ->
  es !! j = Some e -> (length es <= j + 128)%nat ->
  find_log (log_msg_id e) l = Some e.
Proof.
  intros Hr Hn Hz Hj Hl. pose proof (ring_last _ _ Hr j e Hj Hl) as Hm.
  apply list_elem_of_lookup_2 in Hm. unfold find_log.
  destruct (find_first _ _) as [x|] eqn:Ef.
  - apply find_first_Some in Ef as [Hx Ex]. apply Z.eqb_eq in Ex. f_equal.
    destruct (ring_sound _ _ Hr x Hx) as [->|Hx']; [done|].
    apply (nodup_ids es); [done|done|by eapply list_elem_of_lookup_2|done].
  - apply find_first_None in Ef. rewrite Forall_forall in Ef.
    specialize (Ef e ltac:(by apply list_elem_of_In)). cbn beta in Ef. by rewrite Z.eqb_refl in Ef.
Qed.

(** ** Demultiplexing *)

Definition rx_app (id rg : Z) (t : Tlv) (ty : Z) : buf :=
  rx_hdr ty (wire_size t) id rg
  ++ le_split 2 (wire_type t) ++ be 2 (Z.of_nat (length (wire_payload t))) ++ wire_payload t.

Lemma swap_param ty id rg t : swap16 TLV (rx_msg ty id rg t) = Some (rx_app id rg t ty).
Proof.
  unfold rx_msg, rx_app, wire_param, TLV, ICCHdr.sizeof. rewrite <- app_assoc.
  rewrite (swap16_skip 16 _ _ 16) by first [unfold rx_hdr; len | done]. cbn [Nat.sub].
  rewrite swap16_head by len. cbn [fmap option_fmap option_map]. by rewrite rev_be.
Qed.

Lemma rx_app_type id rg t ty :
  0 <= ty < 2 ^ 15 -> LDPHdr.get_msg_type (rx_app id rg t ty) = Some ty.
Proof. intros. unfold rx_app, rx_hdr. rewrite <- !app_assoc. by apply rx_type. Qed.

Lemma wire_type_range t : 0 <= wire_type t < 2 ^ 14.
Proof. destruct t; split; vm_compute; congruence. Qed.

Lemma rx_app_param id rg t ty :
  ICCParameter.get_type TLV (rx_app id rg t ty) = Some (wire_type t).
Proof.
  pose proof (wire_type_range t).
  unfold rx_app, ICCParameter.get_type, TLV, ICCHdr.sizeof.
  rewrite (rdbf_skip 16 _ _ _ _ 16) by first [unfold rx_hdr; len | done]. cbn [Nat.sub].
  rewrite rdbf_head by len. f_equal. rewrite le_combine_split2 by lia.
  unfold bf_get. rewrite Z.shiftr_0_r. by apply word_land.
Qed.

(** The parameters of the mLACP application. *)
Definition mlacp_tlv (t : Tlv) : bool :=
  (wire_type t >? TLV_T_MLACP_CONNECT) && (wire_type t <? TLV_T_MLACP_LIST_END).

(** A NAK for a message [id] that the log knows as [e]. *)
Lemma nak_rejected id rg st rj :
  0 <= rj < 2 ^ 32 ->
  ntohl <$> NAKTLV.get_rejected_msg_id (rx_app id rg (T_Nak st rj) MSG_T_NOTIFICATION) = Some rj
  /\ ntohl <$> NAKTLV.get_rejected_msg_id (rx_msg MSG_T_NOTIFICATION id rg (T_Nak st rj)) = Some rj.
Proof.
  intros H. unfold NAKTLV.get_rejected_msg_id, rx_app, rx_msg, rx_hdr, wire_param, rd32, TLV,
    ICCHdr.sizeof. cbn [wire_payload Nat.add]. rewrite <- !app_assoc.
  split; bop; by rewrite ntohl_be, u32_small.
Qed.

Lemma enqueue_app_data id rg t n s :
  iccp_csm_enqueue_msg (mkMsg (wire_msg MSG_T_RG_APP_DATA id rg t) n) s
  = Some (tt, s <| cs_csm ::= (if mlacp_tlv t then mlacp_enqueue_msg else app_insert_tail)
                               (mkMsg (rx_app id rg t MSG_T_RG_APP_DATA) n) |>).
Proof.
  unfold iccp_csm_enqueue_msg. cbn [msg_buf]. lstep (swap_wire_msg MSG_T_RG_APP_DATA id rg t).
  lstep (rx_msg_type MSG_T_RG_APP_DATA id rg t ltac:(done)). rewrite Z.eqb_refl.
  unfold app_csm_enqueue_msg. cbn [msg_buf set]. lstep (swap_param MSG_T_RG_APP_DATA id rg t).
  lstep (rx_app_type id rg t MSG_T_RG_APP_DATA ltac:(done)). rewrite bind_the_csm, Z.eqb_refl.
  lstep (rx_app_param id rg t MSG_T_RG_APP_DATA). unfold mlacp_tlv. by case_match.
Qed.

Lemma enqueue_nak id rg st rj n s e :
  0 <= rj < 2 ^ 32 -> find_log rj (csm_msg_log (cs_csm s)) = Some e ->
  iccp_csm_enqueue_msg (mkMsg (wire_msg MSG_T_NOTIFICATION id rg (T_Nak st rj)) n) s
  = Some (tt, s <| cs_csm ::=
      if log_type e =? MSG_T_RG_APP_DATA then
        (if (log_tlv e >? TLV_T_MLACP_CONNECT) && (log_tlv e <=? TLV_T_MLACP_MAC_INFO)
         then mlacp_enqueue_msg else app_insert_tail)
          (mkMsg (rx_app id rg (T_Nak st rj) MSG_T_NOTIFICATION) n)
      else iccp_csm_insert_tail (mkMsg (rx_msg MSG_T_NOTIFICATION id rg (T_Nak st rj)) n) |>).
Proof.
  intros Hr Hf. destruct (nak_rejected id rg st rj Hr) as [E1 E2].
  unfold iccp_csm_enqueue_msg. cbn [msg_buf].
  lstep (swap_wire_msg MSG_T_NOTIFICATION id rg (T_Nak st rj)).
  lstep (rx_msg_type MSG_T_NOTIFICATION id rg (T_Nak st rj) ltac:(done)).
  change (MSG_T_NOTIFICATION =? MSG_T_RG_APP_DATA) with false. rewrite Z.eqb_refl. cbv iota.
  cbn [msg_buf set eta_msg].
  destruct (NAKTLV.get_rejected_msg_id (rx_msg _ _ _ _)) as [w|]; [|done].
  injection E2 as E2. lstep (eq_refl (Some w)). rewrite bind_the_csm, E2, Hf. cbn zeta.
  destruct (log_type e =? MSG_T_RG_APP_DATA) eqn:Et; [|done].
  unfold app_csm_enqueue_msg. cbn [msg_buf].
  lstep (swap_param MSG_T_NOTIFICATION id rg (T_Nak st rj)).
  lstep (rx_app_type id rg (T_Nak st rj) MSG_T_NOTIFICATION ltac:(done)).
  rewrite bind_the_csm. change (MSG_T_NOTIFICATION =? MSG_T_RG_APP_DATA) with false.
  rewrite Z.eqb_refl. cbv iota.
  destruct (NAKTLV.get_rejected_msg_id (rx_app _ _ _ _)) as [w'|]; [|done].
  injection E1 as E1. lstep (eq_refl (Some w')). rewrite E1, Hf. by case_match.
Qed.

(** ** Properties *)

(** The ring remembers the last 128 messages: after any number of sends with
    distinct non-zero identifiers, each of the last 128 is found under its
    identifier, with the type and TLV it was sent with. *)
Theorem log_finds_recent es l j e :
  log_of es = Some l -> NoDup (map log_msg_id es) -> log_msg_id e <> 0 ->
  es !! j = Some e -> (length es <= j + 128)%nat ->
  find_log (log_msg_id e) l = Some e.
Proof.
  intros E Hn Hz Hj Hl. destruct (log_of_ring es) as (l' & E' & Hr).
  assert (l' = l) as -> by congruence. by eapply ring_find.
Qed.

(** Routing: application data goes to the mLACP queue exactly when its TLV lies
    strictly between MLACP_CONNECT and LIST_END, with its type and parameter
    words in host order; a NAK for a message the log knows goes to the layer
    that sent that message.  The queues keep arrival order. *)
Theorem enqueue_routes id rg t st e n s :
  0 <= log_msg_id e < 2 ^ 32 -> find_log (log_msg_id e) (csm_msg_log (cs_csm s)) = Some e ->
  iccp_csm_enqueue_msg (mkMsg (wire_msg MSG_T_RG_APP_DATA id rg t) n) s
  = Some (tt, s <| cs_csm ::= (if mlacp_tlv t then mlacp_enqueue_msg else app_insert_tail)
                               (mkMsg (rx_app id rg t MSG_T_RG_APP_DATA) n) |>)
  /\ iccp_csm_enqueue_msg
       (mkMsg (wire_msg MSG_T_NOTIFICATION id rg (T_Nak st (log_msg_id e))) n) s
  = Some (tt, s <| cs_csm ::=
      let nak := T_Nak st (log_msg_id e) in
      if log_type e =? MSG_T_RG_APP_DATA then
        (if (log_tlv e >? TLV_T_MLACP_CONNECT) && (log_tlv e <=? TLV_T_MLACP_MAC_INFO)
         then mlacp_enqueue_msg else app_insert_tail)
          (mkMsg (rx_app id rg nak MSG_T_NOTIFICATION) n)
      else iccp_csm_insert_tail (mkMsg (rx_msg MSG_T_NOTIFICATION id rg nak) n) |>).
Proof. intros Hr Hf. split; [apply enqueue_app_data|by apply enqueue_nak]. Qed.

(** The NAK that the connection layer builds for a foreign redundancy group
    names the group, not the message: at the peer it is looked up in the message
    log under the identifier of a group, so unless a recent message happens to
    have that identifier it is not attributed to the rejected message. *)
Theorem connection_nak_names_group a rg msg :
  info_ok (csm_iccp_info (cs_csm a)) -> 0 <= rg < 2 ^ 32 -> rg <> rg_id a ->
  csm_current_state (cs_csm a) = ICCP_CAPREC ->
  (exists id name n, msg = mkMsg (rx_msg MSG_T_RG_CONNECT id rg (T_SenderName name)) n) ->
  exists a', iccp_csm_correspond_from_msg msg a = Some (tt, a')
    /\ expected_iccp_msg a' = Some (wire_msg MSG_T_NOTIFICATION (cur_id a) (rg_id a)
         (T_Nak STATUS_CODE_U_ICCP_RG rg)).
Proof.
  intros Hi Hr Hne Hst (id & name & n & ->). eexists. split; [by apply recv_connect|].
  assert (E : checked rg (csm_iccp_info (cs_csm a))
    = csm_iccp_info (cs_csm a) <| status_code := STATUS_CODE_U_ICCP_RG |>
        <| rejected_msg_id := rg |>).
  { unfold checked. unfold rg_id in Hne. by rewrite (proj2 (Z.eqb_neq _ _) Hne). }
  rewrite (on_info_ext _ (fun i => i <| status_code := STATUS_CODE_U_ICCP_RG |>
    <| rejected_msg_id := rg |> <| peer_rg_connect_flag := 1 |>)) by by rewrite E.
  unfold expected_iccp_msg. cbn -[wire_msg]. rewrite Hst. done.
Qed.
