(* ===== verification/SyncPrepare.v ===== *)
(** Building the synchronisation messages ([mlacp_sync_prepare.c]).

    Every caller passes [g_csm_buf] and [CSM_BUFFER_SIZE] for [buf] and
    [max_buf_size].  The results are the [Tlv]s of the format: each
    [*_wire] lemma says that a function leaves in the buffer the encoding of one
    TLV and returns its size. *)

From Stdlib Require Import ZArith Lia.
From stdpp Require Import base list gmap numbers option.
From coqutil Require Import Byte Word.LittleEndianList.
From S2P Require Import Prelude CBuf State MsgFormat Wire CsmMsg.

(** [sprintf(p, "%s", a)] for a character array [a] *)
Definition sprintf_s (off : nat) (a b : buf) : option buf :=
  if has_nul a then wr off (cstr a ++ [Byte.x00]) b else None.

Definition mlacp_fill_icc_header (msg_len : Z) : M CS unit :=
  csm ← the_csm;
  id ← next_msg_id;
  on_buf (fill_icc_hdr csm MSG_T_RG_APP_DATA msg_len id).

Definition too_long (msg_len : Z) : bool := msg_len >? CSM_BUFFER_SIZE.

Lemma too_long_false n : n <= CSM_BUFFER_SIZE -> too_long n = false.
Proof. intros H. unfold too_long. rewrite Z.gtb_ltb. by apply Z.ltb_ge. Qed.

Lemma too_long_true n : CSM_BUFFER_SIZE < n -> too_long n = true.
Proof. intros H. unfold too_long. by apply Z.gtb_lt. Qed.

Definition mlacp_prepare_for_sync_request_tlv : M CS Z :=
  let msg_len := Z.of_nat (ICCHdr.sizeof + mLACPSyncReqTLV.sizeof) in
  if too_long msg_len then mret MCLAG_ERROR
  else
    memset_buf;;
    mlacp_fill_icc_header msg_len;;
    on_buf (fun b =>
      b ← fill_icc_parameter TLV_T_MLACP_SYNC_REQUEST
            (Z.of_nat (mLACPSyncReqTLV.sizeof - ICCParameter.sizeof)) b;
      b ← mLACPSyncReqTLV.set_req_num 0 b;
      b ← mLACPSyncReqTLV.set_c_bit 1 b;
      b ← mLACPSyncReqTLV.set_s_bit 1 b;
      b ← mLACPSyncReqTLV.set_req_type 0x3FFF b;
      b ← swap16 (TLV + ICCParameter.sizeof + 2) b;
      b ← mLACPSyncReqTLV.set_port_num_agg_id 0 b;
      mLACPSyncReqTLV.set_actor_key 0 b);;
    on_csm (set_MLACP (fun m => m <| ml_sync_req_num := 0 |>));;
    mret msg_len.

Definition mlacp_prepare_for_sync_data_tlv (end_ : Z) : M CS Z :=
  let msg_len := Z.of_nat (ICCHdr.sizeof + mLACPSyncDataTLV.sizeof) in
  csm ← the_csm;
  if too_long msg_len then mret MCLAG_ERROR
  else
    memset_buf;;
    mlacp_fill_icc_header msg_len;;
    on_buf (fun b =>
      b ← fill_icc_parameter TLV_T_MLACP_SYNC_DATA
            (Z.of_nat (mLACPSyncDataTLV.sizeof - ICCParameter.sizeof)) b;
      b ← mLACPSyncDataTLV.set_req_num (htons (ml_sync_req_num (MLACP csm))) b;
      if end_ =? 0 then mLACPSyncDataTLV.set_flags 0 b
      else mLACPSyncDataTLV.set_flags (htons 1) b);;
    mret msg_len.

Definition mlacp_prepare_for_sys_config : M CS Z :=
  let msg_len := Z.of_nat (ICCHdr.sizeof + mLACPSysConfigTLV.sizeof) in
  csm ← the_csm;
  if too_long msg_len then mret MCLAG_ERROR
  else
    memset_buf;;
    mlacp_fill_icc_header msg_len;;
    on_buf (fun b =>
      b ← fill_icc_parameter TLV_T_MLACP_SYSTEM_CONFIG
            (Z.of_nat (mLACPSysConfigTLV.sizeof - ICCParameter.sizeof)) b;
      b ← mLACPSysConfigTLV.set_sys_id (take ETHER_ADDR_LEN (ml_system_id (MLACP csm))) b;
      b ← mLACPSysConfigTLV.set_sys_priority (htons (ml_system_priority (MLACP csm))) b;
      mLACPSysConfigTLV.set_node_id (ml_node_id (MLACP csm)) b);;
    mret msg_len.

Definition mlacp_prepare_for_Aggport_state (local_if : LocalInterface) : M CS Z :=
  let msg_len := Z.of_nat (ICCHdr.sizeof + mLACPAggPortStateTLV.sizeof) in
  if negb (lif_type local_if =? IF_T_PORT_CHANNEL) then mret MCLAG_ERROR
  else if too_long msg_len then mret MCLAG_ERROR
  else
    memset_buf;;
    mlacp_fill_icc_header msg_len;;
    on_buf (fun b =>
      b ← fill_icc_parameter TLV_T_MLACP_AGGREGATOR_STATE
            (Z.of_nat (mLACPAggPortStateTLV.sizeof - ICCParameter.sizeof)) b;
      b ← mLACPAggPortStateTLV.set_partner_sys_priority 0 b;
      b ← mLACPAggPortStateTLV.set_partner_key 0 b;
      b ← mLACPAggPortStateTLV.set_agg_id (htons (lif_po_id local_if)) b;
      b ← mLACPAggPortStateTLV.set_actor_key 0 b;
      mLACPAggPortStateTLV.set_agg_state (lif_state local_if) b);;
    mret msg_len.

Definition mlacp_prepare_for_Aggport_config (lif : LocalInterface) (purge_flag : Z) : M CS Z :=
  let msg_len := Z.of_nat (ICCHdr.sizeof + mLACPAggConfigTLV.sizeof) in
  if too_long msg_len then mret MCLAG_ERROR
  else
    memset_buf;;
    mlacp_fill_icc_header msg_len;;
    on_buf (fun b =>
      b ← fill_icc_parameter TLV_T_MLACP_AGGREGATOR_CONFIG
            (Z.of_nat (mLACPAggConfigTLV.sizeof - ICCParameter.sizeof)) b;
      b ← mLACPAggConfigTLV.set_agg_id (htons (lif_po_id lif)) b;
      b ← mLACPAggConfigTLV.set_flags (if purge_flag =? 1 then 2 else 1) b;
      b ← mLACPAggConfigTLV.set_agg_name_len (strlen (lif_name lif)) b;
      b ← mLACPAggConfigTLV.set_agg_name (lif_name lif) b;
      mLACPAggConfigTLV.set_mac_addr (take ETHER_ADDR_LEN (lif_mac_addr lif)) b);;
    mret msg_len.

(** The three list messages append one entry per call to the message that the
    previous calls left in the buffer; the caller clears the buffer before the
    first one. *)

Definition mlacp_prepare_for_mac_info_to_peer (mac_msg : MACMsg) (count : Z) : M CS Z :=
  let tlv_len := Z.of_nat mLACPListTLV.sizeof + Z.of_nat mLACPMACData.sizeof * (count + 1) in
  let msg_len := Z.of_nat ICCHdr.sizeof + tlv_len in
  if too_long msg_len then mret MCLAG_ERROR
  else
    mlacp_fill_icc_header msg_len;;
    on_buf (fun b =>
      b ← ICCParameter.set_len TLV (htons (tlv_len - Z.of_nat ICCParameter.sizeof)) b;
      b ← mLACPListTLV.set_num_of_entry (htons (count + 1)) b;
      b ← (if count =? 0 then
             b ← ICCParameter.set_u_bit TLV 0 b;
             b ← ICCParameter.set_f_bit TLV 0 b;
             ICCParameter.set_type TLV (htons TLV_T_MLACP_MAC_INFO) b
           else Some b);
      let e := mLACPListTLV.entry_off mLACPMACData.sizeof (Z.to_nat count) in
      b ← mLACPMACData.set_type e (mac_op_type mac_msg) b;
      b ← mLACPMACData.set_mac_type e (mac_fdb_type mac_msg) b;
      b ← mLACPMACData.set_mac_addr e (take ETHER_ADDR_LEN (mac_addr mac_msg)) b;
      b ← sprintf_s (e + 10) (mac_origin_ifname mac_msg) b;
      mLACPMACData.set_vid e (htons (mac_vid mac_msg)) b);;
    mret msg_len.

(** The neighbour messages take the [struct ARPMsg] or [struct NDISCMsg] stored
    in the [buf] of a list entry. *)
Definition mlacp_prepare_for_arp_info (arp_msg : buf) (count : Z) : M CS Z :=
  let tlv_len := Z.of_nat mLACPListTLV.sizeof + Z.of_nat ARPMsg.sizeof * (count + 1) in
  let msg_len := Z.of_nat ICCHdr.sizeof + tlv_len in
  if too_long msg_len then mret MCLAG_ERROR
  else
    mlacp_fill_icc_header msg_len;;
    on_buf (fun b =>
      b ← ICCParameter.set_len TLV (htons (tlv_len - Z.of_nat ICCParameter.sizeof)) b;
      b ← mLACPListTLV.set_num_of_entry (htons (count + 1)) b;
      b ← (if count =? 0 then
             b ← ICCParameter.set_u_bit TLV 0 b;
             b ← ICCParameter.set_f_bit TLV 0 b;
             ICCParameter.set_type TLV (htons TLV_T_MLACP_ARP_INFO) b
           else Some b);
      let e := mLACPListTLV.entry_off ARPMsg.sizeof (Z.to_nat count) in
      op ← ARPMsg.get_op_type 0 arp_msg;
      b ← ARPMsg.set_op_type e op b;
      fl ← ARPMsg.get_flag 0 arp_msg;
      b ← ARPMsg.set_flag e fl b;
      nm ← ARPMsg.get_ifname 0 arp_msg;
      b ← sprintf_s (e + 3) nm b;
      ip ← ARPMsg.get_ipv4_addr 0 arp_msg;
      b ← ARPMsg.set_ipv4_addr e ip b;
      mac ← ARPMsg.get_mac_addr 0 arp_msg;
      ARPMsg.set_mac_addr e mac b);;
    mret msg_len.

Definition mlacp_prepare_for_ndisc_info (ndisc_msg : buf) (count : Z) : M CS Z :=
  let tlv_len := Z.of_nat mLACPListTLV.sizeof + Z.of_nat NDISCMsg.sizeof * (count + 1) in
  let msg_len := Z.of_nat ICCHdr.sizeof + tlv_len in
  if too_long msg_len then mret MCLAG_ERROR
  else
    mlacp_fill_icc_header msg_len;;
    on_buf (fun b =>
      b ← ICCParameter.set_len TLV (htons (tlv_len - Z.of_nat ICCParameter.sizeof)) b;
      b ← mLACPListTLV.set_num_of_entry (htons (count + 1)) b;
      b ← (if count =? 0 then
             b ← ICCParameter.set_u_bit TLV 0 b;
             b ← ICCParameter.set_f_bit TLV 0 b;
             ICCParameter.set_type TLV (htons TLV_T_MLACP_NDISC_INFO) b
           else Some b);
      let e := mLACPListTLV.entry_off NDISCMsg.sizeof (Z.to_nat count) in
      op ← NDISCMsg.get_op_type 0 ndisc_msg;
      b ← NDISCMsg.set_op_type e op b;
      fl ← NDISCMsg.get_flag 0 ndisc_msg;
      b ← NDISCMsg.set_flag e fl b;
      nm ← NDISCMsg.get_ifname 0 ndisc_msg;
      b ← sprintf_s (e + 3) nm b;
      ip ← NDISCMsg.get_ipv6_addr 0 ndisc_msg;
      b ← NDISCMsg.set_ipv6_addr e ip b;
      mac ← NDISCMsg.get_mac_addr 0 ndisc_msg;
      NDISCMsg.set_mac_addr e mac b);;
    mret msg_len.

(** [tlv->vlanData[i].vlan_id = htons(vid)] from index [i] on *)
Fixpoint fill_vlans (i : nat) (vs : list VLAN_ID) (b : buf) : option buf :=
  match vs with
  | [] => Some b
  | v :: vs' =>
      b ← mLACPPortChannelInfoTLV.set_vlan_id i (htons (vlan_vid v)) b;
      fill_vlans (S i) vs' b
  end.

Definition mlacp_prepare_for_port_channel_info (port_channel : LocalInterface) : M CS Z :=
  let num := Z.of_nat (length (lif_vlan_tree port_channel)) in
  let tlv_len := Z.of_nat mLACPPortChannelInfoTLV.sizeof + 2 * num in
  let msg_len := Z.of_nat ICCHdr.sizeof + tlv_len in
  let name_len := Z.min (strlen (lif_name port_channel)) (Z.of_nat MAX_L_PORT_NAME) in
  if lif_type port_channel =? IF_T_PORT then mret MCLAG_ERROR
  else if too_long msg_len then mret MCLAG_ERROR
  else
    memset_buf;;
    mlacp_fill_icc_header msg_len;;
    on_buf (fun b =>
      b ← fill_icc_parameter TLV_T_MLACP_PORT_CHANNEL_INFO
            (Z.of_nat (mLACPPortChannelInfoTLV.sizeof - ICCParameter.sizeof) + 2 * num) b;
      b ← mLACPPortChannelInfoTLV.set_agg_id (htons (lif_po_id port_channel)) b;
      b ← mLACPPortChannelInfoTLV.set_ipv4_addr (htonl (lif_ipv4_addr port_channel)) b;
      b ← mLACPPortChannelInfoTLV.set_l3_mode (lif_l3_mode port_channel) b;
      b ← mLACPPortChannelInfoTLV.set_po_id (htons (lif_po_id port_channel)) b;
      b ← mLACPPortChannelInfoTLV.set_if_name
            (take (Z.to_nat name_len) (lif_name port_channel)) b;
      b ← mLACPPortChannelInfoTLV.set_if_name_len name_len b;
      b ← mLACPPortChannelInfoTLV.set_num_of_vlan_id (htons num) b;
      fill_vlans 0 (lif_vlan_tree port_channel) b);;
    mret msg_len.

Definition mlacp_prepare_for_port_peerlink_info (peerlink_port : LocalInterface) : M CS Z :=
  let tlv_len := Z.of_nat mLACPPeerLinkInfoTLV.sizeof in
  let msg_len := Z.of_nat ICCHdr.sizeof + tlv_len in
  memset_buf;;
  if too_long msg_len then mret MCLAG_ERROR
  else
    mlacp_fill_icc_header msg_len;;
    on_buf (fun b =>
      b ← fill_icc_parameter TLV_T_MLACP_PEERLINK_INFO
            (tlv_len - Z.of_nat ICCParameter.sizeof) b;
      b ← mLACPPeerLinkInfoTLV.set_if_name (lif_name peerlink_port) b;
      mLACPPeerLinkInfoTLV.set_port_type (lif_type peerlink_port) b);;
    mret msg_len.

Definition mlacp_prepare_for_heartbeat : M CS Z :=
  let msg_len := Z.of_nat (ICCHdr.sizeof + mLACPFlagTLV.sizeof) in
  if too_long msg_len then mret MCLAG_ERROR
  else
    memset_buf;;
    mlacp_fill_icc_header msg_len;;
    on_buf (fun b =>
      b ← fill_icc_parameter TLV_T_MLACP_HEARTBEAT
            (Z.of_nat (mLACPFlagTLV.sizeof - ICCParameter.sizeof)) b;
      mLACPFlagTLV.set_flag 0xFF b);;
    mret msg_len.

Definition mlacp_prepare_for_warm_reboot : M CS Z :=
  let msg_len := Z.of_nat (ICCHdr.sizeof + mLACPFlagTLV.sizeof) in
  if too_long msg_len then mret MCLAG_ERROR
  else
    memset_buf;;
    mlacp_fill_icc_header msg_len;;
    on_buf (fun b =>
      b ← fill_icc_parameter TLV_T_MLACP_WARMBOOT_FLAG
            (Z.of_nat (mLACPFlagTLV.sizeof - ICCParameter.sizeof)) b;
      mLACPFlagTLV.set_flag 1 b);;
    mret msg_len.

Definition mlacp_prepare_for_if_up_ack (if_type if_id port_isolation_state : Z) : M CS Z :=
  let msg_len := Z.of_nat (ICCHdr.sizeof + mLACPIfUpAckTLV.sizeof) in
  if too_long msg_len then mret MCLAG_ERROR
  else
    memset_buf;;
    mlacp_fill_icc_header msg_len;;
    on_buf (fun b =>
      b ← fill_icc_parameter TLV_T_MLACP_IF_UP_ACK
            (Z.of_nat (mLACPIfUpAckTLV.sizeof - ICCParameter.sizeof)) b;
      b ← mLACPIfUpAckTLV.set_if_type if_type b;
      b ← mLACPIfUpAckTLV.set_if_id (htons if_id) b;
      mLACPIfUpAckTLV.set_port_isolation_state port_isolation_state b);;
    mret msg_len.

(** ** What the functions produce *)

Lemma APP_DATA_fits : 0 <= htons MSG_T_RG_APP_DATA < 2 ^ 15.
Proof. by apply (Forall_lookup_1 _ _ 4 _ msg_types_fit). Qed.

(** The common shape of the functions that build a whole message. *)
Lemma app_msg_run {A} (s : CS) (n : Z) (t : Tlv) (P : buf -> option buf) (k : M CS A) :
  n = wire_size t -> n <= CSM_BUFFER_SIZE -> fills P t ->
  (memset_buf;; mlacp_fill_icc_header n;;
   on_buf (fun b =>
     b ← fill_icc_parameter (wire_type t) (Z.of_nat (length (wire_payload t))) b;
     P b);; k) s
  = k (with_msg s (wire_msg MSG_T_RG_APP_DATA (cur_id s) (rg_id s) t)).
Proof.
  intros Hn Hl HP.
  pose proof (prepare_msg_run s n MSG_T_RG_APP_DATA t P APP_DATA_fits Hn Hl HP) as E.
  revert E. generalize (with_msg s (wire_msg MSG_T_RG_APP_DATA (cur_id s) (rg_id s) t)).
  intros w. unfold memset_buf, mlacp_fill_icc_header, next_msg_id, on_buf, on_g, the_csm,
    gets, modify, mbind, M_bind, mret, M_ret.
  cbn -[zeros fill_icc_hdr fill_icc_parameter option_bind with_msg wire_msg].
  destruct (fill_icc_hdr _ _ _ _ _) as [b|]; cbn -[zeros fill_icc_parameter with_msg wire_msg];
    [|discriminate].
  destruct (fill_icc_parameter _ _ b) as [b'|]; cbn -[zeros with_msg wire_msg]; [|discriminate].
  destruct (P b') as [b''|]; cbn -[zeros with_msg wire_msg]; [|discriminate].
  intros E. assert (Ew : forall x y : CS, Some (n, x) = Some (n, y) -> x = y) by congruence.
  by rewrite <- (Ew _ _ E).
Qed.

(** The same when the length of the payload depends on a hypothesis. *)
Lemma app_msg_sized (s : CS) (n : Z) (l : nat) (t : Tlv) (P : buf -> option buf) :
  length (wire_payload t) = l -> n = 20 + Z.of_nat l -> n <= CSM_BUFFER_SIZE ->
  fills P t ->
  (memset_buf;; mlacp_fill_icc_header n;;
   on_buf (fun b => b ← fill_icc_parameter (wire_type t) (Z.of_nat l) b; P b);; mret n) s
  = Some (n, with_msg s (wire_msg MSG_T_RG_APP_DATA (cur_id s) (rg_id s) t)).
Proof. intros <- Hn Hle HP. by rewrite (app_msg_run s n t P (mret n)). Qed.

(** [fills] goals: cut the zeroed space into the chunks of the payload. *)
Ltac fill_start h r Hh :=
  intros h r Hh; cbn [wire_payload];
  cbv [mLACPSyncReqTLV.set_req_num mLACPSyncReqTLV.set_c_bit mLACPSyncReqTLV.set_s_bit
    mLACPSyncReqTLV.set_req_type mLACPSyncReqTLV.set_port_num_agg_id
    mLACPSyncReqTLV.set_actor_key mLACPSyncDataTLV.set_req_num mLACPSyncDataTLV.set_flags
    mLACPSysConfigTLV.set_sys_id mLACPSysConfigTLV.set_sys_priority
    mLACPSysConfigTLV.set_node_id mLACPAggPortStateTLV.set_partner_sys_priority
    mLACPAggPortStateTLV.set_partner_key mLACPAggPortStateTLV.set_agg_id
    mLACPAggPortStateTLV.set_actor_key mLACPAggPortStateTLV.set_agg_state
    mLACPAggConfigTLV.set_agg_id mLACPAggConfigTLV.set_flags
    mLACPAggConfigTLV.set_agg_name_len mLACPAggConfigTLV.set_agg_name
    mLACPAggConfigTLV.set_mac_addr mLACPPeerLinkInfoTLV.set_if_name
    mLACPPeerLinkInfoTLV.set_port_type mLACPFlagTLV.set_flag mLACPIfUpAckTLV.set_if_type
    mLACPIfUpAckTLV.set_if_id mLACPIfUpAckTLV.set_port_isolation_state
    mLACPPortChannelInfoTLV.set_agg_id mLACPPortChannelInfoTLV.set_ipv4_addr
    mLACPPortChannelInfoTLV.set_l3_mode mLACPPortChannelInfoTLV.set_po_id
    mLACPPortChannelInfoTLV.set_if_name mLACPPortChannelInfoTLV.set_if_name_len
    mLACPPortChannelInfoTLV.set_num_of_vlan_id
    TLV ICCHdr.sizeof ICCParameter.sizeof wr8 wr16 wr32];
  cbn [Nat.add].

Lemma prepare_heartbeat_wire s :
  mlacp_prepare_for_heartbeat s
  = Some (21, with_msg s (wire_msg MSG_T_RG_APP_DATA (cur_id s) (rg_id s) T_Heartbeat)).
Proof.
  unfold mlacp_prepare_for_heartbeat. cbn [too_long].
  apply (app_msg_run s _ T_Heartbeat); [done..|].
  fill_start h r Hh. bstep. done.
Qed.

Lemma prepare_warm_reboot_wire s :
  mlacp_prepare_for_warm_reboot s
  = Some (21, with_msg s (wire_msg MSG_T_RG_APP_DATA (cur_id s) (rg_id s) T_Warmboot)).
Proof.
  apply (app_msg_run s _ T_Warmboot); [done..|]. fill_start h r Hh. bstep. done.
Qed.

Lemma prepare_if_up_ack_wire s ty i st :
  mlacp_prepare_for_if_up_ack ty i st s
  = Some (24, with_msg s (wire_msg MSG_T_RG_APP_DATA (cur_id s) (rg_id s) (T_IfUpAck ty st i))).
Proof.
  apply (app_msg_run s _ (T_IfUpAck ty st i)); [done..|].
  fill_start h r Hh. change (zeros _) with (zeros 1 ++ zeros 1 ++ zeros 2).
  rewrite <- !app_assoc, le_split_htons. do 3 bstep. done.
Qed.

Lemma prepare_sync_data_wire s e :
  mlacp_prepare_for_sync_data_tlv e s
  = Some (24, with_msg s (wire_msg MSG_T_RG_APP_DATA (cur_id s) (rg_id s)
      (T_SyncData (ml_sync_req_num (MLACP (cs_csm s))) (if e =? 0 then 0 else 1)))).
Proof.
  unfold mlacp_prepare_for_sync_data_tlv. rewrite bind_the_csm.
  apply (app_msg_run s _ (T_SyncData (ml_sync_req_num (MLACP (cs_csm s)))
    (if e =? 0 then 0 else 1))); [done..|].
  fill_start h r Hh. change (zeros _) with (zeros 2 ++ zeros 2).
  rewrite <- !app_assoc. destruct (e =? 0);
    rewrite !le_split_htons; do 2 bstep; done.
Qed.

Lemma prepare_sync_request_wire s :
  mlacp_prepare_for_sync_request_tlv s
  = Some (28, with_msg s (wire_msg MSG_T_RG_APP_DATA (cur_id s) (rg_id s) T_SyncRequest)
      <| cs_csm ::= set_MLACP (fun m => m <| ml_sync_req_num := 0 |>) |>).
Proof.
  refine (app_msg_run s _ T_SyncRequest _ _ _ _ _); [done..|].
  fill_start h r Hh. change (zeros _) with (zeros 2 ++ zeros 2 ++ zeros 2 ++ zeros 2).
  rewrite <- !app_assoc. do 4 bstep. do 3 bstep.
  vm_words. reflexivity.
Qed.

Lemma prepare_sys_config_wire s :
  length (ml_system_id (MLACP (cs_csm s))) = 6%nat ->
  mlacp_prepare_for_sys_config s
  = Some (29, with_msg s (wire_msg MSG_T_RG_APP_DATA (cur_id s) (rg_id s)
      (T_SysConfig (ml_system_id (MLACP (cs_csm s))) (ml_system_priority (MLACP (cs_csm s)))
        (ml_node_id (MLACP (cs_csm s)))))).
Proof.
  intros Hi. unfold mlacp_prepare_for_sys_config. rewrite bind_the_csm. cbn zeta.
  set (m := MLACP (cs_csm s)) in *. rewrite (take_ge (ml_system_id m)) by (rewrite Hi; done).
  assert (Hl : length (wire_payload (T_SysConfig (ml_system_id m) (ml_system_priority m)
    (ml_node_id m))) = 9%nat) by (cbn [wire_payload]; len).
  apply (app_msg_sized s 29 _ _ _ Hl); [done..|].
  unfold fills. rewrite Hl. fill_start h r Hh.
  change (zeros _) with (zeros 6 ++ zeros 2 ++ zeros 1).
  rewrite <- !app_assoc, le_split_htons. do 3 bstep. done.
Qed.

Lemma prepare_aggport_state_wire s lif :
  lif_type lif = IF_T_PORT_CHANNEL ->
  mlacp_prepare_for_Aggport_state lif s
  = Some (35, with_msg s (wire_msg MSG_T_RG_APP_DATA (cur_id s) (rg_id s)
      (T_AggState (lif_po_id lif) (lif_state lif)))).
Proof.
  intros Ht. unfold mlacp_prepare_for_Aggport_state. rewrite Ht. cbn zeta.
  apply (app_msg_run s _ (T_AggState (lif_po_id lif) (lif_state lif))); [done..|].
  fill_start h r Hh.
  change (zeros _) with (zeros 6 ++ zeros 2 ++ zeros 2 ++ zeros 2 ++ zeros 2 ++ zeros 1).
  rewrite <- !app_assoc, le_split_htons. do 5 bstep. done.
Qed.

(** The character arrays of an interface have the sizes of their types and end
    their names. *)
Definition lif_ok (lif : LocalInterface) : Prop :=
  length (lif_name lif) = MAX_L_PORT_NAME /\ has_nul (lif_name lif) = true
  /\ length (lif_mac_addr lif) = ETHER_ADDR_LEN.

Lemma prepare_aggport_config_wire s lif p :
  lif_ok lif ->
  mlacp_prepare_for_Aggport_config lif p s
  = Some (62, with_msg s (wire_msg MSG_T_RG_APP_DATA (cur_id s) (rg_id s)
      (T_AggConfig (lif_po_id lif) (lif_mac_addr lif) (if p =? 1 then 2 else 1)
        (strlen (lif_name lif)) (lif_name lif)))).
Proof.
  intros (Hn & _ & Hm). unfold mlacp_prepare_for_Aggport_config. cbn zeta.
  unfold MAX_L_PORT_NAME, ETHER_ADDR_LEN in *.
  rewrite (take_ge (lif_mac_addr lif)) by (rewrite Hm; done).
  set (t := T_AggConfig _ _ _ _ _).
  assert (Hl : length (wire_payload t) = 42%nat)
    by (subst t; cbn [wire_payload]; autorewrite with len; rewrite Hm, Hn; done).
  apply (app_msg_sized s 62 _ _ _ Hl); [done..|]. unfold fills. rewrite Hl. subst t. fill_start h r Hh.
  change (zeros _) with (zeros 8 ++ zeros 2 ++ zeros 6 ++ zeros 2 ++ zeros 2 ++ zeros 1
    ++ zeros 1 ++ zeros 20).
  rewrite <- !app_assoc, le_split_htons. do 5 bstep. done.
Qed.

Lemma prepare_peerlink_wire s lif :
  lif_ok lif ->
  mlacp_prepare_for_port_peerlink_info lif s
  = Some (41, with_msg s (wire_msg MSG_T_RG_APP_DATA (cur_id s) (rg_id s)
      (T_PeerLinkInfo (lif_name lif) (lif_type lif)))).
Proof.
  intros (Hn & _ & _). unfold mlacp_prepare_for_port_peerlink_info. cbn zeta.
  unfold MAX_L_PORT_NAME in *. set (t := T_PeerLinkInfo _ _).
  assert (Hl : length (wire_payload t) = 21%nat)
    by (subst t; cbn [wire_payload]; autorewrite with len; rewrite Hn; done).
  apply (app_msg_sized s 41 _ _ _ Hl); [done..|]. unfold fills. rewrite Hl. subst t. fill_start h r Hh.
  change (zeros _) with (zeros 20 ++ zeros 1).
  rewrite <- !app_assoc. do 2 bstep. done.
Qed.

Lemma zeros_nat_add (a b : nat) :
  zeros (Z.of_nat (a + b)) = zeros (Z.of_nat a) ++ zeros (Z.of_nat b).
Proof. rewrite Nat2Z.inj_add. apply zeros_app; lia. Qed.

Lemma be2_concat_length (vs : list Z) : length (vs ≫= be 2) = (2 * length vs)%nat.
Proof. induction vs as [|v vs IH]; [done|]. rewrite bind_cons. autorewrite with len. simpl. lia. Qed.
#[export] Hint Rewrite be2_concat_length : len.

Lemma fill_vlans_spec vs : forall i h r,
  length h = (52 + 2 * i)%nat ->
  fill_vlans i vs (h ++ zeros (Z.of_nat (2 * length vs)) ++ r)
  = Some (h ++ (map vlan_vid vs ≫= be 2) ++ r).
Proof.
  induction vs as [|v vs IH]; intros i h r Hh; [done|]. cbn [fill_vlans length map].
  replace (2 * S (length vs))%nat with (2 + 2 * length vs)%nat by lia.
  rewrite zeros_nat_add, bind_cons, <- !app_assoc.
  unfold mLACPPortChannelInfoTLV.set_vlan_id, wr16. rewrite le_split_htons.
  rewrite (wr_skip _ _ h _ _ Hh) by (unfold TLV, ICCHdr.sizeof; lia).
  replace (TLV + 36 + 2 * i - (52 + 2 * i))%nat with 0%nat by (unfold TLV, ICCHdr.sizeof; lia).
  rewrite wr_head by len. cbn [fmap option_fmap option_map mbind option_bind].
  rewrite app_assoc, (IH (S i)) by (autorewrite with len; lia).
  by rewrite <- app_assoc.
Qed.

Lemma cstr_nul_length a : has_nul a = true -> (length (cstr a) < length a)%nat.
Proof.
  induction a as [|c a IH]; simpl; [done|]. destruct (is_nul c); simpl; [lia|].
  intros H. specialize (IH H). lia.
Qed.

Lemma take_cstr a : take (length (cstr a)) a = cstr a.
Proof.
  induction a as [|c a IH]; simpl; [done|]. destruct (is_nul c); simpl; [done|]. by rewrite IH.
Qed.

(** A string written at the start of a zeroed array pads it. *)
Lemma wr_pad n a r :
  (length a <= n)%nat -> wr 0 a (zeros (Z.of_nat n) ++ r) = Some (pad n a ++ r).
Proof.
  intros H. rewrite (zeros_split (Z.of_nat (length a)) (Z.of_nat n)) by lia.
  rewrite <- app_assoc, wr_head by len. unfold pad, zeros. rewrite <- app_assoc.
  do 4 f_equal; lia.
Qed.

Definition port_channel_tlv (lif : LocalInterface) : Tlv :=
  T_PortChannelInfo (lif_po_id lif) (cstr (lif_name lif)) (strlen (lif_name lif))
    (lif_l3_mode lif) (lif_ipv4_addr lif) (map vlan_vid (lif_vlan_tree lif)).

Lemma prepare_port_channel_wire s lif :
  lif_ok lif -> lif_type lif <> IF_T_PORT ->
  52 + 2 * Z.of_nat (length (lif_vlan_tree lif)) <= CSM_BUFFER_SIZE ->
  mlacp_prepare_for_port_channel_info lif s
  = Some (52 + 2 * Z.of_nat (length (lif_vlan_tree lif)),
      with_msg s (wire_msg MSG_T_RG_APP_DATA (cur_id s) (rg_id s) (port_channel_tlv lif))).
Proof.
  intros (Hn & Hz & _) Ht Hle. apply cstr_nul_length in Hz. rewrite Hn in Hz.
  unfold mlacp_prepare_for_port_channel_info, MAX_L_PORT_NAME in *. cbn zeta.
  rewrite (proj2 (Z.eqb_neq _ _) Ht).
  set (k := length (lif_vlan_tree lif)) in *.
  rewrite too_long_false by (unfold ICCHdr.sizeof, mLACPPortChannelInfoTLV.sizeof; lia).
  rewrite Z.min_l by (unfold strlen; lia).
  assert (Et : take (Z.to_nat (strlen (lif_name lif))) (lif_name lif) = cstr (lif_name lif))
    by (unfold strlen; by rewrite Nat2Z.id, take_cstr).
  rewrite Et.
  replace (Z.of_nat ICCHdr.sizeof + (Z.of_nat mLACPPortChannelInfoTLV.sizeof + 2 * Z.of_nat k))
    with (52 + 2 * Z.of_nat k) by (unfold ICCHdr.sizeof, mLACPPortChannelInfoTLV.sizeof; lia).
  assert (Hl : length (wire_payload (port_channel_tlv lif)) = (32 + 2 * k)%nat).
  { unfold port_channel_tlv. cbn [wire_payload]. autorewrite with len.
    rewrite pad_length, length_map by lia. fold k. lia. }
  replace (Z.of_nat (mLACPPortChannelInfoTLV.sizeof - ICCParameter.sizeof) + 2 * Z.of_nat k)
    with (Z.of_nat (32 + 2 * k)) by (unfold mLACPPortChannelInfoTLV.sizeof, ICCParameter.sizeof; lia).
  apply (app_msg_sized s _ _ (port_channel_tlv lif) _ Hl); [lia|done|].
  unfold fills. rewrite Hl, zeros_nat_add. unfold port_channel_tlv.
  fill_start h r Hh. set (name := cstr (lif_name lif)) in *.
  change (zeros (Z.of_nat 32)) with (zeros 2 ++ zeros 20 ++ zeros 1 ++ zeros 1 ++ zeros 4
    ++ zeros 2 ++ zeros 2).
  rewrite <- !app_assoc, !le_split_htons, !le_split_htonl.
  assert (Hp : length (pad 20 name) = 20%nat) by (apply pad_length; lia).
  do 4 bstep.
  eapply obind_step; [skip_chunks; rewrite (wr_pad 20) by lia;
    cbn [fmap option_fmap option_map]; reflexivity | cbv beta].
  do 2 bstep. rewrite length_map. fold k.
  rewrite !app_assoc, <- (app_assoc _ (zeros _) r). rewrite fill_vlans_spec; [by rewrite <- !app_assoc|].
  autorewrite with len. rewrite Hh, Hp. lia.
Qed.

(** ** List messages *)

(** The state after a call that left [b] in the buffer. *)
Definition with_buf (s : CS) (b : buf) : CS :=
  s <| cs_g ::= fun g => g <| g_ICCP_MSG_ID ::= fun i => u32 (i + 1) |>
         <| g_csm_buf := b |> |>.

Lemma append_run {A} (s : CS) n (F : buf -> option buf) (k : M CS A) b :
  (b ← fill_icc_hdr (cs_csm s) MSG_T_RG_APP_DATA n (cur_id s) (g_csm_buf (cs_g s)); F b)
    = Some b ->
  (mlacp_fill_icc_header n;; on_buf F;; k) s = k (with_buf s b).
Proof.
  unfold mlacp_fill_icc_header, next_msg_id, on_buf, on_g, the_csm,
    gets, modify, mbind, M_bind, mret, M_ret, cur_id.
  cbn -[fill_icc_hdr option_bind]. intros E.
  destruct (fill_icc_hdr _ _ _ _ _) as [b1|]; cbn in *; [|discriminate].
  rewrite E. done.
Qed.

(** The part of a list message before its entries. *)
Lemma list_prefix T count ln nm h ty c1 c2 r (K : buf -> option buf) :
  length h = 16%nat -> length ty = 2%nat -> length c1 = 2%nat -> length c2 = 2%nat ->
  count = 0 \/ ty = be 2 T -> 0 <= htons T < 2 ^ 14 ->
  (b ← ICCParameter.set_len TLV (htons ln) (h ++ ty ++ c1 ++ c2 ++ r);
   b ← mLACPListTLV.set_num_of_entry (htons nm) b;
   b ← (if count =? 0 then
          b ← ICCParameter.set_u_bit TLV 0 b;
          b ← ICCParameter.set_f_bit TLV 0 b;
          ICCParameter.set_type TLV (htons T) b
        else Some b);
   K b) = K (h ++ be 2 T ++ be 2 ln ++ be 2 nm ++ r).
Proof.
  intros Hh Hty H1 H2 Hc HT.
  cbv [ICCParameter.set_len mLACPListTLV.set_num_of_entry ICCParameter.set_u_bit
    ICCParameter.set_f_bit ICCParameter.set_type TLV ICCHdr.sizeof wr16].
  rewrite !le_split_htons. cbn [Nat.add]. do 2 bstep.
  destruct (count =? 0) eqn:Ec.
  - eapply obind_step; [do 3 bstep; reflexivity|]. by rewrite param_type_word.
  - destruct Hc as [->| ->]; [done|]. done.
Qed.

Lemma pad_nul n a : (length a < n)%nat -> pad n (a ++ [Byte.x00]) = pad n a.
Proof.
  intros H. unfold pad. rewrite length_app, <- app_assoc. f_equal.
  change [Byte.x00] with (replicate 1 Byte.x00). rewrite <- replicate_add. f_equal.
  simpl. lia.
Qed.

Ltac eop H := first [rewrite (wr_shift _ _ _ _ _ H) | rewrite (wr_shift0 _ _ _ _ H)];
  skip_chunks; first [head_chunk | rewrite (wr_pad 20) by len | rewrite (wr_pad 21) by len];
  cbn [fmap option_fmap option_map].

Ltac estep H := first [ eapply obind_step; [eop H; reflexivity | cbv beta] | eop H ].

Definition mac_entry (m : MACMsg) : MacEntry :=
  mkMacEntry (mac_op_type m) (mac_fdb_type m) (mac_addr m) (mac_vid m)
    (cstr (mac_origin_ifname m)).

(** Sizes and termination of the arrays of a MAC entry. *)
Definition mac_ok (m : MACMsg) : Prop :=
  length (mac_addr m) = ETHER_ADDR_LEN /\ length (mac_origin_ifname m) = MAX_L_PORT_NAME
  /\ has_nul (mac_origin_ifname m) = true.

Lemma fill_mac_entry m p r e :
  mac_ok m -> length p = e ->
  (b ← mLACPMACData.set_type e (mac_op_type m) (p ++ zeros 30 ++ r);
   b ← mLACPMACData.set_mac_type e (mac_fdb_type m) b;
   b ← mLACPMACData.set_mac_addr e (take ETHER_ADDR_LEN (mac_addr m)) b;
   b ← sprintf_s (e + 10) (mac_origin_ifname m) b;
   mLACPMACData.set_vid e (htons (mac_vid m)) b)
  = Some (p ++ wire_mac (mac_entry m) ++ r).
Proof.
  intros (Ha & Hn & Hz) Hp. unfold sprintf_s. rewrite Hz.
  apply cstr_nul_length in Hz. rewrite Hn in Hz. unfold MAX_L_PORT_NAME, ETHER_ADDR_LEN in *.
  rewrite take_ge by lia.
  change (zeros 30) with (zeros 1 ++ zeros 1 ++ zeros 6 ++ zeros 2 ++ zeros 20).
  rewrite <- !app_assoc.
  cbv [mLACPMACData.set_type mLACPMACData.set_mac_type mLACPMACData.set_mac_addr
    mLACPMACData.set_vid wr8 wr16].
  rewrite le_split_htons. estep Hp. estep Hp. estep Hp. estep Hp.
  eop Hp. unfold wire_mac, mac_entry. cbn [me_op me_type me_mac me_vid me_ifname].
  rewrite pad_nul by lia. by rewrite <- !app_assoc.
Qed.

Section ListMsg.
Context {E : Type} (size : nat) (wire_e : E -> buf) (T : Z) (mk : list E -> Tlv).
Hypothesis mk_type : forall es, wire_type (mk es) = T.
Hypothesis mk_payload : forall es,
  wire_payload (mk es) = be 2 (Z.of_nat (length es)) ++ (es ≫= wire_e).
Hypothesis T_fits : 0 <= htons T < 2 ^ 14.

Definition entries_ok : list E -> Prop := Forall (fun e => length (wire_e e) = size).

(** The buffer after the entries [es] were appended. *)
Definition list_buf (id rg : Z) (es : list E) : buf :=
  match es with
  | [] => zeros CSM_BUFFER_SIZE
  | _ => let m := wire_msg MSG_T_RG_APP_DATA id rg (mk es) in
         m ++ zeros (CSM_BUFFER_SIZE - Z.of_nat (length m))
  end.

Definition list_size (n : nat) : Z := 22 + Z.of_nat (size * n).

Lemma entries_length es : entries_ok es -> length (es ≫= wire_e) = (size * length es)%nat.
Proof.
  induction 1 as [|e es He Hes IH]; [simpl; lia|]. rewrite bind_cons, length_app. simpl. lia.
Qed.

Lemma list_wire_size es : entries_ok es -> wire_size (mk es) = list_size (length es).
Proof.
  intros H. unfold wire_size, list_size.
  rewrite mk_payload, length_app, be_length, entries_length by done. lia.
Qed.

Lemma list_buf_split id rg es :
  entries_ok es -> list_size (S (length es)) <= CSM_BUFFER_SIZE ->
  exists h ty c1 c2,
    list_buf id rg es = h ++ ty ++ c1 ++ c2 ++ (es ≫= wire_e) ++ zeros (Z.of_nat size)
      ++ zeros (CSM_BUFFER_SIZE - list_size (S (length es)))
    /\ length h = 16%nat /\ length ty = 2%nat /\ length c1 = 2%nat /\ length c2 = 2%nat
    /\ (Z.of_nat (length es) = 0 \/ ty = be 2 T).
Proof.
  intros Hes Hroom. unfold list_size in *. destruct es as [|e0 es'].
  - exists (zeros 16), (zeros 2), (zeros 2), (zeros 2). cbn [list_buf length].
    split; [|repeat (split; [done|]); by left]. rewrite Nat.mul_1_r in *. cbn [mbind list_bind app].
    rewrite (zeros_room (22 + Z.of_nat size)) by lia.
    rewrite !app_assoc. f_equal.
    rewrite <- !zeros_app by lia. f_equal; lia.
  - set (es := e0 :: es') in *. unfold list_buf.
    exists (wire_icc_hdr MSG_T_RG_APP_DATA (wire_size (mk es)) id rg), (be 2 T),
      (be 2 (Z.of_nat (length (wire_payload (mk es))))), (be 2 (Z.of_nat (length es))).
    split; [|split; [apply wire_icc_hdr_length|by auto using be_length]].
    cbn zeta. rewrite wire_msg_length, list_wire_size by done.
    unfold wire_msg, wire_param. rewrite mk_type, mk_payload, <- !app_assoc.
    rewrite <- (zeros_app (Z.of_nat size)) by lia.
    do 6 f_equal; [by rewrite list_wire_size|]. unfold list_size. lia.
Qed.

Lemma list_append csm id0 rg0 id es e (W : buf -> option buf) :
  entries_ok es -> length (wire_e e) = size ->
  list_size (S (length es)) <= CSM_BUFFER_SIZE ->
  (forall p r, length p = mLACPListTLV.entry_off size (length es) ->
     W (p ++ zeros (Z.of_nat size) ++ r) = Some (p ++ wire_e e ++ r)) ->
  (b ← fill_icc_hdr csm MSG_T_RG_APP_DATA (list_size (S (length es))) id
         (list_buf id0 rg0 es);
   b ← ICCParameter.set_len TLV (htons (list_size (S (length es)) - 20)) b;
   b ← mLACPListTLV.set_num_of_entry (htons (Z.of_nat (length es) + 1)) b;
   b ← (if Z.of_nat (length es) =? 0 then
          b ← ICCParameter.set_u_bit TLV 0 b;
          b ← ICCParameter.set_f_bit TLV 0 b;
          ICCParameter.set_type TLV (htons T) b
        else Some b);
   W b)
  = Some (list_buf id (icc_rg_id (csm_iccp_info csm)) (es ++ [e])).
Proof.
  intros Hes He Hroom HW.
  destruct (list_buf_split id0 rg0 es Hes Hroom) as (h & ty & c1 & c2 & -> & Hh & Ht & H1 & H2 & Hc).
  rewrite fill_icc_hdr_spec by (done || apply APP_DATA_fits). cbn [mbind option_bind].
  rewrite (list_prefix T) by (done || apply wire_icc_hdr_length).
  set (hdr := wire_icc_hdr _ _ _ _). rewrite !app_assoc. rewrite <- (app_assoc _ (zeros _) (zeros _)).
  rewrite HW.
  2: { unfold mLACPListTLV.entry_off, TLV, ICCHdr.sizeof, mLACPListTLV.sizeof.
       rewrite !length_app, !be_length, entries_length by done.
       unfold hdr. rewrite wire_icc_hdr_length. lia. }
  f_equal. assert (Hes' : entries_ok (es ++ [e])) by (apply Forall_app; split; [done|by constructor]).
  assert (Hlen : length (es ++ [e]) = S (length es)) by (rewrite length_app; simpl; lia).
  assert (Hb : list_buf id (icc_rg_id (csm_iccp_info csm)) (es ++ [e])
    = wire_msg MSG_T_RG_APP_DATA id (icc_rg_id (csm_iccp_info csm)) (mk (es ++ [e]))
      ++ zeros (CSM_BUFFER_SIZE - list_size (S (length es)))).
  { unfold list_buf. destruct (es ++ [e]) as [|x y] eqn:Ex; [by destruct es|].
    rewrite <- Ex. cbn zeta. by rewrite wire_msg_length, list_wire_size, Ex, Hlen by by rewrite Ex. }
  rewrite Hb. unfold wire_msg, wire_param. rewrite mk_type.
  assert (Hpl : Z.of_nat (length (wire_payload (mk (es ++ [e])))) = list_size (S (length es)) - 20).
  { pose proof (list_wire_size _ Hes') as L. rewrite Hlen in L. unfold wire_size in L. lia. }
  rewrite Hpl, list_wire_size, mk_payload, Hlen, bind_app by done. fold hdr.
  rewrite bind_cons. cbn [mbind list_bind]. rewrite app_nil_r, <- !app_assoc.
  do 4 f_equal. f_equal. lia.
Qed.
End ListMsg.

Lemma list_msg_size size n :
  Z.of_nat ICCHdr.sizeof + (Z.of_nat mLACPListTLV.sizeof + Z.of_nat size * (Z.of_nat n + 1))
  = list_size size (S n).
Proof. unfold list_size, ICCHdr.sizeof, mLACPListTLV.sizeof. lia. Qed.

Lemma list_tlv_len size n :
  Z.of_nat mLACPListTLV.sizeof + Z.of_nat size * (Z.of_nat n + 1) - Z.of_nat ICCParameter.sizeof
  = list_size size (S n) - 20.
Proof. unfold list_size, ICCParameter.sizeof, mLACPListTLV.sizeof. lia. Qed.

Definition mac_buf := list_buf T_MacInfo.
Definition arp_buf := list_buf T_ArpInfo.
Definition nd_buf := list_buf T_NdiscInfo.

Lemma wire_mac_length m : mac_ok m -> length (wire_mac (mac_entry m)) = 30%nat.
Proof.
  intros (Ha & Hn & Hz). apply cstr_nul_length in Hz.
  unfold MAX_L_PORT_NAME, ETHER_ADDR_LEN in *.
  unfold wire_mac, mac_entry. cbn [me_op me_type me_mac me_vid me_ifname].
  autorewrite with len. rewrite pad_length, Ha by lia. done.
Qed.

Lemma prepare_mac_append s m es id0 rg0 :
  g_csm_buf (cs_g s) = mac_buf id0 rg0 es ->
  entries_ok 30 wire_mac es -> mac_ok m -> list_size 30 (S (length es)) <= CSM_BUFFER_SIZE ->
  mlacp_prepare_for_mac_info_to_peer m (Z.of_nat (length es)) s
  = Some (list_size 30 (S (length es)),
          with_buf s (mac_buf (cur_id s) (rg_id s) (es ++ [mac_entry m]))).
Proof.
  intros Hb Hes Hm Hroom. unfold mlacp_prepare_for_mac_info_to_peer. cbn zeta.
  unfold mLACPMACData.sizeof. rewrite list_msg_size, list_tlv_len, too_long_false by done.
  erewrite append_run; [reflexivity|]. rewrite Hb.
  apply (list_append 30 wire_mac TLV_T_MLACP_MAC_INFO T_MacInfo); try done.
  - by apply wire_mac_length.
  - intros p r Hp. rewrite Nat2Z.id. by apply fill_mac_entry.
Qed.

(** The entry a [struct ARPMsg] or [struct NDISCMsg] in memory stands for. *)
Definition arp_of (m : buf) : option ArpEntry :=
  op ← ARPMsg.get_op_type 0 m; fl ← ARPMsg.get_flag 0 m;
  nm ← ARPMsg.get_ifname 0 m; ip ← ARPMsg.get_ipv4_addr 0 m;
  mac ← ARPMsg.get_mac_addr 0 m;
  if has_nul nm then Some (mkArpEntry op fl (cstr nm) ip mac) else None.

Definition nd_of (m : buf) : option NdEntry :=
  op ← NDISCMsg.get_op_type 0 m; fl ← NDISCMsg.get_flag 0 m;
  nm ← NDISCMsg.get_ifname 0 m; ip ← NDISCMsg.get_ipv6_addr 0 m;
  mac ← NDISCMsg.get_mac_addr 0 m;
  if has_nul nm then Some (mkNdEntry op fl (cstr nm) ip mac) else None.

Lemma obind_Some {A B} (o : option A) (k : A -> option B) b :
  (o ≫= k) = Some b -> exists a, o = Some a /\ k a = Some b.
Proof. destruct o; simpl; eauto. discriminate. Qed.

Ltac obinv H :=
  let a := fresh "a" in let E := fresh "E" in
  apply obind_Some in H as (a & E & H).

Lemma fill_arp_entry m a p r e :
  arp_of m = Some a -> length p = e ->
  (op ← ARPMsg.get_op_type 0 m;
   b ← ARPMsg.set_op_type e op (p ++ zeros 36 ++ r);
   fl ← ARPMsg.get_flag 0 m;
   b ← ARPMsg.set_flag e fl b;
   nm ← ARPMsg.get_ifname 0 m;
   b ← sprintf_s (e + 3) nm b;
   ip ← ARPMsg.get_ipv4_addr 0 m;
   b ← ARPMsg.set_ipv4_addr e ip b;
   mac ← ARPMsg.get_mac_addr 0 m;
   ARPMsg.set_mac_addr e mac b)
  = Some (p ++ wire_arp a ++ r) /\ length (wire_arp a) = 36%nat.
Proof.
  intros H Hp. unfold arp_of in H. do 5 obinv H. rewrite E, E0, E1, E2, E3.
  case_match eqn:Hz; [|discriminate]. injection H as <-.
  cbn [mbind option_bind]. unfold sprintf_s. rewrite Hz. apply cstr_nul_length in Hz.
  unfold ARPMsg.get_ifname, ARPMsg.get_mac_addr in *.
  apply rd_inv in E1 as [_ Hn], E3 as [_ Hm]. rewrite Hn in Hz. split.
  - change (zeros 36) with (zeros 1 ++ zeros 1 ++ zeros 1 ++ zeros 21 ++ zeros 4 ++ zeros 6 ++ zeros 2).
    rewrite <- !app_assoc.
    cbv [ARPMsg.set_op_type ARPMsg.set_flag ARPMsg.set_ipv4_addr ARPMsg.set_mac_addr wr8 wr32].
    estep Hp. estep Hp.
    assert (Hpd : length (pad 21 (cstr a2 ++ [Byte.x00])) = 21%nat) by (apply pad_length; len).
    estep Hp. estep Hp. eop Hp.
    unfold wire_arp. cbn [ae_op ae_flag ae_ifname ae_ip ae_mac].
    rewrite pad_nul by lia. by rewrite <- !app_assoc.
  - unfold wire_arp. cbn [ae_op ae_flag ae_ifname ae_ip ae_mac].
    autorewrite with len. rewrite pad_length, Hm by lia. done.
Qed.

Lemma fill_nd_entry m a p r e :
  nd_of m = Some a -> length p = e ->
  (op ← NDISCMsg.get_op_type 0 m;
   b ← NDISCMsg.set_op_type e op (p ++ zeros 48 ++ r);
   fl ← NDISCMsg.get_flag 0 m;
   b ← NDISCMsg.set_flag e fl b;
   nm ← NDISCMsg.get_ifname 0 m;
   b ← sprintf_s (e + 3) nm b;
   ip ← NDISCMsg.get_ipv6_addr 0 m;
   b ← NDISCMsg.set_ipv6_addr e ip b;
   mac ← NDISCMsg.get_mac_addr 0 m;
   NDISCMsg.set_mac_addr e mac b)
  = Some (p ++ wire_nd a ++ r) /\ length (wire_nd a) = 48%nat.
Proof.
  intros H Hp. unfold nd_of in H. do 5 obinv H. rewrite E, E0, E1, E2, E3.
  case_match eqn:Hz; [|discriminate]. injection H as <-.
  cbn [mbind option_bind]. unfold sprintf_s. rewrite Hz. apply cstr_nul_length in Hz.
  unfold NDISCMsg.get_ifname, NDISCMsg.get_mac_addr, NDISCMsg.get_ipv6_addr in *.
  apply rd_inv in E1 as [_ Hn], E2 as [_ Hi], E3 as [_ Hm]. rewrite Hn in Hz. split.
  - change (zeros 48) with (zeros 1 ++ zeros 1 ++ zeros 1 ++ zeros 21 ++ zeros 16 ++ zeros 6 ++ zeros 2).
    rewrite <- !app_assoc.
    cbv [NDISCMsg.set_op_type NDISCMsg.set_flag NDISCMsg.set_ipv6_addr NDISCMsg.set_mac_addr wr8].
    estep Hp. estep Hp.
    assert (Hpd : length (pad 21 (cstr a2 ++ [Byte.x00])) = 21%nat) by (apply pad_length; len).
    estep Hp. estep Hp. eop Hp.
    unfold wire_nd. cbn [ne_op ne_flag ne_ifname ne_ip ne_mac].
    rewrite pad_nul by lia. by rewrite <- !app_assoc.
  - unfold wire_nd. cbn [ne_op ne_flag ne_ifname ne_ip ne_mac].
    autorewrite with len. rewrite pad_length, Hi, Hm by lia. done.
Qed.

Lemma prepare_arp_append s m e es id0 rg0 :
  g_csm_buf (cs_g s) = arp_buf id0 rg0 es ->
  entries_ok 36 wire_arp es -> arp_of m = Some e ->
  list_size 36 (S (length es)) <= CSM_BUFFER_SIZE ->
  mlacp_prepare_for_arp_info m (Z.of_nat (length es)) s
  = Some (list_size 36 (S (length es)),
          with_buf s (arp_buf (cur_id s) (rg_id s) (es ++ [e]))).
Proof.
  intros Hb Hes Hm Hroom. unfold mlacp_prepare_for_arp_info. cbn zeta.
  unfold ARPMsg.sizeof. rewrite list_msg_size, list_tlv_len, too_long_false by done.
  erewrite append_run; [reflexivity|]. rewrite Hb.
  apply (list_append 36 wire_arp TLV_T_MLACP_ARP_INFO T_ArpInfo); try done.
  - by apply (fill_arp_entry m e (zeros 0) [] 0 Hm).
  - intros p r Hp. rewrite Nat2Z.id. by apply fill_arp_entry.
Qed.

Lemma prepare_nd_append s m e es id0 rg0 :
  g_csm_buf (cs_g s) = nd_buf id0 rg0 es ->
  entries_ok 48 wire_nd es -> nd_of m = Some e ->
  list_size 48 (S (length es)) <= CSM_BUFFER_SIZE ->
  mlacp_prepare_for_ndisc_info m (Z.of_nat (length es)) s
  = Some (list_size 48 (S (length es)),
          with_buf s (nd_buf (cur_id s) (rg_id s) (es ++ [e]))).
Proof.
  intros Hb Hes Hm Hroom. unfold mlacp_prepare_for_ndisc_info. cbn zeta.
  unfold NDISCMsg.sizeof. rewrite list_msg_size, list_tlv_len, too_long_false by done.
  erewrite append_run; [reflexivity|]. rewrite Hb.
  apply (list_append 48 wire_nd TLV_T_MLACP_NDISC_INFO T_NdiscInfo); try done.
  - by apply (fill_nd_entry m e (zeros 0) [] 0 Hm).
  - intros p r Hp. rewrite Nat2Z.id. by apply fill_nd_entry.
Qed.

(** ** Properties *)

(** The interface messages: for a port channel the three builders leave the encoding of its
    configuration, its state and its VLANs in the buffer, over whatever the buffer held, and
    return its size.  A port channel with more VLANs than the buffer can carry is
    refused with [MCLAG_ERROR] and nothing is written, as is a physical port. *)
Theorem interface_messages_encoded s i p j :
  lif_ok i -> lif_type i = IF_T_PORT_CHANNEL -> lif_type j = IF_T_PORT ->
  let msg t := with_msg s (wire_msg MSG_T_RG_APP_DATA (cur_id s) (rg_id s) t) in
  mlacp_prepare_for_Aggport_config i p s
  = Some (62, msg (T_AggConfig (lif_po_id i) (lif_mac_addr i) (if p =? 1 then 2 else 1)
                     (strlen (lif_name i)) (lif_name i)))
  /\ mlacp_prepare_for_Aggport_state i s = Some (35, msg (T_AggState (lif_po_id i) (lif_state i)))
  /\ mlacp_prepare_for_port_channel_info i s
     = Some (if 52 + 2 * Z.of_nat (length (lif_vlan_tree i)) <=? CSM_BUFFER_SIZE
             then (52 + 2 * Z.of_nat (length (lif_vlan_tree i)), msg (port_channel_tlv i))
             else (MCLAG_ERROR, s))
  /\ mlacp_prepare_for_port_channel_info j s = Some (MCLAG_ERROR, s).
Proof.
  intros Hi Ht Hj msg. split_and!.
  - by apply prepare_aggport_config_wire.
  - by apply prepare_aggport_state_wire.
  - destruct (Z.leb_spec (52 + 2 * Z.of_nat (length (lif_vlan_tree i))) CSM_BUFFER_SIZE) as [H|H].
    + by apply prepare_port_channel_wire; rewrite ?Ht.
    + unfold mlacp_prepare_for_port_channel_info. rewrite Ht. cbn zeta.
      change (IF_T_PORT_CHANNEL =? IF_T_PORT) with false. cbv iota.
      by rewrite too_long_true by (unfold ICCHdr.sizeof, mLACPPortChannelInfoTLV.sizeof; lia).
  - unfold mlacp_prepare_for_port_channel_info. by rewrite Hj.
Qed.

(** The table messages grow by one entry per call: with [es] in the buffer, a call adds the
    next MAC, ARP or ND entry behind them, with the count and both lengths brought up to
    date, as long as the message fits; else [MCLAG_ERROR] is returned and the message
    in the buffer is left as it was. *)
Theorem table_messages_grow s m es a ae aes n ne nes id0 rg0 :
  mac_ok m -> entries_ok 30 wire_mac es ->
  arp_of a = Some ae -> entries_ok 36 wire_arp aes ->
  nd_of n = Some ne -> entries_ok 48 wire_nd nes ->
  let fits size k := list_size size k <=? CSM_BUFFER_SIZE in
  (g_csm_buf (cs_g s) = mac_buf id0 rg0 es ->
   mlacp_prepare_for_mac_info_to_peer m (Z.of_nat (length es)) s
   = Some (if fits 30%nat (S (length es))
           then (list_size 30 (S (length es)),
                 with_buf s (mac_buf (cur_id s) (rg_id s) (es ++ [mac_entry m])))
           else (MCLAG_ERROR, s)))
  /\ (g_csm_buf (cs_g s) = arp_buf id0 rg0 aes ->
   mlacp_prepare_for_arp_info a (Z.of_nat (length aes)) s
   = Some (if fits 36%nat (S (length aes))
           then (list_size 36 (S (length aes)),
                 with_buf s (arp_buf (cur_id s) (rg_id s) (aes ++ [ae])))
           else (MCLAG_ERROR, s)))
  /\ (g_csm_buf (cs_g s) = nd_buf id0 rg0 nes ->
   mlacp_prepare_for_ndisc_info n (Z.of_nat (length nes)) s
   = Some (if fits 48%nat (S (length nes))
           then (list_size 48 (S (length nes)),
                 with_buf s (nd_buf (cur_id s) (rg_id s) (nes ++ [ne])))
           else (MCLAG_ERROR, s))).
Proof.
  intros Hm Hes Ha Haes Hn Hnes fits. unfold fits.
  split_and!; intros Hb.
  - destruct (Z.leb_spec (list_size 30 (S (length es))) CSM_BUFFER_SIZE) as [H|H];
      [by eapply prepare_mac_append|].
    unfold mlacp_prepare_for_mac_info_to_peer, mLACPMACData.sizeof. cbn zeta.
    by rewrite list_msg_size, too_long_true.
  - destruct (Z.leb_spec (list_size 36 (S (length aes))) CSM_BUFFER_SIZE) as [H|H];
      [by eapply prepare_arp_append|].
    unfold mlacp_prepare_for_arp_info, ARPMsg.sizeof. cbn zeta.
    by rewrite list_msg_size, too_long_true.
  - destruct (Z.leb_spec (list_size 48 (S (length nes))) CSM_BUFFER_SIZE) as [H|H];
      [by eapply prepare_nd_append|].
    unfold mlacp_prepare_for_ndisc_info, NDISCMsg.sizeof. cbn zeta.
    by rewrite list_msg_size, too_long_true.
Qed.
