(* ===== verification/Receive.v ===== *)
(** Reception from the peer socket: [scheduler_csm_read_callback] of
    [scheduler.c] up to the disconnection it falls back to.

    The two loops read an LDP header with a blocking [recv] and the rest of the
    message with non-blocking ones.  What the calls return is scripted by
    [g_rd]; [feeds] describes the scripts that bring a given byte string, in
    whatever fragments, with how many empty-handed calls in between. *)

From Stdlib Require Import ZArith Lia.
From stdpp Require Import base list gmap numbers option.
From coqutil Require Import Byte Word.LittleEndianList.
From S2P Require Import Prelude CBuf State MsgFormat Wire CsmMsg AppCsm Csm.

(** ** Debug counters of the system instance *)

Definition CNT_INVALID_PEER_MSG : Z := 0.
Definition CNT_HDR_READ_SOCK_ERR : Z := 1.
Definition CNT_HDR_READ_SOCK_ZERO_LEN : Z := 2.
Definition CNT_TLV_READ_SOCK_ERR : Z := 3.
Definition CNT_TLV_READ_SOCK_ZERO_LEN : Z := 4.
Definition CNT_RX_RETRY_FAIL : Z := 5.
Definition CNT_RX_RETRY_TOTAL : Z := 6.
Definition CNT_RX_RETRY_MAX : Z := 7.
Definition CNT_SOCKET_CLOSE_ERR : Z := 8.
Definition CNT_SOCKET_CLEANUP : Z := 9.

Definition cnt (k : Z) (g : Globals) : Z := default 0 (g_cnt g !! k).

Definition SYSTEM_INCR (k : Z) : M CS unit :=
  on_g (fun g => g <| g_cnt ::= <[k := u32 (cnt k g + 1)]> |>).

Definition SYSTEM_SET_RETRY_COUNTER (num_retry : Z) : M CS unit :=
  on_g (fun g => g <| g_cnt ::= <[CNT_RX_RETRY_TOTAL := u32 (cnt CNT_RX_RETRY_TOTAL g + num_retry)]> |>);;
  on_g (fun g => if num_retry >? cnt CNT_RX_RETRY_MAX g
                 then g <| g_cnt ::= <[CNT_RX_RETRY_MAX := num_retry]> |> else g).

(** ** System calls *)

(** [recv] of at most [n] bytes: a longer segment is split. *)
Definition recv (n : nat) : M CS RecvEv :=
  evs ← gets (fun s => g_rd (cs_g s));
  match evs with
  | [] => mret Rx_zero
  | Rx_data bs :: evs' =>
      if (length bs <=? n)%nat
      then on_g (fun g => g <| g_rd := evs' |>);; mret (Rx_data bs)
      else on_g (fun g => g <| g_rd := Rx_data (drop n bs) :: evs' |>);;
           mret (Rx_data (take n bs))
  | ev :: evs' => on_g (fun g => g <| g_rd := evs' |>);; mret ev
  end.

(** ** The loops *)

Definition RECV_RETRY_INTERVAL_USEC : Z := 100000.
Definition RECV_RETRY_MAX : Z := 10.

(** [inl k]: jump to [recv_err] after incrementing counter [k]. *)
Fixpoint read_header (fuel recv_len : nat) : M CS (Z + unit) :=
  if (recv_len =? LDPHdr.sizeof)%nat then mret (inr tt)
  else match fuel with
  | O => ub
  | S fuel' =>
      ev ← recv (LDPHdr.sizeof - recv_len);
      match ev with
      | Rx_data (c :: bs) =>
          on_buf (wr recv_len (c :: bs));;
          read_header fuel' (recv_len + length (c :: bs))
      | Rx_err | Rx_again => mret (inl CNT_HDR_READ_SOCK_ERR)
      | Rx_zero | Rx_data [] => mret (inl CNT_HDR_READ_SOCK_ZERO_LEN)
      end
  end.

Record Retry := mkRetry { num_retry : Z; total_retry_time : Z }.

Fixpoint read_data (fuel : nat) (pos data_len : nat) (r : Retry) : M CS (Z + Retry) :=
  if (data_len =? 0)%nat then mret (inr r)
  else match fuel with
  | O => ub
  | S fuel' =>
      ev ← recv data_len;
      match ev with
      | Rx_data (c :: bs) =>
          on_buf (wr (LDPHdr.sizeof + pos) (c :: bs));;
          read_data fuel' (pos + length (c :: bs)) (data_len - length (c :: bs)) r
      | Rx_again =>
          let n := num_retry r + 1 in
          if n >? RECV_RETRY_MAX then mret (inl CNT_RX_RETRY_FAIL)
          else if n =? RECV_RETRY_MAX then
            csm ← the_csm;
            (if (- 2 ^ 31 <=? csm_session_timeout csm * 1000000)
                && (csm_session_timeout csm * 1000000 <? 2 ^ 31)
             then usleep (csm_session_timeout csm * 1000000 - total_retry_time r)
             else ub);;
            read_data fuel' pos data_len (mkRetry n (total_retry_time r))
          else
            usleep (n * RECV_RETRY_INTERVAL_USEC);;
            read_data fuel' pos data_len
              (mkRetry n (total_retry_time r + n * RECV_RETRY_INTERVAL_USEC))
      | Rx_err => mret (inl CNT_TLV_READ_SOCK_ERR)
      | Rx_zero | Rx_data [] => mret (inl CNT_TLV_READ_SOCK_ZERO_LEN)
      end
  end.

(** The callback after a header that announces [msg_len]. *)
Definition csm_read_data (msg_len : Z) : M CS bool :=
  if msg_len >=? MSG_L_INCLUD_U_BIT_MSG_T_L_FIELDS then
    let data_len := Z.to_nat (msg_len - MSG_L_INCLUD_U_BIT_MSG_T_L_FIELDS) in
    d ← read_data (data_len + 11) 0 data_len (mkRetry 0 0);
    match d with
    | inl k => SYSTEM_INCR k;; mret false
    | inr r =>
        when (num_retry r >? 0) (SYSTEM_SET_RETRY_COUNTER (num_retry r));;
        b ← the_buf;
        m ← lift (iccp_csm_init_msg b (msg_len + MSG_L_INCLUD_U_BIT_MSG_T_L_FIELDS));
        match m with
        | inr msg =>
            iccp_csm_enqueue_msg msg;;
            on_csm (fun c => c <| csm_icc_msg_in_count := u64 (csm_icc_msg_in_count c + 1) |>)
        | inl _ =>
            on_csm (fun c => c <| csm_i_msg_in_count := u64 (csm_i_msg_in_count c + 1) |>)
        end;;
        mret true
    end
  else SYSTEM_INCR CNT_INVALID_PEER_MSG;; mret false.

(** The callback on a CSM whose socket is open.  [true]: a message was taken;
    [false]: the caller disconnects the session. *)
Definition csm_read_message : M CS bool :=
  memset_buf;;
  h ← read_header LDPHdr.sizeof 0;
  match h with
  | inl k => SYSTEM_INCR k;; mret false
  | inr _ =>
      b ← the_buf;
      ml ← lift (LDPHdr.get_msg_len b);
      csm_read_data (ntohs ml)
  end.

(** ** Scripts that bring a byte string *)

(** [feeds bs k evs evs']: reading the events [evs] brings exactly [bs], after
    [k] calls that found nothing, and leaves [evs'].  The last segment may hold
    bytes of the next message. *)
Inductive feeds : buf -> nat -> list RecvEv -> list RecvEv -> Prop :=
  | feeds_nil evs : feeds [] 0 evs evs
  | feeds_chunk c bs k evs evs' :
      c <> [] -> feeds bs k evs evs' -> feeds (c ++ bs) k (Rx_data c :: evs) evs'
  | feeds_part c d evs :
      c <> [] -> d <> [] -> feeds c 0 (Rx_data (c ++ d) :: evs) (Rx_data d :: evs)
  | feeds_again bs k evs evs' :
      bs <> [] -> feeds bs k evs evs' -> feeds bs (S k) (Rx_again :: evs) evs'.

(** The state after the script advanced to [evs] with [b] in the buffer. *)
Definition io (evs : list RecvEv) (b : buf) (t : Z) (s : CS) : CS :=
  s <| cs_g ::= fun g => g <| g_rd := evs |> <| g_csm_buf := b |> <| g_slept := t |> |>.

Lemma io_io e b t e' b' t' s : io e' b' t' (io e b t s) = io e' b' t' s.
Proof. done. Qed.

Lemma bind_ret {S A B} (a : A) (k : A -> M S B) s : (mret a ≫= k) s = k a s.
Proof. done. Qed.

Lemma recv_all bs evs b t s n :
  (length bs <= n)%nat ->
  recv n (io (Rx_data bs :: evs) b t s) = Some (Rx_data bs, io evs b t s).
Proof.
  intros H. unfold recv, mbind, M_bind, gets. cbn -[Nat.leb].
  by rewrite (proj2 (Nat.leb_le (length bs) n) H).
Qed.

Lemma recv_part c d evs b t s n :
  length c = n -> d <> [] ->
  recv n (io (Rx_data (c ++ d) :: evs) b t s) = Some (Rx_data c, io (Rx_data d :: evs) b t s).
Proof.
  intros Hc Hd. unfold recv, mbind, M_bind, gets. cbn -[Nat.leb].
  rewrite (proj2 (Nat.leb_gt (length (c ++ d)) n))
    by (rewrite length_app; destruct d; simpl; [done|lia]).
  cbn. by rewrite take_app_exact, drop_app_exact.
Qed.

Lemma recv_again evs b t s n :
  recv n (io (Rx_again :: evs) b t s) = Some (Rx_again, io evs b t s).
Proof. done. Qed.

Lemma on_buf_io f evs b t s b' :
  f b = Some b' -> on_buf f (io evs b t s) = Some (tt, io evs b' t s).
Proof. intros E. unfold on_buf. cbn. by rewrite E. Qed.

Lemma on_buf_io_None f evs b t s : f b = None -> on_buf f (io evs b t s) = None.
Proof. intros E. unfold on_buf. cbn. by rewrite E. Qed.

(** Writing a fragment at its place in the buffer. *)
Lemma wr_fragment p c x r :
  (length c <= length x)%nat ->
  wr (length p) c (p ++ x ++ r) = Some ((p ++ c) ++ drop (length c) x ++ r).
Proof.
  intros H. rewrite (wr_shift0 p (x ++ r) (length p) c eq_refl).
  rewrite <- (take_drop (length c) x) at 1. rewrite <- app_assoc.
  rewrite wr_head by (rewrite length_take; lia). cbn. by rewrite <- !app_assoc.
Qed.

Lemma read_header_step fuel n ev s s' :
  (n <> LDPHdr.sizeof) -> recv (LDPHdr.sizeof - n) s = Some (ev, s') ->
  forall c bs, ev = Rx_data (c :: bs) ->
  read_header (S fuel) n s
  = (on_buf (wr n (c :: bs));; read_header fuel (n + length (c :: bs))) s'.
Proof.
  intros Hn Hr c bs ->. cbn [read_header].
  rewrite (proj2 (Nat.eqb_neq _ _) Hn). by rewrite (bind_Some _ _ _ _ _ Hr).
Qed.

Lemma read_header_feeds bs k evs evs' :
  feeds bs k evs evs' -> k = 0%nat -> forall p x r t s fuel,
  (length p + length bs = LDPHdr.sizeof)%nat -> length x = length bs ->
  (length bs <= fuel)%nat ->
  read_header fuel (length p) (io evs (p ++ x ++ r) t s)
  = Some (inr tt, io evs' (p ++ bs ++ r) t s).
Proof.
  induction 1 as [evs|c bs k evs evs' Hc Hf IH|c d evs Hc Hd|bs k evs evs' Hb Hf IH];
    intros Hk p x r t s fuel Hp Hx Hfuel; [..|done].
  - simpl in *. rewrite Nat.add_0_r in Hp. destruct x; [|done].
    destruct fuel; cbn [read_header]; by rewrite Hp.
  - rewrite length_app in *. destruct c as [|c0 c]; [done|].
    destruct fuel as [|fuel]; [simpl in Hfuel; lia|].
    erewrite read_header_step; [| |apply recv_all; simpl in *; unfold LDPHdr.sizeof in *; lia|done];
      [|simpl in *; unfold LDPHdr.sizeof in *; lia].
    erewrite bind_Some by (apply on_buf_io, wr_fragment; lia).
    replace (length p + length (c0 :: c))%nat with (length (p ++ c0 :: c)) by (rewrite length_app; lia).
    rewrite IH; [|done|rewrite length_app; lia|rewrite length_drop; lia|simpl in *; lia].
    by rewrite <- !app_assoc.
  - destruct c as [|c0 c]; [done|].
    destruct fuel as [|fuel]; [simpl in Hfuel; lia|].
    erewrite read_header_step; [| |apply recv_part; [lia|done]|done];
      [|simpl in *; unfold LDPHdr.sizeof in *; lia].
    erewrite bind_Some by (apply on_buf_io, wr_fragment; lia).
    rewrite <- Hx, drop_all. rewrite Hx.
    destruct fuel; cbn [read_header]; rewrite Hp; by rewrite <- app_assoc.
Qed.

(** [RECV_RETRY_MAX] empty reads are tolerated, with defined sleeps as long as
    the session timeout in microseconds is an [int]. *)
Definition timeout_ok (s : CS) : Prop := 0 <= csm_session_timeout (cs_csm s) <= 2147.

Definition retry_ok (r : Retry) : Prop :=
  0 <= num_retry r /\ 0 <= total_retry_time r <= num_retry r * 1000000.

Lemma usleep_io x evs b t s :
  - 2 ^ 31 <= x < 2 ^ 31 -> usleep x (io evs b t s) = Some (tt, io evs b (t + u32 x) s).
Proof.
  intros [H1 H2]. unfold usleep.
  rewrite (proj2 (Z.leb_le _ _) H1), (proj2 (Z.ltb_lt _ _) H2). done.
Qed.

Lemma read_data_step fuel pos n r ev s s' c bs :
  n <> 0%nat -> recv n s = Some (ev, s') -> ev = Rx_data (c :: bs) ->
  read_data (S fuel) pos n r s
  = (on_buf (wr (LDPHdr.sizeof + pos) (c :: bs));;
     read_data fuel (pos + length (c :: bs)) (n - length (c :: bs)) r) s'.
Proof.
  intros Hn Hr ->. cbn [read_data].
  rewrite (proj2 (Nat.eqb_neq _ _) Hn). by rewrite (bind_Some _ _ _ _ _ Hr).
Qed.

Lemma read_data_again fuel pos n r evs b t s :
  n <> 0%nat -> timeout_ok s -> retry_ok r -> num_retry r < RECV_RETRY_MAX ->
  exists r' t', num_retry r' = num_retry r + 1 /\ retry_ok r'
    /\ read_data (S fuel) pos n r (io (Rx_again :: evs) b t s)
       = read_data fuel pos n r' (io evs b t' s).
Proof.
  intros Hn Ht [Hr1 Hr2] Hmax. unfold timeout_ok, RECV_RETRY_MAX in *. cbn [read_data].
  rewrite (proj2 (Nat.eqb_neq _ _) Hn), (bind_Some _ _ _ _ _ (recv_again _ _ _ _ _)).
  cbn zeta. unfold RECV_RETRY_MAX, RECV_RETRY_INTERVAL_USEC.
  rewrite Z.gtb_ltb, (proj2 (Z.ltb_ge 10 _)) by lia.
  destruct (Z.eqb_spec (num_retry r + 1) 10) as [E|E].
  - rewrite bind_the_csm.
    change (csm_session_timeout (cs_csm (io evs b t s)))
      with (csm_session_timeout (cs_csm s)).
    rewrite (proj2 (Z.leb_le (- 2 ^ 31) _)), (proj2 (Z.ltb_lt _ (2 ^ 31))) by lia.
    cbn [andb]. erewrite bind_Some by (apply usleep_io; lia).
    do 2 eexists. split; [|split; [|reflexivity]]; simpl; [done|]. split; simpl; lia.
  - erewrite bind_Some by (apply usleep_io; lia).
    do 2 eexists. split; [|split; [|reflexivity]]; simpl; [done|]. split; simpl; lia.
Qed.

Lemma read_data_feeds bs k evs evs' :
  feeds bs k evs evs' -> forall h p x tl t s r fuel,
  length h = LDPHdr.sizeof -> length x = length bs ->
  (length bs + k <= fuel)%nat -> timeout_ok s -> retry_ok r ->
  num_retry r + Z.of_nat k <= RECV_RETRY_MAX ->
  exists r' t', num_retry r' = num_retry r + Z.of_nat k
    /\ read_data fuel (length p) (length bs) r (io evs (h ++ p ++ x ++ tl) t s)
       = Some (inr r', io evs' (h ++ p ++ bs ++ tl) t' s).
Proof.
  induction 1 as [evs|c bs k evs evs' Hc Hf IH|c d evs Hc Hd|bs k evs evs' Hb Hf IH];
    intros h p x tl t s r fuel Hh Hx Hfuel Ht Hr Hk.
  - destruct x; [|done]. exists r, t. split; [lia|]. by destruct fuel.
  - rewrite length_app in *. destruct c as [|c0 c]; [done|].
    destruct fuel as [|fuel]; [simpl in Hfuel; lia|].
    assert (Hx' : length (drop (length (c0 :: c)) x) = length bs) by (rewrite length_drop; lia).
    destruct (IH h (p ++ c0 :: c) _ tl t s r fuel Hh Hx' ltac:(simpl in *; lia) Ht Hr Hk)
      as (r' & t' & En & E).
    exists r', t'. split; [done|].
    erewrite read_data_step; [|simpl in *; lia|apply recv_all; lia|done].
    erewrite bind_Some by (apply on_buf_io; rewrite <- Hh, <- length_app, (app_assoc h p);
      apply wr_fragment; lia).
    rewrite length_app in E.
    replace (length (c0 :: c) + length bs - length (c0 :: c))%nat with (length bs) by lia.
    rewrite <- !app_assoc in *. exact E.
  - destruct c as [|c0 c]; [done|]. destruct fuel as [|fuel]; [simpl in Hfuel; lia|].
    exists r, t. split; [lia|].
    erewrite read_data_step; [|simpl in *; lia|by apply recv_part|done].
    erewrite bind_Some by (apply on_buf_io; rewrite <- Hh, <- length_app, (app_assoc h p);
      apply wr_fragment; lia).
    rewrite Nat.sub_diag, <- Hx, drop_all, <- !app_assoc. by destruct fuel.
  - destruct fuel as [|fuel]; [lia|].
    assert (Hn : length bs <> 0%nat) by (destruct bs; [done|simpl; lia]).
    destruct (read_data_again fuel (length p) (length bs) r evs (h ++ p ++ x ++ tl) t s
      Hn Ht Hr ltac:(lia)) as (r1 & t1 & En1 & Hr1 & ->).
    destruct (IH h p x tl t1 s r1 fuel Hh Hx ltac:(lia) Ht Hr1 ltac:(lia)) as (r' & t' & En & E).
    exists r', t'. split; [lia|done].
Qed.

(** ** A message that was read *)

(** A message that arrives: the allocation of the receive callback, then the
    queue. *)
Definition deliver (bs : buf) : M CS unit :=
  r ← lift (iccp_csm_init_msg bs (Z.of_nat (length bs)));
  match r with
  | inr m => iccp_csm_enqueue_msg m
  | inl _ => mret tt
  end.

Lemma init_msg_full bs :
  bs <> [] -> iccp_csm_init_msg bs (Z.of_nat (length bs))
  = Some (inr (mkMsg bs (Z.of_nat (length bs)))).
Proof.
  intros Hne. unfold iccp_csm_init_msg.
  rewrite (proj2 (Z.leb_gt _ _)) by (destruct bs; simpl; [done|lia]).
  by rewrite Nat2Z.id, rd_full.
Qed.


(** A message whose length field announces its length. *)
Definition framed (bs : buf) : Prop :=
  (8 <= length bs)%nat /\ Z.of_nat (length bs) <= 65535 + 4
  /\ LDPHdr.get_msg_len bs = Some (htons (Z.of_nat (length bs) - 4)).

Lemma get_msg_len_app bs r :
  (4 <= length bs)%nat -> LDPHdr.get_msg_len (bs ++ r) = LDPHdr.get_msg_len bs.
Proof. intros H. unfold LDPHdr.get_msg_len, rd16. by rewrite rd_app_l by lia. Qed.

Lemma io_self s : io (g_rd (cs_g s)) (g_csm_buf (cs_g s)) (g_slept (cs_g s)) s = s.
Proof. by destruct s as [c [] ? ? ?]. Qed.

(** The header loop on a message, from the cleared buffer. *)
Lemma read_header_message bs evs evs1 t s :
  framed bs -> feeds (take 8 bs) 0 evs evs1 ->
  read_header LDPHdr.sizeof 0 (io evs (zeros CSM_BUFFER_SIZE) t s)
  = Some (inr tt, io evs1 (take 8 bs ++ zeros (CSM_BUFFER_SIZE - 8)) t s).
Proof.
  intros (Hl & _ & _) Hf. assert (Hlen : length (take 8 bs) = 8%nat) by (rewrite length_take; lia).
  rewrite (zeros_room 8) by done.
  apply (read_header_feeds _ _ _ _ Hf eq_refl [] (zeros 8) _ t s LDPHdr.sizeof);
    unfold LDPHdr.sizeof; rewrite Hlen; done.
Qed.

Lemma framed_len bs :
  framed bs -> ntohs (htons (Z.of_nat (length bs) - 4)) = Z.of_nat (length bs) - 4.
Proof. intros (H1 & H2 & _). rewrite ntohs_htons. apply u16_small. lia. Qed.

(** State with the script, buffer, sleep and counters replaced. *)
Definition after_read (evs : list RecvEv) (b : buf) (t : Z) (c : gmap Z Z) (s : CS) : CS :=
  io evs b t s <| cs_g ::= fun g => g <| g_cnt := c |> |>.

Definition take_message (bs : buf) : M CS bool :=
  deliver bs;;
  on_csm (fun c => c <| csm_icc_msg_in_count := u64 (csm_icc_msg_in_count c + 1) |>);;
  mret true.

Lemma bind_the_buf {A} (k : buf -> M CS A) s :
  (the_buf ≫= k) s = k (g_csm_buf (cs_g s)) s.
Proof. done. Qed.

Lemma read_message_header bs s evs1 :
  framed bs -> feeds (take 8 bs) 0 (g_rd (cs_g s)) evs1 ->
  csm_read_message s
  = csm_read_data (Z.of_nat (length bs) - 4)
      (io evs1 (take 8 bs ++ zeros (CSM_BUFFER_SIZE - 8)) (g_slept (cs_g s)) s).
Proof.
  intros Hf Hh. pose proof (framed_len bs Hf) as Hml. pose proof Hf as (H8 & H9 & Hg).
  unfold csm_read_message.
  rewrite (bind_Some memset_buf _ s tt
    (io (g_rd (cs_g s)) (zeros CSM_BUFFER_SIZE) (g_slept (cs_g s)) s)) by by destruct s as [c [] ? ? ?].
  rewrite (bind_Some _ _ _ _ _ (read_header_message bs _ _ _ _ Hf Hh)), bind_the_buf.
  set (b1 := take 8 bs ++ zeros (CSM_BUFFER_SIZE - 8)).
  change (g_csm_buf _) with b1.
  assert (Hg1 : LDPHdr.get_msg_len b1 = Some (htons (Z.of_nat (length bs) - 4))).
  { rewrite <- Hg. unfold b1.
    transitivity (LDPHdr.get_msg_len (take 8 bs ++ drop 8 bs)); [|by rewrite take_drop].
    rewrite !get_msg_len_app by (rewrite length_take; lia). done. }
  by rewrite (bind_Some _ _ _ _ _ (lift_Some _ _ _ Hg1)), Hml.
Qed.

Lemma retry_counter_run b n evs m t s :
  exists c, when b (SYSTEM_SET_RETRY_COUNTER n) (io evs m t s) = Some (tt, after_read evs m t c s).
Proof.
  destruct b; [|by exists (g_cnt (cs_g s)); destruct s as [? [] ? ? ?]].
  unfold when, SYSTEM_SET_RETRY_COUNTER, mbind, M_bind, on_g, modify. cbn.
  unfold set. cbn. case_match; by eexists.
Qed.

Lemma read_message_feeds bs k evs1 evs2 s :
  framed bs -> Z.of_nat (length bs) <= CSM_BUFFER_SIZE -> timeout_ok s ->
  feeds (take 8 bs) 0 (g_rd (cs_g s)) evs1 -> feeds (drop 8 bs) k evs1 evs2 ->
  Z.of_nat k <= RECV_RETRY_MAX ->
  exists t c, csm_read_message s
    = take_message bs (after_read evs2
        (bs ++ zeros (CSM_BUFFER_SIZE - Z.of_nat (length bs))) t c s).
Proof.
  intros Hf Hl Ht Hh Hd Hk. rewrite (read_message_header bs _ evs1 Hf Hh).
  destruct Hf as (H8 & H9 & Hg). unfold csm_read_data.
  set (b1 := take 8 bs ++ zeros (CSM_BUFFER_SIZE - 8)).
  unfold MSG_L_INCLUD_U_BIT_MSG_T_L_FIELDS.
  rewrite Z.geb_leb, (proj2 (Z.leb_le 4 _)) by lia. cbn zeta.
  assert (Hdl : Z.to_nat (Z.of_nat (length bs) - 4 - 4) = length (drop 8 bs))
    by (rewrite length_drop; lia).
  rewrite Hdl. unfold RECV_RETRY_MAX in Hk.
  assert (Hb1 : b1 = take 8 bs ++ [] ++ zeros (Z.of_nat (length (drop 8 bs)))
      ++ zeros (CSM_BUFFER_SIZE - Z.of_nat (length bs))).
  { unfold b1. cbn [app]. f_equal. rewrite <- zeros_app by lia. f_equal.
    rewrite length_drop. lia. }
  destruct (read_data_feeds _ _ _ _ Hd (take 8 bs) [] (zeros (Z.of_nat (length (drop 8 bs))))
    (zeros (CSM_BUFFER_SIZE - Z.of_nat (length bs))) (g_slept (cs_g s)) s (mkRetry 0 0)
    (length (drop 8 bs) + 11)) as (r' & t' & Hn & E).
  { rewrite length_take. unfold LDPHdr.sizeof. lia. }
  { rewrite zeros_length. lia. } { lia. } { done. } { split; simpl; lia. }
  { simpl. unfold RECV_RETRY_MAX. lia. }
  rewrite <- Hb1 in E. cbn [app length] in E.
  rewrite (bind_Some _ _ _ _ _ E). rewrite app_assoc, take_drop.
  set (b2 := bs ++ zeros _).
  destruct (retry_counter_run (num_retry r' >? 0) (num_retry r') evs2 b2 t' s) as [c Ec].
  exists t', c. rewrite (bind_Some _ _ _ _ _ Ec), bind_the_buf.
  change (g_csm_buf _) with b2. unfold take_message, deliver, iccp_csm_init_msg.
  replace (Z.of_nat (length bs) - 4 + 4) with (Z.of_nat (length bs)) by lia.
  rewrite (proj2 (Z.leb_gt _ _)) by lia. rewrite Nat2Z.id. unfold b2.
  rewrite rd_head, rd_full by done. cbn [mbind option_bind].
  unfold lift, mbind, M_bind. cbn -[iccp_csm_enqueue_msg].
  by destruct (iccp_csm_enqueue_msg _ _) as [[? ?]|].
Qed.

(** ** Every script ends the loops *)

Lemma recv_total n s :
  exists ev s', recv n s = Some (ev, s')
    /\ cs_csm s' = cs_csm s /\ g_csm_buf (cs_g s') = g_csm_buf (cs_g s)
    /\ match ev with Rx_data bs => (length bs <= n)%nat | _ => True end.
Proof.
  unfold recv, mbind, M_bind, gets. destruct (g_rd (cs_g s)) as [|[bs| | |] evs]; cbn -[Nat.leb];
    try by do 2 eexists.
  destruct (Nat.leb_spec (length bs) n); cbn; [by do 2 eexists|].
  do 2 eexists. split; [done|]. do 2 (split; [done|]). rewrite length_take. lia.
Qed.

Lemma on_buf_wr_total off bs s :
  (off + length bs <= length (g_csm_buf (cs_g s)))%nat ->
  exists s', on_buf (wr off bs) s = Some (tt, s') /\ cs_csm s' = cs_csm s
    /\ length (g_csm_buf (cs_g s')) = length (g_csm_buf (cs_g s)).
Proof.
  intros H. destruct (wr_total off bs _ H) as [b Hb]. pose proof (wr_length _ _ _ _ Hb).
  unfold on_buf. rewrite Hb. cbn. by eexists.
Qed.

Lemma read_header_total fuel n s :
  (n <= LDPHdr.sizeof)%nat -> (LDPHdr.sizeof - n <= fuel)%nat ->
  (LDPHdr.sizeof <= length (g_csm_buf (cs_g s)))%nat ->
  exists r s', read_header fuel n s = Some (r, s').
Proof.
  revert n s. induction fuel as [|fuel IH]; intros n s Hn Hf Hb; cbn [read_header];
    (destruct (Nat.eqb_spec n LDPHdr.sizeof) as [E|E]; [by do 2 eexists|]); [lia|].
  destruct (recv_total (LDPHdr.sizeof - n) s) as (ev & s1 & E1 & _ & Hb1 & Hev).
  rewrite (bind_Some _ _ _ _ _ E1). destruct ev as [[|c bs]| | |]; try by do 2 eexists.
  rewrite <- Hb1 in Hb. cbn [length] in Hev.
  destruct (on_buf_wr_total n (c :: bs) s1) as (s2 & E2 & _ & Hb2); [cbn [length num_retry total_retry_time] in *; lia|].
  rewrite (bind_Some _ _ _ _ _ E2). apply IH; cbn [length num_retry total_retry_time] in *; lia.
Qed.

Lemma retry_range r : retry_ok r -> num_retry r < RECV_RETRY_MAX ->
  0 <= total_retry_time r <= 10000000.
Proof. intros [? ?] ?. unfold RECV_RETRY_MAX in *. lia. Qed.

Lemma usleep_total x s :
  - 2 ^ 31 <= x < 2 ^ 31 ->
  exists s', usleep x s = Some (tt, s') /\ cs_csm s' = cs_csm s
    /\ g_csm_buf (cs_g s') = g_csm_buf (cs_g s).
Proof.
  intros H. rewrite <- (io_self s). rewrite usleep_io by done. by eexists.
Qed.

Lemma read_data_total fuel pos n r s :
  timeout_ok s -> retry_ok r -> num_retry r <= RECV_RETRY_MAX ->
  (n + Z.to_nat (RECV_RETRY_MAX + 1 - num_retry r) <= fuel)%nat ->
  (LDPHdr.sizeof + pos + n <= length (g_csm_buf (cs_g s)))%nat ->
  exists res s', read_data fuel pos n r s = Some (res, s').
Proof.
  revert pos n r s. induction fuel as [|fuel IH]; intros pos n r s Ht Hr Hm Hf Hb;
    cbn [read_data]; (destruct (Nat.eqb_spec n 0) as [E|E]; [by do 2 eexists|]); [lia|].
  destruct (recv_total n s) as (ev & s1 & E1 & Hc1 & Hb1 & Hev).
  rewrite (bind_Some _ _ _ _ _ E1).
  assert (Ht1 : timeout_ok s1) by (unfold timeout_ok in *; by rewrite Hc1).
  rewrite <- Hb1 in Hb. destruct ev as [[|c bs]| | |]; try by do 2 eexists.
  - cbn [length] in Hev.
    destruct (on_buf_wr_total (LDPHdr.sizeof + pos) (c :: bs) s1) as (s2 & E2 & Hc2 & Hb2);
      [cbn [length num_retry total_retry_time] in *; lia|].
    rewrite (bind_Some _ _ _ _ _ E2).
    apply IH; [by unfold timeout_ok in *; rewrite Hc2|done|done|cbn [length num_retry total_retry_time] in *; lia|cbn [length num_retry total_retry_time] in *; lia].
  - cbn zeta. rewrite Z.gtb_ltb. destruct (Z.ltb_spec RECV_RETRY_MAX (num_retry r + 1)) as [H|H];
      [by do 2 eexists|].
    pose proof (retry_range r Hr ltac:(lia)) as Hrt. destruct Hr as [Hr1 Hr2].
    unfold timeout_ok in Ht1. unfold RECV_RETRY_MAX, RECV_RETRY_INTERVAL_USEC in *.
    destruct (Z.eqb_spec (num_retry r + 1) 10) as [E10|E10].
    + rewrite bind_the_csm.
      rewrite (proj2 (Z.leb_le (- 2 ^ 31) _)), (proj2 (Z.ltb_lt _ (2 ^ 31))) by lia. cbn [andb].
      destruct (usleep_total (csm_session_timeout (cs_csm s1) * 1000000 - total_retry_time r) s1)
        as (s2 & E2 & Hc2 & Hb2); [lia|].
      rewrite (bind_Some _ _ _ _ _ E2).
      apply IH; [by unfold timeout_ok in *; rewrite Hc2|split; cbn [length num_retry total_retry_time] in *; lia|cbn [length num_retry total_retry_time] in *; lia
        |cbn [length num_retry total_retry_time] in *; lia|by rewrite Hb2].
    + destruct (usleep_total ((num_retry r + 1) * 100000) s1) as (s2 & E2 & Hc2 & Hb2); [lia|].
      rewrite (bind_Some _ _ _ _ _ E2).
      apply IH; [by unfold timeout_ok in *; rewrite Hc2|split; cbn [length num_retry total_retry_time] in *; lia|cbn [length num_retry total_retry_time] in *; lia
        |cbn [length num_retry total_retry_time] in *; lia|by rewrite Hb2].
Qed.

(** ** Messages longer than the buffer *)

Lemma read_data_overflow bs k evs evs' :
  feeds bs k evs evs' -> forall pos fuel b t s r,
  (length b < LDPHdr.sizeof + pos + length bs)%nat ->
  (LDPHdr.sizeof + pos <= length b)%nat ->
  (length bs + k <= fuel)%nat -> timeout_ok s -> retry_ok r ->
  num_retry r + Z.of_nat k <= RECV_RETRY_MAX ->
  read_data fuel pos (length bs) r (io evs b t s) = None.
Proof.
  induction 1 as [evs|c bs k evs evs' Hc Hf IH|c d evs Hc Hd|bs k evs evs' Hb Hf IH];
    intros pos fuel b t s r Hlt Hle Hfuel Ht Hr Hk.
  - cbn [length] in Hlt. lia.
  - rewrite length_app in *. destruct c as [|c0 c]; [done|].
    destruct fuel as [|fuel]; [cbn [length] in Hfuel; lia|].
    erewrite read_data_step; [|cbn [length] in *; lia|apply recv_all; lia|done].
    destruct (wr (LDPHdr.sizeof + pos) (c0 :: c) b) as [b'|] eqn:Ew.
    + erewrite bind_Some by by apply on_buf_io.
      replace (length (c0 :: c) + length bs - length (c0 :: c))%nat with (length bs) by lia.
      pose proof (wr_length _ _ _ _ Ew) as Hl.
      assert (LDPHdr.sizeof + pos + length (c0 :: c) <= length b)%nat.
      { unfold wr in Ew. destruct (Nat.leb_spec (LDPHdr.sizeof + pos + length (c0 :: c)) (length b));
          [done|discriminate]. }
      apply IH; [lia|lia|cbn [length] in *; lia|done..].
    + by apply bind_None, on_buf_io_None.
  - destruct c as [|c0 c]; [done|]. destruct fuel as [|fuel]; [cbn [length] in Hfuel; lia|].
    erewrite read_data_step; [|cbn [length] in *; lia|by apply recv_part|done].
    apply bind_None, on_buf_io_None. unfold wr. by rewrite (proj2 (Nat.leb_gt _ _)) by lia.
  - destruct fuel as [|fuel]; [lia|].
    assert (Hn : length bs <> 0%nat) by (destruct bs; [done|cbn [length num_retry total_retry_time] in *; lia]).
    destruct (read_data_again fuel pos (length bs) r evs b t s Hn Ht Hr ltac:(lia))
      as (r1 & t1 & En1 & Hr1 & ->).
    apply IH; try done; lia.
Qed.

(** ** Properties *)

(** C4. A message is reassembled from the stream whatever the segmentation: however
    the bytes of a well-framed message that fits the buffer are split over
    [recv] calls, with up to ten empty reads in its body, the callback hands the
    queue exactly those bytes, counts one message, and leaves the rest of the
    stream for the next call. *)
Theorem read_callback_reassembles bs k evs1 evs2 s :
  framed bs -> Z.of_nat (length bs) <= CSM_BUFFER_SIZE -> timeout_ok s ->
  feeds (take 8 bs) 0 (g_rd (cs_g s)) evs1 -> feeds (drop 8 bs) k evs1 evs2 ->
  Z.of_nat k <= RECV_RETRY_MAX ->
  exists t c, csm_read_message s
    = take_message bs (after_read evs2
        (bs ++ zeros (CSM_BUFFER_SIZE - Z.of_nat (length bs))) t c s).
Proof. apply read_message_feeds. Qed.

(** Whatever the socket returns, the two loops of the callback end within the
    fuel they are given and stay inside the buffer, as long as the announced
    message fits in it: the header loop after at most eight reads, the body loop
    after one read per byte and eleven empty reads. *)
Theorem read_loops_terminate s n :
  timeout_ok s -> length (g_csm_buf (cs_g s)) = Z.to_nat CSM_BUFFER_SIZE ->
  (n <= Z.to_nat CSM_BUFFER_SIZE - 8)%nat ->
  (exists h s', read_header LDPHdr.sizeof 0 s = Some (h, s'))
  /\ (exists d s', read_data (n + 11) 0 n (mkRetry 0 0) s = Some (d, s')).
Proof.
  intros Ht Hb Hn.
  assert (Hbig : (8 <= Z.to_nat CSM_BUFFER_SIZE)%nat) by (unfold CSM_BUFFER_SIZE; lia).
  split.
  - apply read_header_total; unfold LDPHdr.sizeof in *; lia.
  - apply read_data_total; [done|by split; simpl; lia|done
      |unfold RECV_RETRY_MAX; cbn [num_retry]; lia|unfold LDPHdr.sizeof; lia].
Qed.

(** The length check accepts messages longer than the buffer: a peer that
    announces and sends 65533 to 65535 bytes after the first four makes the
    callback write past the end of [g_csm_buf]. *)
Theorem oversized_message_overflows bs k evs1 evs2 s :
  framed bs -> Z.of_nat (length bs) > CSM_BUFFER_SIZE -> timeout_ok s ->
  feeds (take 8 bs) 0 (g_rd (cs_g s)) evs1 -> feeds (drop 8 bs) k evs1 evs2 ->
  Z.of_nat k <= RECV_RETRY_MAX ->
  csm_read_message s = None.
Proof.
  intros Hf Hl Ht Hh Hd Hk. rewrite (read_message_header bs _ evs1 Hf Hh).
  destruct Hf as (H8 & H9 & Hg). unfold csm_read_data, MSG_L_INCLUD_U_BIT_MSG_T_L_FIELDS.
  rewrite Z.geb_leb, (proj2 (Z.leb_le 4 _)) by lia. cbn zeta.
  assert (Hdl : Z.to_nat (Z.of_nat (length bs) - 4 - 4) = length (drop 8 bs))
    by (rewrite length_drop; lia).
  rewrite Hdl. apply bind_None.
  assert (Hb8 : length (take 8 bs) = 8%nat) by (rewrite length_take; lia).
  eapply read_data_overflow; [exact Hd|..]; rewrite ?length_app, ?zeros_length, ?Hb8,
    ?length_drop; unfold RECV_RETRY_MAX, CSM_BUFFER_SIZE, LDPHdr.sizeof in *;
    [lia|lia|lia|done|by split; simpl; lia|simpl; lia].
Qed.
