(* ===== verification/Handshake.v ===== *)
(** Two peers opening a connection.

    [Proto] is the connection protocol as a finite automaton: six states, four
    flags and a queue of two kinds of messages.  [transit_sim] is the refinement
    theorem: a pass of [iccp_csm_transit] on a CSM, with the byte buffers it
    parses and builds, is a step of the automaton.  The runs of two automata
    that exchange messages are then decided by exhausting their finite state
    space, and the result is carried back to the code. *)

From Stdlib Require Import ZArith Lia.
From stdpp Require Import base list gmap numbers option.
From coqutil Require Import Byte Word.LittleEndianList.
From S2P Require Import Prelude CBuf State MsgFormat Wire CsmMsg AppCsm Csm Receive.

(** ** The protocol *)

Module Proto.
Inductive pmsg := P_cap | P_conn.

Record node := mkNode {
  n_st : ICCP_CONNECTION_STATE;
  n_scap : bool; n_pcap : bool; n_sconn : bool; n_pconn : bool;
  n_q : list pmsg;
}.

#[global] Instance pmsg_eq_dec : EqDecision pmsg.
Proof. solve_decision. Defined.
#[global] Instance node_eq_dec : EqDecision node.
Proof. solve_decision. Defined.
#[global] Instance eta_node : Eta node := fun r =>
  mkNode (n_st r) (n_scap r) (n_pcap r) (n_sconn r) (n_pconn r) (n_q r).

Definition receive (m : option pmsg) (n : node) : node :=
  match m with
  | Some P_cap => n <| n_pcap := true |>
  | Some P_conn => n <| n_pconn := true |>
  | None => n
  end.

(** The message sent in the current state. *)
Definition output (n : node) : option pmsg :=
  match n_st n with
  | ICCP_INITIALIZED => Some P_cap
  | ICCP_CAPREC => Some P_conn
  | _ => None
  end.

Definition next (n : node) : ICCP_CONNECTION_STATE :=
  match n_st n with
  | ICCP_INITIALIZED => if n_pcap n then ICCP_CAPREC else ICCP_CAPSENT
  | ICCP_CAPSENT => if n_pcap n then ICCP_CAPREC else ICCP_CAPSENT
  | ICCP_CAPREC => if n_pconn n then ICCP_OPERATIONAL else ICCP_CONNECTING
  | ICCP_CONNECTING => if n_pconn n then ICCP_OPERATIONAL else ICCP_CONNECTING
  | st => st
  end.

Definition enter (n : node) : node :=
  match n_st n with
  | ICCP_INITIALIZED => n <| n_scap := true |>
  | ICCP_CAPREC => n <| n_scap := true |> <| n_pcap := true |>
  | ICCP_CONNECTING => n <| n_sconn := true |>
  | ICCP_OPERATIONAL => n <| n_sconn := true |> <| n_pconn := true |>
  | _ => n
  end.

Definition step (n : node) : node * option pmsg :=
  let m := head (n_q n) in
  let n1 := receive m (n <| n_q := tail (n_q n) |>) in
  let n2 := n1 <| n_st := next n1 |> in
  (if bool_decide (n_st n <> n_st n2) || bool_decide (m <> None)
   then enter n2 else n2, output n1).

Definition push (m : option pmsg) (n : node) : node :=
  n <| n_q ::= fun q => q ++ option_list m |>.

(** [true] is the left peer. *)
Definition net_step (who : bool) (p : node * node) : node * node :=
  if who then let '(a, m) := step p.1 in (a, push m p.2)
  else let '(b, m) := step p.2 in (push m p.1, b).

Definition net_run (sched : list bool) (p : node * node) : node * node :=
  fold_left (fun p who => net_step who p) sched p.

Definition start : node := mkNode ICCP_INITIALIZED true false false false [].

(** The flags a session has in the states where the code relies on them. *)
Definition flags_ok (n : node) : bool :=
  match n_st n with
  | ICCP_NONEXISTENT => false
  | ICCP_OPERATIONAL => n_scap n && n_sconn n && n_pconn n
  | _ => n_scap n
  end.

Definition final (n : node) : bool := bool_decide (n_st n = ICCP_OPERATIONAL).

(** Distance of a state to OPERATIONAL. *)
Definition todo (n : node) : nat :=
  match n_st n with
  | ICCP_NONEXISTENT => 5 | ICCP_INITIALIZED => 4 | ICCP_CAPSENT => 3
  | ICCP_CAPREC => 2 | ICCP_CONNECTING => 1 | ICCP_OPERATIONAL => 0
  end%nat.

Definition todo2 (p : node * node) : nat := (todo p.1 + todo p.2)%nat.

(** Breadth-first closure of a set of states under the two steps. *)
Fixpoint close (fuel : nat) (seen new : list (node * node)) : list (node * node) :=
  match fuel with
  | O => seen
  | S k =>
      let succ := new ≫= fun p => [net_step true p; net_step false p] in
      let fresh := remove_dups (filter (fun p => p ∉ seen) succ) in
      match fresh with [] => seen | _ => close k (seen ++ fresh) fresh end
  end.

Definition reachable : list (node * node) :=
  Eval vm_compute in close 12 [(start, start)] [(start, start)].

(** A state is closed under both steps, keeps its flags, never moves away from
    OPERATIONAL, and is not stuck before it. *)
Definition good (p : node * node) : bool :=
  forallb (fun who => let p' := net_step who p in
      bool_decide (p' ∈ reachable)
      && ((todo2 p' <? todo2 p)%nat || bool_decide (p' = p))) [true; false]
  && flags_ok p.1 && flags_ok p.2
  && ((todo2 p =? 0)%nat
      || negb (bool_decide (net_step true p = p) && bool_decide (net_step false p = p))).

Lemma reachable_good : forallb good reachable = true.
Proof. vm_compute. reflexivity. Qed.

Lemma good_elim p : p ∈ reachable -> good p = true.
Proof.
  intros Hp. eapply forallb_forall; [apply reachable_good|]. by apply list_elem_of_In.
Qed.

Lemma good_step p who :
  p ∈ reachable ->
  net_step who p ∈ reachable
  /\ ((todo2 (net_step who p) < todo2 p)%nat \/ net_step who p = p).
Proof.
  intros Hp. apply good_elim in Hp. unfold good in Hp. cbn [forallb] in Hp.
  repeat (apply andb_true_iff in Hp as [Hp ?]).
  assert (H' : (bool_decide (net_step who p ∈ reachable)
    && ((todo2 (net_step who p) <? todo2 p)%nat || bool_decide (net_step who p = p)))%bool
    = true) by (destruct who; zbool; apply andb_true_iff; done).
  clear -H'. apply andb_true_iff in H' as [H1 H2%orb_true_iff].
  rewrite !bool_decide_eq_true in *. rewrite Nat.ltb_lt in H2. done.
Qed.

Lemma good_flags p : p ∈ reachable -> flags_ok p.1 = true /\ flags_ok p.2 = true.
Proof. intros Hp. apply good_elim in Hp. unfold good in Hp. zbool. done. Qed.

Lemma good_progress p :
  p ∈ reachable -> todo2 p <> 0%nat -> net_step true p <> p \/ net_step false p <> p.
Proof.
  intros Hp Ht. apply good_elim in Hp. unfold good in Hp. zbool.
  destruct (bool_decide (net_step true p = p)) eqn:E1;
    destruct (bool_decide (net_step false p = p)) eqn:E2;
    rewrite ?bool_decide_eq_true, ?bool_decide_eq_false in *; auto.
  exfalso. destruct (Nat.eqb_spec (todo2 p) 0); [done|]. done.
Qed.

Lemma run_good sched p :
  p ∈ reachable ->
  net_run sched p ∈ reachable
  /\ ((todo2 (net_run sched p) < todo2 p)%nat
      \/ net_run sched p = p /\ forall who, who ∈ sched -> net_step who p = p).
Proof.
  revert p. induction sched as [|w sched IH]; intros p Hp; cbn [net_run fold_left].
  - split; [done|right]. split; [done|]. intros who Hw. by apply not_elem_of_nil in Hw.
  - destruct (good_step p w Hp) as [Hr Hd].
    destruct (IH _ Hr) as [Hr' Hd']. split; [done|].
    destruct Hd as [Hd|Hd]; [left; destruct Hd' as [|[E _]]; unfold net_run in *;
      [lia | rewrite E; lia]|].
    rewrite Hd in Hd'. destruct Hd' as [Hd'|[E Hw]]; [left; unfold net_run in *; by rewrite Hd|].
    right. rewrite Hd. split; [done|]. intros who [->|?]%elem_of_cons; auto.
Qed.

(** A round lets both peers run, in any order and any number of times. *)
Definition is_round (r : list bool) : Prop := true ∈ r /\ false ∈ r.

Lemma run_rounds rs p :
  p ∈ reachable -> Forall is_round rs ->
  net_run (concat rs) p ∈ reachable
  /\ (todo2 (net_run (concat rs) p) <= todo2 p - length rs)%nat.
Proof.
  intros Hp Hrs. revert p Hp. induction Hrs as [|r rs [H1 H2] Hrs IH]; intros p Hp.
  { simpl. split; [done|]. lia. }
  cbn [concat]. unfold net_run. rewrite fold_left_app.
  fold (net_run r p). fold (net_run (concat rs) (net_run r p)).
  destruct (run_good r p Hp) as [Hr Hd]. destruct (IH _ Hr) as [Hr' Ht].
  split; [done|]. cbn [length]. destruct Hd as [Hd|[E Hd]]; [lia|].
  destruct (decide (todo2 p = 0%nat)) as [E0|Hne]; [rewrite E in *; lia|].
  destruct (good_progress p Hp Hne) as [Hx|Hx]; exfalso; auto.
Qed.

Lemma todo_operational n : todo n = 0%nat -> n_st n = ICCP_OPERATIONAL.
Proof. unfold todo. by destruct (n_st n). Qed.
End Proto.

(** ** The code refines the protocol *)

Section Sim.
Variable rg : Z.
Hypothesis Hrg : 0 <= rg < 2 ^ 32.

(** A message in a queue, and one on the wire. *)
Definition msg_rel (m : Msg) (a : Proto.pmsg) : Prop :=
  match a with
  | Proto.P_cap => exists id n, m = mkMsg (rx_capability id 1) n
  | Proto.P_conn => exists id name n,
      m = mkMsg (rx_msg MSG_T_RG_CONNECT id rg (T_SenderName name)) n
  end.

Definition wire_rel (bs : buf) (a : Proto.pmsg) : Prop :=
  match a with
  | Proto.P_cap => exists id, bs = wire_capability id 1
  | Proto.P_conn => exists id name,
      bs = wire_msg MSG_T_RG_CONNECT id rg (T_SenderName name)
      /\ (length name <= MAX_L_ICC_SENDER_NAME)%nat
  end.

Record sim (s : CS) (n : Proto.node) : Prop := mk_sim {
  sim_ready : ready s;
  sim_rg : rg_id s = rg;
  sim_status : status_code (csm_iccp_info (cs_csm s)) = 0;
  sim_st : csm_current_state (cs_csm s) = Proto.n_st n;
  sim_scap : sender_capability_flag (csm_iccp_info (cs_csm s)) = of_bool (Proto.n_scap n);
  sim_pcap : peer_capability_flag (csm_iccp_info (cs_csm s)) = of_bool (Proto.n_pcap n);
  sim_sconn : sender_rg_connect_flag (csm_iccp_info (cs_csm s)) = of_bool (Proto.n_sconn n);
  sim_pconn : peer_rg_connect_flag (csm_iccp_info (cs_csm s)) = of_bool (Proto.n_pconn n);
  sim_q : Forall2 msg_rel (csm_msg_list (cs_csm s)) (Proto.n_q n);
}.

(** [sim] sees a state through the members it names. *)
Lemma sim_frame s s' n bs :
  sim s n -> ready s' -> sent_more bs s s' -> sim s' n.
Proof.
  intros [] Hr (_ & Hi & Hs & Hm & _). unfold rg_id in *.
  split; unfold rg_id; rewrite ?Hi, ?Hs, ?Hm; done.
Qed.

Lemma sim_receive s n om m :
  sim s n -> option_Forall2 msg_rel om m ->
  exists s', correspond_opt om s = Some (tt, s') /\ sim s' (Proto.receive m n)
    /\ g_sent (cs_g s') = g_sent (cs_g s) /\ csm_sock_fd (cs_csm s') = csm_sock_fd (cs_csm s).
Proof.
  intros Hsim Hm. pose proof Hsim as [Hr Hg Hs ? ? ? ? ? ?].
  destruct Hm as [om m Hm|]; [|by exists s].
  destruct m; cbn in Hm.
  - destruct Hm as (id & k & ->). eexists. split; [apply recv_capability|].
    split; [|done]. split; try done. apply ready_info; [done|apply (rdy_info _ Hr)].
  - destruct Hm as (id & name & k & ->). eexists. split; [by apply recv_connect|].
    assert (E : checked rg (csm_iccp_info (cs_csm s)) = csm_iccp_info (cs_csm s)).
    { unfold checked. unfold rg_id in Hg. rewrite Hg, Z.eqb_refl, Hs. done. }
    rewrite (on_info_ext _ (fun i => i <| peer_rg_connect_flag := 1 |>)) by by rewrite E.
    split; [|done]. split; try done. apply ready_info; [done|apply (rdy_info _ Hr)].
Qed.

Lemma sim_output s n :
  sim s n -> Proto.flags_ok n = true ->
  option_Forall2 wire_rel (expected_iccp_msg s) (Proto.output n).
Proof.
  intros [Hr Hg Hs Hst Hsc ? ? Hpc ?] Hf. unfold expected_iccp_msg, Proto.output.
  unfold Proto.flags_ok in Hf. rewrite Hst, Hsc, Hpc, Hs, Hg. cbn zeta.
  destruct (Proto.n_st n); try constructor; simpl.
  - rewrite Hf. by eexists.
  - do 2 eexists. split; [done|]. pose proof (rdy_info _ Hr) as [_ <-]. apply cstr_length.
  - destruct (Proto.n_pconn n); [constructor|]. by rewrite andb_false_r in Hf.
Qed.

Lemma sim_send s n :
  sim s n -> Proto.flags_ok n = true ->
  exists s' obs, prepare_and_send s = Some (tt, s') /\ sim s' n
    /\ option_Forall2 wire_rel obs (Proto.output n)
    /\ g_sent (cs_g s')
       = g_sent (cs_g s) ++ map (pair (csm_sock_fd (cs_csm s))) (option_list obs)
    /\ csm_sock_fd (cs_csm s') = csm_sock_fd (cs_csm s).
Proof.
  intros Hsim Hf. pose proof (sim_output s n Hsim Hf) as Ho.
  destruct (prepare_and_send_run s (sim_ready _ _ Hsim)) as (s' & E & Hr & Hm).
  exists s', (expected_iccp_msg s). split; [done|]. split; [by eapply sim_frame|].
  split; [done|]. split; apply Hm.
Qed.

Lemma sim_memset s n :
  sim s n -> exists s', memset_buf s = Some (tt, s') /\ sim s' n
    /\ g_sent (cs_g s') = g_sent (cs_g s) /\ csm_sock_fd (cs_csm s') = csm_sock_fd (cs_csm s).
Proof.
  intros Hs. eexists. split; [done|]. split; [|done].
  destruct Hs as [[? ? ? ? ?] ? ? ? ? ? ? ? ?]. by split.
Qed.

Lemma sim_set_state s n st :
  sim s n -> exists s', set_state st s = Some (tt, s')
    /\ sim s' (n <| Proto.n_st := st |>)
    /\ g_sent (cs_g s') = g_sent (cs_g s) /\ csm_sock_fd (cs_csm s') = csm_sock_fd (cs_csm s).
Proof.
  intros Hs. eexists. split; [done|]. split; [|done].
  destruct Hs as [[? ? ? ? ?] ? ? ? ? ? ? ? ?]. by split.
Qed.

Lemma sim_enter s n :
  sim s n -> Proto.n_st n <> ICCP_NONEXISTENT ->
  sim (s <| cs_csm ::= iccp_csm_enter_state (csm_current_state (cs_csm s)) |>) (Proto.enter n).
Proof.
  intros Hsim Hn. pose proof Hsim as [Hr Hg Hs Hst ? ? ? ? ?].
  rewrite Hst. unfold Proto.enter.
  assert (Hi : forall f, info_ok (f (csm_iccp_info (cs_csm s))) ->
    ready (s <| cs_csm ::= set_info f |>)) by (intros; by apply ready_info).
  pose proof (rdy_info _ Hr) as [Hi1 Hi2].
  destruct (Proto.n_st n) eqn:En; try done.
  all: split; try done; try (by apply Hi; split; simpl; done || lia).
  all: first [simpl; congruence | by destruct s].
Qed.

Lemma sim_dequeue s n :
  sim s n -> exists om s', iccp_csm_dequeue_msg s = Some (om, s')
    /\ sim s' (n <| Proto.n_q := tail (Proto.n_q n) |>)
    /\ option_Forall2 msg_rel om (head (Proto.n_q n))
    /\ g_sent (cs_g s') = g_sent (cs_g s) /\ csm_sock_fd (cs_csm s') = csm_sock_fd (cs_csm s).
Proof.
  intros Hsim. pose proof Hsim as [[? ? ? ? ?] ? ? ? ? ? ? ? Hq].
  unfold iccp_csm_dequeue_msg. rewrite bind_the_csm.
  inversion Hq as [Eq1 Eq2|m a q1 q2 Hm Hq' Eq1 Eq2].
  - exists None, s. split; [done|]. split; [|split; [constructor|done]].
    split; try done. simpl. by rewrite <- Eq1.
  - do 2 eexists. split; [done|]. split; [|split; [by constructor|done]].
    by split.
Qed.

Lemma flags_receive m n : Proto.flags_ok n = true -> Proto.flags_ok (Proto.receive m n) = true.
Proof.
  destruct m as [[]|]; [..|done]; unfold Proto.flags_ok, Proto.receive; simpl;
    destruct (Proto.n_st n); try done. intros ?. zbool. by rewrite H, H1.
Qed.

(** The case of the current state, after the message was received. *)
Definition connected_post (s : CS) (n : Proto.node) (s' : CS) : Prop :=
  sim s' (n <| Proto.n_st := Proto.next n |>)
  /\ csm_sock_fd (cs_csm s') = csm_sock_fd (cs_csm s)
  /\ exists obs, option_Forall2 wire_rel obs (Proto.output n)
    /\ g_sent (cs_g s')
       = g_sent (cs_g s) ++ map (pair (csm_sock_fd (cs_csm s))) (option_list obs).

(** The tail of a case: test flags, then set the state or leave it. *)
Lemma sim_goto s n st (k : M CS unit) :
  sim s n -> (k = set_state st \/ k = mret tt /\ st = Proto.n_st n) ->
  exists s', k s = Some (tt, s') /\ sim s' (n <| Proto.n_st := st |>)
    /\ g_sent (cs_g s') = g_sent (cs_g s) /\ csm_sock_fd (cs_csm s') = csm_sock_fd (cs_csm s).
Proof.
  intros Hs [->|[-> ->]]; [by apply sim_set_state|].
  exists s. split; [done|]. split; [by destruct n|done].
Qed.

Ltac goto :=
  match goal with
  | Hs : sim ?s ?n |- exists s', ?k ?s = Some (tt, s') /\ connected_post _ _ _ =>
      destruct (sim_goto s n (Proto.next n) k Hs) as (s' & ? & ? & ? & ?);
      [|exists s'; split; [done|]; split; [done|]; split; [congruence|];
        eexists; split; [eassumption|congruence]]
  end.

Ltac silent :=
  match goal with
  | Hs : sim ?s ?n |- exists s', ?k ?s = Some (tt, s') /\ connected_post _ _ _ =>
      destruct (sim_goto s n (Proto.next n) k Hs) as (s' & ? & ? & ? & ?);
      [|exists s'; split; [done|]; split; [done|]; split; [congruence|];
        eexists; split; [eassumption|rewrite app_nil_r; congruence]]
  end.

Lemma sim_connected s n om m :
  sim s n -> option_Forall2 msg_rel om m -> Proto.flags_ok n = true ->
  exists s', iccp_csm_transit_connected om s = Some (tt, s')
    /\ connected_post s (Proto.receive m n) s'.
Proof.
  intros Hsim Hm Hf. destruct (sim_receive s n om m Hsim Hm) as (s1 & E1 & Hs1 & G1 & F1).
  apply (flags_receive m) in Hf. set (n1 := Proto.receive m n) in *.
  assert (Hst : Proto.n_st n1 = Proto.n_st n) by by destruct m as [[]|].
  unfold iccp_csm_transit_connected. rewrite bind_the_csm, (sim_st _ _ Hsim), <- Hst.
  destruct (Proto.n_st n1) eqn:En; [unfold Proto.flags_ok in Hf; by rewrite En in Hf|..].
  - rewrite (bind_Some _ _ _ _ _ E1).
    destruct (sim_send s1 n1 Hs1 Hf) as (s2 & obs & E2 & Hs2 & Ho & G2 & F2).
    rewrite (bind_Some _ _ _ _ _ E2), bind_the_csm. cbn zeta.
    rewrite (sim_scap _ _ Hs2), (sim_pcap _ _ Hs2).
    rewrite F1, G1 in *. goto.
    unfold Proto.flags_ok in Hf. rewrite En in Hf. rewrite Hf. unfold Proto.next. rewrite En.
    destruct (Proto.n_pcap n1); auto.
  - rewrite (bind_Some _ _ _ _ _ E1), bind_the_csm. cbn zeta.
    rewrite (sim_scap _ _ Hs1), (sim_pcap _ _ Hs1).
    assert (Ho : option_Forall2 wire_rel None (Proto.output n1))
      by (unfold Proto.output; rewrite En; constructor).
    silent. unfold Proto.flags_ok in Hf. rewrite En in Hf. rewrite Hf.
    unfold Proto.next. rewrite En. destruct (Proto.n_pcap n1); auto.
  - rewrite (bind_Some _ _ _ _ _ E1).
    destruct (sim_memset s1 n1 Hs1) as (s2 & E2 & Hs2 & G2 & F2).
    rewrite (bind_Some _ _ _ _ _ E2).
    destruct (sim_send s2 n1 Hs2 Hf) as (s3 & obs & E3 & Hs3 & Ho & G3 & F3).
    rewrite (bind_Some _ _ _ _ _ E3), bind_the_csm. cbn zeta.
    rewrite (sim_pconn _ _ Hs3), (sim_status _ _ Hs3).
    rewrite F2, G2, F1, G1 in *. goto.
    unfold Proto.next. rewrite En. destruct (Proto.n_pconn n1); auto.
  - rewrite (bind_Some _ _ _ _ _ E1).
    destruct (sim_memset s1 n1 Hs1) as (s2 & E2 & Hs2 & G2 & F2).
    rewrite (bind_Some _ _ _ _ _ E2).
    destruct (sim_send s2 n1 Hs2 Hf) as (s3 & obs & E3 & Hs3 & Ho & G3 & F3).
    rewrite (bind_Some _ _ _ _ _ E3), bind_the_csm. cbn zeta.
    rewrite (sim_pconn _ _ Hs3), (sim_status _ _ Hs3).
    rewrite F2, G2, F1, G1 in *. goto.
    unfold Proto.next. rewrite En. destruct (Proto.n_pconn n1); auto.
  - rewrite (bind_Some _ _ _ _ _ E1), bind_the_csm. cbn zeta.
    rewrite (sim_sconn _ _ Hs1), (sim_pconn _ _ Hs1).
    assert (Ho : option_Forall2 wire_rel None (Proto.output n1))
      by (unfold Proto.output; rewrite En; constructor).
    silent. unfold Proto.flags_ok in Hf. rewrite En in Hf. zbool.
    unfold Proto.next. rewrite En.
    destruct (Proto.n_sconn n1), (Proto.n_pconn n1); try discriminate; auto.
Qed.

(** One pass of the code is one step of the protocol. *)
Lemma transit_step s n :
  sim s n -> Proto.flags_ok n = true ->
  exists s' obs, iccp_csm_transit_body s = Some (tt, s')
    /\ sim s' (Proto.step n).1
    /\ option_Forall2 wire_rel obs (Proto.step n).2
    /\ g_sent (cs_g s')
       = g_sent (cs_g s) ++ map (pair (csm_sock_fd (cs_csm s))) (option_list obs)
    /\ csm_sock_fd (cs_csm s') = csm_sock_fd (cs_csm s).
Proof.
  intros Hsim Hf. unfold iccp_csm_transit_body. rewrite bind_the_csm. cbn zeta.
  destruct (sim_dequeue s n Hsim) as (om & s1 & E1 & Hs1 & Hm & G1 & F1).
  rewrite (bind_Some _ _ _ _ _ E1).
  destruct (sim_connected s1 _ om _ Hs1 Hm Hf) as (s2 & E2 & Hs2 & F2 & obs & Ho & G2).
  rewrite (bind_Some _ _ _ _ _ E2), bind_the_csm.
  set (n2 := set Proto.n_st _ _) in Hs2.
  rewrite (sim_st _ _ Hs2), (sim_st _ _ Hsim), G1, F1 in *.
  assert (Hn : Proto.n_st n2 <> ICCP_NONEXISTENT).
  { subst n2. simpl. unfold Proto.next, Proto.flags_ok in *.
    destruct (head (Proto.n_q n)) as [[]|]; simpl;
      destruct (Proto.n_st n); try done; repeat case_match; done. }
  rewrite (bool_decide_true _ Hn). cbn [andb].
  assert (Hom : bool_decide (om <> None) = bool_decide (head (Proto.n_q n) <> None))
    by by destruct Hm.
  rewrite Hom. unfold Proto.step. fold n2. cbn zeta.
  destruct (_ || _) eqn:Ec.
  - eexists _, obs. split; [done|]. cbn [fst snd].
    split; [rewrite <- (sim_st _ _ Hs2); by apply sim_enter|].
    split; [done|]. split; [done|]. simpl. rewrite <- F2. by destruct (Proto.next _).
  - by exists s2, obs.
Qed.
End Sim.

(** ** Two peers *)

(** [a] runs one pass; everything it wrote to its socket arrives at [b], as
    [deliver] does for a message read in any number of fragments. *)
Definition peer_step (a b : CS) : option (CS * CS) :=
  ra ← iccp_csm_transit_body a;
  let new := drop (length (g_sent (cs_g a))) (g_sent (cs_g ra.2)) in
  rb ← foreach deliver (map snd new) b;
  Some (ra.2, rb.2).

Definition peers_step (who : bool) (p : CS * CS) : option (CS * CS) :=
  if who then peer_step p.1 p.2
  else r ← peer_step p.2 p.1; Some (r.2, r.1).

Fixpoint peers_run (sched : list bool) (p : CS * CS) : option (CS * CS) :=
  match sched with
  | [] => Some p
  | who :: sched' => p' ← peers_step who p; peers_run sched' p'
  end.

(** A CSM that entered INITIALIZED with an open socket and an empty session. *)
Record fresh_session (s : CS) : Prop := mk_fresh {
  fs_ready : ready s;
  fs_state : csm_current_state (cs_csm s) = ICCP_INITIALIZED;
  fs_queue : csm_msg_list (cs_csm s) = [];
  fs_status : status_code (csm_iccp_info (cs_csm s)) = 0;
  fs_scap : sender_capability_flag (csm_iccp_info (cs_csm s)) = 1;
  fs_pcap : peer_capability_flag (csm_iccp_info (cs_csm s)) = 0;
  fs_sconn : sender_rg_connect_flag (csm_iccp_info (cs_csm s)) = 0;
  fs_pconn : peer_rg_connect_flag (csm_iccp_info (cs_csm s)) = 0;
}.

Section Peers.
Variable rg : Z.
Hypothesis Hrg : 0 <= rg < 2 ^ 32.

Lemma fresh_sim s : fresh_session s -> rg_id s = rg -> sim rg s Proto.start.
Proof. intros [] Hr. split; try done. by rewrite fs_queue0. Qed.

Lemma sim_queued s n m a :
  sim rg s n -> msg_rel rg m a -> sim rg (queued m s) (Proto.push (Some a) n).
Proof.
  intros [[? ? ? ? ?] ? ? ? ? ? ? ? Hq] Hm. split; try done.
  simpl. apply Forall2_app; [done|]. by constructor.
Qed.

Lemma wire_nonempty bs a : wire_rel rg bs a -> bs <> [].
Proof.
  intros Hw E. assert (H : length bs = 0%nat) by by rewrite E.
  destruct a; [destruct Hw as (id & ->) | destruct Hw as (id & name & -> & _)]; revert H;
    unfold wire_msg, wire_icc_hdr, wire_capability, wire_ldp_hdr; autorewrite with len; lia.
Qed.

Lemma sim_deliver s n obs om :
  sim rg s n -> option_Forall2 (wire_rel rg) obs om ->
  exists s', foreach deliver (option_list obs) s = Some (tt, s')
    /\ sim rg s' (Proto.push om n).
Proof.
  intros Hs Ho. destruct Ho as [bs a Hw|]; cbn [option_list foreach].
  2: { exists s. split; [done|]. unfold Proto.push, set. simpl. rewrite app_nil_r.
       by destruct n. }
  assert (exists s1, deliver bs s = Some (tt, s1) /\ sim rg s1 (Proto.push (Some a) n))
    as (s1 & E & Hs1).
  { unfold deliver.
    rewrite (bind_Some _ _ _ _ _ (lift_Some _ _ _ (init_msg_full _ (wire_nonempty _ _ Hw)))).
    destruct a; [destruct Hw as (id & ->) | destruct Hw as (id & name & -> & _)];
      eexists.
    - split; [apply enqueue_capability|]. apply sim_queued; [done|]. by do 2 eexists.
    - split; [apply enqueue_conn; by left|]. apply sim_queued; [done|]. by do 3 eexists. }
  exists s1. change (option_list (Some bs)) with [bs]. cbn [foreach].
  by rewrite (bind_Some _ _ _ _ _ E).
Qed.

Lemma sim_peer_step a b na nb :
  sim rg a na -> sim rg b nb -> Proto.flags_ok na = true ->
  exists a' b', peer_step a b = Some (a', b') /\ sim rg a' (Proto.step na).1
    /\ sim rg b' (Proto.push (Proto.step na).2 nb).
Proof.
  intros Ha Hb Hf. destruct (transit_step rg Hrg a na Ha Hf) as (a' & obs & E & Ha' & Ho & G & _).
  destruct (sim_deliver b nb obs _ Hb Ho) as (b' & E' & Hb').
  exists a', b'. split; [|done]. unfold peer_step. rewrite E. cbn [mbind option_bind snd].
  rewrite G, drop_app_length, map_map. cbn [snd]. rewrite map_id, E'. done.
Qed.

Definition sim2 (p : CS * CS) (q : Proto.node * Proto.node) : Prop :=
  sim rg p.1 q.1 /\ sim rg p.2 q.2.

Lemma sim_peers_step who p q :
  sim2 p q -> q ∈ Proto.reachable ->
  exists p', peers_step who p = Some p' /\ sim2 p' (Proto.net_step who q).
Proof.
  intros [H1 H2] Hq. destruct (Proto.good_flags q Hq) as [F1 F2].
  unfold peers_step, Proto.net_step. destruct who.
  - destruct (sim_peer_step _ _ _ _ H1 H2 F1) as (a & b & E & Ha & Hb).
    exists (a, b). split; [done|]. by destruct (Proto.step q.1).
  - destruct (sim_peer_step _ _ _ _ H2 H1 F2) as (b & a & E & Hb & Ha).
    exists (a, b). rewrite E. split; [done|]. by destruct (Proto.step q.2).
Qed.

Lemma sim_peers_run sched p q :
  sim2 p q -> q ∈ Proto.reachable ->
  exists p', peers_run sched p = Some p' /\ sim2 p' (Proto.net_run sched q).
Proof.
  revert p q. induction sched as [|w sched IH]; intros p q Hs Hq; [by exists p|].
  destruct (sim_peers_step w p q Hs Hq) as (p' & E & Hs').
  destruct (Proto.good_step q w Hq) as [Hq' _].
  destruct (IH p' _ Hs' Hq') as (p'' & E' & Hs''). exists p''.
  cbn [peers_run]. by rewrite E.
Qed.
End Peers.


(** C1. Two peers with the same RG identifier that open a session reach OPERATIONAL
    under every schedule: as soon as the schedule has given both of them a turn
    eight times over, both are OPERATIONAL, without any undefined access on the
    way. *)
Theorem handshake_reaches_operational a b rs :
  fresh_session a -> fresh_session b -> rg_id a = rg_id b -> 0 <= rg_id a < 2 ^ 32 ->
  Forall Proto.is_round rs -> (8 <= length rs)%nat ->
  exists a' b', peers_run (concat rs) (a, b) = Some (a', b')
    /\ csm_current_state (cs_csm a') = ICCP_OPERATIONAL
    /\ csm_current_state (cs_csm b') = ICCP_OPERATIONAL.
Proof.
  intros Ha Hb Hab Hr Hrs Hl.
  assert (Hs : sim2 (rg_id a) (a, b) (Proto.start, Proto.start))
    by (split; by apply fresh_sim).
  assert (Hin : (Proto.start, Proto.start) ∈ Proto.reachable) by by constructor.
  destruct (sim_peers_run _ Hr (concat rs) _ _ Hs Hin) as ([a' b'] & E & [H1 H2]).
  destruct (Proto.run_rounds rs _ Hin Hrs) as [_ Ht].
  set (q := Proto.net_run _ _) in *.
  assert (Proto.todo2 q = 0%nat) as Hz
    by (change (Proto.todo2 (Proto.start, Proto.start)) with 8%nat in Ht; lia).
  exists a', b'. split; [done|].
  unfold Proto.todo2 in Hz. apply Nat.eq_add_0 in Hz as [Hz1 Hz2].
  split; (etransitivity; [eapply sim_st; eassumption | by apply Proto.todo_operational]).
Qed.
