(* ===== verification/Syncd.v ===== *)
(** Requests to mclagsyncd, the daemon that programs the switch
    ([mlacp_link_handler.c], [system.c]).

    A request is a header [IccpSyncdHDr] and either sub-options or an FDB entry,
    built in the 4 KiB buffer [g_iccp_mlagsyncd_send_buf] (which every builder
    clears first, so the buffer is local to a builder here) and sent over a
    stream socket.  What the socket does is scripted by [g_sd]; the bytes it
    takes are the [Act_syncd] actions of the trace, and [syncd_out] is the byte
    stream they make.  [parse_stream] and [parse_subs] are reference decoders of
    that stream. *)

From Stdlib Require Import ZArith Lia.
From stdpp Require Import base list gmap numbers option.
From coqutil Require Import Byte Word.LittleEndianList.
From S2P Require Import Prelude CBuf State MsgFormat Wire.

(** ** Numbers *)

Definition ICCPD_TO_MCLAGSYNCD_HDR_VERSION : Z := 1.
Definition ICCP_MLAGSYNCD_SEND_MSG_BUFFER_SIZE : Z := 4096.
Definition SYNCD_SEND_RETRY_INTERVAL_USEC : Z := 50000.
Definition SYNCD_SEND_RETRY_MAX : Z := 5.

Definition MCLAG_MSG_TYPE_PORT_ISOLATE : Z := 1.
Definition MCLAG_MSG_TYPE_PORT_MAC_LEARN_MODE : Z := 2.
Definition MCLAG_MSG_TYPE_FLUSH_FDB : Z := 3.
Definition MCLAG_MSG_TYPE_SET_MAC : Z := 4.
Definition MCLAG_MSG_TYPE_SET_FDB : Z := 5.
Definition MCLAG_MSG_TYPE_SET_TRAFFIC_DIST_ENABLE : Z := 6.
Definition MCLAG_MSG_TYPE_SET_TRAFFIC_DIST_DISABLE : Z := 7.
Definition MCLAG_MSG_TYPE_SET_ICCP_STATE : Z := 8.
Definition MCLAG_MSG_TYPE_SET_ICCP_ROLE : Z := 9.
Definition MCLAG_MSG_TYPE_SET_ICCP_SYSTEM_ID : Z := 10.
Definition MCLAG_MSG_TYPE_DEL_ICCP_INFO : Z := 11.
Definition MCLAG_MSG_TYPE_SET_REMOTE_IF_STATE : Z := 12.
Definition MCLAG_MSG_TYPE_DEL_REMOTE_IF_INFO : Z := 13.
Definition MCLAG_MSG_TYPE_SET_PEER_LINK_ISOLATION : Z := 14.
Definition MCLAG_MSG_TYPE_SET_ICCP_PEER_SYSTEM_ID : Z := 15.

Definition MCLAG_SUB_OPTION_TYPE_ISOLATE_SRC : Z := 1.
Definition MCLAG_SUB_OPTION_TYPE_ISOLATE_DST : Z := 2.
Definition MCLAG_SUB_OPTION_TYPE_MAC_LEARN_ENABLE : Z := 3.
Definition MCLAG_SUB_OPTION_TYPE_MAC_LEARN_DISABLE : Z := 4.
Definition MCLAG_SUB_OPTION_TYPE_SET_MAC_SRC : Z := 5.
Definition MCLAG_SUB_OPTION_TYPE_SET_MAC_DST : Z := 6.
Definition MCLAG_SUB_OPTION_TYPE_MCLAG_INTF_NAME : Z := 7.
Definition MCLAG_SUB_OPTION_TYPE_MCLAG_ID : Z := 8.
Definition MCLAG_SUB_OPTION_TYPE_ICCP_ROLE : Z := 9.
Definition MCLAG_SUB_OPTION_TYPE_SYSTEM_ID : Z := 10.
Definition MCLAG_SUB_OPTION_TYPE_OPER_STATUS : Z := 11.
Definition MCLAG_SUB_OPTION_TYPE_ISOLATION_STATE : Z := 12.

Definition SYNCD_TX_DBG_CNTR_MSG_MAX : Z := 15.
Definition SYNCD_DBG_CNTR_STS_OK : Z := 0.
Definition SYNCD_DBG_CNTR_STS_ERR : Z := 1.

(** ** Counters *)

Definition system_syncdtx_to_dbg_msg_type (msg_type : Z) : Z :=
  if msg_type =? MCLAG_MSG_TYPE_PORT_ISOLATE then 0
  else if msg_type =? MCLAG_MSG_TYPE_PORT_MAC_LEARN_MODE then 1
  else if msg_type =? MCLAG_MSG_TYPE_FLUSH_FDB then 2
  else if msg_type =? MCLAG_MSG_TYPE_SET_MAC then 3
  else if msg_type =? MCLAG_MSG_TYPE_SET_FDB then 4
  else if msg_type =? MCLAG_MSG_TYPE_SET_TRAFFIC_DIST_ENABLE then 5
  else if msg_type =? MCLAG_MSG_TYPE_SET_TRAFFIC_DIST_DISABLE then 6
  else if msg_type =? MCLAG_MSG_TYPE_SET_ICCP_STATE then 7
  else if msg_type =? MCLAG_MSG_TYPE_SET_ICCP_ROLE then 8
  else if msg_type =? MCLAG_MSG_TYPE_SET_ICCP_SYSTEM_ID then 9
  else if msg_type =? MCLAG_MSG_TYPE_SET_REMOTE_IF_STATE then 11
  else if msg_type =? MCLAG_MSG_TYPE_DEL_ICCP_INFO then 10
  else if msg_type =? MCLAG_MSG_TYPE_DEL_REMOTE_IF_INFO then 12
  else if msg_type =? MCLAG_MSG_TYPE_SET_PEER_LINK_ISOLATION then 13
  else if msg_type =? MCLAG_MSG_TYPE_SET_ICCP_PEER_SYSTEM_ID then 14
  else SYNCD_TX_DBG_CNTR_MSG_MAX.

Definition tx_count (ty st : Z) (tx : gmap (Z * Z) Z) : Z :=
  default 0 (tx !! (system_syncdtx_to_dbg_msg_type ty, st)).

Definition bump_tx (ty st : Z) (tx : gmap (Z * Z) Z) : gmap (Z * Z) Z :=
  let dbg_type := system_syncdtx_to_dbg_msg_type ty in
  if dbg_type <? SYNCD_TX_DBG_CNTR_MSG_MAX
  then <[(dbg_type, st) := u64 (tx_count ty st tx + 1)]> tx else tx.

Definition SYSTEM_SET_SYNCD_TX_DBG_COUNTER (syncd_msg_type status : Z) : M CS unit :=
  on_g (fun g => g <| g_syncd_tx ::= bump_tx syncd_msg_type status |>).

(** ** The socket *)

Inductive SendRes := Sent (n : nat) | WouldBlock | SendFailed.

(** [send(sync_fd, bs, ...)] and [write(sync_fd, bs, ...)]; a negative descriptor
    is [EBADF]. *)
Definition syncd_write (bs : buf) : M CS SendRes :=
  fd ← gets (fun s => sys_sync_fd (cs_sys s));
  if fd <? 0 then mret SendFailed
  else
    evs ← gets (fun s => g_sd (cs_g s));
    on_g (fun g => g <| g_sd ::= tail |>);;
    match default (Sd_take (length bs)) (head evs) with
    | Sd_again => mret WouldBlock
    | Sd_err => mret SendFailed
    | Sd_take k =>
        when (0 <? k)%nat (act (Act_syncd (take k bs)));;
        mret (Sent (min k (length bs)))
    end.

(** The loop of [iccp_send_to_mclagsyncd]: [bs] is what [pos] and [msg_len]
    delimit.  Each turn takes a byte or is one of six full-socket turns. *)
Fixpoint syncd_loop (fuel : nat) (msg_type : Z) (bs : buf) (pos num_retry : Z) : M CS Z :=
  match bs with
  | [] =>
      SYSTEM_SET_SYNCD_TX_DBG_COUNTER msg_type SYNCD_DBG_CNTR_STS_OK;;
      mret pos
  | _ =>
      match fuel with
      | O => ub
      | S fuel' =>
          send_len ← syncd_write bs;
          match send_len with
          | WouldBlock =>
              let num_retry := num_retry + 1 in
              if num_retry >? SYNCD_SEND_RETRY_MAX then
                SYSTEM_SET_SYNCD_TX_DBG_COUNTER msg_type SYNCD_DBG_CNTR_STS_ERR;;
                mret MCLAG_ERROR
              else
                usleep SYNCD_SEND_RETRY_INTERVAL_USEC;;
                syncd_loop fuel' msg_type bs pos num_retry
          | SendFailed | Sent O =>
              SYSTEM_SET_SYNCD_TX_DBG_COUNTER msg_type SYNCD_DBG_CNTR_STS_ERR;;
              mret MCLAG_ERROR
          | Sent n => syncd_loop fuel' msg_type (drop n bs) (pos + Z.of_nat n) num_retry
          end
      end
  end.

Definition iccp_send_to_mclagsyncd (msg_type : Z) (send_buff : buf) : M CS Z :=
  fd ← gets (fun s => sys_sync_fd (cs_sys s));
  if truth fd then
    syncd_loop (length send_buff + 6) msg_type send_buff 0 0
  else mret 0.

(** A single [write] of a whole message. *)
Definition syncd_write_once (msg_type : Z) (send_buff : buf) : M CS unit :=
  fd ← gets (fun s => sys_sync_fd (cs_sys s));
  when (truth fd)
    (rc ← syncd_write send_buff;
     SYSTEM_SET_SYNCD_TX_DBG_COUNTER msg_type
       (match rc with
        | Sent n => if ((0 <? n) && (n =? length send_buff))%nat
                    then SYNCD_DBG_CNTR_STS_OK else SYNCD_DBG_CNTR_STS_ERR
        | _ => SYNCD_DBG_CNTR_STS_ERR
        end)).

(** ** Building a request *)

Module IccpSyncdHDr.
Definition sizeof : Z := 4.
Definition set_ver : Z -> buf -> option buf := wr8 0.
Definition set_type : Z -> buf -> option buf := wr8 1.
Definition get_len : buf -> option Z := rd16 2.
Definition set_len : Z -> buf -> option buf := wr16 2.
End IccpSyncdHDr.

(** [mclag_sub_option_hdr_t]: a byte, padding, a length; the data follow. *)
Module mclag_sub_option_hdr_t.
Definition sizeof : Z := 4.
Definition set_op_type (o : nat) : Z -> buf -> option buf := wr8 o.
Definition set_op_len (o : nat) : Z -> buf -> option buf := wr16 (o + 2).
Definition set_data (o : nat) : buf -> buf -> option buf := wr (o + 4).
End mclag_sub_option_hdr_t.

(** [memset], then the header with no sub-option yet. *)
Definition syncd_begin (type : Z) : option buf :=
  let b := zeros ICCP_MLAGSYNCD_SEND_MSG_BUFFER_SIZE in
  b ← IccpSyncdHDr.set_ver ICCPD_TO_MCLAGSYNCD_HDR_VERSION b;
  b ← IccpSyncdHDr.set_type type b;
  IccpSyncdHDr.set_len IccpSyncdHDr.sizeof b.

(** One sub-option at [msg_buf[msg_hdr->len]]. *)
Definition syncd_sub_option (op_type : Z) (data : buf) (b : buf) : option buf :=
  len ← IccpSyncdHDr.get_len b;
  let o := Z.to_nat len in
  let op_len := u16 (Z.of_nat (length data)) in
  b ← mclag_sub_option_hdr_t.set_op_type o op_type b;
  b ← mclag_sub_option_hdr_t.set_op_len o op_len b;
  b ← mclag_sub_option_hdr_t.set_data o data b;
  IccpSyncdHDr.set_len (u16 (len + (mclag_sub_option_hdr_t.sizeof + op_len))) b.

Fixpoint syncd_sub_options (subs : list (Z * buf)) (b : buf) : option buf :=
  match subs with
  | [] => Some b
  | (op_type, data) :: subs' => b ← syncd_sub_option op_type data b; syncd_sub_options subs' b
  end.

(** The [msg_hdr->len] bytes that are sent. *)
Definition syncd_message (b : buf) : option buf :=
  len ← IccpSyncdHDr.get_len b; rd 0 (Z.to_nat len) b.

Definition syncd_build (type : Z) (subs : list (Z * buf)) : option buf :=
  b ← syncd_begin type; b ← syncd_sub_options subs b; syncd_message b.

(** The common end of the [mlacp_link_*] functions: [counted] says whether the
    function counts a success on top of [iccp_send_to_mclagsyncd]. *)
Definition syncd_request (type : Z) (subs : list (Z * buf)) (counted : bool) : M CS Z :=
  m ← lift (syncd_build type subs);
  rc ← iccp_send_to_mclagsyncd type m;
  if (rc <=? 0) || negb (rc =? Z.of_nat (length m)) then mret MCLAG_ERROR
  else
    when counted (SYSTEM_SET_SYNCD_TX_DBG_COUNTER type SYNCD_DBG_CNTR_STS_OK);;
    mret 0.

(** ** The requests *)

Definition sub_mlag_id (mlag_id : Z) : Z * buf :=
  (MCLAG_SUB_OPTION_TYPE_MCLAG_ID, le_split 4 mlag_id).
Definition sub_name (po_name : buf) : Z * buf :=
  (MCLAG_SUB_OPTION_TYPE_MCLAG_INTF_NAME, cstr po_name).
Definition sub_flag (op_type : Z) (b : bool) : Z * buf := (op_type, b8 (of_bool b)).

Definition set_peerlink_mlag_port_learn (lif : LocalInterface) (enable : Z) : M CS unit :=
  m ← lift (syncd_build MCLAG_MSG_TYPE_PORT_MAC_LEARN_MODE
        [(if truth enable then MCLAG_SUB_OPTION_TYPE_MAC_LEARN_ENABLE
          else MCLAG_SUB_OPTION_TYPE_MAC_LEARN_DISABLE, cstr (lif_name lif))]);
  syncd_write_once MCLAG_MSG_TYPE_PORT_MAC_LEARN_MODE m.

Definition mlacp_link_set_traffic_dist_mode (po_name : buf) (is_enable : bool) : M CS Z :=
  syncd_request
    (if is_enable then MCLAG_MSG_TYPE_SET_TRAFFIC_DIST_ENABLE
     else MCLAG_MSG_TYPE_SET_TRAFFIC_DIST_DISABLE)
    [sub_name po_name] false.

Definition mlacp_link_set_iccp_state (mlag_id : Z) (is_oper_up : bool) : M CS Z :=
  fd ← gets (fun s => sys_sync_fd (cs_sys s));
  if (fd <=? 0) && negb is_oper_up then mret MCLAG_ERROR
  else
    syncd_request MCLAG_MSG_TYPE_SET_ICCP_STATE
      [sub_mlag_id mlag_id; sub_flag MCLAG_SUB_OPTION_TYPE_OPER_STATUS is_oper_up] false.

(** [system_id] is read for the active role only. *)
Definition mlacp_link_set_iccp_role (mlag_id : Z) (is_active_role : bool)
    (system_id : option buf) : M CS Z :=
  sid ← (if is_active_role then
           sid ← lift system_id; mret [(MCLAG_SUB_OPTION_TYPE_SYSTEM_ID, take ETHER_ADDR_LEN sid)]
         else mret []);
  syncd_request MCLAG_MSG_TYPE_SET_ICCP_ROLE
    ([sub_mlag_id mlag_id; sub_flag MCLAG_SUB_OPTION_TYPE_ICCP_ROLE is_active_role] ++ sid) false.

Definition mlacp_link_set_iccp_system_id (mlag_id : Z) (system_id : buf) : M CS Z :=
  syncd_request MCLAG_MSG_TYPE_SET_ICCP_SYSTEM_ID
    [sub_mlag_id mlag_id; (MCLAG_SUB_OPTION_TYPE_SYSTEM_ID, take ETHER_ADDR_LEN system_id)] false.

(** The only request that tries a single [send]. *)
Definition mlacp_link_del_iccp_info (mlag_id : Z) : M CS Z :=
  m ← lift (syncd_build MCLAG_MSG_TYPE_DEL_ICCP_INFO [sub_mlag_id mlag_id]);
  fd ← gets (fun s => sys_sync_fd (cs_sys s));
  rc ← (if truth fd then syncd_write m else mret (Sent 0));
  match rc with
  | Sent n =>
      if ((0 <? n) && (n =? length m))%nat then
        SYSTEM_SET_SYNCD_TX_DBG_COUNTER MCLAG_MSG_TYPE_DEL_ICCP_INFO SYNCD_DBG_CNTR_STS_OK;;
        mret 0
      else mret MCLAG_ERROR
  | _ => mret MCLAG_ERROR
  end.

Definition mlacp_link_set_remote_if_state (mlag_id : Z) (po_name : buf) (is_oper_up : bool)
    : M CS Z :=
  syncd_request MCLAG_MSG_TYPE_SET_REMOTE_IF_STATE
    [sub_mlag_id mlag_id; sub_name po_name;
     sub_flag MCLAG_SUB_OPTION_TYPE_OPER_STATUS is_oper_up] true.

Definition mlacp_link_del_remote_if_info (mlag_id : Z) (po_name : buf) : M CS Z :=
  syncd_request MCLAG_MSG_TYPE_DEL_REMOTE_IF_INFO
    [sub_mlag_id mlag_id; sub_name po_name] true.

Definition mlacp_link_set_peerlink_port_isolation (mlag_id : Z) (po_name : buf)
    (is_isolation_enable : bool) : M CS Z :=
  syncd_request MCLAG_MSG_TYPE_SET_PEER_LINK_ISOLATION
    [sub_mlag_id mlag_id; sub_name po_name;
     sub_flag MCLAG_SUB_OPTION_TYPE_ISOLATION_STATE is_isolation_enable] true.

(** [struct mclag_fdb_info] behind the header; [ifname] and [mac] are arrays of
    their full length. *)
Definition fdb_build (vid : Z) (ifname mac : buf) (type op_type : Z) : option buf :=
  b ← syncd_begin MCLAG_MSG_TYPE_SET_FDB;
  b ← wr32 12 vid b;
  b ← wr 16 (resize MAX_L_PORT_NAME Byte.x00 ifname) b;
  b ← wr 4 (resize ETHER_ADDR_LEN Byte.x00 mac) b;
  b ← wr16 36 type b;
  b ← wr16 38 op_type b;
  b ← IccpSyncdHDr.set_len (IccpSyncdHDr.sizeof + 36) b;
  syncd_message b.

Definition syncd_send_fdb (vid : Z) (ifname mac : buf) (type op_type : Z) : M CS unit :=
  m ← lift (fdb_build vid ifname mac type op_type);
  fd ← gets (fun s => sys_sync_fd (cs_sys s));
  if fd >? 0 then iccp_send_to_mclagsyncd MCLAG_MSG_TYPE_SET_FDB m;; mret tt
  else SYSTEM_SET_SYNCD_TX_DBG_COUNTER MCLAG_MSG_TYPE_SET_FDB SYNCD_DBG_CNTR_STS_ERR.

(** ** The stream *)

Definition syncd_bytes (a : Action) : buf := match a with Act_syncd bs => bs | _ => [] end.

(** Everything mclagsyncd has received. *)
Definition syncd_out (acts : list Action) : buf := concat (syncd_bytes <$> acts).

Lemma syncd_out_app a b : syncd_out (a ++ b) = syncd_out a ++ syncd_out b.
Proof. unfold syncd_out. by rewrite fmap_app, concat_app. Qed.

Definition frame (type : Z) (body : buf) : buf :=
  b8 ICCPD_TO_MCLAGSYNCD_HDR_VERSION ++ b8 type
  ++ le_split 2 (IccpSyncdHDr.sizeof + Z.of_nat (length body)) ++ body.

Definition sub_bytes (s : Z * buf) : buf :=
  b8 s.1 ++ [Byte.x00] ++ le_split 2 (Z.of_nat (length s.2)) ++ s.2.

Definition subs_bytes (subs : list (Z * buf)) : buf := concat (sub_bytes <$> subs).

(** A reference decoder: frames, and the sub-options of a frame. *)
Fixpoint parse_stream (fuel : nat) (b : buf) : option (list (Z * buf)) :=
  match b, fuel with
  | [], _ => Some []
  | v :: t :: l0 :: l1 :: r, S fuel' =>
      let n := (Z.to_nat (le_combine [l0; l1]) - 4)%nat in
      if (byte.unsigned v =? ICCPD_TO_MCLAGSYNCD_HDR_VERSION)
         && (4 <=? le_combine [l0; l1]) && (n <=? length r)%nat
      then ms ← parse_stream fuel' (drop n r); Some ((byte.unsigned t, take n r) :: ms)
      else None
  | _, _ => None
  end.

Fixpoint parse_subs (fuel : nat) (b : buf) : option (list (Z * buf)) :=
  match b, fuel with
  | [], _ => Some []
  | t :: _ :: l0 :: l1 :: r, S fuel' =>
      let n := Z.to_nat (le_combine [l0; l1]) in
      if (n <=? length r)%nat
      then ms ← parse_subs fuel' (drop n r); Some ((byte.unsigned t, take n r) :: ms)
      else None
  | _, _ => None
  end.

Definition sub_ok (s : Z * buf) : Prop := 0 <= s.1 < 2 ^ 8 /\ Z.of_nat (length s.2) < 2 ^ 16.

Lemma le_split1 x : le_split 1 x = [byte.of_Z x].
Proof. done. Qed.

Lemma le_split2 x : le_split 2 x = [byte.of_Z x; byte.of_Z (Z.shiftr x 8)].
Proof. done. Qed.

Lemma parse_subs_bytes subs fuel :
  Forall sub_ok subs -> (length subs <= fuel)%nat ->
  parse_subs fuel (subs_bytes subs) = Some subs.
Proof.
  revert fuel. induction subs as [|[t d] subs IH]; intros fuel H Hf; [by destruct fuel|].
  apply Forall_cons_1 in H as [[Ht Hd] H]. cbn [fst snd] in *.
  destruct fuel as [|fuel]; [simpl in Hf; lia|].
  change (subs_bytes ((t, d) :: subs)) with
    ((b8 t ++ [Byte.x00] ++ le_split 2 (Z.of_nat (length d)) ++ d) ++ subs_bytes subs).
  unfold b8. rewrite <- !app_assoc, le_split1, le_split2. cbn [app parse_subs].
  rewrite <- le_split2, le_combine_split2 by lia. rewrite Nat2Z.id.
  rewrite length_app, (proj2 (Nat.leb_le _ _)) by lia.
  rewrite drop_app_length, take_app_length, IH by (simpl in Hf; done || lia).
  cbn [mbind option_bind]. rewrite byte.unsigned_of_Z. unfold byte.wrap.
  by rewrite Z.mod_small by done.
Qed.

Definition frame_ok (f : Z * buf) : Prop :=
  0 <= f.1 < 2 ^ 8 /\ IccpSyncdHDr.sizeof + Z.of_nat (length f.2) < 2 ^ 16.

Lemma parse_stream_cons fuel f r ms :
  frame_ok f -> parse_stream fuel r = Some ms ->
  parse_stream (S fuel) (frame f.1 f.2 ++ r) = Some (f :: ms).
Proof.
  destruct f as [t d]. intros [Ht Hd] Hr. unfold IccpSyncdHDr.sizeof in Hd. cbn [fst snd] in *.
  unfold frame, b8. rewrite <- !app_assoc, !le_split1, le_split2. cbn [app parse_stream].
  rewrite <- le_split2, le_combine_split2 by (unfold IccpSyncdHDr.sizeof; lia).
  unfold IccpSyncdHDr.sizeof.
  replace (Z.to_nat (4 + Z.of_nat (length d)) - 4)%nat with (length d) by lia.
  rewrite length_app, (proj2 (Nat.leb_le _ _)), (proj2 (Z.leb_le _ _)) by lia.
  change (byte.unsigned (byte.of_Z ICCPD_TO_MCLAGSYNCD_HDR_VERSION)
    =? ICCPD_TO_MCLAGSYNCD_HDR_VERSION) with true. cbn [andb].
  rewrite drop_app_length, take_app_length, Hr.
  cbn [mbind option_bind]. rewrite byte.unsigned_of_Z. unfold byte.wrap.
  by rewrite Z.mod_small by done.
Qed.

Lemma frame_length t d : length (frame t d) = (4 + length d)%nat.
Proof. unfold frame, b8. rewrite !length_app, !length_le_split. lia. Qed.

(** The builders produce the frame of their sub-options. *)
Lemma syncd_begin_eq type :
  syncd_begin type
  = Some (frame type [] ++ zeros (ICCP_MLAGSYNCD_SEND_MSG_BUFFER_SIZE - 4)).
Proof.
  unfold syncd_begin, ICCP_MLAGSYNCD_SEND_MSG_BUFFER_SIZE.
  rewrite (zeros_split 1), (zeros_split 1 (4096 - 1)), (zeros_split 2 (4096 - 1 - 1)) by lia.
  unfold IccpSyncdHDr.set_ver, IccpSyncdHDr.set_type, IccpSyncdHDr.set_len, wr8, wr16.
  do 3 bstep. unfold frame. by rewrite <- !app_assoc.
Qed.

Lemma syncd_sub_option_eq type body op d rest :
  IccpSyncdHDr.sizeof + Z.of_nat (length body) + 4 + Z.of_nat (length d) <= rest < 2 ^ 16 ->
  syncd_sub_option op d
    (frame type body ++ zeros (rest - (IccpSyncdHDr.sizeof + Z.of_nat (length body))))
  = Some (frame type (body ++ sub_bytes (op, d))
          ++ zeros (rest - (IccpSyncdHDr.sizeof + Z.of_nat (length (body ++ sub_bytes (op, d)))))).
Proof.
  unfold IccpSyncdHDr.sizeof. intros H. unfold syncd_sub_option, IccpSyncdHDr.get_len, rd16.
  assert (Hn : 0 <= Z.of_nat (length body)) by lia.
  assert (Hk : 0 <= Z.of_nat (length d)) by lia.
  set (n := Z.of_nat (length body)) in *. set (k := Z.of_nat (length d)) in *.
  set (z := rest - (4 + n)).
  rewrite (zeros_split 1 z), (zeros_split 1 (z - 1)), (zeros_split 2 (z - 1 - 1)),
    (zeros_split k (z - 1 - 1 - 2)) by (subst z; lia).
  set (P := b8 ICCPD_TO_MCLAGSYNCD_HDR_VERSION ++ b8 type ++ le_split 2 (4 + n) ++ body).
  assert (HP : length P = Z.to_nat (4 + n)) by (subst P n; unfold b8; len).
  change (frame type body) with P.
  eapply obind_step.
  { unfold P. rewrite <- !app_assoc. by bop. }
  cbn [fmap option_fmap option_map]. rewrite le_combine_split2 by lia. cbn zeta.
  unfold mclag_sub_option_hdr_t.set_op_type, mclag_sub_option_hdr_t.set_op_len,
    mclag_sub_option_hdr_t.set_data, wr8, wr16.
  eapply obind_step; [rewrite (wr_shift0 P) by done; by bop|].
  eapply obind_step; [rewrite (wr_shift P) by done; by bop|].
  eapply obind_step; [rewrite (wr_shift P) by done; by bop|].
  unfold IccpSyncdHDr.set_len, wr16, P. rewrite <- !app_assoc. bop. f_equal.
  assert (HL : Z.of_nat (length (body ++ sub_bytes (op, d))) = n + (4 + k))
    by (unfold sub_bytes, b8; cbn [fst snd]; rewrite !length_app, !length_le_split;
        cbn [length]; subst n k; lia).
  unfold frame, mclag_sub_option_hdr_t.sizeof, IccpSyncdHDr.sizeof. rewrite HL.
  unfold sub_bytes. cbn [fst snd]. rewrite <- !app_assoc. fold k.
  rewrite (u16_small k), u16_small by lia.
  replace (4 + n + (4 + k)) with (4 + (n + (4 + k))) by lia.
  by replace (z - 1 - 1 - 2 - k) with (rest - (4 + (n + (4 + k)))) by (subst z; lia).
Qed.

Lemma syncd_sub_options_eq type subs body rest :
  IccpSyncdHDr.sizeof + Z.of_nat (length (body ++ subs_bytes subs)) <= rest < 2 ^ 16 ->
  syncd_sub_options subs
    (frame type body ++ zeros (rest - (IccpSyncdHDr.sizeof + Z.of_nat (length body))))
  = Some (frame type (body ++ subs_bytes subs)
          ++ zeros (rest - (IccpSyncdHDr.sizeof + Z.of_nat (length (body ++ subs_bytes subs))))).
Proof.
  revert body. induction subs as [|[op d] subs IH]; intros body H.
  { unfold subs_bytes. cbn. by rewrite app_nil_r. }
  change (subs_bytes ((op, d) :: subs)) with (sub_bytes (op, d) ++ subs_bytes subs) in *.
  rewrite app_assoc in *. cbn [syncd_sub_options].
  rewrite syncd_sub_option_eq; [cbn [mbind option_bind]; by apply IH|].
  unfold sub_bytes, b8 in H. cbn [fst snd] in H.
  rewrite !length_app, !length_le_split in H. cbn [length] in H. lia.
Qed.

(** What a request looks like on the stream. *)
Lemma syncd_build_eq type subs :
  IccpSyncdHDr.sizeof + Z.of_nat (length (subs_bytes subs)) <= ICCP_MLAGSYNCD_SEND_MSG_BUFFER_SIZE ->
  syncd_build type subs = Some (frame type (subs_bytes subs)).
Proof.
  intros H. unfold syncd_build. rewrite syncd_begin_eq. cbn [mbind option_bind].
  change (ICCP_MLAGSYNCD_SEND_MSG_BUFFER_SIZE - 4) with
    (ICCP_MLAGSYNCD_SEND_MSG_BUFFER_SIZE - (IccpSyncdHDr.sizeof + Z.of_nat (length (@nil byte)))).
  rewrite (syncd_sub_options_eq type subs [] ICCP_MLAGSYNCD_SEND_MSG_BUFFER_SIZE)
    by (unfold ICCP_MLAGSYNCD_SEND_MSG_BUFFER_SIZE in *; cbn [app]; lia).
  cbn [mbind option_bind app]. unfold syncd_message, IccpSyncdHDr.get_len, rd16.
  set (z := zeros _). unfold ICCP_MLAGSYNCD_SEND_MSG_BUFFER_SIZE, IccpSyncdHDr.sizeof in H.
  eapply obind_step; [unfold frame; rewrite <- !app_assoc; by bop|].
  unfold IccpSyncdHDr.sizeof. rewrite le_combine_split2 by lia.
  rewrite rd_head; [done|]. rewrite frame_length. lia.
Qed.

(** The FDB request. *)
Definition fdb_body (vid : Z) (ifname mac : buf) (type op_type : Z) : buf :=
  resize ETHER_ADDR_LEN Byte.x00 mac ++ [Byte.x00; Byte.x00] ++ le_split 4 vid
  ++ resize MAX_L_PORT_NAME Byte.x00 ifname ++ le_split 2 type ++ le_split 2 op_type.

Lemma fdb_body_length vid ifname mac type op_type :
  length (fdb_body vid ifname mac type op_type) = 36%nat.
Proof.
  unfold fdb_body. rewrite !length_app, !length_resize, !length_le_split. done.
Qed.

Lemma fdb_build_eq vid ifname mac type op_type :
  fdb_build vid ifname mac type op_type
  = Some (frame MCLAG_MSG_TYPE_SET_FDB (fdb_body vid ifname mac type op_type)).
Proof.
  unfold fdb_build. rewrite syncd_begin_eq. cbn [mbind option_bind].
  pose proof (fdb_body_length vid ifname mac type op_type) as HL.
  set (F := frame _ (fdb_body _ _ _ _ _)).
  pose proof (length_resize mac ETHER_ADDR_LEN Byte.x00) as Hm.
  pose proof (length_resize ifname MAX_L_PORT_NAME Byte.x00) as Hi.
  set (m := resize ETHER_ADDR_LEN Byte.x00 mac) in *.
  set (i := resize MAX_L_PORT_NAME Byte.x00 ifname) in *.
  unfold ETHER_ADDR_LEN, MAX_L_PORT_NAME in Hm, Hi.
  unfold ICCP_MLAGSYNCD_SEND_MSG_BUFFER_SIZE.
  rewrite (zeros_split 6), (zeros_split 2 (4096 - 4 - 6)), (zeros_split 4 (4096 - 4 - 6 - 2)),
    (zeros_split 20 (4096 - 4 - 6 - 2 - 4)), (zeros_split 2 (4096 - 4 - 6 - 2 - 4 - 20)),
    (zeros_split 2 (4096 - 4 - 6 - 2 - 4 - 20 - 2)) by lia.
  set (z := zeros (4096 - 4 - 6 - 2 - 4 - 20 - 2 - 2)).
  unfold frame, wr32, wr16. rewrite <- !app_assoc. cbn [app].
  assert (length (b8 ICCPD_TO_MCLAGSYNCD_HDR_VERSION) = 1%nat) by done.
  do 5 bstep. unfold IccpSyncdHDr.set_len, wr16. bstep.
  unfold syncd_message, IccpSyncdHDr.get_len, rd16. eapply obind_step; [by bop|].
  rewrite le_combine_split2 by done.
  match goal with |- rd _ _ ?l = _ => replace l with (F ++ z) end.
  { apply rd_head. unfold F. by rewrite frame_length, HL. }
  unfold F, frame. rewrite HL. unfold fdb_body. by rewrite <- !app_assoc.
Qed.

(** ** What the transport does

    [talked A s s']: [s'] is [s] after the actions [A]; otherwise only the script
    of the socket, the time slept and the counters of the connection differ. *)

Definition talk (A : list Action) sd sl tx (s : CS) : CS :=
  let g := cs_g s in
  mkCS (cs_csm s)
    (mkG (g_ICCP_MSG_ID g) (g_csm_buf g) (g_now g) (g_wr g) (g_sent g) (g_rd g) sl (g_cnt g)
       (g_acts g ++ A) sd (g_nl g) tx (g_prev_state g) (g_once_connected g))
    (cs_lifs s) (cs_sys s) (cs_self s) (cs_csms s).

Definition talked (A : list Action) (s s' : CS) : Prop :=
  exists sd sl tx, s' = talk A sd sl tx s.

Definition acc (s : CS) : Prop := g_sd (cs_g s) = [] /\ 0 < sys_sync_fd (cs_sys s).

Lemma talked_refl s : talked [] s s.
Proof.
  exists (g_sd (cs_g s)), (g_slept (cs_g s)), (g_syncd_tx (cs_g s)).
  destruct s as [c [] l y p o]. unfold talk. cbn. by rewrite app_nil_r.
Qed.

Lemma talked_trans A B s1 s2 s3 : talked A s1 s2 -> talked B s2 s3 -> talked (A ++ B) s1 s3.
Proof.
  intros (a & b & c & ->) (d & e & f & ->). exists d, e, f.
  unfold talk. cbn. by rewrite app_assoc.
Qed.

Lemma talked_count A s s' ty st :
  talked A s s' -> wp (SYSTEM_SET_SYNCD_TX_DBG_COUNTER ty st)
    (fun _ s'' => talked A s s'' /\ g_slept (cs_g s'') = g_slept (cs_g s')
      /\ g_sd (cs_g s'') = g_sd (cs_g s')) s'.
Proof.
  intros (a & b & c & ->). apply wp_modify. split; [|done]. by exists a, b, (bump_tx ty st c).
Qed.

(** What a single [send] may do. *)
Lemma syncd_write_spec bs s :
  wp (syncd_write bs) (fun r s' => exists A n, talked A s s' /\ g_slept (cs_g s') = g_slept (cs_g s)
    /\ syncd_out A = take n bs /\ (n <= length bs)%nat
    /\ match r with Sent k => k = n | _ => n = 0%nat end) s.
Proof.
  apply wp_bind, wp_gets. case_match.
  { apply wp_ret. exists [], 0%nat. split_and!; [apply talked_refl|done|done|lia|done]. }
  apply wp_bind, wp_gets, wp_bind, wp_modify.
  assert (H1 : talked [] s (s <| cs_g ::= fun g => g <| g_sd ::= tail |> |>)).
  { exists (tail (g_sd (cs_g s))), (g_slept (cs_g s)), (g_syncd_tx (cs_g s)).
    destruct s as [c [] l y p o]. unfold talk. cbn. by rewrite app_nil_r. }
  set (s1 := s <| cs_g ::= _ |>) in *.
  destruct (default _ _) as [k| |].
  - apply wp_bind, wp_when; intros Hk.
    + apply wp_modify, wp_ret. exists [Act_syncd (take k bs)], (min k (length bs)).
      split_and!; [| |unfold syncd_out; cbn; rewrite app_nil_r|lia|lia].
      * eapply (talked_trans [] [_]); [done|].
        exists (g_sd (cs_g s1)), (g_slept (cs_g s1)), (g_syncd_tx (cs_g s1)).
        destruct s1 as [c [] l y p]. done.
      * by destruct s as [? [] ? ? ?].
      * destruct (Nat.le_gt_cases k (length bs)); [by rewrite Nat.min_l by lia|].
        rewrite Nat.min_r, !take_ge by lia. done.
    + apply wp_ret. exists [], 0%nat. apply Nat.ltb_ge in Hk.
      split_and!; [done|by destruct s as [? [] ? ? ?]|done|lia|lia].
  - apply wp_ret. exists [], 0%nat. split_and!; [done|by destruct s as [? [] ? ? ?]|done|lia|done].
  - apply wp_ret. exists [], 0%nat. split_and!; [done|by destruct s as [? [] ? ? ?]|done|lia|done].
Qed.

(** The outcome of sending [bs]: everything, or an error after a strict prefix. *)
Definition outcome (bs : buf) (pos rc : Z) (A : list Action) : Prop :=
  (rc = pos + Z.of_nat (length bs) /\ syncd_out A = bs)
  \/ (rc = MCLAG_ERROR /\ exists n, (n < length bs)%nat /\ syncd_out A = take n bs).

Lemma syncd_loop_spec fuel ty bs pos retry s :
  0 <= retry <= SYNCD_SEND_RETRY_MAX ->
  (length bs + Z.to_nat (SYNCD_SEND_RETRY_MAX - retry) < fuel)%nat ->
  wp (syncd_loop fuel ty bs pos retry) (fun rc s' => exists A, talked A s s'
    /\ outcome bs pos rc A
    /\ g_slept (cs_g s') <= g_slept (cs_g s)
         + (SYNCD_SEND_RETRY_MAX - retry) * SYNCD_SEND_RETRY_INTERVAL_USEC) s.
Proof.
  unfold SYNCD_SEND_RETRY_MAX, SYNCD_SEND_RETRY_INTERVAL_USEC.
  revert bs pos retry s. induction fuel as [|fuel IH]; intros bs pos retry s Hr Hf; [lia|].
  destruct bs as [|c bs].
  { apply wp_bind. eapply wp_mono; [apply talked_count, talked_refl|].
    intros _ s' (Ht & Hs & _). apply wp_ret. exists []. split_and!; [done|left; cbn; split; [lia|done]|lia]. }
  cbn [syncd_loop]. apply wp_bind. eapply wp_mono; [apply syncd_write_spec|].
  intros r s1 (A & n & Ht & Hs & Ho & Hn & Hr1).
  assert (Herr : wp (SYSTEM_SET_SYNCD_TX_DBG_COUNTER ty SYNCD_DBG_CNTR_STS_ERR;; mret MCLAG_ERROR)
    (fun rc s' => exists A, talked A s s' /\ (n = 0%nat -> outcome (c :: bs) pos rc A)
      /\ g_slept (cs_g s') <= g_slept (cs_g s)) s1).
  { apply wp_bind. eapply wp_mono; [by apply talked_count|]. intros _ s' (Ht' & Hs' & _).
    apply wp_ret. exists A. split_and!; [done| |lia]. intros ->. right. split; [done|].
    exists 0%nat. split; [cbn; lia|done]. }
  assert (Hclose : n = 0%nat ->
    wp (SYSTEM_SET_SYNCD_TX_DBG_COUNTER ty SYNCD_DBG_CNTR_STS_ERR;; mret MCLAG_ERROR)
    (fun rc s' => exists A, talked A s s' /\ outcome (c :: bs) pos rc A
      /\ g_slept (cs_g s') <= g_slept (cs_g s) + (5 - retry) * 50000) s1).
  { intros En. eapply wp_mono; [exact Herr|]. intros rc s' (A' & ? & ? & ?).
    exists A'. split_and!; [done|auto|lia]. }
  destruct r as [[|k]| |]; [by apply Hclose| |subst n|by apply Hclose].
  - subst n. eapply wp_mono; [apply IH; [lia|rewrite length_drop; cbn [length] in *; lia]|].
    intros rc s2 (A' & Ht' & Hout & Hsl). exists (A ++ A'). split_and!; [by eapply talked_trans| |lia].
    destruct Hout as [[-> Ho']|(-> & n & Hn' & Ho')]; [left|right]; rewrite syncd_out_app, Ho, Ho'.
    + split; [rewrite length_drop in *; lia|by rewrite take_drop].
    + split; [done|]. rewrite length_drop in Hn'. exists (S k + n)%nat. split; [lia|].
      by rewrite take_drop_split.
  - cbn zeta. destruct (retry + 1 >? SYNCD_SEND_RETRY_MAX) eqn:E; [by apply Hclose|].
    unfold SYNCD_SEND_RETRY_MAX in E. rewrite Z.gtb_ltb in E. zbool. apply wp_bind, wp_modify.
    set (s1' := s1 <| cs_g ::= _ |>).
    assert (Ht1 : talked A s s1') by (destruct Ht as (? & ? & ? & ->); by do 3 eexists).
    assert (Hs1 : g_slept (cs_g s1') = g_slept (cs_g s1) + 50000) by done.
    eapply wp_mono; [apply IH; [lia|cbn [length] in *; lia]|].
    intros rc s2 (A' & Ht' & Hout & Hsl). exists (A ++ A').
    split_and!; [by eapply talked_trans| |lia].
    unfold outcome in *. by rewrite syncd_out_app, Ho.
Qed.

(** The whole request, from any script. *)
Lemma iccp_send_spec ty bs s :
  wp (iccp_send_to_mclagsyncd ty bs) (fun rc s' => exists A, talked A s s'
    /\ (if truth (sys_sync_fd (cs_sys s)) then outcome bs 0 rc A else rc = 0 /\ A = [])
    /\ g_slept (cs_g s') <= g_slept (cs_g s)
         + SYNCD_SEND_RETRY_MAX * SYNCD_SEND_RETRY_INTERVAL_USEC) s.
Proof.
  apply wp_bind, wp_gets. unfold SYNCD_SEND_RETRY_MAX, SYNCD_SEND_RETRY_INTERVAL_USEC.
  case_match; [|apply wp_ret; exists []; split_and!; [apply talked_refl|done|done|lia]].
  eapply wp_mono; [apply syncd_loop_spec; unfold SYNCD_SEND_RETRY_MAX; lia|].
  intros rc s' (A & ? & ? & Hs). exists A. split_and!; [done..|].
  unfold SYNCD_SEND_RETRY_MAX, SYNCD_SEND_RETRY_INTERVAL_USEC in Hs. lia.
Qed.

(** When mclagsyncd takes all it is sent. *)
Lemma syncd_write_acc bs s :
  acc s -> bs <> [] ->
  syncd_write bs s = Some (Sent (length bs),
    talk [Act_syncd bs] [] (g_slept (cs_g s)) (g_syncd_tx (cs_g s)) s).
Proof.
  intros [Hsd Hfd] Hb. unfold syncd_write.
  rewrite (bind_Some _ _ s (sys_sync_fd (cs_sys s)) s) by done.
  replace (sys_sync_fd (cs_sys s) <? 0) with false by (symmetry; apply Z.ltb_ge; lia).
  rewrite (bind_Some _ _ s (g_sd (cs_g s)) s) by done. rewrite Hsd. cbn [head default].
  rewrite (bind_Some _ _ s tt (talk [] [] (g_slept (cs_g s)) (g_syncd_tx (cs_g s)) s))
    by (unfold talk; rewrite app_nil_r; destruct s as [? [] ? ? ?]; cbn in Hsd; by subst).
  unfold when. destruct bs as [|c bs]; [done|]. rewrite (proj2 (Nat.ltb_lt _ _)) by (cbn; lia).
  rewrite Nat.min_id, firstn_all. unfold talk. cbn. by rewrite app_nil_r.
Qed.

Lemma acc_fd s : acc s -> truth (sys_sync_fd (cs_sys s)) = true.
Proof. intros [_ H]. apply negb_true_iff, Z.eqb_neq. lia. Qed.

Lemma iccp_send_acc ty bs s :
  acc s -> bs <> [] ->
  iccp_send_to_mclagsyncd ty bs s
  = Some (Z.of_nat (length bs), talk [Act_syncd bs] [] (g_slept (cs_g s))
            (bump_tx ty SYNCD_DBG_CNTR_STS_OK (g_syncd_tx (cs_g s))) s).
Proof.
  intros Ha Hb. unfold iccp_send_to_mclagsyncd.
  rewrite (bind_Some _ _ s (sys_sync_fd (cs_sys s)) s), (acc_fd s Ha) by done.
  pose proof (syncd_write_acc bs s Ha Hb) as E.
  destruct bs as [|c bs]; [done|]. cbn [length Nat.add syncd_loop].
  rewrite (bind_Some _ _ _ _ _ E). cbn beta iota. cbn [length]. rewrite drop_ge by done.
  replace (Z.of_nat (S (length bs))) with (0 + Z.of_nat (S (length bs))) by lia.
  by destruct (length bs + 6)%nat.
Qed.

Lemma syncd_write_once_acc ty bs s :
  acc s -> bs <> [] ->
  syncd_write_once ty bs s
  = Some (tt, talk [Act_syncd bs] [] (g_slept (cs_g s))
            (bump_tx ty SYNCD_DBG_CNTR_STS_OK (g_syncd_tx (cs_g s))) s).
Proof.
  intros Ha Hb. unfold syncd_write_once.
  rewrite (bind_Some _ _ s (sys_sync_fd (cs_sys s)) s), (acc_fd s Ha) by done. unfold when.
  rewrite (bind_Some _ _ _ _ _ (syncd_write_acc bs s Ha Hb)).
  destruct bs as [|c bs]; [done|]. by rewrite Nat.eqb_refl.
Qed.

Lemma syncd_send_fdb_spec vid ifname mac type op s :
  wp (syncd_send_fdb vid ifname mac type op) (fun _ s' => exists A, talked A s s') s.
Proof.
  unfold syncd_send_fdb. apply wp_bind. rewrite fdb_build_eq. apply (wp_lift _ _ _ _ eq_refl).
  apply wp_bind, wp_gets. case_match.
  - apply wp_bind. eapply wp_mono; [apply iccp_send_spec|]. intros rc s' (A & Ht & _).
    apply wp_ret. by exists A.
  - eapply wp_mono; [apply talked_count, talked_refl|]. intros _ s' [Ht _]. by exists [].
Qed.

(** The action of an FDB request that mclagsyncd takes. *)
Definition Act_fdb (vid : Z) (ifname mac : buf) (type op_type : Z) : Action :=
  Act_syncd (frame MCLAG_MSG_TYPE_SET_FDB (fdb_body vid ifname mac type op_type)).

Lemma syncd_send_fdb_acc vid ifname mac type op s :
  g_sd (cs_g s) = [] ->
  wp (syncd_send_fdb vid ifname mac type op) (fun _ s' => g_sd (cs_g s') = []
    /\ talked (if sys_sync_fd (cs_sys s) >? 0 then [Act_fdb vid ifname mac type op] else []) s s') s.
Proof.
  intros Hsd. unfold syncd_send_fdb. apply wp_bind. rewrite fdb_build_eq.
  apply (wp_lift _ _ _ _ eq_refl), wp_bind, wp_gets. rewrite Z.gtb_ltb. case_match; zbool.
  - apply wp_bind. do 2 eexists. split; [by apply iccp_send_acc|].
    apply wp_ret. split; [done|]. by do 3 eexists.
  - eapply wp_mono; [apply talked_count, talked_refl|].
    intros _ s' (Ht & _ & Hd). by rewrite Hd.
Qed.

(** ** Requests *)

Inductive Request :=
  | R_traffic_dist (po_name : buf) (is_enable : bool)
  | R_iccp_state (mlag_id : Z) (is_oper_up : bool)
  | R_iccp_role (mlag_id : Z) (is_active_role : bool) (system_id : buf)
  | R_iccp_system_id (mlag_id : Z) (system_id : buf)
  | R_remote_if_state (mlag_id : Z) (po_name : buf) (is_oper_up : bool)
  | R_del_remote_if (mlag_id : Z) (po_name : buf)
  | R_port_isolation (mlag_id : Z) (po_name : buf) (enable : bool).

Definition run_request (r : Request) : M CS Z :=
  match r with
  | R_traffic_dist n e => mlacp_link_set_traffic_dist_mode n e
  | R_iccp_state i u => mlacp_link_set_iccp_state i u
  | R_iccp_role i a sid => mlacp_link_set_iccp_role i a (Some sid)
  | R_iccp_system_id i sid => mlacp_link_set_iccp_system_id i sid
  | R_remote_if_state i n u => mlacp_link_set_remote_if_state i n u
  | R_del_remote_if i n => mlacp_link_del_remote_if_info i n
  | R_port_isolation i n e => mlacp_link_set_peerlink_port_isolation i n e
  end.

(** The meaning of a request: its type and its sub-options. *)
Definition request_subs (r : Request) : Z * list (Z * buf) :=
  let id i := (8, le_split 4 i) in
  let name n := (7, cstr n) in
  let flag op b := (op, b8 (of_bool b)) in
  match r with
  | R_traffic_dist n e => (if e then 6 else 7, [name n])
  | R_iccp_state i u => (8, [id i; flag 11 u])
  | R_iccp_role i a sid => (9, [id i; flag 9 a] ++ if a then [(10, sid)] else [])
  | R_iccp_system_id i sid => (10, [id i; (10, sid)])
  | R_remote_if_state i n u => (12, [id i; name n; flag 11 u])
  | R_del_remote_if i n => (13, [id i; name n])
  | R_port_isolation i n e => (14, [id i; name n; flag 12 e])
  end.

Definition request_ok (r : Request) : Prop :=
  match r with
  | R_traffic_dist n _ | R_remote_if_state _ n _ | R_del_remote_if _ n
  | R_port_isolation _ n _ => (length (cstr n) < MAX_L_PORT_NAME)%nat
  | R_iccp_role _ _ sid | R_iccp_system_id _ sid => length sid = ETHER_ADDR_LEN
  | R_iccp_state _ _ => True
  end.

(** A sequence of requests, stopping at none: the callers ignore the results. *)
Fixpoint run_requests (rs : list Request) : M CS (list Z) :=
  match rs with
  | [] => mret []
  | r :: rs' => rc ← run_request r; rcs ← run_requests rs'; mret (rc :: rcs)
  end.

Definition bump_ok (ty : Z) (counted : bool) (tx : gmap (Z * Z) Z) : gmap (Z * Z) Z :=
  let tx := bump_tx ty SYNCD_DBG_CNTR_STS_OK tx in
  if counted then bump_tx ty SYNCD_DBG_CNTR_STS_OK tx else tx.

Lemma frame_nonnil ty body : frame ty body <> [].
Proof. intros E%(f_equal length). rewrite frame_length in E. done. Qed.

Lemma syncd_request_acc ty subs counted s :
  acc s ->
  IccpSyncdHDr.sizeof + Z.of_nat (length (subs_bytes subs)) <= ICCP_MLAGSYNCD_SEND_MSG_BUFFER_SIZE ->
  syncd_request ty subs counted s
  = Some (0, talk [Act_syncd (frame ty (subs_bytes subs))] [] (g_slept (cs_g s))
               (bump_ok ty counted (g_syncd_tx (cs_g s))) s).
Proof.
  intros Ha Hl. unfold syncd_request.
  rewrite (bind_Some _ _ _ _ _ (lift_Some _ _ _ (syncd_build_eq ty subs Hl))).
  rewrite (bind_Some _ _ _ _ _ (iccp_send_acc ty _ s Ha (frame_nonnil _ _))).
  rewrite Z.eqb_refl, (proj2 (Z.leb_gt _ _)) by (rewrite frame_length; lia).
  by destruct counted.
Qed.

(** Does the function count a success twice? *)
Definition counted (r : Request) : bool :=
  match r with R_remote_if_state _ _ _ | R_del_remote_if _ _ | R_port_isolation _ _ _ => true | _ => false end.

Definition request_frame (r : Request) : buf :=
  let '(ty, subs) := request_subs r in frame ty (subs_bytes subs).

Lemma subs_bytes_cons x subs : subs_bytes (x :: subs) = sub_bytes x ++ subs_bytes subs.
Proof. done. Qed.

Lemma sub_bytes_length x : length (sub_bytes x) = (4 + length x.2)%nat.
Proof. unfold sub_bytes, b8. rewrite !length_app, !length_le_split. cbn [length]. lia. Qed.

Lemma request_bounds r :
  request_ok r ->
  (length (subs_bytes (request_subs r).2) <= 100)%nat /\ Forall sub_ok (request_subs r).2
  /\ 0 <= (request_subs r).1 < 2 ^ 8 /\ (length (request_subs r).2 <= 3)%nat.
Proof.
  assert (Hi : forall i, length (le_split 4 i) = 4%nat) by (intros; apply length_le_split).
  assert (Hb : forall b, length (b8 (of_bool b)) = 1%nat) by (intros; apply length_le_split).
  destruct r as [n [|]| |i [|] sid| | | |]; cbn [request_ok request_subs fst snd app]; intros H;
    unfold MAX_L_PORT_NAME, ETHER_ADDR_LEN in H;
    (split_and!; [rewrite !subs_bytes_cons, !length_app, !sub_bytes_length; cbn [snd];
                  rewrite ?Hi, ?Hb, ?H; cbn [length subs_bytes concat fmap list_fmap]; lia
                 |repeat (apply Forall_cons_2; [unfold sub_ok; cbn [fst snd]; rewrite ?Hi, ?Hb, ?H; lia|]);
                  apply Forall_nil_2
                 |lia|lia|cbn; lia]).
Qed.

Lemma run_request_acc r s :
  acc s -> request_ok r ->
  run_request r s
  = Some (0, talk [Act_syncd (request_frame r)] [] (g_slept (cs_g s))
               (bump_ok (request_subs r).1 (counted r) (g_syncd_tx (cs_g s))) s).
Proof.
  intros Ha Hr. destruct (request_bounds r Hr) as (Hl & _ & _ & _).
  assert (Hs : IccpSyncdHDr.sizeof + Z.of_nat (length (subs_bytes (request_subs r).2))
    <= ICCP_MLAGSYNCD_SEND_MSG_BUFFER_SIZE)
    by (unfold IccpSyncdHDr.sizeof, ICCP_MLAGSYNCD_SEND_MSG_BUFFER_SIZE; lia).
  assert (Ht : forall sid : buf, length sid = ETHER_ADDR_LEN -> take ETHER_ADDR_LEN sid = sid)
    by (intros sid E; apply take_ge; lia).
  pose proof (syncd_request_acc (request_subs r).1 (request_subs r).2 (counted r) s Ha Hs) as E.
  destruct r as [n [|]|i u|i [|] sid|i sid|i n u|i n|i n e]; try exact E.
  - unfold run_request, mlacp_link_set_iccp_state.
    rewrite (bind_Some _ _ s (sys_sync_fd (cs_sys s)) s) by done.
    destruct Ha as [_ Hfd]. by rewrite (proj2 (Z.leb_gt _ _)) by lia.
  - unfold run_request, mlacp_link_set_iccp_role, sub_mlag_id, sub_flag. cbn [request_ok] in Hr.
    rewrite (bind_Some _ _ s [(MCLAG_SUB_OPTION_TYPE_SYSTEM_ID, sid)] s); [exact E|].
    by rewrite <- (Ht sid Hr) at 2.
  - unfold run_request, mlacp_link_set_iccp_system_id. cbn [request_ok] in Hr. by rewrite (Ht sid Hr).
Qed.

Lemma acc_talk A sl tx s : acc s -> acc (talk A [] sl tx s).
Proof. intros [_ H]. done. Qed.

(** ** Properties *)

(** Sending to mclagsyncd always ends, whatever the socket does.  Either the
    whole message is in the stream and its length is returned, or an error is
    returned after a strict prefix of it; the daemon sleeps 250 ms at most, and
    nothing but the trace, the script, the time slept and the counters of the
    connection changes. *)
Theorem send_to_mclagsyncd_outcome ty bs s :
  exists rc s' A, iccp_send_to_mclagsyncd ty bs s = Some (rc, s') /\ talked A s s'
    /\ (if truth (sys_sync_fd (cs_sys s)) then outcome bs 0 rc A else rc = 0 /\ A = [])
    /\ g_slept (cs_g s') <= g_slept (cs_g s) + 250000.
Proof. destruct (iccp_send_spec ty bs s) as (rc & s' & E & A & H). by exists rc, s', A. Qed.

(** C35. Requests that mclagsyncd takes arrive as they were meant: every function
    returns 0, and decoding the stream gives back, in order, the type and the
    sub-options of each request. *)
Theorem requests_decode rs s :
  acc s -> Forall request_ok rs ->
  exists s' frames, run_requests rs s = Some (replicate (length rs) 0, s')
    /\ syncd_out (g_acts (cs_g s'))
       = syncd_out (g_acts (cs_g s)) ++ concat (request_frame <$> rs)
    /\ parse_stream (length rs) (concat (request_frame <$> rs)) = Some frames
    /\ mapM (fun f => subs ← parse_subs 3 f.2; Some (f.1, subs)) frames
       = Some (request_subs <$> rs).
Proof.
  intros Ha H. revert s Ha. induction H as [|r rs Hr H IH]; intros s Ha.
  { exists s, []. cbn. by rewrite app_nil_r. }
  destruct (request_bounds r Hr) as (Hl & Hsub & Hty & Hn).
  set (s1 := talk [Act_syncd (request_frame r)] [] (g_slept (cs_g s))
    (bump_ok (request_subs r).1 (counted r) (g_syncd_tx (cs_g s))) s).
  destruct (IH s1 (acc_talk _ _ _ _ Ha)) as (s' & frames & E & Ho & Hp & Hm).
  exists s', (((request_subs r).1, subs_bytes (request_subs r).2) :: frames).
  cbn [run_requests length replicate fmap list_fmap concat].
  rewrite (bind_Some _ _ _ _ _ (run_request_acc r s Ha Hr)). fold s1.
  rewrite (bind_Some _ _ _ _ _ E). split_and!; [done| | |].
  - rewrite Ho. unfold s1, talk. cbn [cs_g g_acts]. rewrite syncd_out_app. unfold syncd_out at 2. cbn.
    by rewrite app_nil_r, <- app_assoc.
  - unfold request_frame at 1. destruct (request_subs r) as [ty subs]. cbn [fst snd] in *.
    apply (parse_stream_cons _ (ty, subs_bytes subs)); [|done]. split; [done|].
    unfold IccpSyncdHDr.sizeof. cbn [snd]. lia.
  - cbn [mapM fst snd]. rewrite parse_subs_bytes by done. cbn [mbind option_bind].
    rewrite Hm. cbn. by destruct (request_subs r).
Qed.

(** A success of the requests about remote interfaces and port isolation is
    counted twice, once by the transport and once by the caller. *)
Theorem remote_requests_counted_twice r s :
  acc s -> request_ok r -> counted r = true ->
  exists s', run_request r s = Some (0, s')
    /\ tx_count (request_subs r).1 SYNCD_DBG_CNTR_STS_OK (g_syncd_tx (cs_g s'))
       = u64 (tx_count (request_subs r).1 SYNCD_DBG_CNTR_STS_OK (g_syncd_tx (cs_g s)) + 2).
Proof.
  intros Ha Hr Hc. eexists. split; [by apply run_request_acc|]. rewrite Hc.
  set (c := tx_count _ _ (g_syncd_tx (cs_g s))).
  assert (Hb : forall tx, tx_count (request_subs r).1 SYNCD_DBG_CNTR_STS_OK
      (bump_tx (request_subs r).1 SYNCD_DBG_CNTR_STS_OK tx)
    = u64 (tx_count (request_subs r).1 SYNCD_DBG_CNTR_STS_OK tx + 1)).
  { intros tx. unfold tx_count at 1, bump_tx. cbn zeta.
    replace (system_syncdtx_to_dbg_msg_type (request_subs r).1 <? SYNCD_TX_DBG_CNTR_MSG_MAX)
      with true by by destruct r. by rewrite lookup_insert_eq. }
  unfold talk, bump_ok. cbn [cs_g g_syncd_tx]. rewrite !Hb. fold c. unfold u64.
  rewrite Zplus_mod_idemp_l. f_equal. lia.
Qed.
