(* ===== verification/MacTable.v ===== *)
(** The MAC table of a CSM: the red-black tree [mac_rb] and the queue
    [mac_msg_list] of entries to report to the peer ([mlacp_fsm.c],
    [mlacp_sync_update.c] and the MAC helpers of [mlacp_link_handler.c]).

    An entry is one [struct MACMsg] on the heap that the tree and the queue both
    point to, so the model keeps [ml_mac_heap] and pointers into it: a pointer
    that is not a key of the heap dangles, and using it is undefined behaviour.
    The tree is its in-order sequence of pointers.  [MAC_IN_MSG_LIST] tests the
    link fields of an entry, which are set exactly while it is queued. *)

From Stdlib Require Import ZArith Lia Sorted.
From stdpp Require Import base list gmap numbers option fin_sets infinite.
From coqutil Require Import Byte Word.LittleEndianList.
From S2P Require Import Prelude CBuf State MsgFormat Wire CsmMsg Port SyncPrepare Syncd.

Definition MAC_AGE_LOCAL : Z := 1.
Definition MAC_AGE_PEER : Z := 2.
Definition MAC_SYNC_ADD : Z := 1.
Definition MAC_SYNC_DEL : Z := 2.
Definition MAC_TYPE_STATIC : Z := 1.
Definition MAC_TYPE_DYNAMIC : Z := 2.
Definition MAC_TYPE_DYNAMIC_LOCAL : Z := 3.

(** ** Keys *)

(** The sign of [memcmp(a, b, n)] on arrays of the same length. *)
Fixpoint memcmp (a b : buf) : Z :=
  match a, b with
  | x :: a', y :: b' =>
      if byte.unsigned x <? byte.unsigned y then -1
      else if byte.unsigned x >? byte.unsigned y then 1 else memcmp a' b'
  | _, _ => 0
  end.

Definition null_mac : buf := replicate ETHER_ADDR_LEN Byte.x00.

Definition MACMsg_compare (m1 m2 : MACMsg) : Z :=
  if mac_vid m1 <? mac_vid m2 then -1
  else if mac_vid m1 >? mac_vid m2 then 1
  else if memcmp (mac_addr m1) (mac_addr m2) <? 0 then -1
  else if memcmp (mac_addr m1) (mac_addr m2) >? 0 then 1
  else 0.

Definition zero_mac : MACMsg :=
  mkMac 0 (replicate ETHER_ADDR_LEN Byte.x00) 0 0 (replicate MAX_L_PORT_NAME Byte.x00)
    (replicate MAX_L_PORT_NAME Byte.x00) 0 0 0.

(** The key object [mac_find] of a search. *)
Definition mac_find (vid : Z) (addr : buf) : MACMsg :=
  zero_mac <| mac_vid := vid |> <| mac_addr := addr |>.

(** ** The heap of entries *)

Definition on_mlacp (f : mLACP -> mLACP) : M CS unit := on_csm (set_MLACP f).

Definition get_mac (p : ptr) : M CS MACMsg := fun s =>
  m ← ml_mac_heap (MLACP (cs_csm s)) !! p; Some (m, s).

Definition set_mac (p : ptr) (f : MACMsg -> MACMsg) : M CS unit :=
  m ← get_mac p;
  on_mlacp (fun t => t <| ml_mac_heap ::= <[p := f m]> |>).

Definition free_mac (p : ptr) : M CS unit :=
  m ← get_mac p;
  on_mlacp (fun t => t <| ml_mac_heap ::= delete p |>).

(** [iccp_csm_init_mac_msg]: a fresh copy ([malloc] is assumed to succeed). *)
Definition iccp_csm_init_mac_msg (data : MACMsg) : M CS ptr :=
  csm ← the_csm;
  let p := fresh (dom (ml_mac_heap (MLACP csm))) in
  on_mlacp (fun t => t <| ml_mac_heap ::= <[p := data]> |>);;
  mret p.

(** ** The tree *)

Fixpoint rb_find (key : MACMsg) (t : list ptr) : M CS (option ptr) :=
  match t with
  | [] => mret None
  | p :: t' =>
      m ← get_mac p;
      if MACMsg_compare key m =? 0 then mret (Some p) else rb_find key t'
  end.

Definition mac_rb_find (key : MACMsg) : M CS (option ptr) :=
  csm ← the_csm;
  rb_find key (ml_mac_rb (MLACP csm)).

(** The position of a new node; an equal key keeps the old node. *)
Fixpoint rb_insert (p : ptr) (new : MACMsg) (t : list ptr) : M CS (list ptr) :=
  match t with
  | [] => mret [p]
  | q :: t' =>
      m ← get_mac q;
      let c := MACMsg_compare new m in
      if c <? 0 then mret (p :: q :: t')
      else if c >? 0 then t'' ← rb_insert p new t'; mret (q :: t'')
      else mret (q :: t')
  end.

Definition mac_rb_insert (p : ptr) : M CS unit :=
  csm ← the_csm;
  new ← get_mac p;
  t ← rb_insert p new (ml_mac_rb (MLACP csm));
  on_mlacp (fun m => m <| ml_mac_rb := t |>).

Definition MAC_RB_REMOVE (p : ptr) : M CS unit :=
  on_mlacp (fun m => m <| ml_mac_rb ::= filter (fun q => q <> p) |>).

(** ** The queue *)

Definition MAC_IN_MSG_LIST (p : ptr) : M CS bool :=
  csm ← the_csm;
  get_mac p;;
  mret (bool_decide (p ∈ ml_mac_msg_list (MLACP csm))).

(** [if (!MAC_IN_MSG_LIST(...)) TAILQ_INSERT_TAIL(...)] *)
Definition mac_enqueue (p : ptr) : M CS unit :=
  queued ← MAC_IN_MSG_LIST p;
  when (negb queued) (on_mlacp (fun m => m <| ml_mac_msg_list ::= fun l => l ++ [p] |>)).

(** [if (!MAC_IN_MSG_LIST(...)) free(mac_msg)]; says whether it freed. *)
Definition mac_free_unqueued (p : ptr) : M CS bool :=
  queued ← MAC_IN_MSG_LIST p;
  if (queued : bool) then mret false else (free_mac p;; mret true).

(** The macro [MLACP_MAC_MSG_QUEUE_REINIT], then the traversal that clears the
    link fields of the entries of the tree. *)
Fixpoint reinit_queue (q : list ptr) : M CS unit :=
  match q with
  | [] => mret tt
  | p :: q' =>
      on_mlacp (fun m => m <| ml_mac_msg_list := q' |>);;
      m ← get_mac p;
      when (mac_op_type m =? MAC_SYNC_DEL) (free_mac p);;
      reinit_queue q'
  end.

Definition mlacp_mac_msg_queue_reinit : M CS unit :=
  csm ← the_csm;
  reinit_queue (ml_mac_msg_list (MLACP csm));;
  foreach (fun p => get_mac p;; mret tt) (ml_mac_rb (MLACP csm)).

(** ** Requests to the switch

    The message goes to mclagsyncd when its socket is open.  The callers of
    [iccp_send_fdb_entry_to_syncd] pass an entry by address: the result is the
    entry with its new [add_to_syncd]. *)

Definition iccp_send_fdb_entry_to_syncd (mac_msg : MACMsg) (mac_type oper : Z) : M CS MACMsg :=
  if memcmp (mac_addr mac_msg) null_mac =? 0 then mret mac_msg
  else
    syncd_send_fdb (mac_vid mac_msg) (mac_ifname mac_msg) (mac_addr mac_msg) mac_type oper;;
    mret (mac_msg <| mac_add_to_syncd := if oper =? MAC_SYNC_DEL then 0 else 1 |>).

Definition add_mac_to_chip (p : ptr) (mac_type : Z) : M CS unit :=
  m ← get_mac p;
  m' ← iccp_send_fdb_entry_to_syncd m mac_type MAC_SYNC_ADD;
  set_mac p (fun _ => m').

Definition del_mac_from_chip (p : ptr) : M CS unit :=
  m ← get_mac p;
  m' ← iccp_send_fdb_entry_to_syncd m (mac_fdb_type m) MAC_SYNC_DEL;
  set_mac p (fun _ => m').

(** ** Age flags *)

(** The new value of the flags. *)
Definition local_age (set_ : Z) (age : Z) : Z :=
  if set_ =? 0 then
    if truth (Z.land age MAC_AGE_LOCAL) then Z.land age (Z.lnot MAC_AGE_LOCAL) else age
  else
    if truth (Z.land age MAC_AGE_LOCAL) then age else Z.lor age MAC_AGE_LOCAL.

(** The caller stores the result in [age_flag]. *)
Definition set_mac_local_age_flag (p : ptr) (set_ update_peer : Z) : M CS Z :=
  csm ← the_csm;
  m ← get_mac p;
  let new_age_flag := local_age set_ (mac_age_flag m) in
  when (negb (new_age_flag =? mac_age_flag m)
        && bool_decide (ml_current_state (MLACP csm) = MLACP_STATE_EXCHANGE)
        && truth update_peer)
    (set_mac p (fun m => m <| mac_op_type := if set_ =? 0 then MAC_SYNC_ADD else MAC_SYNC_DEL |>);;
     mac_enqueue p);;
  mret new_age_flag.

(** ** Whole-table operations *)

(** Every entry not aged locally is reported to the peer. *)
Definition mlacp_sync_mac : M CS unit :=
  csm ← the_csm;
  foreach (fun p =>
    m ← get_mac p;
    when (negb (truth (Z.land (mac_age_flag m) MAC_AGE_LOCAL)))
      (set_mac p (fun m => m <| mac_op_type := MAC_SYNC_ADD |>);; mac_enqueue p))
    (ml_mac_rb (MLACP csm)).

Definition clear_pending_one (name : buf) (p : ptr) : M CS unit :=
  m ← get_mac p;
  when (truth (mac_pending_local_del m) && streq (mac_origin_ifname m) name)
    (del_mac_from_chip p;;
     if negb (mac_fdb_type m =? MAC_TYPE_STATIC) then
       MAC_RB_REMOVE p;;
       set_mac p (fun m => m <| mac_op_type := MAC_SYNC_DEL |>);;
       mac_free_unqueued p;; mret tt
     else set_mac p (fun m => m <| mac_pending_local_del := 0 |>)).

(** [RB_FOREACH_SAFE] fixes the successor before the body runs. *)
Definition mlacp_local_lif_clear_pending_mac (local_lif : ptr) : M CS unit :=
  lif ← get_lif local_lif;
  csm ← the_csm;
  foreach (clear_pending_one (lif_name lif)) (ml_mac_rb (MLACP csm)).

Definition convert_one (po_name : buf) (p : ptr) : M CS unit :=
  m ← get_mac p;
  when (streq (mac_origin_ifname m) po_name && (mac_age_flag m =? MAC_AGE_LOCAL))
    (set_mac p (fun m => m <| mac_age_flag := MAC_AGE_PEER |>);;
     add_mac_to_chip p MAC_TYPE_DYNAMIC_LOCAL;;
     set_mac p (fun m => m <| mac_op_type := MAC_SYNC_ADD |>);;
     mac_enqueue p).

Definition mlacp_convert_remote_mac_to_local (po_name : buf) : M CS unit :=
  ol ← local_if_find_by_name po_name;
  match ol with
  | None => mret tt
  | Some l =>
      lif ← get_lif l;
      if lif_state lif =? PORT_STATE_DOWN then mret tt
      else csm ← the_csm; foreach (convert_one po_name) (ml_mac_rb (MLACP csm))
  end.

(** ** An entry received from the peer *)

(** The members of a [struct mLACPMACData], the VLAN in host order. *)
Record MacData := mkMacData {
  md_type : Z; md_mac_type : Z; md_addr : buf; md_vid : Z; md_ifname : buf }.

Definition read_mac_data (e : nat) (b : buf) : option MacData :=
  ty ← mLACPMACData.get_type e b;
  mt ← mLACPMACData.get_mac_type e b;
  a ← mLACPMACData.get_mac_addr e b;
  v ← mLACPMACData.get_vid e b;
  n ← mLACPMACData.get_ifname e b;
  Some (mkMacData ty mt a (ntohs v) n).

(** The search of [lif_list]: [from_mclag_intf] and [local_if]. *)
Fixpoint mclag_if (name : buf) (ls : list ptr) : M CS (option ptr) :=
  match ls with
  | [] => mret None
  | l :: ls' =>
      lif ← get_lif l;
      if (lif_type lif =? IF_T_PORT_CHANNEL) && streq (lif_name lif) name
      then mret (Some l) else mclag_if name ls'
  end.

(** [memcpy(dst, csm->peer_itf_name, MAX_L_PORT_NAME)] copies 20 bytes from an
    array of 16: the last four are the low bytes of the member that follows,
    [peer_link_learning_retry_time]. *)
Definition peer_itf_bytes (csm : CSM) : buf :=
  csm_peer_itf_name csm ++ le_split 4 (csm_peer_link_learning_retry_time csm).

Definition peer_link_up : M CS bool :=
  csm ← the_csm;
  match csm_peer_link_if csm with
  | None => mret false
  | Some l => lif ← get_lif l; mret (lif_state lif =? PORT_STATE_UP)
  end.

(** [from_mclag_intf == 0 || local_if->state == PORT_STATE_DOWN] *)
Definition unreachable_here (local_if : option ptr) : M CS bool :=
  match local_if with
  | None => mret true
  | Some l => lif ← get_lif l; mret (lif_state lif =? PORT_STATE_DOWN)
  end.

Definition mac_redirect (p : ptr) : M CS unit :=
  csm ← the_csm;
  set_mac p (fun m => m <| mac_ifname := peer_itf_bytes csm |>);;
  m ← get_mac p;
  add_mac_to_chip p (mac_fdb_type m).

(** The end of [MAC_SYNC_ADD] for an entry of the table: point it to where the
    peer learnt the address. *)
Definition mac_follow_peer (p : ptr) (local_if : option ptr) (d : MacData) : M CS unit :=
  let orphan := bool_decide (local_if = None) in
  m ← get_mac p;
  csm ← the_csm;
  if negb (streq (mac_ifname m) (md_ifname d)) || negb (streq (mac_origin_ifname m) (md_ifname d))
  then
    if negb (mac_fdb_type m =? MAC_TYPE_STATIC) then
      set_mac p (fun m => m <| mac_origin_ifname := md_ifname d |>);;
      away ← unreachable_here local_if;
      if (away : bool) then
        age ← set_mac_local_age_flag p 1 1;
        set_mac p (fun m => m <| mac_age_flag := age |>);;
        if negb (strlen (csm_peer_itf_name csm) =? 0) then
          if streq (mac_ifname m) (csm_peer_itf_name csm) then mret tt
          else peer_link_up;; mac_redirect p
        else
          del_mac_from_chip p;;
          set_mac p (fun m => m <| mac_ifname := md_ifname d |>);;
          when orphan
            (MAC_RB_REMOVE p;;
             mac_free_unqueued p;;
             (* the arguments of the log call *)
             get_mac p;; mret tt)
      else
        set_mac p (fun m => m <| mac_ifname := md_ifname d |>);;
        add_mac_to_chip p (mac_fdb_type m)
    else set_mac p (fun m => m <| mac_age_flag := Z.lor (mac_age_flag m) MAC_AGE_PEER |>)
  else
    when (orphan && negb (strlen (csm_peer_itf_name csm) =? 0)
          && negb (streq (mac_ifname m) (csm_peer_itf_name csm)))
      (peer_link_up;; mac_redirect p).

(** [MAC_SYNC_ADD] for an entry of the table. *)
Definition mac_add_existing (p : ptr) (local_if : option ptr) (d : MacData) : M CS unit :=
  let orphan := bool_decide (local_if = None) in
  set_mac p (fun m => m <| mac_age_flag := Z.land (mac_age_flag m) (Z.lnot MAC_AGE_PEER) |>);;
  m ← get_mac p;
  when (negb orphan && truth (mac_pending_local_del m))
    (set_mac p (fun m => m <| mac_pending_local_del := 0 |> <| mac_age_flag := MAC_AGE_LOCAL |>
                           <| mac_op_type := MAC_SYNC_DEL |>);;
     mac_enqueue p);;
  mac_follow_peer p local_if d.

Definition mac_del_existing (p : ptr) : M CS unit :=
  set_mac p (fun m => m <| mac_age_flag := Z.lor (mac_age_flag m) MAC_AGE_PEER |>);;
  m ← get_mac p;
  when (mac_age_flag m =? Z.lor MAC_AGE_LOCAL MAC_AGE_PEER)
    (del_mac_from_chip p;;
     MAC_RB_REMOVE p;;
     mac_free_unqueued p;; mret tt).

(** [MAC_SYNC_ADD] for an unknown address: the entry is built in the local
    [mac_data], copied to the heap, and the copy on the stack goes to the
    switch. *)
Definition mac_tell_new (local_if : option ptr) (mac_data : MACMsg) : M CS unit :=
  csm ← the_csm;
  if streq (mac_ifname mac_data) (csm_peer_itf_name csm) then
    up ← peer_link_up;
    when up (iccp_send_fdb_entry_to_syncd mac_data (mac_fdb_type mac_data) MAC_SYNC_ADD;; mret tt)
  else
    l ← lift local_if;
    lif ← get_lif l;
    when (negb (lif_state lif =? PORT_STATE_DOWN))
      (iccp_send_fdb_entry_to_syncd mac_data (mac_fdb_type mac_data) MAC_SYNC_ADD;; mret tt).

(** [mac_data], where [away] says that the address is not behind a local port
    that is up. *)
Definition new_mac_data (csm : CSM) (away : bool) (name : buf) (d : MacData) : MACMsg :=
  let m := zero_mac <| mac_fdb_type := md_mac_type d |> <| mac_vid := md_vid d |>
                    <| mac_addr := md_addr d |> <| mac_ifname := name |>
                    <| mac_origin_ifname := name |> <| mac_age_flag := local_age 1 0 |> in
  if away && negb (strlen (csm_peer_itf_name csm) =? 0)
  then m <| mac_ifname := peer_itf_bytes csm |> else m.

Definition mac_add_new (local_if : option ptr) (d : MacData) : M CS unit :=
  csm ← the_csm;
  name ← lift (sprintf_s 0 (md_ifname d) (replicate MAX_L_PORT_NAME Byte.x00));
  away ← unreachable_here local_if;
  if away && (strlen (csm_peer_itf_name csm) =? 0) && bool_decide (local_if = None) then mret tt
  else
    let mac_data := new_mac_data csm away name d in
    new ← iccp_csm_init_mac_msg mac_data;
    mac_rb_insert new;;
    mac_tell_new local_if mac_data.

Definition mlacp_fsm_update_mac_entry_from_peer (d : MacData) : M CS unit :=
  if memcmp (md_addr d) null_mac =? 0 then mret tt
  else
    csm ← the_csm;
    local_if ← mclag_if (md_ifname d) (ml_lif_list (MLACP csm));
    mac_msg ← mac_rb_find (mac_find (md_vid d) (md_addr d));
    match mac_msg with
    | Some p =>
        if md_type d =? MAC_SYNC_ADD then mac_add_existing p local_if d
        else when (md_type d =? MAC_SYNC_DEL) (mac_del_existing p)
    | None => when (md_type d =? MAC_SYNC_ADD) (mac_add_new local_if d)
    end.

Definition mlacp_fsm_update_mac_info_from_peer (msg : Msg) : M CS unit :=
  n ← lift (mLACPListTLV.get_num_of_entry (msg_buf msg));
  foreach (fun i =>
    d ← lift (read_mac_data (mLACPListTLV.entry_off mLACPMACData.sizeof i) (msg_buf msg));
    mlacp_fsm_update_mac_entry_from_peer d) (seq 0 (Z.to_nat (ntohs n))).
