(* ===== verification/Kernel.v ===== *)
(** Requests to the kernel ([iccp_netlink.c]) and the addresses of the standby
    switch: while the session is up, the interfaces of the standby carry the
    system identifier of the active switch as their MAC address.

    A request is an [Action] of the trace; its result, where the code looks at
    it, comes from the script [g_nl]. *)

From Stdlib Require Import ZArith Lia Strings.Byte.
From stdpp Require Import base list gmap numbers option pretty strings.
From coqutil Require Import Byte Word.LittleEndianList.
From S2P Require Import Prelude CBuf State MsgFormat Wire CsmMsg Csm Port SyncPrepare Syncd MacTable.

(** ** Strings *)

Definition str (s : string) : buf := String.list_byte_of_string s.

(** ["%d"] *)
Definition dec (n : Z) : buf := str (pretty n).

(** ["%02x"] *)
Definition hex_digit (n : Z) : byte := nth (Z.to_nat n) (str "0123456789abcdef") Byte.x00.
Definition hex2 (c : byte) : buf :=
  [hex_digit (byte.unsigned c / 16); hex_digit (byte.unsigned c mod 16)].

Definition colon : byte := Byte.x3a.

Fixpoint joined_by (sep : byte) (ws : list buf) : buf :=
  match ws with
  | [] => []
  | [w] => w
  | w :: ws' => w ++ sep :: joined_by sep ws'
  end.

Definition SET_MAC_STR (mac : buf) : buf := joined_by colon (hex2 <$> take ETHER_ADDR_LEN mac).

(** [sscanf(name, "<prefix>%d", &n)] and ["%hu"], before the conversion to the
    type of [n]: the prefix, blanks, a sign, digits.  [None]: nothing assigned. *)
Definition digit (c : byte) : option Z :=
  let n := byte.unsigned c - 48 in if (0 <=? n) && (n <=? 9) then Some n else None.

Fixpoint digits (acc : option Z) (s : buf) : option Z :=
  match s with
  | [] => acc
  | c :: s' =>
      match digit c with
      | None => acc
      | Some d => digits (Some (10 * default 0 acc + d)) s'
      end
  end.

Definition is_space (c : byte) : bool :=
  let n := byte.unsigned c in (n =? 32) || ((9 <=? n) && (n <=? 13)).

Fixpoint skip_space (s : buf) : buf :=
  match s with
  | c :: s' => if is_space c then skip_space s' else s
  | [] => []
  end.

Definition scan_number (s : buf) : option Z :=
  match skip_space s with
  | c :: s' =>
      if byte.unsigned c =? 45 then Z.opp <$> digits None s'
      else if byte.unsigned c =? 43 then digits None s'
      else digits None (c :: s')
  | [] => None
  end.

Definition starts_with (prefix s : buf) : bool := bool_decide (take (length prefix) s = prefix).

Definition scan_after (prefix name : buf) : option Z :=
  let s := cstr name in
  if starts_with prefix s then scan_number (drop (length prefix) s) else None.

Definition VLAN_PREFIX : buf := str "Vlan".

(** ** Requests *)

Definition AF_INET : Z := 2.
Definition AF_INET6 : Z := 10.
Definition ICCP_NLE_SEQ_MISMATCH : Z := -16.

(** A request whose result is used. *)
Definition kernel (a : Action) : M CS Z :=
  act a;;
  r ← gets (fun s => default 0 (head (g_nl (cs_g s))));
  on_g (fun g => g <| g_nl ::= tail |>);;
  mret r.

Definition iccp_netlink_neighbor_request (family : Z) (addr : buf) (add : bool) (mac portname : buf)
    (permanent : bool) : M CS Z :=
  ol ← local_if_find_by_name portname;
  match ol with
  | None => mret (-3)
  | Some l =>
      i ← get_lif l;
      kernel (Act_neigh add family (take (if family =? AF_INET then 4%nat else 16%nat) addr) mac
                (lif_ifindex i) permanent)
  end.

(** Every caller of the next three only logs the result. *)
Definition iccp_netlink_if_hwaddr_set (ifindex : Z) (addr : buf) : M CS unit :=
  act (Act_hwaddr ifindex addr).
Definition iccp_netlink_if_startup_set (ifindex : Z) : M CS unit := act (Act_link ifindex true).
Definition iccp_netlink_if_shutdown_set (ifindex : Z) : M CS unit := act (Act_link ifindex false).

(** [write] that fails only on [-1]. *)
Definition iccp_set_interface_ipadd_mac (lif : LocalInterface) (mac_addr : buf) : M CS unit :=
  m ← lift (syncd_build MCLAG_MSG_TYPE_SET_MAC
        [(MCLAG_SUB_OPTION_TYPE_SET_MAC_SRC, take 511 (cstr (lif_name lif)));
         (MCLAG_SUB_OPTION_TYPE_SET_MAC_DST, cstr mac_addr)]);
  fd ← gets (fun s => sys_sync_fd (cs_sys s));
  when (truth fd)
    (rc ← syncd_write m;
     SYSTEM_SET_SYNCD_TX_DBG_COUNTER MCLAG_MSG_TYPE_SET_MAC
       (match rc with Sent _ => SYNCD_DBG_CNTR_STS_OK | _ => SYNCD_DBG_CNTR_STS_ERR end)).

Definition set_peer_mac_in_kernel (mac : buf) (vlan : Z) (add : bool) : M CS unit :=
  act (Act_command (str (if add then "bridge fdb replace " else "bridge fdb del ") ++ cstr mac
         ++ str " dev Bridge vlan " ++ dec vlan ++ str " local")).

Definition set_peerlink_learn_kernel (enable : Z) : M CS unit :=
  csm ← the_csm;
  match csm_peer_link_if csm with
  | None => mret tt
  | Some l =>
      i ← get_lif l;
      ret ← kernel (Act_command (str "bridge link set dev " ++ cstr (lif_name i)
              ++ str (if enable =? 0 then " learning off" else " learning on")));
      t ← now;
      if negb (ret =? 0) then
        on_csm (fun c => c <| csm_peer_link_learning_enable := enable |>
                           <| csm_peer_link_learning_retry_time := t |>)
      else on_csm (fun c => c <| csm_peer_link_learning_retry_time := 0 |>)
  end.

(** ** The MAC address of an interface

    Set it in the kernel, restart the interface so that its link local address
    follows, tell mclagsyncd, and remember it. *)

Definition restart_with_mac (i : LocalInterface) (mac : buf) : M CS unit :=
  iccp_netlink_if_hwaddr_set (lif_ifindex i) mac;;
  iccp_netlink_if_shutdown_set (lif_ifindex i);;
  iccp_netlink_if_startup_set (lif_ifindex i).

Definition set_l3_mac (l : ptr) (i : LocalInterface) (mac : buf) : M CS unit :=
  iccp_set_interface_ipadd_mac i (SET_MAC_STR mac);;
  set_lif l (fun i => i <| lif_l3_mac_addr := mac |>).

Definition move_itf (l : ptr) (i : LocalInterface) (mac : buf) : M CS unit :=
  restart_with_mac i mac;; set_l3_mac l i mac.

(** The VLAN interfaces above a port channel. *)
Definition foreach_vlan_itf (vlans : list VLAN_ID) (f : ptr -> LocalInterface -> M CS unit) : M CS unit :=
  foreach (fun v => match vlan_itf v with
                    | None => mret tt
                    | Some l => i ← get_lif l; f l i
                    end) vlans.

Definition same_mac (a b : buf) : bool := memcmp a b =? 0.

Definition update_if_ipmac_on_standby (lif_po : ptr) : M CS unit :=
  i ← get_lif lif_po;
  match lif_csm i with
  | None => mret tt
  | Some c =>
      csm ← csm_at c;
      let mac := rs_system_id (ml_remote_system (MLACP csm)) in
      when ((lif_type i =? IF_T_PORT_CHANNEL)
            && bool_decide (csm_role_type csm = STP_ROLE_STANDBY) && negb (same_mac mac null_mac))
        (when (bool_decide (peer_if_find_by_name (lif_name i) csm <> None)
               && negb (same_mac (lif_mac_addr i) mac))
           (set_lif lif_po (fun i => i <| lif_mac_addr_ori := lif_mac_addr i |>);;
            restart_with_mac i mac);;
         if local_if_is_l3_mode i then
           when (negb (same_mac (lif_l3_mac_addr i) mac)) (set_l3_mac lif_po i mac)
         else
           foreach_vlan_itf (lif_vlan_tree i) (fun l vi =>
             when (local_if_is_l3_mode vi && negb (same_mac (lif_l3_mac_addr vi) mac)
                   && negb (lif_is_l3_proto_enabled vi))
               (move_itf l vi mac)))
  end.

Definition recover_if_ipmac_on_standby (lif_po : ptr) : M CS unit :=
  i ← get_lif lif_po;
  match lif_csm i with
  | None => mret tt
  | Some c =>
      csm ← csm_at c;
      let mac := ml_system_id (MLACP csm) in
      when ((lif_type i =? IF_T_PORT_CHANNEL)
            && bool_decide (csm_role_type csm = STP_ROLE_STANDBY))
        (when (negb (same_mac (lif_mac_addr i) mac))
           (restart_with_mac i mac;;
            set_lif lif_po (fun i => i <| lif_mac_addr := mac |>));;
         if local_if_is_l3_mode i then set_l3_mac lif_po i mac
         else
           foreach_vlan_itf (lif_vlan_tree i) (fun l vi =>
             when (local_if_is_l3_mode vi && negb (lif_is_l3_proto_enabled vi))
               (move_itf l vi mac)))
  end.

(** ** VLAN interfaces *)

(** A port channel of [ls] in the VLAN. *)
Fixpoint vlan_port_channel (vid : Z) (ls : list ptr) : M CS bool :=
  match ls with
  | [] => mret false
  | l :: ls' =>
      i ← get_lif l;
      if (lif_type i =? IF_T_PORT_CHANNEL) && bool_decide (vlan_find vid (lif_vlan_tree i) <> None)
      then mret true else vlan_port_channel vid ls'
  end.

(** The first CSM whose peer link is in the VLAN (with an interface on it), or one
    of whose port channels is. *)
Fixpoint vlan_csm (vid : Z) (cs : list ptr) : M CS (option CSM) :=
  match cs with
  | [] => mret None
  | c :: cs' =>
      csm ← csm_at c;
      on_peer_link ←
        match csm_peer_link_if csm with
        | None => mret false
        | Some l =>
            i ← get_lif l;
            mret (match vlan_find vid (lif_vlan_tree i) with
                  | Some v => bool_decide (vlan_itf v <> None)
                  | None => false end)
        end;
      if on_peer_link : bool then mret (Some csm)
      else
        on_po ← vlan_port_channel vid (ml_lif_list (MLACP csm));
        if (on_po : bool) then mret (Some csm) else vlan_csm vid cs'
  end.

Definition vlan_vid_of (i : LocalInterface) : Z := s32 (default 0 (scan_after VLAN_PREFIX (lif_name i))).

(** The key of the search is a [uint16_t]. *)
Definition update_vlan_if_mac_on_standby (lif_vlan : ptr) : M CS unit :=
  i ← get_lif lif_vlan;
  if negb (lif_type i =? IF_T_VLAN) then mret tt
  else
    let vid := vlan_vid_of i in
    cs ← gets (fun s => sys_csm_list (cs_sys s));
    oc ← vlan_csm (u16 vid) cs;
    match oc with
    | None => mret tt
    | Some csm =>
        let mac := if lif_is_l3_proto_enabled i then ml_system_id (MLACP csm)
                   else rs_system_id (ml_remote_system (MLACP csm)) in
        when (bool_decide (csm_role_type csm = STP_ROLE_STANDBY) && negb (same_mac mac null_mac)
              && local_if_is_l3_mode i && negb (same_mac (lif_l3_mac_addr i) mac))
          (move_itf lif_vlan i mac;;
           when (negb (lif_is_l3_proto_enabled i))
             (set_peer_mac_in_kernel (SET_MAC_STR mac) vid true))
    end.

(** The first CSM with a peer link. *)
Fixpoint peer_link_csm (cs : list ptr) : M CS (option CSM) :=
  match cs with
  | [] => mret None
  | c :: cs' =>
      csm ← csm_at c;
      if bool_decide (csm_peer_link_if csm <> None) then mret (Some csm) else peer_link_csm cs'
  end.

(** [remote_system_mac] is looked at in direction 4 only. *)
Definition recover_vlan_if_mac_on_standby (lif_vlan : ptr) (dir : Z) (remote_system_mac : option buf)
    : M CS unit :=
  i ← get_lif lif_vlan;
  if negb (lif_type i =? IF_T_VLAN) then mret tt
  else
    cs ← gets (fun s => sys_csm_list (cs_sys s));
    oc ← peer_link_csm cs;
    match oc with
    | None => mret tt
    | Some csm =>
        let vid := vlan_vid_of i in
        let remote := rs_system_id (ml_remote_system (MLACP csm)) in
        let mac := if lif_is_l3_proto_enabled i then remote else ml_system_id (MLACP csm) in
        when (bool_decide (csm_role_type csm = STP_ROLE_STANDBY) && negb (same_mac mac null_mac)
              && local_if_is_l3_mode i && negb (same_mac (lif_l3_mac_addr i) mac))
          (move_itf lif_vlan i mac;;
           if negb (same_mac remote null_mac) then set_peer_mac_in_kernel (SET_MAC_STR remote) vid false
           else
             match remote_system_mac with
             | Some m => when ((dir =? 4) && negb (same_mac m null_mac))
                           (set_peer_mac_in_kernel (SET_MAC_STR m) vid false)
             | None => mret tt
             end)
    end.

Definition update_vlan_if_mac_on_iccp_up (lif_peer : ptr) (is_up : bool) (remote_system_mac : option buf)
    : M CS unit :=
  i ← get_lif lif_peer;
  foreach (fun v =>
    match vlan_itf v with
    | None => mret tt
    | Some l => if is_up then update_vlan_if_mac_on_standby l
                else recover_vlan_if_mac_on_standby l 4 remote_system_mac
    end) (lif_vlan_tree i).
