(* ===== verification/MacInv.v ===== *)
(** The MAC table keeps its shape: the order of the keys, the well-formedness
    invariant of the tree, the queue and the heap, and that every operation on
    the table runs to its end and preserves it. *)

From Stdlib Require Import ZArith Lia Sorted.
From stdpp Require Import base list gmap numbers option fin_sets infinite.
From coqutil Require Import Byte Word.LittleEndianList.
From S2P Require Import Prelude CBuf State MsgFormat Wire CsmMsg Port SyncPrepare Syncd MacTable.

(** ** The order of the keys *)

(** An address as a number, first byte most significant. *)
Fixpoint num (a : buf) : Z :=
  match a with [] => 0 | x :: a' => byte.unsigned x * 256 ^ Z.of_nat (length a') + num a' end.

Lemma num_range a : 0 <= num a < 256 ^ Z.of_nat (length a).
Proof.
  induction a as [|x a IH]; cbn [num length]; [done|].
  pose proof (byte.unsigned_range x). rewrite Nat2Z.inj_succ, Z.pow_succ_r by lia. nia.
Qed.

Lemma memcmp_num a b :
  length a = length b -> memcmp a b = Z.sgn (num a - num b).
Proof.
  revert b. induction a as [|x a IH]; intros [|y b] Hl; try done. cbn [memcmp num].
  injection Hl as Hl. rewrite IH, Hl by done.
  pose proof (num_range a) as Ha. pose proof (num_range b) as Hb. rewrite Hl in Ha.
  rewrite Z.gtb_ltb.
  destruct (Z.ltb_spec (byte.unsigned x) (byte.unsigned y)).
  - symmetry. apply Z.sgn_neg. nia.
  - destruct (Z.ltb_spec (byte.unsigned y) (byte.unsigned x)).
    + symmetry. apply Z.sgn_pos. nia.
    + f_equal. replace (byte.unsigned x) with (byte.unsigned y) by lia. lia.
Qed.

Definition mac_key (m : MACMsg) : Z := mac_vid m * 2 ^ 48 + num (mac_addr m).

Lemma num6_range (a : buf) : length a = ETHER_ADDR_LEN -> 0 <= num a < 2 ^ 48.
Proof. intros H. pose proof (num_range a) as Hr. rewrite H in Hr. exact Hr. Qed.

Lemma MACMsg_compare_key m1 m2 :
  length (mac_addr m1) = ETHER_ADDR_LEN -> length (mac_addr m2) = ETHER_ADDR_LEN ->
  MACMsg_compare m1 m2 = Z.sgn (mac_key m1 - mac_key m2).
Proof.
  intros H1 H2. unfold MACMsg_compare, mac_key. rewrite memcmp_num by congruence.
  apply num6_range in H1, H2. rewrite !Z.gtb_ltb.
  destruct (Z.ltb_spec (mac_vid m1) (mac_vid m2)); [symmetry; apply Z.sgn_neg; lia|].
  destruct (Z.ltb_spec (mac_vid m2) (mac_vid m1)); [symmetry; apply Z.sgn_pos; lia|].
  replace (mac_vid m1) with (mac_vid m2) by lia.
  replace (mac_vid m2 * 2 ^ 48 + num (mac_addr m1) - (mac_vid m2 * 2 ^ 48 + num (mac_addr m2)))
    with (num (mac_addr m1) - num (mac_addr m2)) by lia.
  destruct (Z.sgn_spec (num (mac_addr m1) - num (mac_addr m2))) as [[? ->]|[[? ->]|[? ->]]]; done.
Qed.

(** ** The invariant *)

(** Shape of an entry. *)
Definition entry_ok (m : MACMsg) : Prop :=
  mac_ok m /\ length (mac_ifname m) = MAX_L_PORT_NAME /\ has_nul (mac_ifname m) = true.

Definition key_at (h : gmap ptr MACMsg) (p : ptr) : Z := from_option mac_key 0 (h !! p).

Record mac_wf (m : mLACP) : Prop := mk_mac_wf {
  wf_live : forall p, p ∈ ml_mac_rb m \/ p ∈ ml_mac_msg_list m -> p ∈ dom (ml_mac_heap m);
  wf_sorted : StronglySorted Z.lt (key_at (ml_mac_heap m) <$> ml_mac_rb m);
  wf_nodup : NoDup (ml_mac_msg_list m);
  wf_entry : forall p e, ml_mac_heap m !! p = Some e -> entry_ok e;
}.

Section Wf.
Context (m : mLACP) (Hwf : mac_wf m).

Lemma wf_lookup p :
  p ∈ ml_mac_rb m \/ p ∈ ml_mac_msg_list m -> exists e, ml_mac_heap m !! p = Some e.
Proof. intros H. by apply elem_of_dom, wf_live. Qed.

Lemma key_at_update p e e' :
  ml_mac_heap m !! p = Some e -> mac_key e' = mac_key e ->
  forall q, key_at (<[p := e']> (ml_mac_heap m)) q = key_at (ml_mac_heap m) q.
Proof.
  intros Hp Hk q. unfold key_at. destruct (decide (p = q)) as [<-|Hq].
  - rewrite lookup_insert_eq, Hp. done.
  - by rewrite lookup_insert_ne.
Qed.

(** Assignment to members other than the key. *)
Lemma wf_set_mac p e e' :
  ml_mac_heap m !! p = Some e -> entry_ok e' -> mac_key e' = mac_key e ->
  mac_wf (m <| ml_mac_heap ::= <[p := e']> |>).
Proof.
  intros Hp Hok Hk. destruct Hwf as [Hl Hs Hn He].
  split; cbn; [| |done|].
  - intros q Hq. rewrite dom_insert. set_solver.
  - erewrite fmap_ext_in; [exact Hs|]. intros. by eapply key_at_update.
  - intros q e0. destruct (decide (p = q)) as [<-|Hq].
    + rewrite lookup_insert_eq. by intros [= <-].
    + rewrite lookup_insert_ne by done. apply He.
Qed.

(** A fresh entry, not linked yet. *)
Lemma wf_new p e :
  p ∉ dom (ml_mac_heap m) -> entry_ok e -> mac_wf (m <| ml_mac_heap ::= <[p := e]> |>).
Proof.
  intros Hp Hok. destruct Hwf as [Hl Hs Hd He]. split; cbn; [..|done|].
  - intros q Hq. rewrite dom_insert. set_solver.
  - erewrite fmap_ext_in; [exact Hs|]. intros q Hq. unfold key_at.
    rewrite lookup_insert_ne; [done|]. intros <-. by apply Hp, Hl; left.
  - intros q e0. destruct (decide (p = q)) as [<-|].
    + rewrite lookup_insert_eq. by intros [= <-].
    + rewrite lookup_insert_ne by done. apply He.
Qed.

(** Release of an entry that nothing refers to. *)
Lemma wf_free p :
  p ∉ ml_mac_rb m -> p ∉ ml_mac_msg_list m -> mac_wf (m <| ml_mac_heap ::= delete p |>).
Proof.
  intros Hr Hq. destruct Hwf as [Hl Hs Hn He]. split; cbn; [| |done|].
  - intros q Hin. rewrite dom_delete. specialize (Hl q Hin).
    assert (q <> p) by (destruct Hin; congruence). set_solver.
  - erewrite fmap_ext_in; [exact Hs|]. intros x Hx. unfold key_at.
    by rewrite lookup_delete_ne by congruence.
  - intros q e. rewrite lookup_delete_Some. intros [_ Hq']. eauto.
Qed.

Lemma wf_enqueue p :
  p ∈ dom (ml_mac_heap m) -> p ∉ ml_mac_msg_list m ->
  mac_wf (m <| ml_mac_msg_list ::= fun l => l ++ [p] |>).
Proof.
  intros Hp Hq. destruct Hwf as [Hl Hs Hn He]. split; cbn; [|done| |done].
  - intros q. rewrite elem_of_app, list_elem_of_singleton. intros [?|[?| ->]]; auto.
  - apply list.NoDup_app. split_and!; [done|set_solver|apply NoDup_singleton].
Qed.

Lemma wf_dequeue p q : ml_mac_msg_list m = p :: q -> mac_wf (m <| ml_mac_msg_list := q |>).
Proof.
  intros E. destruct Hwf as [Hl Hs Hn He]. rewrite E in *. split; cbn; [|done| |done].
  - intros x Hx. apply Hl. set_solver.
  - by inversion Hn.
Qed.

Lemma wf_rb_remove p : mac_wf (m <| ml_mac_rb ::= filter (fun q => q <> p) |>).
Proof.
  destruct Hwf as [Hl Hs Hn He]. split; cbn; [| |done|done].
  - intros x Hx. apply Hl. rewrite list_elem_of_filter in Hx. naive_solver.
  - clear -Hs. induction (ml_mac_rb m) as [|x l IH]; [constructor|].
    rewrite fmap_cons in Hs. apply StronglySorted_inv in Hs as [Hs Hx]. rewrite filter_cons.
    case_decide; [|by apply IH]. rewrite fmap_cons. constructor; [by apply IH|].
    rewrite Forall_lt_elem in *. intros y (z & -> & Hz)%list_elem_of_fmap.
    apply list_elem_of_filter in Hz as [_ Hz]. apply Hx.
    by apply (list_elem_of_fmap_2 (key_at (ml_mac_heap m))).
Qed.
End Wf.

(** ** Search and insertion *)

Abbreviation heap s := (ml_mac_heap (MLACP (cs_csm s))).
Abbreviation rb s := (ml_mac_rb (MLACP (cs_csm s))).
Abbreviation queue s := (ml_mac_msg_list (MLACP (cs_csm s))).
Abbreviation WF s := (mac_wf (MLACP (cs_csm s))).

Lemma get_mac_run p m s : heap s !! p = Some m -> get_mac p s = Some (m, s).
Proof. intros E. unfold get_mac. by rewrite E. Qed.

Lemma rb_find_run key t s :
  length (mac_addr key) = ETHER_ADDR_LEN -> WF s -> (forall p, p ∈ t -> p ∈ rb s) ->
  rb_find key t s = Some (find_first (fun p => mac_key key =? key_at (heap s) p) t, s).
Proof.
  intros Hk Hwf. induction t as [|p t IH]; intros Ht; [done|]. cbn [rb_find find_first].
  destruct (wf_lookup _ Hwf p) as (m & Em); [left; apply Ht; set_solver|].
  rewrite (bind_Some _ _ _ _ _ (get_mac_run _ _ _ Em)).
  rewrite MACMsg_compare_key; [|done|by destruct (wf_entry _ Hwf _ _ Em) as [[? _] _]].
  unfold key_at. rewrite Em. simpl.
  destruct (Z.eqb_spec (mac_key key) (mac_key m)) as [E|E].
  - rewrite E, Z.sub_diag. done.
  - replace (Z.sgn (mac_key key - mac_key m) =? 0) with false
      by (symmetry; apply Z.eqb_neq; rewrite Z.sgn_null_iff; lia).
    apply IH. set_solver.
Qed.

Lemma mac_rb_find_spec key s :
  length (mac_addr key) = ETHER_ADDR_LEN -> WF s ->
  exists o, mac_rb_find key s = Some (o, s) /\
    match o with
    | Some p => p ∈ rb s /\ key_at (heap s) p = mac_key key
    | None => mac_key key ∉ (key_at (heap s) <$> rb s)
    end.
Proof.
  intros Hk Hwf. eexists. split.
  - unfold mac_rb_find. rewrite bind_the_csm. by apply rb_find_run.
  - destruct (find_first _ _) as [p|] eqn:E.
    + apply find_first_Some in E as [Hp E%Z.eqb_eq]. by split.
    + apply find_first_None in E. intros (p & Ep & Hp)%list_elem_of_fmap.
      rewrite List.Forall_forall in E. apply list_elem_of_In in Hp. specialize (E p Hp).
      apply Z.eqb_neq in E. done.
Qed.

Lemma rb_insert_run p new t s :
  WF s -> entry_ok new -> (forall q, q ∈ t -> q ∈ dom (heap s)) ->
  StronglySorted Z.lt (key_at (heap s) <$> t) -> key_at (heap s) p = mac_key new ->
  mac_key new ∉ (key_at (heap s) <$> t) ->
  exists t', rb_insert p new t s = Some (t', s)
    /\ StronglySorted Z.lt (key_at (heap s) <$> t')
    /\ forall q, q ∈ t' <-> q = p \/ q ∈ t.
Proof.
  intros Hwf Hnew. induction t as [|q t IH]; intros Hlive Hs Hp Hn; cbn [rb_insert].
  { eexists. split_and!; [done|repeat constructor|set_solver]. }
  assert (exists m, heap s !! q = Some m) as (m & Em) by (apply elem_of_dom, Hlive; set_solver).
  rewrite (bind_Some _ _ _ _ _ (get_mac_run _ _ _ Em)).
  destruct (wf_entry _ Hwf _ _ Em) as [[? _] _]. destruct Hnew as [[? Hnew1] Hnew2].
  rewrite MACMsg_compare_key by done. cbn zeta.
  assert (Eq : key_at (heap s) q = mac_key m) by (unfold key_at; by rewrite Em).
  rewrite fmap_cons in *. pose proof Hs as Hs'. apply StronglySorted_inv in Hs as [Hs Hq].
  rewrite elem_of_cons, Eq in Hn. rewrite Forall_lt_elem, Eq in Hq.
  rewrite Z.gtb_ltb. destruct (Z.lt_trichotomy (mac_key new) (mac_key m)) as [Hc|[Hc|Hc]].
  - rewrite Z.sgn_neg by lia. eexists. split_and!; [done| |set_solver].
    rewrite !fmap_cons. constructor; [done|]. rewrite Hp, Eq. constructor; [done|].
    rewrite Forall_lt_elem. intros x Hx. specialize (Hq x Hx). lia.
  - destruct Hn. by left.
  - rewrite Z.sgn_pos by lia.
    destruct IH as (t' & E & Hst & Hin); [set_solver|done|done|set_solver|].
    cbn. rewrite (bind_Some _ _ _ _ _ E). eexists. split_and!; [done| |set_solver].
    rewrite fmap_cons. constructor; [done|]. rewrite Forall_lt_elem, Eq.
    intros x (y & -> & [->|Hy]%Hin)%list_elem_of_fmap; [lia|].
    apply Hq. by apply (list_elem_of_fmap_2 (key_at (heap s))).
Qed.

Lemma mac_rb_insert_run p new s :
  WF s -> heap s !! p = Some new -> mac_key new ∉ (key_at (heap s) <$> rb s) ->
  exists t', mac_rb_insert p s = Some (tt, s <| cs_csm ::= set_MLACP (fun m => m <| ml_mac_rb := t' |>) |>)
    /\ mac_wf (MLACP (cs_csm s) <| ml_mac_rb := t' |>)
    /\ forall q, q ∈ t' <-> q = p \/ q ∈ rb s.
Proof.
  intros Hwf Hp Hn. destruct (rb_insert_run p new (rb s) s) as (t' & E & Hs & Hin); try done.
  - by eapply wf_entry.
  - intros q Hq. apply (wf_live _ Hwf). by left.
  - by apply wf_sorted.
  - unfold key_at. by rewrite Hp.
  - exists t'. split_and!; [|split; cbn|done].
    + unfold mac_rb_insert. rewrite bind_the_csm, (bind_Some _ _ _ _ _ (get_mac_run _ _ _ Hp)).
      by rewrite (bind_Some _ _ _ _ _ E).
    + intros q [[->|Hq]%Hin|Hq]; [by apply elem_of_dom_2 in Hp|..];
        apply (wf_live _ Hwf); auto.
    + done.
    + apply (wf_nodup _ Hwf).
    + apply (wf_entry _ Hwf).
Qed.

(** ** The operations *)

(** What the operations on the table leave alone. *)
Record mac_frame (s0 s : CS) : Prop := mk_mac_frame {
  fr_lifs : cs_lifs s = cs_lifs s0;
  fr_sys : cs_sys s = cs_sys s0;
  fr_name : csm_peer_itf_name (cs_csm s) = csm_peer_itf_name (cs_csm s0);
  fr_link : csm_peer_link_if (cs_csm s) = csm_peer_link_if (cs_csm s0);
  fr_list : ml_lif_list (MLACP (cs_csm s)) = ml_lif_list (MLACP (cs_csm s0));
  fr_state : ml_current_state (MLACP (cs_csm s)) = ml_current_state (MLACP (cs_csm s0));
}.

(** The table is well formed; with a pointer to a live entry. *)
Definition Inv (s0 s : CS) : Prop := WF s /\ mac_frame s0 s.
Definition InvP (s0 : CS) (p : ptr) (s : CS) : Prop := Inv s0 s /\ p ∈ dom (heap s).

(** Assignments that keep the shape of an entry and its key. *)
Definition keeps (f : MACMsg -> MACMsg) : Prop :=
  forall m, entry_ok m -> entry_ok (f m) /\ mac_key (f m) = mac_key m.

Section Ops.
Context (s0 : CS).
Implicit Types (s : CS) (p : ptr).

Lemma wp_get_mac p (Q : MACMsg -> CS -> Prop) s :
  InvP s0 p s -> (forall m, heap s !! p = Some m -> entry_ok m -> Q m s) -> wp (get_mac p) Q s.
Proof.
  intros [[Hwf Hf] [m Em]%elem_of_dom] HQ. exists m, s. split; [by apply get_mac_run|].
  apply HQ; [done|]. by eapply wf_entry.
Qed.

Lemma wp_on_mlacp f (Q : unit -> CS -> Prop) s :
  Q tt (s <| cs_csm ::= set_MLACP f |>) -> wp (on_mlacp f) Q s.
Proof. intros H. by eexists _, _. Qed.

Lemma inv_on_mlacp f s :
  Inv s0 s -> mac_wf (f (MLACP (cs_csm s))) ->
  ml_lif_list (f (MLACP (cs_csm s))) = ml_lif_list (MLACP (cs_csm s))
  /\ ml_current_state (f (MLACP (cs_csm s))) = ml_current_state (MLACP (cs_csm s)) ->
  Inv s0 (s <| cs_csm ::= set_MLACP f |>).
Proof.
  intros [_ [? ? ? ? Hl0 Hs0]] Hf [Hl Hs]. split; [done|].
  split; [done..|by rewrite <- Hl0, <- Hl|by rewrite <- Hs0, <- Hs].
Qed.

Lemma wp_set_mac p f (Q : unit -> CS -> Prop) s :
  InvP s0 p s -> keeps f -> (forall s', InvP s0 p s' -> Q tt s') -> wp (set_mac p f) Q s.
Proof.
  intros Hp Hf HQ. apply wp_bind. apply wp_get_mac; [done|]. intros m Em Hm.
  destruct Hp as [Hi Hp]. destruct (Hf m Hm) as [Hok Hk]. apply wp_on_mlacp, HQ. split.
  - apply inv_on_mlacp; [done| |done]. destruct Hi. by eapply wf_set_mac.
  - cbn. rewrite dom_insert. set_solver.
Qed.

Lemma wp_MAC_IN_MSG_LIST p (Q : bool -> CS -> Prop) s :
  InvP s0 p s -> Q (bool_decide (p ∈ queue s)) s -> wp (MAC_IN_MSG_LIST p) Q s.
Proof.
  intros Hp HQ. apply wp_bind, wp_gets, wp_bind. apply wp_get_mac; [done|].
  intros m _ _. by apply wp_ret.
Qed.

Lemma wp_mac_enqueue p (Q : unit -> CS -> Prop) s :
  InvP s0 p s -> (forall s', InvP s0 p s' -> Q tt s') -> wp (mac_enqueue p) Q s.
Proof.
  intros Hp HQ. apply wp_bind. apply wp_MAC_IN_MSG_LIST; [done|].
  apply wp_when; [|auto]. intros E%negb_true_iff%bool_decide_eq_false.
  apply wp_on_mlacp, HQ. destruct Hp as [Hi Hp]. split; [|done].
  apply inv_on_mlacp; [done| |done]. destruct Hi. by apply wf_enqueue.
Qed.

(** Removal from the tree, and release unless the entry is queued. *)
Lemma wp_rb_remove p (Q : unit -> CS -> Prop) s :
  InvP s0 p s -> (forall s', InvP s0 p s' -> p ∉ rb s' -> Q tt s') -> wp (MAC_RB_REMOVE p) Q s.
Proof.
  intros [Hi Hp] HQ. apply wp_on_mlacp, HQ; [|cbn; rewrite list_elem_of_filter; naive_solver].
  split; [|done]. apply inv_on_mlacp; [done| |done]. destruct Hi. by apply wf_rb_remove.
Qed.

Lemma wp_free_unqueued p (Q : bool -> CS -> Prop) s :
  InvP s0 p s -> p ∉ rb s ->
  (forall b s', Inv s0 s' -> (b = false -> p ∈ dom (heap s')) -> Q b s') ->
  wp (mac_free_unqueued p) Q s.
Proof.
  intros Hp Hr HQ. apply wp_bind. apply wp_MAC_IN_MSG_LIST; [done|].
  case_bool_decide as E; [apply wp_ret, HQ; [apply Hp|intros; apply Hp]|].
  apply wp_bind, wp_bind. apply wp_get_mac; [done|]. intros m _ _.
  apply wp_on_mlacp, wp_ret, HQ; [|done]. destruct Hp as [Hi Hp].
  apply inv_on_mlacp; [done| |done]. destruct Hi. by apply wf_free.
Qed.
End Ops.

(** ** Entries from the peer *)

(** The interfaces the CSM refers to exist, and the name of its peer link is a
    string. *)
Record links_ok (s : CS) : Prop := mk_links_ok {
  lk_list : forall l, l ∈ ml_lif_list (MLACP (cs_csm s)) -> l ∈ dom (cs_lifs s);
  lk_peer : forall l, csm_peer_link_if (cs_csm s) = Some l -> l ∈ dom (cs_lifs s);
  lk_len : length (csm_peer_itf_name (cs_csm s)) = IFNAMSIZ;
  lk_nul : has_nul (csm_peer_itf_name (cs_csm s)) = true;
}.

Definition data_ok (d : MacData) : Prop :=
  length (md_addr d) = ETHER_ADDR_LEN /\ length (md_ifname d) = MAX_L_PORT_NAME
  /\ has_nul (md_ifname d) = true.

Lemma has_nul_app a b : has_nul (a ++ b) = has_nul a || has_nul b.
Proof. apply existsb_app. Qed.

Lemma keeps_same f :
  (forall m, mac_vid (f m) = mac_vid m /\ mac_addr (f m) = mac_addr m
    /\ mac_origin_ifname (f m) = mac_origin_ifname m /\ mac_ifname (f m) = mac_ifname m) ->
  keeps f.
Proof.
  intros H m Hm. destruct (H m) as (Hv & Ha & Ho & Hi). unfold entry_ok, mac_ok, mac_key in *.
  by rewrite Hv, Ha, Ho, Hi.
Qed.

Lemma keeps_ifname n :
  length n = MAX_L_PORT_NAME -> has_nul n = true -> keeps (fun m => m <| mac_ifname := n |>).
Proof. intros Hl Hn m (Hm & _ & _). split; [|done]. split; [exact Hm|done]. Qed.

Lemma keeps_origin n :
  length n = MAX_L_PORT_NAME -> has_nul n = true ->
  keeps (fun m => m <| mac_origin_ifname := n |>).
Proof. intros Hl Hn m ((Ha & _ & _) & Hi). split; [|done]. split; [done|exact Hi]. Qed.

Lemma cstr_app_nul a b : has_nul a = true -> cstr (a ++ b) = cstr a.
Proof.
  induction a as [|c a IH]; simpl; [done|]. destruct (is_nul c); simpl; [done|].
  intros H. by rewrite IH.
Qed.

Lemma streq_peer_bytes c :
  has_nul (csm_peer_itf_name c) = true -> streq (peer_itf_bytes c) (csm_peer_itf_name c) = true.
Proof.
  intros H. unfold streq, peer_itf_bytes. rewrite cstr_app_nul by done. by apply bool_decide_eq_true.
Qed.

(** The name a new entry gets: the string, padded. *)
Lemma sprintf_name n :
  length n = MAX_L_PORT_NAME -> has_nul n = true ->
  sprintf_s 0 n (replicate MAX_L_PORT_NAME Byte.x00) = Some (pad MAX_L_PORT_NAME (cstr n)).
Proof.
  intros Hl Hn. unfold sprintf_s. rewrite Hn. apply cstr_nul_length in Hn. rewrite Hl in Hn.
  pose proof (wr_pad MAX_L_PORT_NAME (cstr n ++ [Byte.x00]) []) as E.
  rewrite !app_nil_r in E. rewrite pad_nul in E by done. apply E. rewrite length_app. simpl. lia.
Qed.

Lemma pad_name_ok n :
  length n = MAX_L_PORT_NAME -> has_nul n = true ->
  length (pad MAX_L_PORT_NAME (cstr n)) = MAX_L_PORT_NAME
  /\ has_nul (pad MAX_L_PORT_NAME (cstr n)) = true.
Proof.
  intros Hl Hn. apply cstr_nul_length in Hn. rewrite Hl in Hn. split; [apply pad_length; lia|].
  unfold pad. rewrite has_nul_app.
  destruct (MAX_L_PORT_NAME - length (cstr n))%nat eqn:E; [lia|]. apply orb_true_r.
Qed.

Section FromPeer.
Context (s0 : CS) (Hlinks : links_ok s0).
Implicit Types (s : CS) (p : ptr).

Lemma wp_set_mac_fields p f (Q : unit -> CS -> Prop) s :
  (forall m, mac_vid (f m) = mac_vid m /\ mac_addr (f m) = mac_addr m
    /\ mac_origin_ifname (f m) = mac_origin_ifname m /\ mac_ifname (f m) = mac_ifname m) ->
  InvP s0 p s -> (forall s', InvP s0 p s' -> Q tt s') -> wp (set_mac p f) Q s.
Proof. intros Hf Hp HQ. eapply wp_set_mac; [done|by apply keeps_same|done]. Qed.

Lemma inv_talked A s s' : Inv s0 s -> talked A s s' -> Inv s0 s'.
Proof. intros [Hwf [?????]] (? & ? & ? & ->). split; [exact Hwf|by split]. Qed.

(** A request to the switch changes only [add_to_syncd]. *)
Lemma wp_chip p m ty oper (Q : unit -> CS -> Prop) s :
  InvP s0 p s -> heap s !! p = Some m -> (forall s', InvP s0 p s' -> Q tt s') ->
  wp (m' ← iccp_send_fdb_entry_to_syncd m ty oper; set_mac p (fun _ => m')) Q s.
Proof.
  intros Hp Em HQ. assert (entry_ok m) as Hm by (destruct Hp as [[Hwf _] _]; by eapply wf_entry).
  assert (Hset : forall m' s', InvP s0 p s' -> heap s' !! p = Some m -> entry_ok m' ->
    mac_key m' = mac_key m -> wp (set_mac p (fun _ => m')) Q s').
  { intros m' s' Hp' E' Hok Hk. apply wp_bind. eapply wp_get_mac; [done|]. intros m1 E1 _.
    rewrite E' in E1. injection E1 as <-. apply wp_on_mlacp, HQ. destruct Hp' as [Hi Hd].
    split; [|cbn; rewrite dom_insert; set_solver]. apply inv_on_mlacp; [done| |done].
    destruct Hi. by eapply wf_set_mac. }
  apply wp_bind. unfold iccp_send_fdb_entry_to_syncd. case_match; [apply wp_ret; by apply Hset|].
  apply wp_bind. eapply wp_mono; [apply syncd_send_fdb_spec|]. intros _ s' (A & Ht). apply wp_ret.
  apply Hset; [|by destruct Ht as (? & ? & ? & ->)|done..].
  destruct Hp as [Hi Hd]. split; [by eapply inv_talked|by destruct Ht as (? & ? & ? & ->)].
Qed.

Lemma wp_add_mac_to_chip p ty (Q : unit -> CS -> Prop) s :
  InvP s0 p s -> (forall s', InvP s0 p s' -> Q tt s') -> wp (add_mac_to_chip p ty) Q s.
Proof. intros Hp HQ. apply wp_bind. eapply wp_get_mac; [done|]. intros m Em _. by apply wp_chip. Qed.

Lemma wp_del_mac_from_chip p (Q : unit -> CS -> Prop) s :
  InvP s0 p s -> (forall s', InvP s0 p s' -> Q tt s') -> wp (del_mac_from_chip p) Q s.
Proof. intros Hp HQ. apply wp_bind. eapply wp_get_mac; [done|]. intros m Em _. by apply wp_chip. Qed.

Lemma wp_set_local_age p a b (Q : Z -> CS -> Prop) s :
  InvP s0 p s -> (forall z s', InvP s0 p s' -> Q z s') -> wp (set_mac_local_age_flag p a b) Q s.
Proof.
  intros Hp HQ. apply wp_bind, wp_gets, wp_bind. eapply wp_get_mac; [done|]. intros m _ _.
  apply wp_bind, wp_when; intros _; [|by apply wp_ret, HQ].
  apply wp_bind. apply wp_set_mac_fields; [done..|]. intros s' Hp'.
  eapply wp_mac_enqueue; [done|]. intros s'' Hp''. by apply wp_ret, HQ.
Qed.

Lemma wp_get_lif l (Q : LocalInterface -> CS -> Prop) s :
  Inv s0 s -> l ∈ dom (cs_lifs s0) -> (forall i, Q i s) -> wp (get_lif l) Q s.
Proof.
  intros [_ Hf] [i Ei]%elem_of_dom HQ. rewrite <- (fr_lifs _ _ Hf) in Ei.
  exists i, s. unfold get_lif. by rewrite Ei.
Qed.

Lemma wp_peer_link_up (Q : bool -> CS -> Prop) s :
  Inv s0 s -> (forall b, Q b s) -> wp peer_link_up Q s.
Proof.
  intros Hi HQ. apply wp_bind, wp_gets. destruct (csm_peer_link_if _) as [l|] eqn:E.
  - apply wp_bind. apply wp_get_lif; [done|..].
    + destruct Hi as [_ Hf]. rewrite (fr_link _ _ Hf) in E. by eapply lk_peer.
    + intros. by apply wp_ret.
  - by apply wp_ret.
Qed.

Lemma wp_unreachable_here ol (Q : bool -> CS -> Prop) s :
  Inv s0 s -> (forall l, ol = Some l -> l ∈ dom (cs_lifs s0)) ->
  (forall b, (ol = None -> b = true) -> Q b s) -> wp (unreachable_here ol) Q s.
Proof.
  intros Hi Hl HQ. destruct ol as [l|]; [|by apply wp_ret, HQ].
  apply wp_bind. apply wp_get_lif; [done|by apply Hl|]. intros. by apply wp_ret, HQ.
Qed.

Lemma peer_bytes_ok s :
  Inv s0 s -> length (peer_itf_bytes (cs_csm s)) = MAX_L_PORT_NAME
    /\ has_nul (peer_itf_bytes (cs_csm s)) = true.
Proof.
  intros [_ Hf]. unfold peer_itf_bytes. rewrite (fr_name _ _ Hf).
  rewrite length_app, length_le_split, has_nul_app, (lk_nul _ Hlinks), (lk_len _ Hlinks). done.
Qed.

Lemma wp_mac_redirect p (Q : unit -> CS -> Prop) s :
  InvP s0 p s -> (forall s', InvP s0 p s' -> Q tt s') -> wp (mac_redirect p) Q s.
Proof.
  intros Hp HQ. apply wp_bind, wp_gets, wp_bind.
  destruct (peer_bytes_ok s) as [Hl Hn]; [apply Hp|].
  eapply wp_set_mac; [done|by apply keeps_ifname|]. intros s' Hp'.
  apply wp_bind. eapply wp_get_mac; [done|]. intros m _ _. by apply wp_add_mac_to_chip.
Qed.

Lemma wp_mac_follow_peer p ol d (Q : unit -> CS -> Prop) s :
  InvP s0 p s -> data_ok d -> (forall l, ol = Some l -> l ∈ dom (cs_lifs s0)) ->
  ol <> None \/ strlen (csm_peer_itf_name (cs_csm s0)) <> 0 ->
  (forall s', Inv s0 s' -> Q tt s') -> wp (mac_follow_peer p ol d) Q s.
Proof.
  intros Hp (_ & Hnl & Hnn) Hl Hsafe HQ. unfold mac_follow_peer. cbn zeta.
  apply wp_bind. eapply wp_get_mac; [done|]. intros m _ _.
  apply wp_bind, wp_gets. assert (Hname : csm_peer_itf_name (cs_csm s)
    = csm_peer_itf_name (cs_csm s0)) by apply Hp. rewrite Hname.
  case_match; [|apply wp_when; intros _; [|by apply HQ, Hp]].
  - case_match; [|apply wp_set_mac_fields; [done..|]; intros s' Hp'; by apply HQ, Hp'].
    apply wp_bind. eapply wp_set_mac; [done|by apply keeps_origin|]. clear s Hp Hname. intros s Hp.
    apply wp_bind, wp_unreachable_here; [apply Hp|done|]. intros [|] _.
    + apply wp_bind, wp_set_local_age; [done|]. clear s Hp. intros age s Hp.
      apply wp_bind, wp_set_mac_fields; [done..|]. clear s Hp. intros s Hp.
      case_match; [case_match; [by apply wp_ret, HQ, Hp|]|].
      * apply wp_bind, wp_peer_link_up; [apply Hp|]. intros _.
        apply wp_mac_redirect; [done|]. intros s' Hp'. by apply HQ, Hp'.
      * apply wp_bind, wp_del_mac_from_chip; [done|]. clear s Hp. intros s Hp.
        apply wp_bind. eapply wp_set_mac; [done|by apply keeps_ifname|]. clear s Hp. intros s Hp.
        rewrite bool_decide_eq_false_2; [by apply wp_ret, HQ, Hp|]. zbool. naive_solver.
    + apply wp_bind. eapply wp_set_mac; [done|by apply keeps_ifname|]. clear s Hp. intros s Hp.
      apply wp_add_mac_to_chip; [done|]. intros s' Hp'. by apply HQ, Hp'.
  - apply wp_bind, wp_peer_link_up; [apply Hp|]. intros _.
    apply wp_mac_redirect; [done|]. intros s' Hp'. by apply HQ, Hp'.
Qed.

Lemma wp_mac_add_existing p ol d (Q : unit -> CS -> Prop) s :
  InvP s0 p s -> data_ok d -> (forall l, ol = Some l -> l ∈ dom (cs_lifs s0)) ->
  ol <> None \/ strlen (csm_peer_itf_name (cs_csm s0)) <> 0 ->
  (forall s', Inv s0 s' -> Q tt s') -> wp (mac_add_existing p ol d) Q s.
Proof.
  intros Hp Hd Hl Hsafe HQ. unfold mac_add_existing. cbn zeta.
  apply wp_bind, wp_set_mac_fields; [done..|]. clear s Hp. intros s Hp.
  apply wp_bind. eapply wp_get_mac; [done|]. intros m _ _. apply wp_bind, wp_when; intros _.
  - apply wp_bind, wp_set_mac_fields; [done..|]. clear s Hp. intros s Hp.
    eapply wp_mac_enqueue; [done|]. intros s' Hp'. by apply wp_mac_follow_peer.
  - by apply wp_mac_follow_peer.
Qed.

Lemma wp_mac_del_existing p (Q : unit -> CS -> Prop) s :
  InvP s0 p s -> (forall s', Inv s0 s' -> Q tt s') -> wp (mac_del_existing p) Q s.
Proof.
  intros Hp HQ. apply wp_bind, wp_set_mac_fields; [done..|]. clear s Hp. intros s Hp.
  apply wp_bind. eapply wp_get_mac; [done|]. intros m _ _.
  apply wp_when; intros _; [|by apply HQ, Hp].
  apply wp_bind, wp_del_mac_from_chip; [done|]. clear s Hp. intros s Hp.
  apply wp_bind. eapply wp_rb_remove; [done|]. clear s Hp. intros s Hp Hr.
  apply wp_bind. eapply wp_free_unqueued; [done|done|]. intros b s' Hi _. by apply wp_ret, HQ.
Qed.

(** The copy on the heap of a fresh entry, linked into the tree. *)
Lemma wp_new_entry data (Q : unit -> CS -> Prop) s :
  Inv s0 s -> entry_ok data -> mac_key data ∉ (key_at (heap s) <$> rb s) ->
  (forall s', Inv s0 s' -> Q tt s') ->
  wp (new ← iccp_csm_init_mac_msg data; mac_rb_insert new) Q s.
Proof.
  intros [Hwf Hf] Hok Hn HQ. apply wp_bind, wp_bind, wp_gets. cbn zeta.
  set (p := fresh (dom (heap s))). assert (Hp : p ∉ dom (heap s)) by apply is_fresh.
  apply wp_bind, wp_on_mlacp, wp_ret.
  set (s' := s <| cs_csm ::= set_MLACP (fun t => t <| ml_mac_heap ::= <[p := data]> |>) |>).
  assert (Hk : forall q, q ∈ rb s -> key_at (heap s') q = key_at (heap s) q).
  { intros q Hq. unfold key_at. cbn. rewrite lookup_insert_ne; [done|]. intros <-.
    by apply Hp, (wf_live _ Hwf); left. }
  assert (Hwf' : WF s') by by apply wf_new.
  destruct (mac_rb_insert_run p data s') as (t' & E & Hwt & _); [done|apply lookup_insert_eq|..].
  { change (rb s') with (rb s). by erewrite fmap_ext_in by exact Hk. }
  eexists _, _. split; [exact E|]. apply HQ. apply inv_on_mlacp; [|done|done].
  split; [done|]. destruct Hf. by split.
Qed.

Lemma wp_tell_switch data ty op (Q : unit -> CS -> Prop) s :
  Inv s0 s -> (forall s', Inv s0 s' -> Q tt s') ->
  wp (iccp_send_fdb_entry_to_syncd data ty op;; mret tt) Q s.
Proof.
  intros Hi HQ. unfold iccp_send_fdb_entry_to_syncd. apply wp_bind.
  case_match; [by apply wp_ret, wp_ret, HQ|].
  apply wp_bind. eapply wp_mono; [apply syncd_send_fdb_spec|]. intros _ s' (A & Ht).
  apply wp_ret, wp_ret, HQ. by eapply inv_talked.
Qed.

Lemma wp_mac_tell_new ol data (Q : unit -> CS -> Prop) s :
  Inv s0 s -> (forall l, ol = Some l -> l ∈ dom (cs_lifs s0)) ->
  ol <> None \/ streq (mac_ifname data) (csm_peer_itf_name (cs_csm s)) = true ->
  (forall s', Inv s0 s' -> Q tt s') -> wp (mac_tell_new ol data) Q s.
Proof.
  intros Hi Hl Hol HQ. apply wp_bind, wp_gets. case_match eqn:E.
  - apply wp_bind, wp_peer_link_up; [done|]. intros b.
    apply wp_when; intros _; [by apply wp_tell_switch|by apply HQ].
  - destruct ol as [l|]; [|naive_solver]. apply wp_bind. eapply wp_lift; [done|].
    apply wp_bind, wp_get_lif; [done|by apply Hl|]. intros i.
    apply wp_when; intros _; [by apply wp_tell_switch|by apply HQ].
Qed.

Lemma wp_mac_add_new ol d (Q : unit -> CS -> Prop) s :
  Inv s0 s -> data_ok d -> (forall l, ol = Some l -> l ∈ dom (cs_lifs s0)) ->
  mac_key (mac_find (md_vid d) (md_addr d)) ∉ (key_at (heap s) <$> rb s) ->
  (forall s', Inv s0 s' -> Q tt s') -> wp (mac_add_new ol d) Q s.
Proof.
  intros Hi (Ha & Hnl & Hnn) Hl Hn HQ. unfold mac_add_new. apply wp_bind, wp_gets, wp_bind.
  eapply wp_lift; [by apply sprintf_name|]. destruct (pad_name_ok _ Hnl Hnn) as [Hpl Hpn].
  destruct (peer_bytes_ok s Hi) as [Hbl Hbn].
  apply wp_bind, wp_unreachable_here; [done..|]. intros away Haway.
  case_match eqn:Hskip; [by apply wp_ret, HQ|]. cbn zeta. set (data := new_mac_data _ _ _ _).
  assert (entry_ok data /\ mac_key data = mac_key (mac_find (md_vid d) (md_addr d))) as [Hok Hk].
  { unfold data, new_mac_data. case_match; done. }
  rewrite <- Hk in Hn.
  destruct (wp_new_entry data (fun _ s' => Inv s0 s') s Hi Hok Hn (fun _ H => H))
    as ([] & s' & Hw & Hi').
  apply bind_inv in Hw as (new & s1 & H1 & H2). apply wp_bind. exists new, s1. split; [done|].
  apply wp_bind. exists tt, s'. split; [done|]. apply wp_mac_tell_new; [done..| |done].
  destruct ol; [by left|right]. rewrite Haway in Hskip by done.
  cbn in Hskip. rewrite andb_true_r in Hskip. unfold data, new_mac_data.
  rewrite Haway, Hskip by done. cbn.
  assert (Hname : csm_peer_itf_name (cs_csm s') = csm_peer_itf_name (cs_csm s)).
  { destruct Hi as [_ Hf], Hi' as [_ Hf']. by rewrite (fr_name _ _ Hf), (fr_name _ _ Hf'). }
  rewrite Hname. apply streq_peer_bytes. destruct Hi as [_ Hf]. rewrite (fr_name _ _ Hf).
  apply Hlinks.
Qed.

(** The search of the interface list does not change the state. *)
Lemma wp_mclag_if name ls (Q : option ptr -> CS -> Prop) s :
  Inv s0 s -> (forall l, l ∈ ls -> l ∈ dom (cs_lifs s0)) ->
  (forall ol, (forall l, ol = Some l -> l ∈ dom (cs_lifs s0)) -> Q ol s) ->
  wp (mclag_if name ls) Q s.
Proof.
  intros Hi. induction ls as [|l ls IH]; intros Hls HQ; cbn [mclag_if].
  - by apply wp_ret, HQ.
  - apply wp_bind, wp_get_lif; [done|apply Hls; set_solver|]. intros i. case_match.
    + apply wp_ret, HQ. intros ? [= <-]. apply Hls. set_solver.
    + apply IH; [set_solver|done].
Qed.

Lemma wp_update_mac_entry d (Q : unit -> CS -> Prop) s :
  strlen (csm_peer_itf_name (cs_csm s0)) <> 0 ->
  Inv s0 s -> data_ok d -> (forall s', Inv s0 s' -> Q tt s') ->
  wp (mlacp_fsm_update_mac_entry_from_peer d) Q s.
Proof.
  intros Hname Hi Hd HQ. unfold mlacp_fsm_update_mac_entry_from_peer.
  case_match; [by apply wp_ret, HQ|]. apply wp_bind, wp_gets, wp_bind, wp_mclag_if; [done|..].
  { destruct Hi as [_ Hf]. rewrite (fr_list _ _ Hf). apply Hlinks. }
  intros ol Hol. apply wp_bind.
  destruct (mac_rb_find_spec (mac_find (md_vid d) (md_addr d)) s) as (o & E & Ho);
    [apply Hd|apply Hi|].
  exists o, s. split; [exact E|]. destruct o as [p|].
  - assert (InvP s0 p s) by (split; [done|]; destruct Hi as [Hwf _]; apply (wf_live _ Hwf); naive_solver).
    case_match; [apply wp_mac_add_existing; auto|].
    apply wp_when; intros _; [by apply wp_mac_del_existing|by apply HQ].
  - apply wp_when; intros _; [by apply wp_mac_add_new|by apply HQ].
Qed.
End FromPeer.
