(* ===== verification/Decode.v ===== *)
(** Reading the list messages back: entry [i] of a received MAC, ARP or ND
    message is the entry [i] that the sender encoded. *)

From Stdlib Require Import ZArith Lia.
From stdpp Require Import base list gmap numbers option.
From coqutil Require Import Byte Word.LittleEndianList.
From S2P Require Import Prelude CBuf State MsgFormat Wire CsmMsg Csm MsgLogRing SyncPrepare.
From S2P Require Import MacTable MacInv.

Lemma rd_shift p x e k n : length p = e -> rd (e + k) n (p ++ x) = rd k n x.
Proof. intros <-. rewrite rd_app_r by lia. f_equal. lia. Qed.

Lemma rd_shift0 p x e n : length p = e -> rd e n (p ++ x) = rd 0 n x.
Proof. intros H. rewrite <- (rd_shift p x e 0 n H). f_equal. lia. Qed.

(** Entry [i] of a concatenation of entries of one size. *)
Lemma concat_entry {E} (wire : E -> buf) size es i e :
  Forall (fun e => length (wire e) = size) es -> es !! i = Some e ->
  exists p r, (es ≫= wire) = p ++ wire e ++ r /\ length p = (size * i)%nat.
Proof.
  revert i. induction es as [|x es IH]; intros [|i] Hl Hi; try done; cbn [lookup list_lookup] in Hi;
    apply Forall_cons_1 in Hl as [Hx Hl]; rewrite bind_cons.
  - injection Hi as ->. exists [], (es ≫= wire). split; [done|]. simpl. lia.
  - destruct (IH i Hl Hi) as (p & r & -> & Hp). exists (wire x ++ p), r.
    split; [by rewrite <- app_assoc|]. rewrite length_app. nia.
Qed.

(** A loop over indices that reads entry [i] is a loop over the entries. *)
Lemma foreach_read {S E D} (read : nat -> option D) (dec : E -> D) (body : D -> M S unit) es s :
  (forall i e, es !! i = Some e -> read i = Some (dec e)) ->
  foreach (fun i => d ← lift (read i); body d) (seq 0 (length es)) s
  = foreach (fun e => body (dec e)) es s.
Proof.
  intros Hread.
  assert (Hdrop : forall k i s, (k + i = length es)%nat ->
    foreach (fun i => d ← lift (read i); body d) (seq i k) s
    = foreach (fun e => body (dec e)) (drop i es) s).
  { induction k as [|k IH]; intros i s' Hk; cbn [seq foreach].
    - by rewrite drop_ge by lia.
    - destruct (lookup_lt_is_Some_2 es i) as [e Ee]; [lia|].
      rewrite (drop_S _ _ _ Ee). cbn [foreach]. unfold mbind, M_bind at 1 3.
      rewrite (lift_Some _ _ _ (Hread i e Ee)). unfold M_bind.
      destruct (body _ _) as [[[] s'']|]; [|done]. apply IH. lia. }
  apply Hdrop. lia.
Qed.

Section ListTlv.
Context {E : Type} (wire : E -> buf) (size : nat) (mk : list E -> Tlv).
Hypothesis mk_payload : forall es,
  wire_payload (mk es) = be 2 (Z.of_nat (length es)) ++ (es ≫= wire).

Lemma rx_list_count id rg ty es :
  Z.of_nat (length es) < 2 ^ 16 ->
  exists n, mLACPListTLV.get_num_of_entry (rx_app id rg (mk es) ty) = Some n
    /\ Z.to_nat (ntohs n) = length es.
Proof.
  intros H. exists (le_combine (be 2 (Z.of_nat (length es)))). split.
  - unfold mLACPListTLV.get_num_of_entry, rx_app, rx_hdr, rd16, TLV, ICCHdr.sizeof.
    cbn [Nat.add]. rewrite mk_payload, <- !app_assoc. bop. done.
  - rewrite ntohs_be, u16_small by lia. lia.
Qed.

Lemma rx_list_entry id rg ty es i e :
  Forall (fun e => length (wire e) = size) es -> es !! i = Some e ->
  exists p r, rx_app id rg (mk es) ty = p ++ wire e ++ r
    /\ length p = mLACPListTLV.entry_off size i.
Proof.
  intros Hl Hi. destruct (concat_entry wire size es i e Hl Hi) as (p & r & Ec & Hp).
  exists (rx_hdr ty (wire_size (mk es)) id rg ++ le_split 2 (wire_type (mk es))
    ++ be 2 (Z.of_nat (length (wire_payload (mk es)))) ++ be 2 (Z.of_nat (length es)) ++ p), r.
  split.
  - unfold rx_app at 1. rewrite mk_payload at 2. rewrite Ec. by rewrite <- !app_assoc.
  - rewrite !length_app, Hp. unfold mLACPListTLV.entry_off, TLV, ICCHdr.sizeof,
      mLACPListTLV.sizeof, rx_hdr. len.
Qed.
End ListTlv.

(** ** MAC entries *)

Definition mac_entry_ok (e : MacEntry) : Prop :=
  length (me_mac e) = ETHER_ADDR_LEN /\ (length (me_ifname e) < MAX_L_PORT_NAME)%nat.

(** What the receiver reads of an entry. *)
Definition mac_data_of (e : MacEntry) : MacData :=
  mkMacData (u8 (me_op e)) (u8 (me_type e)) (me_mac e) (u16 (me_vid e)) (pad 20 (me_ifname e)).

Lemma wire_mac_size e : mac_entry_ok e -> length (wire_mac e) = 30%nat.
Proof.
  unfold mac_entry_ok, ETHER_ADDR_LEN, MAX_L_PORT_NAME. intros [Hm Hn].
  unfold wire_mac. autorewrite with len. rewrite pad_length, Hm by lia. done.
Qed.

Lemma read_mac_data_wire m p r e :
  mac_entry_ok m -> length p = e ->
  read_mac_data e (p ++ wire_mac m ++ r) = Some (mac_data_of m).
Proof.
  unfold mac_entry_ok, ETHER_ADDR_LEN, MAX_L_PORT_NAME. intros [Hm Hn] Hp.
  unfold read_mac_data, wire_mac, mLACPMACData.get_type, mLACPMACData.get_mac_type,
    mLACPMACData.get_mac_addr, mLACPMACData.get_vid, mLACPMACData.get_ifname, rd8, rd16.
  assert (Hl : length (pad 20 (me_ifname m)) = 20%nat) by (apply pad_length; lia).
  rewrite (rd_shift0 _ _ _ _ Hp), !(rd_shift _ _ _ _ _ Hp), <- !app_assoc.
  do 5 bstep. unfold mac_data_of. rewrite ntohs_be. unfold b8.
  rewrite !le_combine_split. done.
Qed.

Lemma mac_data_of_ok m : mac_entry_ok m -> data_ok (mac_data_of m).
Proof.
  unfold mac_entry_ok, MAX_L_PORT_NAME. intros [Hm Hn]. split; [done|]. cbn. split.
  - apply pad_length. unfold MAX_L_PORT_NAME. lia.
  - unfold pad. rewrite has_nul_app. destruct (20 - length (me_ifname m))%nat eqn:E; [lia|].
    apply orb_true_r.
Qed.

(** The handler processes the entries of the message in order. *)
Lemma update_mac_info_run id rg es n s :
  Forall mac_entry_ok es -> Z.of_nat (length es) < 2 ^ 16 ->
  mlacp_fsm_update_mac_info_from_peer (mkMsg (rx_app id rg (T_MacInfo es) MSG_T_RG_APP_DATA) n) s
  = foreach (fun e => mlacp_fsm_update_mac_entry_from_peer (mac_data_of e)) es s.
Proof.
  intros Hok Hn. unfold mlacp_fsm_update_mac_info_from_peer. cbn [msg_buf].
  destruct (rx_list_count wire_mac T_MacInfo (fun _ => eq_refl) id rg MSG_T_RG_APP_DATA es Hn)
    as (c & Ec & Hc). rewrite (bind_Some _ _ _ _ _ (lift_Some _ _ _ Ec)), Hc.
  assert (Hsz : Forall (fun e => length (wire_mac e) = 30%nat) es).
  { eapply Forall_impl; [apply wire_mac_size|exact Hok]. }
  apply foreach_read. intros i e Hi.
  destruct (rx_list_entry wire_mac 30 T_MacInfo (fun _ => eq_refl) id rg
    MSG_T_RG_APP_DATA es i e Hsz Hi) as (p & r & -> & Hp).
  apply read_mac_data_wire; [|done]. by eapply Forall_lookup_1.
Qed.
