(* ===== verification/MacSync.v ===== *)
(** What the MAC table promises: it is a finite map from (VLAN, address) to
    entries, on which messages from the peer, the resynchronisation and the
    teardown act as stated here. *)

From Stdlib Require Import ZArith Lia Sorted.
From stdpp Require Import base list gmap numbers option fin_sets infinite.
From coqutil Require Import Byte Word.LittleEndianList.
From S2P Require Import Prelude CBuf State MsgFormat Wire CsmMsg Csm MsgLogRing Port SyncPrepare Syncd.
From S2P Require Import MacTable MacInv Decode.

(** ** The table as a finite map *)

Definition mac_at (m : mLACP) (p : ptr) : MACMsg := default zero_mac (ml_mac_heap m !! p).

Definition mac_table (m : mLACP) : gmap Z MACMsg :=
  list_to_map ((fun p => (mac_key (mac_at m p), mac_at m p)) <$> ml_mac_rb m).

Section Table.
Context (m : mLACP) (Hwf : mac_wf m).

Lemma table_keys :
  (fun p => (mac_key (mac_at m p), mac_at m p)) <$> ml_mac_rb m
  = (fun p => (key_at (ml_mac_heap m) p, mac_at m p)) <$> ml_mac_rb m.
Proof.
  apply fmap_ext_in. intros p Hp. destruct (wf_lookup m Hwf p) as (e & E); [by left|].
  unfold key_at, mac_at. by rewrite E.
Qed.

Lemma rb_nodup_keys : NoDup (key_at (ml_mac_heap m) <$> ml_mac_rb m).
Proof.
  pose proof (wf_sorted m Hwf) as Hs. induction Hs as [|x l Hs IH Hx]; [constructor|].
  constructor; [|done]. rewrite Forall_lt_elem in Hx. intros Hin. specialize (Hx x Hin). lia.
Qed.

Lemma table_lookup k e :
  mac_table m !! k = Some e <->
  exists p, p ∈ ml_mac_rb m /\ ml_mac_heap m !! p = Some e /\ mac_key e = k.
Proof.
  unfold mac_table. rewrite table_keys, <- elem_of_list_to_map.
  - rewrite list_elem_of_fmap. split.
    + intros (p & [= -> ->] & Hp). exists p. split; [done|].
      destruct (wf_lookup m Hwf p) as (e & E); [by left|]. unfold key_at, mac_at. by rewrite E.
    + intros (p & Hp & E & <-). exists p. split; [|done]. unfold key_at, mac_at. by rewrite E.
  - rewrite <- list_fmap_compose. apply rb_nodup_keys.
Qed.

(** Two entries of the tree with one key are one entry. *)
Lemma rb_key_inj p q :
  p ∈ ml_mac_rb m -> q ∈ ml_mac_rb m ->
  key_at (ml_mac_heap m) p = key_at (ml_mac_heap m) q -> p = q.
Proof.
  pose proof rb_nodup_keys as Hn. induction (ml_mac_rb m) as [|x l IH]; [set_solver|].
  rewrite fmap_cons in Hn. inversion Hn as [|? ? Hx Hl]; subst.
  intros [->|Hp]%elem_of_cons [->|Hq]%elem_of_cons E; [done|..|auto].
  - destruct Hx. rewrite E. by apply (list_elem_of_fmap_2 (key_at (ml_mac_heap m))).
  - destruct Hx. rewrite <- E. by apply (list_elem_of_fmap_2 (key_at (ml_mac_heap m))).
Qed.
End Table.

Lemma table_ext m m' :
  mac_wf m -> mac_wf m' ->
  (forall k e, (exists p, p ∈ ml_mac_rb m /\ ml_mac_heap m !! p = Some e /\ mac_key e = k)
     <-> (exists p, p ∈ ml_mac_rb m' /\ ml_mac_heap m' !! p = Some e /\ mac_key e = k)) ->
  mac_table m = mac_table m'.
Proof.
  intros H H' He. apply map_eq. intros k. apply option_eq. intros e.
  by rewrite !table_lookup.
Qed.

(** A new entry, a changed entry, a removed entry. *)
Lemma table_insert m p e t :
  mac_wf m -> mac_wf (m <| ml_mac_heap ::= <[p := e]> |> <| ml_mac_rb := t |>) ->
  p ∉ dom (ml_mac_heap m) -> (forall q, q ∈ t <-> q = p \/ q ∈ ml_mac_rb m) ->
  mac_table (m <| ml_mac_heap ::= <[p := e]> |> <| ml_mac_rb := t |>)
  = <[mac_key e := e]> (mac_table m).
Proof.
  intros Hwf Hwf' Hp Ht. apply map_eq. intros k. apply option_eq. intros x.
  rewrite table_lookup by done. cbn.
  assert (Hold : forall q, q ∈ ml_mac_rb m -> q <> p).
  { intros q Hq ->. apply Hp, (wf_live m Hwf). by left. }
  destruct (decide (mac_key e = k)) as [<-|Hk].
  - rewrite lookup_insert_eq. split; [|intros [= <-]; exists p; rewrite lookup_insert_eq; naive_solver].
    intros (q & Hq%Ht & Eq & Ek). destruct Hq as [->|Hq]; [by rewrite lookup_insert_eq in Eq|].
    exfalso. rewrite lookup_insert_ne in Eq by (symmetry; auto).
    apply (Hold q Hq). apply (rb_key_inj _ Hwf'); cbn; [apply Ht; auto..|].
    unfold key_at. rewrite lookup_insert_eq, lookup_insert_ne, Eq by (symmetry; auto). done.
  - rewrite lookup_insert_ne, table_lookup by done. split.
    + intros (q & Hq%Ht & Eq & Ek). destruct Hq as [->|Hq].
      * rewrite lookup_insert_eq in Eq. congruence.
      * rewrite lookup_insert_ne in Eq by (symmetry; auto). eauto.
    + intros (q & Hq & Eq & Ek). exists q. rewrite lookup_insert_ne by (symmetry; auto).
      split; [apply Ht; auto|done].
Qed.

Lemma table_update m p e e' :
  mac_wf m -> p ∈ ml_mac_rb m -> ml_mac_heap m !! p = Some e -> entry_ok e' ->
  mac_key e' = mac_key e ->
  mac_table (m <| ml_mac_heap ::= <[p := e']> |>) = <[mac_key e := e']> (mac_table m).
Proof.
  intros Hwf Hp Ep Hok Hk. apply map_eq. intros k. apply option_eq. intros x.
  rewrite table_lookup by (by eapply wf_set_mac). cbn.
  destruct (decide (mac_key e = k)) as [<-|Hne].
  - rewrite lookup_insert_eq. split.
    + intros (q & Hq & Eq & Ek). destruct (decide (p = q)) as [<-|Hpq].
      * by rewrite lookup_insert_eq in Eq.
      * rewrite lookup_insert_ne in Eq by done. destruct Hpq. apply (rb_key_inj m Hwf); [done..|].
        unfold key_at. by rewrite Ep, Eq.
    + intros [= <-]. exists p. by rewrite lookup_insert_eq.
  - rewrite lookup_insert_ne, table_lookup by done. split.
    + intros (q & Hq & Eq & Ek). exists q. destruct (decide (p = q)) as [<-|Hpq].
      * rewrite lookup_insert_eq in Eq. congruence.
      * by rewrite lookup_insert_ne in Eq.
    + intros (q & Hq & Eq & Ek). exists q. rewrite lookup_insert_ne; [done|]. congruence.
Qed.

Lemma table_remove m p e :
  mac_wf m -> p ∈ ml_mac_rb m -> ml_mac_heap m !! p = Some e ->
  mac_table (m <| ml_mac_rb ::= filter (fun q => q <> p) |>) = delete (mac_key e) (mac_table m).
Proof.
  intros Hwf Hp Ep. apply map_eq. intros k. apply option_eq. intros x.
  rewrite lookup_delete_Some, !table_lookup; [|done|by apply wf_rb_remove].
  cbn. setoid_rewrite list_elem_of_filter. split.
  - intros (q & [Hq1 Hq2] & Eq & Ek). split; [|eauto]. intros E. apply Hq1.
    apply (rb_key_inj m Hwf); [done..|]. unfold key_at. rewrite Eq, Ep. cbn. congruence.
  - intros [Hne (q & Hq & Eq & Ek)]. exists q. split; [|done]. split; [congruence|done].
Qed.

(** Only the tree and its entries matter. *)
Lemma table_same m m' :
  ml_mac_rb m' = ml_mac_rb m -> (forall p, p ∈ ml_mac_rb m -> ml_mac_heap m' !! p = ml_mac_heap m !! p) ->
  mac_table m' = mac_table m.
Proof.
  intros Hr Hh. unfold mac_table. rewrite Hr. f_equal. apply fmap_ext_in.
  intros p Hp. unfold mac_at. by rewrite Hh.
Qed.

(** ** Following one entry *)

Abbreviation table s := (mac_table (MLACP (cs_csm s))).
Abbreviation acts s := (g_acts (cs_g s)).

(** Entry [e] of the tree at [p], in a table with contents [T], after the
    requests [A]. *)
Record view (s0 : CS) (p : ptr) (e : MACMsg) (T : gmap Z MACMsg) (A : list Action) (s : CS) : Prop :=
  mk_view {
    vw_inv : Inv s0 s;
    vw_rb : p ∈ rb s;
    vw_heap : heap s !! p = Some e;
    vw_table : table s = T;
    vw_acts : acts s = A;
    vw_queue : queue s = queue s0;
    vw_sd : g_sd (cs_g s) = [];
  }.

(** The request for entry [e], when mclagsyncd is connected. *)
Definition fdb_request (s : CS) (e : MACMsg) (ty op : Z) : list Action :=
  if sys_sync_fd (cs_sys s) >? 0
  then [Act_fdb (mac_vid e) (mac_ifname e) (mac_addr e) ty op] else [].

Lemma memcmp_eq a b : length a = length b -> memcmp a b = 0 -> a = b.
Proof.
  revert b. induction a as [|x a IH]; intros [|y b] Hl; try done. cbn [memcmp].
  rewrite Z.gtb_ltb. destruct (Z.ltb_spec (byte.unsigned x) (byte.unsigned y)); [done|].
  destruct (Z.ltb_spec (byte.unsigned y) (byte.unsigned x)); [done|]. intros E.
  f_equal; [apply byte.unsigned_inj; lia|]. apply IH; [by injection Hl|done].
Qed.

Lemma null_mac_test a :
  length a = ETHER_ADDR_LEN -> a <> null_mac -> (memcmp a null_mac =? 0) = false.
Proof. intros Hl Hn. apply Z.eqb_neq. intros E. apply Hn. by apply memcmp_eq. Qed.

Section View.
Context (s0 : CS).

Lemma view_get p e T A (Q : MACMsg -> CS -> Prop) s :
  view s0 p e T A s -> Q e s -> wp (get_mac p) Q s.
Proof. intros H HQ. exists e, s. split; [|done]. by apply get_mac_run, (vw_heap _ _ _ _ _ _ H). Qed.

Lemma view_entry p e T A s : view s0 p e T A s -> entry_ok e.
Proof. intros [[Hwf _] _ Hh _ _ _ _]. by eapply wf_entry. Qed.

Lemma view_set p e T A f (Q : unit -> CS -> Prop) s :
  view s0 p e T A s -> entry_ok (f e) -> mac_key (f e) = mac_key e ->
  (forall s', view s0 p (f e) (<[mac_key e := f e]> T) A s' -> Q tt s') -> wp (set_mac p f) Q s.
Proof.
  intros [Hi Hr Hh Ht Ha Hq Hd] Hok Hk HQ. apply wp_bind. exists e, s. split; [by apply get_mac_run|].
  apply wp_on_mlacp, HQ. split; try done.
  - apply inv_on_mlacp; [done| |done]. destruct Hi. by eapply wf_set_mac.
  - cbn. apply lookup_insert_eq.
  - destruct Hi as [Hwf _]. rewrite <- Ht. exact (table_update _ p e (f e) Hwf Hr Hh Hok Hk).
Qed.

Lemma view_talked p e T A B s s' :
  view s0 p e T A s -> talked B s s' -> g_sd (cs_g s') = [] -> view s0 p e T (A ++ B) s'.
Proof.
  intros [Hi Hr Hh Ht Ha Hq _] Hb Hd. pose proof (inv_talked _ _ _ _ Hi Hb).
  destruct Hb as (? & ? & ? & ->). split; try done. cbn. by rewrite Ha.
Qed.

Lemma view_chip p e T A ty op (Q : unit -> CS -> Prop) s :
  view s0 p e T A s -> mac_addr e <> null_mac ->
  (forall s', let e' := e <| mac_add_to_syncd := if op =? MAC_SYNC_DEL then 0 else 1 |> in
    view s0 p e' (<[mac_key e := e']> T) (A ++ fdb_request s0 e ty op) s' -> Q tt s') ->
  wp (m' ← iccp_send_fdb_entry_to_syncd e ty op; set_mac p (fun _ => m')) Q s.
Proof.
  intros Hv Hn HQ. pose proof (view_entry _ _ _ _ _ Hv) as Hok. apply wp_bind.
  unfold iccp_send_fdb_entry_to_syncd. rewrite null_mac_test by (done || apply Hok).
  apply wp_bind. eapply wp_mono; [apply syncd_send_fdb_acc, Hv|]. intros _ s1 [Hd Ht].
  apply wp_ret. destruct (vw_inv _ _ _ _ _ _ Hv) as [_ Hf]. rewrite (fr_sys _ _ Hf) in Ht.
  eapply view_set; [by eapply view_talked|done|done|exact HQ].
Qed.

(** Outside [MLACP_STATE_EXCHANGE] the peer is not told of a new age. *)
Lemma view_local_age p e T A a b (Q : Z -> CS -> Prop) s :
  view s0 p e T A s -> ml_current_state (MLACP (cs_csm s0)) <> MLACP_STATE_EXCHANGE ->
  Q (local_age a (mac_age_flag e)) s -> wp (set_mac_local_age_flag p a b) Q s.
Proof.
  intros Hv Hex HQ. apply wp_bind, wp_gets, wp_bind. eapply view_get; [done|]. cbn zeta.
  destruct (vw_inv _ _ _ _ _ _ Hv) as [_ Hf]. rewrite (fr_state _ _ Hf).
  rewrite (bool_decide_eq_false_2 _ Hex), andb_false_r. cbn [andb when].
  by apply wp_bind, wp_ret, wp_ret.
Qed.

(** The end of an entry: out of the tree, and released unless it is queued. *)
Lemma view_drop p e T A s :
  view s0 p e T A s ->
  wp (MAC_RB_REMOVE p;; mac_free_unqueued p) (fun _ s' => Inv s0 s'
    /\ table s' = delete (mac_key e) T /\ acts s' = A /\ queue s' = queue s0
    /\ g_sd (cs_g s') = [] /\ (p ∈ dom (heap s') <-> p ∈ queue s0)) s.
Proof.
  intros [Hi Hr Hh Ht Ha Hq Hd]. apply wp_bind, wp_on_mlacp.
  set (s1 := s <| cs_csm ::= set_MLACP (fun m => m <| ml_mac_rb ::= filter (fun q => q <> p) |>) |>).
  assert (Hi1 : Inv s0 s1).
  { apply inv_on_mlacp; [done| |done]. destruct Hi. by apply wf_rb_remove. }
  assert (Hp1 : p ∉ rb s1) by (cbn; rewrite list_elem_of_filter; naive_solver).
  assert (Ht1 : table s1 = delete (mac_key e) T).
  { destruct Hi as [Hwf _]. rewrite <- Ht. by apply table_remove. }
  assert (Hh1 : heap s1 !! p = Some e) by done.
  apply wp_bind, wp_bind, wp_gets, wp_bind. exists e, s1. split; [by apply get_mac_run|].
  apply wp_ret. change (queue s1) with (queue s). rewrite Hq. case_bool_decide as E.
  - apply wp_ret. split_and!; [done..|]. split; [done|]. intros _. by eapply elem_of_dom_2.
  - apply wp_bind, wp_bind. exists e, s1. split; [by apply get_mac_run|].
    apply wp_on_mlacp, wp_ret. split_and!; [|..|done|done|done|].
    + apply inv_on_mlacp; [done| |done]. destruct Hi1. apply wf_free; [done..|].
      change (queue s1) with (queue s). by rewrite Hq.
    + rewrite <- Ht1. apply table_same; [done|]. intros q Hq1. cbn.
      rewrite lookup_delete_ne; [done|]. intros <-. done.
    + cbn. rewrite dom_delete. set_solver.
Qed.
End View.

(** ** Keys of messages *)

Definition data_key (d : MacData) : Z := mac_key (mac_find (md_vid d) (md_addr d)).

Lemma mac_key_inj m1 m2 :
  length (mac_addr m1) = ETHER_ADDR_LEN -> length (mac_addr m2) = ETHER_ADDR_LEN ->
  mac_key m1 = mac_key m2 -> mac_vid m1 = mac_vid m2 /\ mac_addr m1 = mac_addr m2.
Proof.
  intros H1 H2. unfold mac_key. pose proof (num6_range _ H1). pose proof (num6_range _ H2).
  intros E. assert (mac_vid m1 = mac_vid m2 /\ num (mac_addr m1) = num (mac_addr m2)) as [Hv Hn] by lia.
  split; [done|]. apply memcmp_eq; [congruence|]. rewrite memcmp_num by congruence.
  by rewrite Hn, Z.sub_diag.
Qed.

Lemma find_present s d e :
  WF s -> data_ok d -> table s !! data_key d = Some e ->
  exists p, mac_rb_find (mac_find (md_vid d) (md_addr d)) s = Some (Some p, s)
    /\ p ∈ rb s /\ heap s !! p = Some e /\ mac_key e = data_key d
    /\ mac_vid e = md_vid d /\ mac_addr e = md_addr d.
Proof.
  intros Hwf (Ha & _ & _) (p & Hp & Ep & Ek)%table_lookup; [|done].
  destruct (mac_rb_find_spec (mac_find (md_vid d) (md_addr d)) s) as (o & E & Ho); [done..|].
  assert (Hkp : key_at (heap s) p = data_key d) by (unfold key_at; by rewrite Ep).
  destruct o as [q|].
  - destruct Ho as [Hq Hkq]. assert (q = p) as ->.
    { apply (rb_key_inj _ Hwf); [done..|]. rewrite Hkp. exact Hkq. }
    exists p. split_and!; [done..| |].
    all: destruct (mac_key_inj e (mac_find (md_vid d) (md_addr d))); [|done..].
    all: by destruct (wf_entry _ Hwf _ _ Ep) as [[? _] _].
  - destruct Ho. change (mac_key _) with (data_key d). rewrite <- Hkp.
    by apply (list_elem_of_fmap_2 (key_at (heap s))).
Qed.

Lemma find_absent s d :
  WF s -> data_ok d -> table s !! data_key d = None ->
  mac_rb_find (mac_find (md_vid d) (md_addr d)) s = Some (None, s)
  /\ data_key d ∉ (key_at (heap s) <$> rb s).
Proof.
  intros Hwf (Ha & _ & _) Hn.
  destruct (mac_rb_find_spec (mac_find (md_vid d) (md_addr d)) s) as (o & E & Ho); [done..|].
  destruct o as [q|]; [|done]. exfalso. destruct Ho as [Hq Hk].
  destruct (wf_lookup _ Hwf q) as (e & Ee); [by left|].
  assert (table s !! data_key d = Some e); [|congruence]. apply table_lookup; [done|].
  exists q. split_and!; [done..|]. unfold key_at in Hk. by rewrite Ee in Hk.
Qed.

(** The interface of the CSM that a message names. *)
Definition find_mclag (s : CS) (name : buf) : option ptr :=
  find_first (fun l => match cs_lifs s !! l with
    | Some lif => (lif_type lif =? IF_T_PORT_CHANNEL) && streq (lif_name lif) name
    | None => false end) (ml_lif_list (MLACP (cs_csm s))).

Lemma mclag_if_run s name :
  links_ok s ->
  mclag_if name (ml_lif_list (MLACP (cs_csm s))) s = Some (find_mclag s name, s).
Proof.
  intros [Hl _ _ _]. unfold find_mclag. induction (ml_lif_list _) as [|l ls IH]; [done|].
  cbn [mclag_if find_first]. destruct (proj1 (elem_of_dom (cs_lifs s) l)) as [lif E]; [apply Hl; set_solver|].
  rewrite (bind_Some (get_lif l) _ s lif s) by (unfold get_lif; by rewrite E).
  rewrite E. case_match; [done|]. apply IH. set_solver.
Qed.

(** A message about an address, up to the search of the table. *)
Lemma update_entry_run s d o :
  links_ok s -> data_ok d -> md_addr d <> null_mac ->
  mac_rb_find (mac_find (md_vid d) (md_addr d)) s = Some (o, s) ->
  mlacp_fsm_update_mac_entry_from_peer d s
  = match o with
    | Some p => if md_type d =? MAC_SYNC_ADD then mac_add_existing p (find_mclag s (md_ifname d)) d
                else when (md_type d =? MAC_SYNC_DEL) (mac_del_existing p)
    | None => when (md_type d =? MAC_SYNC_ADD) (mac_add_new (find_mclag s (md_ifname d)) d)
    end s.
Proof.
  intros Hl (Ha & _ & _) Hn Hf. unfold mlacp_fsm_update_mac_entry_from_peer.
  rewrite null_mac_test by done. rewrite bind_the_csm.
  rewrite (bind_Some _ _ _ _ _ (mclag_if_run s (md_ifname d) Hl)).
  by rewrite (bind_Some _ _ _ _ _ Hf).
Qed.

Lemma inv_refl s : WF s -> Inv s s.
Proof. by split. Qed.

(** ** Properties *)

(** A deletion from the peer marks the entry as aged there.  When the entry was
    already aged locally the switch is asked to forget the address (and, when
    mclagsyncd takes what it is sent, has the request) and the entry
    leaves the table; otherwise the entry stays, with the mark. *)
Theorem peer_delete_ages_entry s d e :
  WF s -> links_ok s -> data_ok d -> md_addr d <> null_mac -> md_type d = MAC_SYNC_DEL ->
  table s !! data_key d = Some e -> g_sd (cs_g s) = [] ->
  exists s', mlacp_fsm_update_mac_entry_from_peer d s = Some (tt, s') /\ WF s'
    /\ queue s' = queue s
    /\ let aged := e <| mac_age_flag := Z.lor (mac_age_flag e) MAC_AGE_PEER |> in
       if mac_age_flag aged =? Z.lor MAC_AGE_LOCAL MAC_AGE_PEER
       then table s' = delete (data_key d) (table s)
            /\ acts s' = acts s ++ fdb_request s e (mac_fdb_type e) MAC_SYNC_DEL
       else table s' = <[data_key d := aged]> (table s) /\ acts s' = acts s.
Proof.
  intros Hwf Hl Hd Hn Hty He Hsd. destruct (find_present s d e Hwf Hd He) as (p & Hf & Hp & Ep & Ek & Ev & Ea).
  rewrite (update_entry_run s d _ Hl Hd Hn Hf), Hty. cbn [Z.eqb MAC_SYNC_ADD MAC_SYNC_DEL Pos.eqb when].
  assert (Hv : view s p e (table s) (acts s) s) by (split; try done; by apply inv_refl).
  apply wp_unit. apply wp_bind. eapply view_set; [done|by apply (view_entry _ _ _ _ _ _ Hv)|done|].
  set (e1 := e <| mac_age_flag := _ |>). cbn beta. intros s1 Hv1. apply wp_bind.
  eapply view_get; [done|]. cbn zeta. fold e1. change (mac_age_flag (e <| mac_age_flag := _ |>))
    with (mac_age_flag e1). apply wp_when; intros ->.
  - apply wp_bind, wp_bind. eapply view_get; [done|].
    eapply view_chip; [done|by rewrite <- Ea in Hn|]. cbn zeta. intros s2 Hv2.
    unfold wp. setoid_rewrite bind_assoc. apply wp_bind. eapply wp_mono; [by eapply view_drop|].
    intros _ s3 (Hi3 & Ht3 & Ha3 & Hq3 & _). apply wp_ret. split_and!; [apply Hi3|done| |done].
    rewrite Ht3. change (mac_key _) with (mac_key e) at 1 2 3. rewrite Ek.
    by rewrite !delete_insert_eq.
  - destruct Hv1 as [Hi1 _ _ Ht1 Ha1 Hq1 _]. split_and!; [apply Hi1|done| |done].
    by rewrite Ht1, Ek.
Qed.

(** Whether the address is not behind a local interface that is up. *)
Definition away (s : CS) (ol : option ptr) : bool :=
  match ol with
  | None => true
  | Some l => match cs_lifs s !! l with
              | Some lif => lif_state lif =? PORT_STATE_DOWN | None => false end
  end.

Definition link_up (s : CS) : bool :=
  match csm_peer_link_if (cs_csm s) with
  | Some l => match cs_lifs s !! l with
              | Some lif => lif_state lif =? PORT_STATE_UP | None => false end
  | None => false
  end.

Lemma find_mclag_live s name l :
  links_ok s -> find_mclag s name = Some l -> exists lif, cs_lifs s !! l = Some lif.
Proof. intros Hl [H _]%find_first_Some. apply elem_of_dom. by apply Hl. Qed.

Lemma away_run s name :
  links_ok s -> unreachable_here (find_mclag s name) s = Some (away s (find_mclag s name), s).
Proof.
  intros Hl. destruct (find_mclag s name) as [l|] eqn:E; [|done].
  destruct (find_mclag_live s name l Hl E) as (lif & El). cbn.
  unfold get_lif, mbind, M_bind. rewrite El. done.
Qed.

Lemma link_up_run s : links_ok s -> peer_link_up s = Some (link_up s, s).
Proof.
  intros Hl. unfold peer_link_up, link_up. rewrite bind_the_csm.
  destruct (csm_peer_link_if (cs_csm s)) as [l|] eqn:E; [|done].
  destruct (proj1 (elem_of_dom (cs_lifs s) l)) as [lif El]; [by eapply lk_peer|].
  unfold get_lif, mbind, M_bind. rewrite El. done.
Qed.

(** The copy in the heap and the tree. *)
Lemma insert_new_run s data :
  WF s -> entry_ok data -> mac_key data ∉ (key_at (heap s) <$> rb s) ->
  let p := fresh (dom (heap s)) in
  exists t, let m' := MLACP (cs_csm s) <| ml_mac_heap ::= <[p := data]> |> <| ml_mac_rb := t |> in
    (new ← iccp_csm_init_mac_msg data; mac_rb_insert new;; mret new) s
    = Some (p, s <| cs_csm ::= set_MLACP (fun _ => m') |>)
    /\ mac_wf m' /\ mac_table m' = <[mac_key data := data]> (table s).
Proof.
  intros Hwf Hok Hn p. assert (Hp : p ∉ dom (heap s)) by apply is_fresh.
  set (s' := s <| cs_csm ::= set_MLACP (fun t => t <| ml_mac_heap ::= <[p := data]> |>) |>).
  assert (Hk : forall q, q ∈ rb s -> key_at (heap s') q = key_at (heap s) q).
  { intros q Hq. unfold key_at. cbn. rewrite lookup_insert_ne; [done|]. intros <-.
    by apply Hp, (wf_live _ Hwf); left. }
  assert (Hwf' : WF s') by by apply wf_new.
  destruct (mac_rb_insert_run p data s') as (t & E & Hwt & Hin); [done|apply lookup_insert_eq|..].
  { change (rb s') with (rb s). by erewrite fmap_ext_in by exact Hk. }
  exists t. cbn zeta. split_and!; [|done|by apply table_insert].
  unfold iccp_csm_init_mac_msg. fold p.
  rewrite (bind_Some _ _ s p s') by done. by rewrite (bind_Some _ _ _ _ _ E).
Qed.

(** The switch is told of a new address behind the port that leads to it: the
    local one when that is up, the peer link when there is one and it is up. *)
Definition told (s : CS) (ol : option ptr) (e : MACMsg) : list Action :=
  if (if away s ol then negb (strlen (csm_peer_itf_name (cs_csm s)) =? 0) && link_up s else true)
  then fdb_request s e (mac_fdb_type e) MAC_SYNC_ADD else [].

Lemma new_mac_data_ok s a d :
  links_ok s -> data_ok d ->
  entry_ok (new_mac_data (cs_csm s) a (pad MAX_L_PORT_NAME (cstr (md_ifname d))) d).
Proof.
  intros Hl (Ha & Hnl & Hnn). destruct (pad_name_ok _ Hnl Hnn) as [Hpl Hpn].
  assert (length (peer_itf_bytes (cs_csm s)) = MAX_L_PORT_NAME
    /\ has_nul (peer_itf_bytes (cs_csm s)) = true).
  { unfold peer_itf_bytes. rewrite length_app, length_le_split, has_nul_app, (lk_nul _ Hl),
      (lk_len _ Hl). done. }
  unfold new_mac_data. case_match; done.
Qed.

Lemma wp_tell_switch_acc s e ty op :
  length (mac_addr e) = ETHER_ADDR_LEN -> mac_addr e <> null_mac -> g_sd (cs_g s) = [] ->
  wp (iccp_send_fdb_entry_to_syncd e ty op;; mret tt)
    (fun _ s' => talked (fdb_request s e ty op) s s') s.
Proof.
  intros Hl Hn Hd. unfold iccp_send_fdb_entry_to_syncd. rewrite null_mac_test by done.
  apply wp_bind, wp_bind. eapply wp_mono; [by apply syncd_send_fdb_acc|].
  intros _ s' [_ Ht]. by apply wp_ret, wp_ret.
Qed.

(** [via] says that the entry points to the peer link. *)
Lemma mac_tell_new_run s name e (via : bool) :
  links_ok s -> length (mac_addr e) = ETHER_ADDR_LEN -> mac_addr e <> null_mac ->
  g_sd (cs_g s) = [] ->
  let ol := find_mclag s name in
  via = away s ol && negb (strlen (csm_peer_itf_name (cs_csm s)) =? 0) ->
  streq (mac_ifname e) (csm_peer_itf_name (cs_csm s)) = via -> via = true \/ ol <> None ->
  wp (mac_tell_new ol e) (fun _ s' => talked (told s ol e) s s') s.
Proof.
  intros Hl Ha Hn Hd ol Hvia Hname Hol. apply wp_bind, wp_gets. rewrite Hname.
  unfold told. destruct via.
  - apply wp_bind. eexists _, s. split; [by apply link_up_run|]. symmetry in Hvia.
    apply andb_true_iff in Hvia as [-> ->]. cbn [andb].
    apply wp_when; intros ->; [by apply wp_tell_switch_acc|by apply talked_refl].
  - destruct Hol as [?|Hol]; [done|]. destruct ol as [l|] eqn:E; [|done].
    destruct (find_mclag_live s name l Hl E) as (lif & El).
    apply wp_bind. eapply wp_lift; [done|]. apply wp_bind. exists lif, s.
    split; [unfold get_lif; by rewrite El|].
    cbn [away] in *. rewrite El in *. destruct (lif_state lif =? PORT_STATE_DOWN); cbn [when negb].
    + cbn [andb] in Hvia. rewrite <- Hvia. cbn [andb]. by apply wp_ret, talked_refl.
    + by apply wp_tell_switch_acc.
Qed.

Lemma cstr_pad n : has_nul n = true -> cstr (pad (length n) (cstr n)) = cstr n.
Proof.
  intros Hn. unfold pad. apply cstr_nul_length in Hn.
  destruct (length n - length (cstr n))%nat as [|k] eqn:E; [lia|]. clear.
  induction n as [|c n IH]; [done|]. cbn [cstr]. destruct (is_nul c) eqn:Ec; [done|].
  cbn [app cstr]. rewrite Ec. by f_equal.
Qed.

(** A new entry points to the peer link exactly when it is redirected. *)
Lemma new_mac_data_via c a d :
  data_ok d -> has_nul (csm_peer_itf_name c) = true ->
  streq (md_ifname d) (csm_peer_itf_name c) = false ->
  streq (mac_ifname (new_mac_data c a (pad MAX_L_PORT_NAME (cstr (md_ifname d))) d))
    (csm_peer_itf_name c) = a && negb (strlen (csm_peer_itf_name c) =? 0).
Proof.
  intros (_ & Hnl & Hnn) Hp Hname. unfold new_mac_data. case_match eqn:E; cbn.
  - by apply streq_peer_bytes.
  - rewrite <- Hname. unfold streq. by rewrite <- Hnl, cstr_pad.
Qed.

(** C37. An address the peer learnt and this side does not know enters the table,
    marked as aged locally, under its local port, or redirected to the peer link
    when that port is down or not shared; the switch is told of it.  An orphan
    address is dropped when there is no peer link.  (The entry in the table does
    not record that the switch was told: [add_to_syncd] stays 0.) *)
Theorem unknown_mac_learnt s d :
  WF s -> links_ok s -> data_ok d -> md_addr d <> null_mac -> md_type d = MAC_SYNC_ADD ->
  streq (md_ifname d) (csm_peer_itf_name (cs_csm s)) = false ->
  table s !! data_key d = None -> g_sd (cs_g s) = [] ->
  let ol := find_mclag s (md_ifname d) in
  let e := new_mac_data (cs_csm s) (away s ol) (pad MAX_L_PORT_NAME (cstr (md_ifname d))) d in
  exists s', mlacp_fsm_update_mac_entry_from_peer d s = Some (tt, s') /\ WF s'
    /\ if bool_decide (ol = None) && (strlen (csm_peer_itf_name (cs_csm s)) =? 0) then s' = s
       else table s' = <[data_key d := e]> (table s) /\ acts s' = acts s ++ told s ol e
            /\ queue s' = queue s /\ mac_age_flag e = MAC_AGE_LOCAL /\ mac_add_to_syncd e = 0.
Proof.
  intros Hwf Hl Hd Hn Hty Hname Ht Hsd ol e. destruct (find_absent s d Hwf Hd Ht) as [Hf Hk].
  rewrite (update_entry_run s d _ Hl Hd Hn Hf), Hty. cbn [Z.eqb MAC_SYNC_ADD Pos.eqb when].
  fold ol. unfold mac_add_new. rewrite bind_the_csm. pose proof Hd as (Ha & Hnl & Hnn).
  rewrite (bind_Some _ _ _ _ _ (lift_Some _ _ _ (sprintf_name _ Hnl Hnn))).
  rewrite (bind_Some _ _ _ _ _ (away_run s (md_ifname d) Hl)). fold ol. cbn zeta. fold e.
  set (nl := strlen _ =? 0).
  replace (away s ol && nl && bool_decide (ol = None)) with (bool_decide (ol = None) && nl)
    by (destruct ol, nl; cbn; rewrite ?andb_false_r; done).
  destruct (bool_decide (ol = None) && nl) eqn:Hskip; [by exists s|].
  assert (Hke : mac_key e = data_key d) by (unfold e, new_mac_data; by case_match).
  assert (Hea : mac_addr e = md_addr d) by (unfold e, new_mac_data; by case_match).
  assert (Hok : entry_ok e) by by apply new_mac_data_ok.
  destruct (insert_new_run s e) as (t & Hrun & Hwf' & Htab); [done|done|by rewrite Hke|].
  apply bind_inv in Hrun as (new & s1 & E1 & Hrun). rewrite (bind_Some _ _ _ _ _ E1).
  apply bind_inv in Hrun as ([] & s2' & E2 & Hrun). injection Hrun as -> ->.
  rewrite (bind_Some _ _ _ _ _ E2). set (s2 := s <| cs_csm ::= _ |>).
  destruct (mac_tell_new_run s2 (md_ifname d) e (away s ol && negb nl))
    as ([] & s3 & E3 & Ht3); [..|done|done| | |].
  - by destruct Hl.
  - rewrite Hea. apply Ha.
  - by rewrite Hea.
  - exact (new_mac_data_via (cs_csm s) (away s ol) d Hd (lk_nul _ Hl) Hname).
  - change (away s ol && negb nl = true \/ ol <> None). clearbody nl. clear -Hskip.
    destruct ol; [by right|left]. cbn in *. by rewrite Hskip.
  - exists s3. split; [exact E3|]. destruct Ht3 as (? & ? & ? & ->). split; [done|].
    split_and!; [by rewrite <- Hke|done|done|..]; unfold e, new_mac_data; by case_match.
Qed.



(** ** Teardown *)

(** Entries that the queue releases. *)
Definition released (s : CS) (q : list ptr) (p : ptr) : Prop :=
  p ∈ q /\ exists e, heap s !! p = Some e /\ mac_op_type e = MAC_SYNC_DEL.

#[local] Instance released_dec s q p : Decision (released s q p).
Proof.
  unfold released. destruct (decide (p ∈ q)) as [Hq|Hq]; [|right; naive_solver].
  destruct (heap s !! p) as [e|]; [|right; naive_solver].
  destruct (decide (mac_op_type e = MAC_SYNC_DEL)); [left|right]; naive_solver.
Defined.

Lemma reinit_queue_run q s :
  queue s = q -> NoDup q -> (forall p, p ∈ q -> p ∈ dom (heap s)) ->
  exists h, reinit_queue q s = Some (tt, s <| cs_csm ::= set_MLACP (fun m =>
      m <| ml_mac_msg_list := [] |> <| ml_mac_heap := h |>) |>)
    /\ forall p, h !! p = if decide (released s q p) then None else heap s !! p.
Proof.
  revert s. induction q as [|x q IH]; intros s Eq Hn Hl.
  { exists (heap s). split.
    - cbn. destruct s as [c ? ? ? ?], c as [? ? ? ? ? ? ? ? ? ? ? ? ? ? ? ? ? ? a ? ? ? ? ? ? ?], a as [m ? ? ? ? ? ? ?], m.
      cbn in Eq. by rewrite Eq.
    - intros p. rewrite decide_False; [done|]. unfold released. set_solver. }
  inversion Hn as [|? ? Hx Hq]; subst. cbn [reinit_queue].
  destruct (proj1 (elem_of_dom (heap s) x)) as [e Ee]; [apply Hl; set_solver|].
  set (s1 := s <| cs_csm ::= set_MLACP (fun m => m <| ml_mac_msg_list := q |>) |>).
  rewrite (bind_Some (on_mlacp _) _ s tt s1) by done.
  rewrite (bind_Some _ _ _ _ _ (get_mac_run x e s1 Ee)).
  destruct (Z.eqb_spec (mac_op_type e) MAC_SYNC_DEL) as [Ed|Ed]; cbn [when].
  - set (s2 := s1 <| cs_csm ::= set_MLACP (fun t => t <| ml_mac_heap ::= delete x |>) |>).
    rewrite (bind_Some (free_mac x) _ s1 tt s2)
      by (unfold free_mac; by rewrite (bind_Some _ _ _ _ _ (get_mac_run x e s1 Ee))).
    destruct (IH s2) as (h & E & Hh); [done|done|intros p Hp; cbn; rewrite dom_delete; set_solver|].
    exists h. rewrite E. split; [done|]. intros p. rewrite Hh. cbn.
    destruct (decide (p = x)) as [->|Hpx].
    + rewrite lookup_delete_eq, (decide_True (P := released s (x :: q) x));
        [by destruct (decide _)|]. split; [set_solver|eauto].
    + rewrite lookup_delete_ne by done.
      apply decide_ext. unfold released. cbn. rewrite lookup_delete_ne by done. set_solver.
  - rewrite (bind_Some (mret tt) _ s1 tt s1) by done.
    destruct (IH s1) as (h & E & Hh); [done|done|intros p Hp; apply Hl; set_solver|].
    exists h. rewrite E. split; [done|]. intros p. rewrite Hh. cbn.
    apply decide_ext. unfold released. cbn. split; [set_solver|].
    intros [[->|?]%elem_of_cons (e' & E' & Hd)]; [|naive_solver]. congruence.
Qed.

Lemma foreach_get_mac ps s :
  foreach (fun p => get_mac p;; mret tt) ps s
  = if decide (Forall (fun p => p ∈ dom (heap s)) ps) then Some (tt, s) else None.
Proof.
  induction ps as [|p ps IH]; [done|]. cbn [foreach].
  destruct (heap s !! p) as [e|] eqn:E.
  - rewrite (bind_Some (get_mac p;; mret tt) _ s tt s)
      by (by rewrite (bind_Some _ _ _ _ _ (get_mac_run p e s E))).
    rewrite IH. apply decide_ext. rewrite list.Forall_cons. apply elem_of_dom_2 in E. naive_solver.
  - rewrite bind_None by (apply bind_None; unfold get_mac; by rewrite E).
    rewrite decide_False; [done|]. rewrite list.Forall_cons. intros [H _].
    apply not_elem_of_dom in E. done.
Qed.

Lemma reinit_cases s :
  WF s ->
  (mlacp_mac_msg_queue_reinit s = None <-> exists p, p ∈ rb s /\ released s (queue s) p)
  /\ forall s', mlacp_mac_msg_queue_reinit s = Some (tt, s') ->
       queue s' = [] /\ table s' = table s /\ WF s'.
Proof.
  intros Hwf. unfold mlacp_mac_msg_queue_reinit. rewrite bind_the_csm.
  destruct (reinit_queue_run (queue s) s) as (h & E & Hh);
    [done|apply Hwf|intros p Hp; apply (wf_live _ Hwf); by right|].
  rewrite (bind_Some _ _ _ _ _ E), foreach_get_mac. set (s1 := s <| cs_csm ::= _ |>).
  assert (Hdom : forall p, p ∈ rb s -> p ∈ dom (heap s1) <-> ~ released s (queue s) p).
  { intros p Hp. change (heap s1) with h. rewrite elem_of_dom, Hh.
    case_decide as Hr; [split; [by intros []|done]|]. split; [done|]. intros _.
    apply elem_of_dom, (wf_live _ Hwf). by left. }
  assert (Hall : Forall (fun p => p ∈ dom (heap s1)) (rb s)
    <-> ~ exists p, p ∈ rb s /\ released s (queue s) p).
  { rewrite list.Forall_forall. split.
    - intros H (p & Hp & Hr). by apply (Hdom p Hp); [apply H|].
    - intros H p Hp. apply Hdom; [done|]. intros Hr. apply H. eauto. }
  destruct (decide _) as [Hd|Hd]; [|split; [|done]; split; [intros _|done]].
  - apply Hall in Hd as Hno. split; [split; [done|intros Hx; by destruct Hno]|]. intros s' [= <-].
    assert (Hsame : forall p, p ∈ rb s -> h !! p = heap s !! p).
    { intros p Hp. rewrite Hh. apply decide_False. intros Hr. apply Hno. eauto. }
    split_and!; [done|by apply table_same|].
    split; cbn.
    + intros p [Hp|Hp]; [rewrite list.Forall_forall in Hd; by apply Hd|]. set_solver.
    + erewrite fmap_ext_in; [apply Hwf|]. intros p Hp. unfold key_at. by rewrite Hsame.
    + constructor.
    + intros p e. rewrite Hh. case_decide; [done|]. apply (wf_entry _ Hwf).
  - destruct (decide (Exists (fun p => released s (queue s) p) (rb s))) as [Hx|Hx].
    + rewrite Exists_exists in Hx. naive_solver.
    + destruct Hd. apply Hall. rewrite Exists_exists in Hx. naive_solver.
Qed.

(** Tearing the queue down is undefined exactly when an entry queued as a
    deletion is still in the tree: it is freed, and the traversal that follows
    reads it.  Otherwise the queue ends empty and the table is as before. *)
Theorem queue_reinit_defined s :
  WF s ->
  (mlacp_mac_msg_queue_reinit s = None <-> exists p, p ∈ rb s /\ released s (queue s) p)
  /\ forall s', mlacp_mac_msg_queue_reinit s = Some (tt, s') ->
       queue s' = [] /\ table s' = table s /\ WF s'.
Proof. exact (reinit_cases s). Qed.

Lemma set_mac_run p f e s :
  heap s !! p = Some e ->
  set_mac p f s = Some (tt, s <| cs_csm ::= set_MLACP (fun t => t <| ml_mac_heap ::= <[p := f e]> |>) |>).
Proof. intros E. unfold set_mac. by rewrite (bind_Some _ _ _ _ _ (get_mac_run p e s E)). Qed.

Lemma local_age_fresh a : Z.land a MAC_AGE_LOCAL = 0 -> local_age 1 a = Z.lor a MAC_AGE_LOCAL.
Proof. intros H. unfold local_age, truth. by rewrite H. Qed.

Lemma changed_age a : Z.land a MAC_AGE_LOCAL = 0 -> (Z.lor a MAC_AGE_LOCAL =? a) = false.
Proof.
  intros H. apply Z.eqb_neq. intros E. apply (f_equal (fun z => Z.land z MAC_AGE_LOCAL)) in E.
  by rewrite Z.land_lor_distr_l, H in E.
Qed.

(** The state in which teardown is undefined is ordinary: in the exchange state,
    local ageing of an entry queues it as a deletion and leaves it in the tree,
    so a session that ends before the queue is sent reads a freed entry. *)
Theorem aged_entry_dangles_at_teardown s p e :
  WF s -> p ∈ rb s -> heap s !! p = Some e -> Z.land (mac_age_flag e) MAC_AGE_LOCAL = 0 ->
  ml_current_state (MLACP (cs_csm s)) = MLACP_STATE_EXCHANGE ->
  exists s', (age ← set_mac_local_age_flag p 1 1; set_mac p (fun m => m <| mac_age_flag := age |>)) s
      = Some (tt, s')
    /\ WF s' /\ mac_age_flag <$> heap s' !! p = Some (Z.lor (mac_age_flag e) MAC_AGE_LOCAL)
    /\ mlacp_mac_msg_queue_reinit s' = None.
Proof.
  intros Hwf Hp Ep Hage Hex. apply wp_unit, wp_bind. unfold set_mac_local_age_flag.
  apply wp_bind, wp_gets, wp_bind. exists e, s. split; [by apply get_mac_run|]. cbn zeta.
  rewrite local_age_fresh, changed_age, bool_decide_eq_true_2 by done. cbn [negb andb truth Z.eqb when].
  set (e1 := e <| mac_op_type := MAC_SYNC_DEL |>).
  apply wp_bind, wp_bind. eexists tt, _. split; [by apply set_mac_run|]. cbn beta.
  set (s1 := s <| cs_csm ::= _ |>). assert (Ep1 : heap s1 !! p = Some e1) by apply lookup_insert_eq.
  assert (Hi1 : InvP s p s1).
  { split; [|by eapply elem_of_dom_2]. apply inv_on_mlacp; [by apply inv_refl| |done].
    exact (wf_set_mac _ Hwf p e e1 Ep (wf_entry _ Hwf _ _ Ep) eq_refl). }
  apply wp_bind. eapply wp_MAC_IN_MSG_LIST; [done|].
  apply wp_when; intros Hq; [apply wp_on_mlacp|]; apply wp_ret;
    (eexists tt, _; split; [apply (set_mac_run p _ e1); exact Ep1|]).
  all: match goal with |- WF ?s3 /\ _ => set (s2 := s3) end.
  all: assert (Hq2 : p ∈ queue s2) by (cbn; first [set_solver | by apply negb_false_iff, bool_decide_eq_true in Hq]).
  all: assert (Hwf2 : WF s2).
  1,3: eapply wf_set_mac; [|exact Ep1|exact (wf_entry _ (proj1 (proj1 Hi1)) _ _ Ep1)|done].
  1: apply wf_enqueue; [apply Hi1|apply Hi1|by apply negb_true_iff, bool_decide_eq_false in Hq].
  1: apply Hi1.
  all: split_and!; [done|cbn; by rewrite lookup_insert_eq|].
  all: apply (reinit_cases s2 Hwf2); exists p; split; [done|split; [done|]].
  all: eexists; split; [apply lookup_insert_eq|done].
Qed.

(** ** Resynchronisation *)

Definition not_aged (e : MACMsg) : bool := negb (truth (Z.land (mac_age_flag e) MAC_AGE_LOCAL)).

(** What [mlacp_sync_mac] does to an entry, and whether it queues it. *)
Definition resynced (e : MACMsg) : MACMsg :=
  if not_aged e then e <| mac_op_type := MAC_SYNC_ADD |> else e.

Definition requeued (s : CS) (p : ptr) : bool :=
  bool_decide (p ∉ queue s) && from_option not_aged false (heap s !! p).

Lemma resynced_ok e : entry_ok e -> entry_ok (resynced e) /\ mac_key (resynced e) = mac_key e.
Proof. intros H. unfold resynced. by case_match. Qed.

(** The state after the entries [ps] of the tree. *)
Record resync_upto (s : CS) (ps : list ptr) (s' : CS) : Prop := mk_upto {
  up_inv : Inv s s';
  up_rb : rb s' = rb s;
  up_queue : queue s' = queue s ++ List.filter (requeued s) ps;
  up_heap : forall p, heap s' !! p = if decide (p ∈ ps) then resynced <$> heap s !! p else heap s !! p;
}.

Lemma resync_step s ps p s1 :
  WF s -> p ∈ rb s -> p ∉ ps -> resync_upto s ps s1 ->
  wp (m ← get_mac p;
      when (negb (truth (Z.land (mac_age_flag m) MAC_AGE_LOCAL)))
        (set_mac p (fun m => m <| mac_op_type := MAC_SYNC_ADD |>);; mac_enqueue p))
    (fun _ => resync_upto s (ps ++ [p])) s1.
Proof.
  intros Hwf Hp Hps [Hi Hrb Hq Hh]. destruct (wf_lookup _ Hwf p) as (e & Ee); [by left|].
  assert (Ee1 : heap s1 !! p = Some e) by (rewrite Hh, decide_False by done; done).
  apply wp_bind. exists e, s1. split; [by apply get_mac_run|].
  assert (Hheap : forall h : gmap ptr MACMsg, (forall q, q <> p -> h !! q = heap s1 !! q) -> h !! p = Some (resynced e) ->
    forall q, h !! q = if decide (q ∈ ps ++ [p]) then resynced <$> heap s !! q else heap s !! q).
  { intros h Hne Hp' q. destruct (decide (q = p)) as [->|Hqp].
    - rewrite decide_True by set_solver. by rewrite Ee.
    - rewrite Hne, Hh by done. apply decide_ext. set_solver. }
  assert (Hreq : requeued s p = bool_decide (p ∉ queue s) && not_aged e)
    by (unfold requeued; by rewrite Ee).
  unfold not_aged in Hreq. apply wp_when; intros Ha; rewrite Ha in Hreq.
  - assert (Hr : resynced e = e <| mac_op_type := MAC_SYNC_ADD |>) by (unfold resynced, not_aged; by rewrite Ha).
    apply wp_bind. eexists tt, _. split; [by apply set_mac_run|]. set (s2 := s1 <| cs_csm ::= _ |>).
    assert (Hi2 : Inv s s2).
    { apply inv_on_mlacp; [done| |done]. destruct Hi as [Hwf1 _].
      set (e1 := e <| mac_op_type := MAC_SYNC_ADD |>).
      exact (wf_set_mac _ Hwf1 p e e1 Ee1 (wf_entry _ Hwf1 _ _ Ee1) eq_refl). }
    assert (Hh2 : forall q, heap s2 !! q
      = if decide (q ∈ ps ++ [p]) then resynced <$> heap s !! q else heap s !! q).
    { apply Hheap; [intros q Hne; by apply lookup_insert_ne|]. rewrite Hr. apply lookup_insert_eq. }
    assert (Hp2 : InvP s p s2) by (split; [done|]; apply elem_of_dom; rewrite Hh2, decide_True by set_solver; by rewrite Ee).
    apply wp_bind. eapply wp_MAC_IN_MSG_LIST; [done|]. change (queue s2) with (queue s1).
    assert (Hin : p ∈ queue s1 <-> p ∈ queue s).
    { rewrite Hq, elem_of_app. split; [|by left]. intros [?|Hf]; [done|].
      apply list_elem_of_In, filter_In in Hf as [Hf _]. by apply list_elem_of_In in Hf. }
    rewrite andb_true_r in Hreq.
    apply wp_when; intros Hb.
    + apply negb_true_iff, bool_decide_eq_false in Hb. rewrite Hin in Hb.
      apply wp_on_mlacp. split; [|done| |exact Hh2].
      * apply inv_on_mlacp; [done| |done]. apply wf_enqueue; [apply Hi2|apply Hp2|]. by rewrite <- Hin in Hb.
      * cbn. rewrite List.filter_app. cbn. rewrite Hreq, bool_decide_eq_true_2 by done.
        rewrite app_assoc. by f_equal.
    + apply negb_false_iff, bool_decide_eq_true in Hb. rewrite Hin in Hb.
      split; [done|done| |exact Hh2]. rewrite List.filter_app. cbn.
      rewrite Hreq, bool_decide_eq_false_2 by naive_solver. by rewrite app_nil_r.
  - rewrite andb_false_r in Hreq. split; [done|done| |].
    + rewrite List.filter_app. cbn. by rewrite Hreq, app_nil_r.
    + apply Hheap; [done|]. unfold resynced, not_aged. by rewrite Ha, Ee1.
Qed.

(** The resynchronisation reports every entry that is not aged locally: it is
    marked as an addition and, unless it is queued already, appended to the
    queue, in the order of the keys.  The other entries are left alone. *)
Theorem resync_queues_live_entries s :
  WF s ->
  exists s', mlacp_sync_mac s = Some (tt, s') /\ WF s'
    /\ queue s' = queue s ++ List.filter (requeued s) (rb s)
    /\ table s' = resynced <$> table s.
Proof.
  intros Hwf. apply wp_unit. unfold mlacp_sync_mac. apply wp_bind, wp_gets.
  eapply wp_mono; [apply (wp_foreach (fun l s' => exists ps, rb s = ps ++ l /\ resync_upto s ps s'))|].
  - intros p l s1 (ps & Hsplit & Hup). pose proof (rb_nodup_keys _ Hwf) as Hn.
    rewrite Hsplit, fmap_app in Hn. apply list.NoDup_app in Hn as (_ & Hd & _).
    eapply wp_mono; [apply (resync_step s ps p); try done|].
    + rewrite Hsplit. set_solver.
    + intros Hp. eapply (Hd (key_at (heap s) p)); [by apply (list_elem_of_fmap_2 (key_at (heap s)))|].
      rewrite fmap_cons. set_solver.
    + intros ? s2 H2. exists (ps ++ [p]). by rewrite <- app_assoc.
  - exists []. split; [done|]. split; [by apply inv_refl|done|by rewrite app_nil_r|].
    intros p. by rewrite decide_False by set_solver.
  - intros ? s' (ps & Hsplit & [Hi Hrb Hq Hh]). rewrite app_nil_r in Hsplit. rewrite <- Hsplit in *.
    split_and!; [apply Hi|done|]. apply map_eq. intros k. apply option_eq. intros x.
    rewrite lookup_fmap, fmap_Some, table_lookup by apply Hi. setoid_rewrite table_lookup; [|done].
    rewrite Hrb. split.
    + intros (p & Hp & Ex & Ek). rewrite Hh, decide_True, fmap_Some in Ex by done.
      destruct Ex as (e & Ee & ->). exists e. split; [|done]. exists p.
      split_and!; [done..|]. rewrite <- Ek. symmetry. apply resynced_ok. by eapply wf_entry.
    + intros (e & (p & Hp & Ee & Ek) & ->). exists p. rewrite Hh, decide_True, Ee by done.
      split_and!; [done..|]. rewrite <- Ek. apply resynced_ok. by eapply wf_entry.
Qed.
