(* ===== verification/Senders.v ===== *)
(** The senders of the mLACP application ([mlacp_fsm.c]): one function per kind
    of information, and what each of them puts on the wire. *)

From Stdlib Require Import ZArith Lia.
From stdpp Require Import base list gmap numbers option.
From coqutil Require Import Byte Word.LittleEndianList.
From S2P Require Import Prelude CBuf State MsgFormat Wire CsmMsg AppCsm Csm MsgLogRing SyncPrepare.
From S2P Require Import MacTable.

Definition MAX_MAC_ENTRY_NUM : Z := 30.
Definition MAX_NEIGH_ENTRY_NUM : Z := 40.

(** [iccp_csm_send(csm, g_csm_buf, msg_len)] *)
Definition send_buf (msg_len : Z) : M CS Z :=
  b ← the_buf;
  iccp_csm_send b msg_len.

(** Clear the buffer, prepare, send. *)
Definition send_prepared (prepare : M CS Z) : M CS Z :=
  memset_buf;;
  msg_len ← prepare;
  send_buf msg_len.

(** ** Whole messages *)

Definition mlacp_sync_send_sysConf : M CS unit :=
  memset_buf;;
  msg_len ← mlacp_prepare_for_sys_config;
  when (msg_len >? 0) (send_buf msg_len;; mret tt).

(** The loops over the port channels of the CSM: prepare and send, then assign
    a member of the interface. *)
Definition for_port_channels (prepare : LocalInterface -> M CS Z)
    (sent : LocalInterface -> LocalInterface) : M CS unit :=
  csm ← the_csm;
  foreach (fun l =>
    lif ← get_lif l;
    when (lif_type lif =? IF_T_PORT_CHANNEL)
      (send_prepared (prepare lif);; set_lif l sent)) (ml_lif_list (MLACP csm)).

Definition mlacp_sync_send_aggConf : M CS unit :=
  for_port_channels (fun lif => mlacp_prepare_for_Aggport_config lif 0)
    (fun i => i <| lif_port_config_sync := 0 |>).

Definition mlacp_sync_send_aggState : M CS unit :=
  for_port_channels mlacp_prepare_for_Aggport_state (fun i => i <| lif_changed := 0 |>).

Definition mlacp_sync_send_syncPortChannelInfo : M CS unit :=
  for_port_channels mlacp_prepare_for_port_channel_info (fun i => i <| lif_changed := 0 |>).

Definition mlacp_sync_send_syncPeerLinkInfo : M CS unit :=
  csm ← the_csm;
  match csm_peer_link_if csm with
  | None => mret tt
  | Some l =>
      lif ← get_lif l;
      send_prepared (mlacp_prepare_for_port_peerlink_info lif);; mret tt
  end.

Definition mlacp_sync_send_heartbeat : M CS unit :=
  csm ← the_csm;
  t ← now;
  when ((csm_heartbeat_send_time csm =? 0)
        || (t - csm_heartbeat_send_time csm >? csm_keepalive_time csm))
    (send_prepared mlacp_prepare_for_heartbeat;;
     on_csm (fun c => c <| csm_heartbeat_send_time := t |>)).

Definition mlacp_sync_send_syncDoneData : M CS unit :=
  on_mlacp (fun m => m <| ml_wait_for_sync_data := 0 |>);;
  send_prepared (mlacp_prepare_for_sync_data_tlv 1);; mret tt.

Definition mlacp_fsm_send_if_up_ack (if_type if_id port_isolation_enable : Z) : M CS unit :=
  csm ← the_csm;
  if bool_decide (ml_current_state (MLACP csm) <> MLACP_STATE_EXCHANGE) then mret tt
  else
    memset_buf;;
    msg_len ← mlacp_prepare_for_if_up_ack if_type if_id port_isolation_enable;
    when (msg_len >? 0) (send_buf msg_len;; mret tt).

(** ** Lists in batches

    The three senders of lists run the same loop: take the first element off its
    queue, append it to the message in the buffer, and send when [max] entries
    are in it; what is left is sent at the end.  [step x count] is the part that
    differs: it dequeues [x], appends it as entry [count] and returns the length
    of the message. *)

Section Batch.
Context {X : Type} (max : Z) (step : X -> Z -> M CS Z).

Fixpoint batch_loop (q : list X) (count msg_len : Z) : M CS (Z * Z) :=
  match q with
  | [] => mret (count, msg_len)
  | x :: q' =>
      msg_len ← step x count;
      let count := count + 1 in
      if count >=? max then
        send_buf msg_len;;
        memset_buf;;
        batch_loop q' 0 msg_len
      else batch_loop q' count msg_len
  end.

Definition send_batches (q : list X) : M CS unit :=
  memset_buf;;
  r ← batch_loop q 0 0;
  when (truth r.1) (send_buf r.2;; mret tt).
End Batch.

(** One MAC entry: a deletion that left the tree is released.  (The code searches
    the tree only when the entry has no parent; an entry with a parent is in the
    tree, and the search would find it.) *)
Definition mac_step (p : ptr) (count : Z) : M CS Z :=
  on_mlacp (fun m => m <| ml_mac_msg_list ::= tail |>);;
  m ← get_mac p;
  msg_len ← mlacp_prepare_for_mac_info_to_peer m count;
  when (mac_op_type m =? MAC_SYNC_DEL)
    (found ← mac_rb_find (mac_find (mac_vid m) (mac_addr m));
     match found with None => free_mac p | Some _ => mret tt end);;
  mret msg_len.

Definition mlacp_sync_send_syncMacInfo : M CS unit :=
  csm ← the_csm;
  send_batches MAX_MAC_ENTRY_NUM mac_step (ml_mac_msg_list (MLACP csm)).

Definition arp_step (msg : Msg) (count : Z) : M CS Z :=
  on_mlacp (fun m => m <| ml_arp_msg_list ::= tail |>);;
  mlacp_prepare_for_arp_info (msg_buf msg) count.

Definition mlacp_sync_send_syncArpInfo : M CS unit :=
  csm ← the_csm;
  send_batches MAX_NEIGH_ENTRY_NUM arp_step (ml_arp_msg_list (MLACP csm)).

Definition ndisc_step (msg : Msg) (count : Z) : M CS Z :=
  on_mlacp (fun m => m <| ml_ndisc_msg_list ::= tail |>);;
  mlacp_prepare_for_ndisc_info (msg_buf msg) count.

Definition mlacp_sync_send_syncNdiscInfo : M CS unit :=
  csm ← the_csm;
  send_batches MAX_NEIGH_ENTRY_NUM ndisc_step (ml_ndisc_msg_list (MLACP csm)).

(** ** All information *)

Definition mlacp_sync_sender_handler : M CS unit :=
  csm ← the_csm;
  match ml_sync_state (MLACP csm) with
  | MLACP_SYNC_SYSCONF => mlacp_sync_send_sysConf
  | MLACP_SYNC_AGGCONF => mlacp_sync_send_aggConf
  | MLACP_SYNC_AGGSTATE => mlacp_sync_send_aggState
  | MLACP_SYNC_AGGINFO => mlacp_sync_send_syncPortChannelInfo
  | MLACP_SYNC_PEERLINKINFO => mlacp_sync_send_syncPeerLinkInfo
  | MLACP_SYNC_ARP_INFO => mlacp_sync_send_syncArpInfo
  | MLACP_SYNC_NDISC_INFO => mlacp_sync_send_syncNdiscInfo
  | MLACP_SYNC_DONE => mlacp_sync_send_syncDoneData
  end.

(** [sync_state++] below [MLACP_SYNC_DONE], and [current_state++]. *)
Definition next_sync (st : MLACP_SYNC_STATE) : MLACP_SYNC_STATE :=
  match st with
  | MLACP_SYNC_SYSCONF => MLACP_SYNC_AGGCONF
  | MLACP_SYNC_AGGCONF => MLACP_SYNC_AGGSTATE
  | MLACP_SYNC_AGGSTATE => MLACP_SYNC_AGGINFO
  | MLACP_SYNC_AGGINFO => MLACP_SYNC_PEERLINKINFO
  | MLACP_SYNC_PEERLINKINFO => MLACP_SYNC_ARP_INFO
  | MLACP_SYNC_ARP_INFO => MLACP_SYNC_NDISC_INFO
  | MLACP_SYNC_NDISC_INFO | MLACP_SYNC_DONE => MLACP_SYNC_DONE
  end.

(** [None]: the enumeration has no next value (and no code runs for it). *)
Definition next_stage (st : MLACP_APP_STATE) : option MLACP_APP_STATE :=
  match st with
  | MLACP_STATE_INIT => Some MLACP_STATE_STAGE1
  | MLACP_STATE_STAGE1 => Some MLACP_STATE_STAGE2
  | MLACP_STATE_STAGE2 => Some MLACP_STATE_EXCHANGE
  | MLACP_STATE_EXCHANGE => Some MLACP_STATE_ERROR
  | MLACP_STATE_ERROR => None
  end.

Definition stage_incr : M CS unit :=
  csm ← the_csm;
  st ← lift (next_stage (ml_current_state (MLACP csm)));
  on_mlacp (fun m => m <| ml_current_state := st |>).

(** The [while (1)] of [mlacp_sync_send_all_info_handler]; eight states, so eight
    turns ([fuel]) are enough. *)
Fixpoint send_all_loop (fuel : nat) : M CS unit :=
  match fuel with
  | O => ub
  | S fuel' =>
      mlacp_sync_sender_handler;;
      csm ← the_csm;
      if bool_decide (ml_sync_state (MLACP csm) <> MLACP_SYNC_DONE) then
        on_mlacp (fun m => m <| ml_sync_state ::= next_sync |>);;
        send_all_loop fuel'
      else
        on_mlacp (fun m => m <| ml_wait_for_sync_data := 0 |>);;
        stage_incr
  end.

Definition mlacp_sync_send_all_info_handler : M CS unit :=
  send_prepared (mlacp_prepare_for_sync_data_tlv 0);;
  on_mlacp (fun m => m <| ml_sync_state := MLACP_SYNC_SYSCONF |>);;
  send_all_loop 8.

(** ** What is on the wire *)

(** A CSM up to its message log and its counters, which every send changes. *)
Definition bare (c : CSM) : CSM :=
  set_MLACP (fun m => m <| ml_dbg_counters := ∅ |>) (c <| csm_msg_log := zero_log |>).

(** Messages, as handed to the socket. *)
Definition on_wire (s : CS) (ids : list Z) (ts : list Tlv) : list (Z * buf) :=
  zip_with (fun id t => (csm_sock_fd (cs_csm s), wire_msg MSG_T_RG_APP_DATA id (rg_id s) t)) ids ts.

(** From [s] to [s'] the messages [ts] were sent, in that order, and nothing
    else left the process. *)
Record sent (ts : list Tlv) (s s' : CS) : Prop := mk_sent {
  st_out : exists ids, length ids = length ts /\ g_sent (cs_g s') = g_sent (cs_g s) ++ on_wire s ids ts;
  st_ready : ready s';
  st_fd : csm_sock_fd (cs_csm s') = csm_sock_fd (cs_csm s);
  st_rg : rg_id s' = rg_id s;
  st_now : g_now (cs_g s') = g_now (cs_g s);
  st_acts : g_acts (cs_g s') = g_acts (cs_g s);
  st_sys : cs_sys s' = cs_sys s;
  st_self : cs_self s' = cs_self s;
}.

Lemma sent_nil s : ready s -> sent [] s s.
Proof. intros H. split; try done. exists []. by rewrite app_nil_r. Qed.

Lemma sent_trans ts1 ts2 s s1 s2 : sent ts1 s s1 -> sent ts2 s1 s2 -> sent (ts1 ++ ts2) s s2.
Proof.
  intros [(i1 & L1 & O1) _ F1 R1 N1 A1 S1 C1] [(i2 & L2 & O2) Rd F2 R2 N2 A2 S2 C2].
  split; [|done|congruence..]. exists (i1 ++ i2). split; [rewrite !length_app; lia|].
  rewrite O2, O1, <- app_assoc. f_equal. unfold on_wire. rewrite zip_with_app by done.
  by rewrite F1, R1.
Qed.

(** A step that only changes the CSM and the interfaces. *)
Lemma sent_quiet s s' :
  ready s' -> g_sent (cs_g s') = g_sent (cs_g s) ->
  csm_sock_fd (cs_csm s') = csm_sock_fd (cs_csm s) -> rg_id s' = rg_id s ->
  g_now (cs_g s') = g_now (cs_g s) -> g_acts (cs_g s') = g_acts (cs_g s) ->
  cs_sys s' = cs_sys s -> cs_self s' = cs_self s -> sent [] s s'.
Proof. intros. split; try done. exists []. by rewrite app_nil_r. Qed.

Lemma bare_after_send bs e s : bare (cs_csm (after_send bs e s)) = bare (cs_csm s).
Proof.
  unfold after_send, bare, MLACP_SET_ICCP_TX_DBG_COUNTER, bump_counter, set. cbn.
  by case_match.
Qed.

(** One message prepared in the buffer goes out. *)
Lemma sent_one id t s r :
  ready s -> 0 <= id < 2 ^ 32 ->
  g_csm_buf (cs_g s) = wire_msg MSG_T_RG_APP_DATA id (rg_id s) t ++ r ->
  exists s', send_buf (wire_size t) s = Some (wire_size t, s') /\ sent [t] s s'
    /\ bare (cs_csm s') = bare (cs_csm s) /\ cs_lifs s' = cs_lifs s.
Proof.
  intros Hr Hid Hb. eexists. split.
  - unfold send_buf, the_buf. rewrite (bind_Some (gets _) _ s (g_csm_buf (cs_g s)) s) by done.
    rewrite Hb. apply send_wire_msg; [done..|set_solver].
  - set (e := mkLog _ _ _). set (bs := wire_msg _ _ _ _). destruct (after_send_frame bs e s)
      as ((Ho & Hi & _ & _ & Hf) & _ & _); [apply Hr|].
    split_and!; [|apply bare_after_send|done]. split; try done.
    + exists [id]. by rewrite Ho.
    + by apply ready_after_send.
    + unfold rg_id at 1 2. by rewrite Hi.
Qed.

(** A function [prep] that leaves the encoding of [t] in the buffer, and changes
    the CSM by [F]. *)
Definition prepares (prep : M CS Z) (F : CSM -> CSM) (t : Tlv) (s : CS) : Prop :=
  prep s = Some (wire_size t, with_msg s (wire_msg MSG_T_RG_APP_DATA (cur_id s) (rg_id s) t)
                                <| cs_csm ::= F |>).

Definition cleared (s : CS) : CS :=
  s <| cs_g ::= fun g => g <| g_csm_buf := zeros CSM_BUFFER_SIZE |> |>.

(** Changes of a CSM that a session does not notice. *)
Definition harmless (F : CSM -> CSM) : Prop :=
  forall c, csm_sock_fd (F c) = csm_sock_fd c /\ csm_iccp_info (F c) = csm_iccp_info c
    /\ csm_msg_log (F c) = csm_msg_log c.

Lemma harmless_MLACP f : harmless (set_MLACP f).
Proof. done. Qed.

Lemma ready_harmless F s : harmless F -> ready s -> ready (s <| cs_csm ::= F |>).
Proof.
  intros HF [H1 H2 H3 H4 H5]. destruct (HF (cs_csm s)) as (E1 & E2 & E3).
  split; cbn; by rewrite ?E1, ?E2, ?E3.
Qed.

Lemma send_prepared_run prep F t s :
  ready s -> harmless F -> prepares prep F t (cleared s) ->
  exists s', send_prepared prep s = Some (wire_size t, s') /\ sent [t] s s'
    /\ bare (cs_csm s') = bare (F (cs_csm s)) /\ cs_lifs s' = cs_lifs s.
Proof.
  intros Hr HF Hp. unfold send_prepared.
  rewrite (bind_Some memset_buf _ s tt (cleared s)) by done.
  rewrite (bind_Some _ _ _ _ _ Hp). set (s1 := with_msg _ _ <| cs_csm ::= F |>).
  assert (Hr1 : ready s1).
  { apply ready_harmless, ready_with_msg; [done|]. destruct Hr. by split. }
  destruct (HF (cs_csm s)) as (E1 & E2 & E3).
  assert (Hrg : rg_id s1 = rg_id s) by (unfold rg_id; cbn; by rewrite E2).
  destruct (sent_one (cur_id s) t s1 (zeros (CSM_BUFFER_SIZE - Z.of_nat (length
    (wire_msg MSG_T_RG_APP_DATA (cur_id s) (rg_id s) t))))) as (s' & E & Hs & Hb & Hl);
    [done|apply Hr|by rewrite Hrg|].
  exists s'. split; [done|]. split_and!; [|done|done].
  change [t] with ([] ++ [t]). eapply sent_trans; [|exact Hs]. by apply sent_quiet.
Qed.

(** ** The port channels of a CSM *)

(** An interface up to the two flags that the senders clear. *)
Definition bare_lif (i : LocalInterface) : LocalInterface :=
  i <| lif_port_config_sync := 0 |> <| lif_changed := 0 |>.

Definition lifs_sim (s s' : CS) : Prop :=
  forall l, bare_lif <$> cs_lifs s' !! l = bare_lif <$> cs_lifs s !! l.

Definition port_channels (s : CS) : list LocalInterface :=
  omap (fun l => i ← cs_lifs s !! l;
          if lif_type i =? IF_T_PORT_CHANNEL then Some (bare_lif i) else None)
    (ml_lif_list (MLACP (cs_csm s))).

(** Same session data: everything but the log, the counters and those flags. *)
Definition same (s s' : CS) : Prop := bare (cs_csm s') = bare (cs_csm s) /\ lifs_sim s s'.

Lemma lifs_sim_refl s : lifs_sim s s. Proof. by intros l. Qed.
Lemma lifs_sim_eq s s' : cs_lifs s' = cs_lifs s -> lifs_sim s s'.
Proof. intros E l. by rewrite E. Qed.
Lemma lifs_sim_trans s1 s2 s3 : lifs_sim s1 s2 -> lifs_sim s2 s3 -> lifs_sim s1 s3.
Proof. intros H1 H2 l. by rewrite H2, H1. Qed.
Lemma same_refl s : same s s. Proof. split; [done|apply lifs_sim_refl]. Qed.
Lemma same_trans s1 s2 s3 : same s1 s2 -> same s2 s3 -> same s1 s3.
Proof. intros [? ?] [? ?]. split; [congruence|by eapply lifs_sim_trans]. Qed.

(** What the flags do not change. *)
Lemma bare_proj {A} (f : CSM -> A) s s' :
  (forall c, f c = f (bare c)) -> bare (cs_csm s') = bare (cs_csm s) -> f (cs_csm s') = f (cs_csm s).
Proof. intros Hf E. by rewrite (Hf (cs_csm s')), E, <- Hf. Qed.

Lemma bare_list s s' :
  bare (cs_csm s') = bare (cs_csm s) ->
  ml_lif_list (MLACP (cs_csm s')) = ml_lif_list (MLACP (cs_csm s)).
Proof. by apply (bare_proj (fun c => ml_lif_list (MLACP c))). Qed.

Lemma bare_lif_type i : lif_type i = lif_type (bare_lif i). Proof. done. Qed.

Section PortChannels.
Context (prep : LocalInterface -> M CS Z) (tl : LocalInterface -> Tlv)
  (f : LocalInterface -> LocalInterface) (okl : LocalInterface -> Prop).
Hypothesis prep_ok : forall i s, okl (bare_lif i) -> lif_type i = IF_T_PORT_CHANNEL ->
  prepares (prep i) id (tl (bare_lif i)) s.
Hypothesis f_bare : forall i, bare_lif (f i) = bare_lif i.

Lemma for_port_channels_run s :
  ready s -> (forall l, l ∈ ml_lif_list (MLACP (cs_csm s)) -> l ∈ dom (cs_lifs s)) ->
  Forall okl (port_channels s) ->
  wp (for_port_channels prep f)
    (fun _ s' => sent (tl <$> port_channels s) s s' /\ same s s') s.
Proof.
  intros Hr Hlive Hok. unfold for_port_channels. apply wp_bind, wp_gets. unfold port_channels in *.
  set (pc := fun l => i ← cs_lifs s !! l; _) in *.
  apply (wp_mono _ (fun _ s' => exists ls, ml_lif_list (MLACP (cs_csm s)) = ls ++ []
    /\ sent (tl <$> omap pc ls) s s' /\ same s s')).
  2: { intros _ s' (ls & E & H). rewrite app_nil_r in E. by rewrite E. }
  apply (wp_foreach (fun l s' => exists ls, ml_lif_list (MLACP (cs_csm s)) = ls ++ l
    /\ sent (tl <$> omap pc ls) s s' /\ same s s')).
  2: { exists []. split_and!; [done|by apply sent_nil|apply same_refl]. }
  intros l rest s1 (ls & Els & Hs & Hsame).
  destruct (proj1 (elem_of_dom (cs_lifs s) l)) as [i Ei]; [apply Hlive; rewrite Els; set_solver|].
  assert (exists i1, cs_lifs s1 !! l = Some i1 /\ bare_lif i1 = bare_lif i) as (i1 & Ei1 & Eb).
  { destruct Hsame as [_ Hsim]. specialize (Hsim l). rewrite Ei in Hsim.
    destruct (cs_lifs s1 !! l) as [i1|]; [|done]. exists i1. split; [done|]. by apply (inj Some) in Hsim. }
  apply wp_bind. exists i1, s1. split; [unfold get_lif; by rewrite Ei1|].
  assert (Ety : lif_type i1 = lif_type i) by (by rewrite bare_lif_type, Eb).
  assert (Epc : pc l = if lif_type i =? IF_T_PORT_CHANNEL then Some (bare_lif i) else None)
    by (unfold pc; by rewrite Ei).
  assert (Hnext : forall s2 ts, sent ts s1 s2 -> ts = tl <$> option_list (pc l) -> same s1 s2 ->
    exists ls0, ml_lif_list (MLACP (cs_csm s)) = ls0 ++ rest
      /\ sent (tl <$> omap pc ls0) s s2 /\ same s s2).
  { intros s2 ts Hs2 -> Hsame2. exists (ls ++ [l]). split_and!.
    - by rewrite Els, <- app_assoc.
    - rewrite omap_app, fmap_app. eapply sent_trans; [done|]. cbn. by destruct (pc l).
    - by eapply same_trans. }
  rewrite Ety. apply wp_when; intros Et; rewrite Et in Epc.
  - zbool. assert (Hl : okl (bare_lif i)).
    { rewrite List.Forall_forall in Hok. apply Hok, list_elem_of_In, list_elem_of_omap.
      exists l. split; [rewrite Els; set_solver|done]. }
    apply wp_bind. destruct (send_prepared_run (prep i1) id (tl (bare_lif i)) s1)
      as (s2 & E2 & Hs2 & Hb2 & Hl2); [apply Hs|done|rewrite <- Eb; apply prep_ok; by rewrite ?Eb, ?Ety|].
    exists (wire_size (tl (bare_lif i))), s2. split; [done|].
    eexists tt, _. split; [unfold set_lif; by rewrite Hl2, Ei1|].
    apply (Hnext _ [tl (bare_lif i)]); [|by rewrite Epc|].
    + rewrite <- (app_nil_r [_]). eapply sent_trans; [exact Hs2|]. apply sent_quiet; try done.
      by destruct (st_ready _ _ _ Hs2).
    + split; [done|]. intros k. cbn. rewrite Hl2. destruct (decide (l = k)) as [<-|Hk].
      * by rewrite lookup_insert_eq, Ei1; cbn; rewrite f_bare.
      * by rewrite lookup_insert_ne.
  - apply (Hnext _ []); [apply sent_nil, Hs|by rewrite Epc|apply same_refl].
Qed.
End PortChannels.

(** ** Batches *)

(** [css] cuts [es] into runs of at most [max], all full but the last. *)
Definition batched {E} (max : nat) (es : list E) (css : list (list E)) : Prop :=
  concat css = es /\ forall i c, css !! i = Some c ->
    (0 < length c <= max)%nat /\ ((S i < length css)%nat -> length c = max).

Lemma batched_full {E} max (full : list (list E)) last :
  (0 < max)%nat -> Forall (fun c => length c = max) full -> (length last < max)%nat ->
  batched max (concat full ++ last) (full ++ if last is [] then [] else [last]).
Proof.
  intros Hm Hf Hl. rewrite List.Forall_forall in Hf.
  assert (Hin : forall i c, full !! i = Some c -> length c = max).
  { intros i c Hi. apply Hf, list_elem_of_In. by eapply list_elem_of_lookup_2. }
  split; [rewrite concat_app; destruct last; cbn; by rewrite ?app_nil_r|].
  intros i c Hi. apply lookup_app_Some in Hi as [Hi|[Hge Hi]].
  - rewrite (Hin i c Hi). lia.
  - destruct last as [|x last]; [done|]. apply list_lookup_singleton_Some in Hi as [Hi <-].
    split; [cbn in *; lia|]. rewrite length_app. cbn. lia.
Qed.

Section BatchRun.
Context {X E : Type} (max : nat) (size : nat) (wire_e : E -> buf) (T : Z) (mk : list E -> Tlv).
Context (step : X -> Z -> M CS Z) (Iq : list X -> list E -> CS -> Prop).
Hypothesis mk_payload : forall es,
  wire_payload (mk es) = be 2 (Z.of_nat (length es)) ++ (es ≫= wire_e).
Hypothesis max_pos : (0 < max)%nat.
(** A step appends the entry of the element it takes. *)
Hypothesis step_ok : forall x q e es acc id0 s,
  Iq (x :: q) (e :: es) s -> ready s -> g_csm_buf (cs_g s) = list_buf mk id0 (rg_id s) acc ->
  entries_ok size wire_e acc -> (length acc < max)%nat ->
  length (wire_e e) = size /\ exists s',
    step x (Z.of_nat (length acc)) s = Some (list_size size (S (length acc)), s')
    /\ g_csm_buf (cs_g s') = list_buf mk (cur_id s) (rg_id s) (acc ++ [e])
    /\ Iq q es s' /\ sent [] s s'.
(** The elements that wait are not touched by sending. *)
Hypothesis Iq_quiet : forall q es s s', bare (cs_csm s') = bare (cs_csm s) ->
  cs_lifs s' = cs_lifs s -> cs_sys s' = cs_sys s -> Iq q es s -> Iq q es s'.
Hypothesis Iq_nil : forall q s, Iq q [] s -> q = [].
Hypothesis Iq_cons : forall es s, Iq [] es s -> es = [].

Lemma list_buf_msg id rg es :
  es <> [] -> exists r, list_buf mk id rg es = wire_msg MSG_T_RG_APP_DATA id rg (mk es) ++ r.
Proof. destruct es as [|e es]; [done|]. intros _. by eexists. Qed.

Lemma send_batch es id s q rest :
  es <> [] -> entries_ok size wire_e es -> ready s -> 0 <= id < 2 ^ 32 ->
  g_csm_buf (cs_g s) = list_buf mk id (rg_id s) es -> Iq q rest s ->
  exists s', send_buf (list_size size (length es)) s = Some (list_size size (length es), s')
    /\ sent [mk es] s s' /\ Iq q rest s'.
Proof.
  intros Hne Hok Hr Hid Hb HI. destruct (list_buf_msg id (rg_id s) es Hne) as (r & Er).
  rewrite Er in Hb. destruct (sent_one id (mk es) s r Hr Hid Hb) as (s' & E1 & Hs & Hbare & Hl).
  rewrite (list_wire_size size wire_e mk mk_payload es Hok) in E1.
  exists s'. split_and!; [done|done|]. eapply Iq_quiet; [done..|apply Hs|done].
Qed.

Lemma batch_loop_run q : forall es acc id0 len s,
  Iq q es s -> ready s -> 0 <= id0 < 2 ^ 32 ->
  g_csm_buf (cs_g s) = list_buf mk id0 (rg_id s) acc ->
  entries_ok size wire_e acc -> (length acc < max)%nat ->
  (acc <> [] -> len = list_size size (length acc)) ->
  exists css last len' id' s',
    batch_loop (Z.of_nat max) step q (Z.of_nat (length acc)) len s
    = Some ((Z.of_nat (length last), len'), s')
    /\ sent (mk <$> css) s s' /\ Iq [] [] s' /\ 0 <= id' < 2 ^ 32
    /\ g_csm_buf (cs_g s') = list_buf mk id' (rg_id s') last
    /\ entries_ok size wire_e last
    /\ concat css ++ last = acc ++ es /\ Forall (fun c => length c = max) css
    /\ (length last < max)%nat /\ (last <> [] -> len' = list_size size (length last)).
Proof.
  induction q as [|x q IH]; intros es acc id0 len s HI Hr Hid Hb Hok Hlt Hlen.
  { apply Iq_cons in HI as Hes. subst es. exists [], acc, len, id0, s.
    split_and!; try first [done|lia]; [by apply sent_nil|by rewrite app_nil_r]. }
  destruct es as [|e es]; [by apply Iq_nil in HI|]. cbn [batch_loop].
  destruct (step_ok x q e es acc id0 s HI Hr Hb Hok Hlt) as (He & s1 & E1 & Hb1 & HI1 & Hs1).
  rewrite (bind_Some _ _ _ _ _ E1). cbn zeta.
  assert (Hok1 : entries_ok size wire_e (acc ++ [e])) by (apply Forall_app; split; [done|by constructor]).
  assert (Hl1 : length (acc ++ [e]) = S (length acc)) by (rewrite length_app; cbn; lia).
  assert (Hrg1 : rg_id s1 = rg_id s) by apply Hs1.
  rewrite <- Hrg1 in Hb1. assert (Hcur : 0 <= cur_id s < 2 ^ 32) by apply Hr.
  replace (Z.of_nat (length acc) + 1) with (Z.of_nat (length (acc ++ [e]))) by lia.
  rewrite <- Hl1 in E1 |- *.
  destruct (Z.geb_spec (Z.of_nat (length (acc ++ [e]))) (Z.of_nat max)) as [Hge|Hge].
  - destruct (send_batch (acc ++ [e]) (cur_id s) s1 q es) as (s2 & E2 & Hs2 & HI2);
      [by destruct acc|done|apply Hs1|done..|].
    rewrite (bind_Some _ _ _ _ _ E2). rewrite (bind_Some memset_buf _ s2 tt (cleared s2)) by done.
    assert (Hsc : sent [] s2 (cleared s2)) by (apply sent_quiet; try done; by destruct (st_ready _ _ _ Hs2)).
    destruct (IH es [] 0 (list_size size (length (acc ++ [e]))) (cleared s2))
      as (css & last & len' & id' & s' & Eb & Hs' & Hrest); [|apply Hsc|lia|reflexivity|constructor|cbn; lia|done|].
    { eapply Iq_quiet; [| | |exact HI2]; done. }
    destruct Hrest as (HI' & Hid' & Hb' & Hok' & Hcat & Hfull & Hlast & Hlen').
    exists ((acc ++ [e]) :: css), last, len', id', s'. split_and!; try first [done|lia].
    + change (mk <$> (acc ++ [e]) :: css) with ([] ++ [mk (acc ++ [e])] ++ [] ++ (mk <$> css)).
      eapply sent_trans; [done|]. eapply sent_trans; [done|]. by eapply sent_trans.
    + cbn. by rewrite <- app_assoc, Hcat, <- app_assoc.
    + constructor; [lia|done].
  - destruct (IH es (acc ++ [e]) (cur_id s) (list_size size (length (acc ++ [e]))) s1)
      as (css & last & len' & id' & s' & Eb & Hs' & Hrest); [done|apply Hs1|done..|lia|done|].
    destruct Hrest as (HI' & Hid' & Hb' & Hok' & Hcat & Hfull & Hlast & Hlen').
    exists css, last, len', id', s'. split_and!; try first [done|lia].
    + rewrite <- (app_nil_l (mk <$> css)). by eapply sent_trans.
    + by rewrite Hcat, <- app_assoc.
Qed.

Lemma send_batches_run q es s :
  Iq q es s -> ready s ->
  exists css s', send_batches (Z.of_nat max) step q s = Some (tt, s')
    /\ sent (mk <$> css) s s' /\ batched max es css /\ Iq [] [] s'.
Proof.
  intros HI Hr. unfold send_batches. rewrite (bind_Some memset_buf _ s tt (cleared s)) by done.
  assert (Hsc : sent [] s (cleared s)) by (apply sent_quiet; try done; by destruct Hr).
  destruct (batch_loop_run q es [] 0 0 (cleared s))
    as (css & last & len' & id' & s' & Eb & Hs' & HI' & Hid' & Hb' & Hok' & Hcat & Hfull & Hlast & Hlen');
    [|apply Hsc|lia|reflexivity|constructor|cbn; lia|done|].
  { eapply Iq_quiet; [| | |exact HI]; done. }
  assert (Hsent : sent (mk <$> css) s s') by (rewrite <- (app_nil_l (mk <$> css)); by eapply sent_trans).
  rewrite (bind_Some _ _ _ _ _ Eb). cbn [fst snd].
  pose proof (batched_full max css last max_pos Hfull Hlast) as Hbat. rewrite Hcat in Hbat. cbn in Hbat.
  destruct (decide (last = [])) as [->|Hne].
  - exists css, s'. split_and!; try done. by rewrite app_nil_r in Hbat.
  - destruct (send_batch last id' s' [] []) as (s2 & E2 & Hs2 & HI2); [done|done|apply Hs'|done..|].
    exists (css ++ [last]), s2. split_and!; [| |by destruct last|done].
    + rewrite (Hlen' Hne). unfold truth. destruct (Z.eqb_spec (Z.of_nat (length last)) 0) as [E0|E0];
        [destruct last; [done|cbn in E0; lia]|]. cbn [negb when].
      by rewrite (bind_Some _ _ _ _ _ E2).
    + rewrite fmap_app. by eapply sent_trans.
Qed.
End BatchRun.

(** ** The neighbour queues *)

(** A queue of a CSM, as a member of [mLACP]: [put] replaces it. *)
Section NeighbourQueue.
Context {E : Type} (getq : mLACP -> list Msg) (putq : list Msg -> mLACP -> mLACP)
  (size : nat) (wire_e : E -> buf) (T : Z) (mk : list E -> Tlv) (entry : buf -> option E)
  (prep : buf -> Z -> M CS Z).
Hypothesis mk_payload : forall es,
  wire_payload (mk es) = be 2 (Z.of_nat (length es)) ++ (es ≫= wire_e).
Hypothesis get_put : forall q m, getq (putq q m) = q.
Hypothesis put_get : forall m, putq (getq m) m = m.
Hypothesis put_put : forall q q' m, putq q (putq q' m) = putq q m.
Hypothesis put_bare : forall q c, bare (set_MLACP (putq q) c) = set_MLACP (putq q) (bare c).
Hypothesis entry_size : forall m e, entry m = Some e -> length (wire_e e) = size.
Hypothesis small : list_size size 40 <= CSM_BUFFER_SIZE.
Hypothesis prep_ok : forall s m e es id0 rg0,
  g_csm_buf (cs_g s) = list_buf mk id0 rg0 es -> entries_ok size wire_e es -> entry m = Some e ->
  list_size size (S (length es)) <= CSM_BUFFER_SIZE ->
  prep m (Z.of_nat (length es)) s
  = Some (list_size size (S (length es)),
          with_buf s (list_buf mk (cur_id s) (rg_id s) (es ++ [e]))).

Definition neigh_step (msg : Msg) (count : Z) : M CS Z :=
  on_mlacp (fun m => putq (tail (getq m)) m);; prep (msg_buf msg) count.

(** [q] is left of the queue that [s0] had. *)
Definition neigh_left (s0 : CS) (q : list Msg) (es : list E) (s : CS) : Prop :=
  bare (cs_csm s) = set_MLACP (putq q) (bare (cs_csm s0)) /\ cs_lifs s = cs_lifs s0
  /\ Forall2 (fun m e => entry (msg_buf m) = Some e) q es.

Lemma bare_MLACP c : MLACP (bare c) = MLACP c <| ml_dbg_counters := ∅ |>.
Proof. done. Qed.

Hypothesis get_bare : forall c, getq (MLACP (bare c)) = getq (MLACP c).

Lemma neigh_step_ok s0 x q e es acc id0 s :
  neigh_left s0 (x :: q) (e :: es) s -> ready s ->
  g_csm_buf (cs_g s) = list_buf mk id0 (rg_id s) acc ->
  entries_ok size wire_e acc -> (length acc < 40)%nat ->
  length (wire_e e) = size /\ exists s',
    neigh_step x (Z.of_nat (length acc)) s = Some (list_size size (S (length acc)), s')
    /\ g_csm_buf (cs_g s') = list_buf mk (cur_id s) (rg_id s) (acc ++ [e])
    /\ neigh_left s0 q es s' /\ sent [] s s'.
Proof.
  intros (Hb & Hl & Hq) Hr Hbuf Hok Hlt. apply Forall2_cons_1 in Hq as [Hx Hq].
  split; [by eapply entry_size|]. unfold neigh_step.
  set (s1 := s <| cs_csm ::= set_MLACP (fun m => putq (tail (getq m)) m) |>).
  rewrite (bind_Some (on_mlacp _) _ s tt s1) by done.
  rewrite (prep_ok s1 (msg_buf x) e acc id0 (rg_id s)); [|done..|unfold list_size in *; nia].
  eexists. split; [reflexivity|]. split_and!; [done| |].
  - assert (Eq : getq (MLACP (cs_csm s)) = x :: q).
    { rewrite <- get_bare, Hb. apply get_put. }
    split_and!; [|done|done].
    change (bare (cs_csm s1) = set_MLACP (putq q) (bare (cs_csm s0))).
    assert (E1 : cs_csm s1 = set_MLACP (putq q) (cs_csm s)).
    { unfold s1, set_MLACP, set. cbn. unfold MLACP in Eq. by rewrite Eq. }
    rewrite E1, put_bare, Hb. unfold set_MLACP, set. cbn. by rewrite put_put.
  - apply sent_quiet; try done. destruct Hr as [? ? ? ? ?]. split; try done.
    unfold cur_id. cbn. apply u32_range.
Qed.

Lemma neigh_quiet s0 q es s s' :
  bare (cs_csm s') = bare (cs_csm s) -> cs_lifs s' = cs_lifs s -> cs_sys s' = cs_sys s ->
  neigh_left s0 q es s -> neigh_left s0 q es s'.
Proof. intros Hb Hl _ (? & ? & ?). split_and!; congruence || done. Qed.

Lemma neigh_queue_run s es :
  ready s -> Forall2 (fun m e => entry (msg_buf m) = Some e) (getq (MLACP (cs_csm s))) es ->
  exists css s',
    send_batches MAX_NEIGH_ENTRY_NUM neigh_step (getq (MLACP (cs_csm s))) s = Some (tt, s')
    /\ sent (mk <$> css) s s' /\ batched 40 es css
    /\ bare (cs_csm s') = set_MLACP (putq []) (bare (cs_csm s)) /\ cs_lifs s' = cs_lifs s.
Proof.
  intros Hr Hq. destruct (send_batches_run 40 size wire_e mk neigh_step (neigh_left s) mk_payload
    ltac:(lia) (neigh_step_ok s) (neigh_quiet s)) with (q := getq (MLACP (cs_csm s))) (es := es) (s := s)
    as (css & s' & E1 & Hs & Hbat & (Hb & Hl & _)).
  - intros q s1 (_ & _ & H). by inversion H.
  - intros es1 s1 (_ & _ & H). by inversion H.
  - split_and!; [|done|done]. unfold set_MLACP, set. rewrite <- get_bare.
    destruct (bare (cs_csm s)) as [? ? ? ? ? ? ? ? ? ? ? ? ? ? ? ? ? ? a ? ? ? ? ? ? ?], a.
    cbn. unfold MLACP. cbn. by rewrite put_get.
  - done.
  - exists css, s'. done.
Qed.
End NeighbourQueue.

Lemma arp_entry_size m e : arp_of m = Some e -> length (wire_arp e) = 36%nat.
Proof. intros H. by destruct (fill_arp_entry m e [] [] 0 H eq_refl). Qed.

Lemma nd_entry_size m e : nd_of m = Some e -> length (wire_nd e) = 48%nat.
Proof. intros H. by destruct (fill_nd_entry m e [] [] 0 H eq_refl). Qed.

Lemma arp_queue_run s es :
  ready s -> Forall2 (fun m e => arp_of (msg_buf m) = Some e) (ml_arp_msg_list (MLACP (cs_csm s))) es ->
  exists css s', mlacp_sync_send_syncArpInfo s = Some (tt, s')
    /\ sent (T_ArpInfo <$> css) s s' /\ batched 40 es css
    /\ bare (cs_csm s') = set_MLACP (fun m => m <| ml_arp_msg_list := [] |>) (bare (cs_csm s))
    /\ cs_lifs s' = cs_lifs s.
Proof.
  intros Hr Hq. exact (neigh_queue_run ml_arp_msg_list (fun q m => m <| ml_arp_msg_list := q |>)
    36 wire_arp T_ArpInfo arp_of mlacp_prepare_for_arp_info (fun _ => eq_refl) (fun _ _ => eq_refl)
    ltac:(by intros []) (fun _ _ _ => eq_refl) (fun _ _ => eq_refl) arp_entry_size ltac:(done)
    prepare_arp_append (fun _ => eq_refl) s es Hr Hq).
Qed.

Lemma ndisc_queue_run s es :
  ready s -> Forall2 (fun m e => nd_of (msg_buf m) = Some e) (ml_ndisc_msg_list (MLACP (cs_csm s))) es ->
  exists css s', mlacp_sync_send_syncNdiscInfo s = Some (tt, s')
    /\ sent (T_NdiscInfo <$> css) s s' /\ batched 40 es css
    /\ bare (cs_csm s') = set_MLACP (fun m => m <| ml_ndisc_msg_list := [] |>) (bare (cs_csm s))
    /\ cs_lifs s' = cs_lifs s.
Proof.
  intros Hr Hq. exact (neigh_queue_run ml_ndisc_msg_list (fun q m => m <| ml_ndisc_msg_list := q |>)
    48 wire_nd T_NdiscInfo nd_of mlacp_prepare_for_ndisc_info (fun _ => eq_refl) (fun _ _ => eq_refl)
    ltac:(by intros []) (fun _ _ _ => eq_refl) (fun _ _ => eq_refl) nd_entry_size ltac:(done)
    prepare_nd_append (fun _ => eq_refl) s es Hr Hq).
Qed.

(** C23. The neighbour senders empty their queue: every queued entry goes to the peer,
    once and in order, in messages of 40 entries (the last one may hold fewer),
    and nothing else of the session changes. *)
Theorem neighbour_queues_sent s arps nds :
  ready s ->
  Forall2 (fun m e => arp_of (msg_buf m) = Some e) (ml_arp_msg_list (MLACP (cs_csm s))) arps ->
  Forall2 (fun m e => nd_of (msg_buf m) = Some e) (ml_ndisc_msg_list (MLACP (cs_csm s))) nds ->
  (exists css s', mlacp_sync_send_syncArpInfo s = Some (tt, s')
    /\ sent (T_ArpInfo <$> css) s s' /\ batched 40 arps css
    /\ bare (cs_csm s') = set_MLACP (fun m => m <| ml_arp_msg_list := [] |>) (bare (cs_csm s))
    /\ cs_lifs s' = cs_lifs s)
  /\ (exists css s', mlacp_sync_send_syncNdiscInfo s = Some (tt, s')
    /\ sent (T_NdiscInfo <$> css) s s' /\ batched 40 nds css
    /\ bare (cs_csm s') = set_MLACP (fun m => m <| ml_ndisc_msg_list := [] |>) (bare (cs_csm s))
    /\ cs_lifs s' = cs_lifs s).
Proof. intros Hr Ha Hn. split; [by apply arp_queue_run|by apply ndisc_queue_run]. Qed.
