(* ===== verification/Neigh.v ===== *)
(** Neighbours (ARP and ND entries): the list of known ones, the queue for the
    peer, the kernel's table, and this switch's own addresses
    ([mlacp_link_handler.c], [mlacp_fsm.c]).

    The C code has one copy of each function for ARP and one for ND; here they
    are instances of one definition over the layout of the entry. *)

From Stdlib Require Import ZArith Lia.
From stdpp Require Import base list gmap numbers option strings.
From coqutil Require Import Byte Word.LittleEndianList.
From S2P Require Import Prelude CBuf State MsgFormat Wire CsmMsg Csm Port SyncPrepare Syncd MacTable.
From S2P Require Import Kernel Senders.

Definition NEIGH_SYNC_ADD : Z := 1.
Definition NEIGH_SYNC_DEL : Z := 2.
Definition NEIGH_SYNC_FLAG_ACK : Z := 1.
Definition NEIGH_SYNC_FLAG_SELF_LL : Z := 2.
Definition NEIGH_SYNC_FLAG_SELF_IP : Z := 4.
Definition NEIGH_REMOTE : Z := 2.

(** ** Entries *)

(** [struct ARPMsg] and [struct NDISCMsg] start alike; address and MAC follow. *)
Record NeighKind := mkKind {
  nk_family : Z;
  nk_size : nat;
  nk_ip_len : nat;
  nk_queue : mLACP -> list Msg;
  nk_table : mLACP -> list Msg;
  nk_set_queue : list Msg -> mLACP -> mLACP;
  nk_set_table : list Msg -> mLACP -> mLACP;
}.

Definition ARP : NeighKind :=
  mkKind AF_INET ARPMsg.sizeof 4 ml_arp_msg_list ml_arp_list
    (fun l m => m <| ml_arp_msg_list := l |>) (fun l m => m <| ml_arp_list := l |>).
Definition ND : NeighKind :=
  mkKind AF_INET6 NDISCMsg.sizeof 16 ml_ndisc_msg_list ml_ndisc_list
    (fun l m => m <| ml_ndisc_msg_list := l |>) (fun l m => m <| ml_ndisc_list := l |>).

Definition nk_get_op (e : nat) : buf -> option Z := rd8 e.
Definition nk_get_flag (e : nat) : buf -> option Z := rd8 (e + 1).
Definition nk_get_ifname (e : nat) : buf -> option buf := rd (e + 3) MAX_L_PORT_NAME.
Definition nk_get_ip (k : NeighKind) (e : nat) : buf -> option buf := rd (e + 24) (nk_ip_len k).
Definition nk_get_mac (k : NeighKind) (e : nat) : buf -> option buf :=
  rd (e + 24 + nk_ip_len k) ETHER_ADDR_LEN.
Definition nk_set_mac (k : NeighKind) (e : nat) : buf -> buf -> option buf := wr (e + 24 + nk_ip_len k).

(** The members of an entry. *)
Record Neigh := mkNeigh { n_op : Z; n_flag : Z; n_ifname : buf; n_ip : buf; n_mac : buf }.

Definition read_neigh (k : NeighKind) (e : nat) (b : buf) : option Neigh :=
  op ← nk_get_op e b; fl ← nk_get_flag e b; nm ← nk_get_ifname e b;
  ip ← nk_get_ip k e b; mac ← nk_get_mac k e b;
  Some (mkNeigh op fl nm ip mac).

(** An entry written member by member into a zeroed struct. *)
Definition neigh_struct (k : NeighKind) (op flag learn : Z) (name ip mac : buf) : option buf :=
  let b := zeros (Z.of_nat (nk_size k)) in
  b ← wr8 0 op b; b ← wr8 1 flag b; b ← wr8 2 learn b; b ← wr 3 name b; b ← wr 24 ip b;
  nk_set_mac k 0 mac b.

(** ** The kernel's table *)

Definition neigh_set_one (k : NeighKind) (name : buf) (add : bool) (msg : Msg) : M CS unit :=
  n ← lift (read_neigh k 0 (msg_buf msg));
  when (negb (n_op n =? NEIGH_SYNC_DEL) && streq name (n_ifname n))
    (iccp_netlink_neighbor_request (nk_family k) (n_ip n) add (n_mac n) (n_ifname n) false;; mret tt).

(** Additions only while the peers are synchronised. *)
Definition arp_set_handler (lif : LocalInterface) (add : bool) : M CS unit :=
  csm ← the_csm;
  if add && bool_decide (ml_current_state (MLACP csm) <> MLACP_STATE_EXCHANGE) then mret tt
  else foreach (neigh_set_one ARP (lif_name lif) add) (ml_arp_list (MLACP csm)).

(** The deletion branch also passes 1 for [add]. *)
Definition ndisc_set_handler (lif : LocalInterface) (add : bool) : M CS unit :=
  csm ← the_csm;
  if add && bool_decide (ml_current_state (MLACP csm) <> MLACP_STATE_EXCHANGE) then mret tt
  else foreach (neigh_set_one ND (lif_name lif) true) (ml_ndisc_list (MLACP csm)).

(** ** Known entries to the peer, again

    Each picked entry is marked as an addition, in the list, and a copy goes to
    the queue. *)

Fixpoint resend (k : NeighKind) (pick : buf -> bool) (l : list Msg) : option (list Msg * list Msg) :=
  match l with
  | [] => Some ([], [])
  | msg :: l' =>
      name ← nk_get_ifname 0 (msg_buf msg);
      if pick name then
        b ← wr8 0 NEIGH_SYNC_ADD (msg_buf msg);
        b ← wr8 1 0 b;
        m ← iccp_csm_init_msg b (Z.of_nat (nk_size k));
        r ← resend k pick l';
        Some (msg <| msg_buf := b |> :: r.1, match m with inr m => m :: r.2 | inl _ => r.2 end)
      else r ← resend k pick l'; Some (msg :: r.1, r.2)
  end.

Definition neigh_resend (k : NeighKind) (pick : buf -> bool) : M CS unit :=
  csm ← the_csm;
  r ← lift (resend k pick (nk_table k (MLACP csm)));
  on_mlacp (fun m => nk_set_queue k (nk_queue k m ++ r.2) (nk_set_table k r.1 m)).

Definition syn_arp_info_to_peer (lif : LocalInterface) : M CS unit :=
  neigh_resend ARP (fun name => streq name (lif_name lif)).
Definition syn_ndisc_info_to_peer (lif : LocalInterface) : M CS unit :=
  neigh_resend ND (fun name => streq name (lif_name lif)).
Definition mlacp_resync_arp : M CS unit := neigh_resend ARP (fun _ => true).
Definition mlacp_resync_ndisc : M CS unit := neigh_resend ND (fun _ => true).

(** ** Addresses of this switch *)

Definition ip4_bytes (x : Z) : buf := le_split 4 x.
Definition ip6_bytes (x : list Z) : buf := x ≫= le_split 4.

(** [if (msg_len > 0) rc = iccp_csm_send(...)] *)
Definition send_positive (prepare : M CS Z) : M CS Z :=
  memset_buf;;
  msg_len ← prepare;
  if msg_len >? 0 then send_buf msg_len else mret MCLAG_ERROR.

Definition syn_local_mac_info_to_peer (lif : LocalInterface) (sync_add is_sag : bool) : M CS Z :=
  csm ← the_csm;
  if same_mac (ml_system_id (MLACP csm)) null_mac then mret MCLAG_ERROR
  else
    let vid := default 0 (scan_after (if is_sag then str "sag" else VLAN_PREFIX) (lif_name lif)) in
    send_positive (mlacp_prepare_for_mac_info_to_peer
      (zero_mac <| mac_op_type := if sync_add then MAC_SYNC_ADD else MAC_SYNC_DEL |>
         <| mac_vid := u16 vid |> <| mac_fdb_type := MAC_TYPE_STATIC |>
         <| mac_origin_ifname := peer_itf_bytes csm |>
         <| mac_addr := ml_system_id (MLACP csm) |>) 0).

Definition self_op (sync_add : bool) : Z := if sync_add then NEIGH_SYNC_ADD else NEIGH_SYNC_DEL.
Definition self_flag (sync_add ack : bool) (self : Z) : Z :=
  Z.lor (if sync_add && ack then NEIGH_SYNC_FLAG_ACK else 0) self.

Definition syn_local_arp_info_to_peer (lif : LocalInterface) (sync_add ack : bool) : M CS Z :=
  m ← lift (neigh_struct ARP (self_op sync_add) (self_flag sync_add ack NEIGH_SYNC_FLAG_SELF_IP) 0
              (lif_name lif) (ip4_bytes (lif_ipv4_addr lif)) (lif_mac_addr lif));
  send_positive (mlacp_prepare_for_arp_info m 0).

Definition syn_local_nd_info_to_peer (lif : LocalInterface) (sync_add ack is_ipv6_ll : bool) : M CS Z :=
  csm ← the_csm;
  let sid := ml_system_id (MLACP csm) in
  if is_ipv6_ll && ((lif_ll_prefixlen_v6 lif =? 0) || same_mac sid null_mac) then mret MCLAG_ERROR
  else
    m ← lift (if is_ipv6_ll
              then neigh_struct ND (self_op sync_add) (self_flag sync_add ack NEIGH_SYNC_FLAG_SELF_LL) 0
                     (lif_name lif) (ip6_bytes (lif_ipv6_ll_addr lif)) sid
              else neigh_struct ND (self_op sync_add) (self_flag sync_add ack NEIGH_SYNC_FLAG_SELF_IP) 0
                     (lif_name lif) (ip6_bytes (lif_ipv6_addr lif)) (lif_mac_addr lif));
    send_positive (mlacp_prepare_for_ndisc_info m 0).

(** Over the first CSM of the system, whichever CSM the caller works on. *)
Definition syn_local_neigh_mac_info_to_peer (lif : ptr) (sync_add is_v4 is_v6 sync_mac ack is_ipv6_ll : bool)
    : M CS Z :=
  cs ← gets (fun s => sys_csm_list (cs_sys s));
  match cs with
  | [] => mret MCLAG_ERROR
  | c :: _ =>
      focus c
        (csm ← the_csm;
         i ← get_lif lif;
         if bool_decide (ml_current_state (MLACP csm) <> MLACP_STATE_EXCHANGE)
            || negb (lif_type i =? IF_T_VLAN)
         then mret MCLAG_ERROR
         else
           set_peerlink_learn_kernel 0;;
           when sync_mac (syn_local_mac_info_to_peer i sync_add is_ipv6_ll;; mret tt);;
           when is_v4 (syn_local_arp_info_to_peer i sync_add ack;; mret tt);;
           when is_v6 (syn_local_nd_info_to_peer i sync_add ack is_ipv6_ll;; mret tt);;
           mret 0)
  end.

Definition syn_ack_local_neigh_mac_info_to_peer (ifname : buf) (is_ipv6_ll : bool) : M CS unit :=
  ol ← local_if_find_by_name ifname;
  match ol with
  | None => mret tt
  | Some l =>
      i ← get_lif l;
      if is_ipv6_ll then
        syn_local_neigh_mac_info_to_peer l true false true true false true;; mret tt
      else
        when (truth (lif_l3_mode i) && lif_is_l3_proto_enabled i)
          (syn_local_neigh_mac_info_to_peer l true (truth (lif_ipv4_addr i))
             (truth (lif_prefixlen_v6 i)) true false false;; mret tt)
  end.

Definition is_unique_ip_configured (ifname : buf) : M CS bool :=
  gets (fun s => existsb (fun n => streq n ifname) (sys_unq_ip_if_list (cs_sys s))).

Definition sync_unique_ip : M CS unit :=
  ns ← gets (fun s => sys_unq_ip_if_list (cs_sys s));
  foreach (fun n => syn_ack_local_neigh_mac_info_to_peer n false) ns.
