(* ===== verification/MacSend.v ===== *)
(** Sending the MAC queue: [mlacp_sync_send_syncMacInfo] reports every queued
    entry and keeps the table well formed. *)

From Stdlib Require Import ZArith Lia Sorted.
From stdpp Require Import base list gmap numbers option fin_sets.
From coqutil Require Import Byte Word.LittleEndianList.
From S2P Require Import Prelude CBuf State MsgFormat Wire CsmMsg Csm SyncPrepare MacTable MacInv.
From S2P Require Import MacSync Senders.

(** A CSM up to its MAC heap and queue. *)
Definition bare_mac (c : CSM) : CSM :=
  set_MLACP (fun m => m <| ml_mac_heap := ∅ |> <| ml_mac_msg_list := [] |>) (bare c).

(** [q] is left of the queue of [s0], to be sent as [es]. *)
Record mac_left (s0 : CS) (q : list ptr) (es : list MacEntry) (s : CS) : Prop := mk_mac_left {
  mq_wf : WF s;
  mq_queue : queue s = q;
  mq_table : table s = table s0;
  mq_entries : Forall2 (fun p e => mac_entry <$> heap s !! p = Some e) q es;
  mq_bare : bare_mac (cs_csm s) = bare_mac (cs_csm s0);
  mq_lifs : cs_lifs s = cs_lifs s0;
}.

Lemma mac_left_quiet s0 q es s s' :
  bare (cs_csm s') = bare (cs_csm s) -> cs_lifs s' = cs_lifs s -> cs_sys s' = cs_sys s ->
  mac_left s0 q es s -> mac_left s0 q es s'.
Proof.
  intros Hb Hl _ [Hwf Hq Ht He Hbm Hlf].
  assert (Em : ml_mac_heap (MLACP (cs_csm s')) = ml_mac_heap (MLACP (cs_csm s))
    /\ ml_mac_rb (MLACP (cs_csm s')) = ml_mac_rb (MLACP (cs_csm s))
    /\ ml_mac_msg_list (MLACP (cs_csm s')) = ml_mac_msg_list (MLACP (cs_csm s))).
  { split_and!.
    - by apply (bare_proj (fun c => ml_mac_heap (MLACP c))).
    - by apply (bare_proj (fun c => ml_mac_rb (MLACP c))).
    - by apply (bare_proj (fun c => ml_mac_msg_list (MLACP c))). }
  destruct Em as (Eh & Er & El). split; try congruence.
  - destruct Hwf as [H1 H2 H3 H4]. split; by rewrite ?Eh, ?Er, ?El.
  - rewrite <- Ht. unfold mac_table, mac_at. by rewrite Er, Eh.
  - eapply Forall2_impl; [exact He|]. intros p e. by rewrite Eh.
  - unfold bare_mac in *. by rewrite Hb.
Qed.

(** The end of a step: a deletion whose key left the tree is released. *)
Lemma mac_release p m s :
  WF s -> heap s !! p = Some m ->
  exists s', when (mac_op_type m =? MAC_SYNC_DEL)
      (found ← mac_rb_find (mac_find (mac_vid m) (mac_addr m));
       match found with None => free_mac p | Some _ => mret tt end) s = Some (tt, s')
    /\ (s' = s \/ (p ∉ rb s)
         /\ s' = s <| cs_csm ::= set_MLACP (fun t => t <| ml_mac_heap ::= delete p |>) |>).
Proof.
  intros Hwf Em. destruct (mac_op_type m =? MAC_SYNC_DEL); cbn [when]; [|by eauto].
  destruct (mac_rb_find_spec (mac_find (mac_vid m) (mac_addr m)) s) as (o & E & Ho);
    [by destruct (wf_entry _ Hwf _ _ Em) as [[? _] _]|done|].
  rewrite (bind_Some _ _ _ _ _ E). destruct o as [x|]; [by eauto|].
  eexists. split; [unfold free_mac; by rewrite (bind_Some _ _ _ _ _ (get_mac_run p m s Em))|].
  right. split; [|done]. intros Hp. apply Ho.
  change (mac_key (mac_find (mac_vid m) (mac_addr m))) with (mac_key m).
  replace (mac_key m) with (key_at (heap s) p) by (unfold key_at; by rewrite Em).
  by apply (list_elem_of_fmap_2 (key_at (heap s))).
Qed.

Lemma mac_step_ok s0 p q e es acc id0 s :
  mac_left s0 (p :: q) (e :: es) s -> ready s ->
  g_csm_buf (cs_g s) = list_buf T_MacInfo id0 (rg_id s) acc ->
  entries_ok 30 wire_mac acc -> (length acc < 30)%nat ->
  length (wire_mac e) = 30%nat /\ exists s',
    mac_step p (Z.of_nat (length acc)) s = Some (list_size 30 (S (length acc)), s')
    /\ g_csm_buf (cs_g s') = list_buf T_MacInfo (cur_id s) (rg_id s) (acc ++ [e])
    /\ mac_left s0 q es s' /\ sent [] s s'.
Proof.
  intros [Hwf Hq Ht He Hb Hl] Hr Hbuf Hok Hlt. apply Forall2_cons_1 in He as [Hp He].
  destruct (heap s !! p) as [m|] eqn:Em; [|done]. apply (inj Some) in Hp. subst e.
  destruct (wf_entry _ Hwf _ _ Em) as [Hm _]. split; [by apply wire_mac_length|].
  assert (Hn : p ∉ q) by (pose proof (wf_nodup _ Hwf) as Hn; rewrite Hq in Hn; by inversion Hn).
  unfold mac_step.
  set (s1 := s <| cs_csm ::= set_MLACP (fun m => m <| ml_mac_msg_list ::= tail |>) |>).
  rewrite (bind_Some (on_mlacp _) _ s tt s1) by done.
  rewrite (bind_Some _ _ _ _ _ (get_mac_run p m s1 Em)).
  rewrite (bind_Some _ _ _ _ _ (prepare_mac_append s1 m acc id0 (rg_id s) Hbuf Hok Hm
    ltac:(unfold list_size; cbn; unfold CSM_BUFFER_SIZE; lia))).
  set (s2 := with_buf s1 _).
  assert (Hq2 : queue s2 = q) by (cbn; unfold MLACP in Hq; by rewrite Hq).
  assert (Hwf2 : WF s2).
  { pose proof (wf_dequeue _ Hwf p q Hq) as Hd.
    change (mac_wf (MLACP (cs_csm s) <| ml_mac_msg_list ::= tail |>)).
    replace (MLACP (cs_csm s) <| ml_mac_msg_list ::= tail |>)
      with (MLACP (cs_csm s) <| ml_mac_msg_list := q |>); [done|]. unfold set. by rewrite Hq. }
  assert (Hr2 : ready s2).
  { destruct Hr. split; try done. unfold cur_id. cbn. apply u32_range. }
  destruct (mac_release p m s2 Hwf2 Em) as (s3 & E3 & H3).
  rewrite (bind_Some _ _ _ _ _ E3). exists s3. split; [done|].
  destruct H3 as [->|[Hrb ->]].
  - split_and!; [done| |by apply sent_quiet]. by split.
  - split_and!; [done| |by apply sent_quiet; [destruct Hr2|..]]. split; try done.
    + apply wf_free; [done..|]. change (p ∉ queue s2). by rewrite Hq2.
    + rewrite <- Ht. apply table_same; [done|]. intros x Hx. cbn.
      rewrite lookup_delete_ne; [done|]. intros <-. done.
    + apply Forall2_same_length_lookup. split; [by eapply Forall2_length|].
      intros i x y Hx Hy. cbn. rewrite lookup_delete_ne.
      * by eapply (Forall2_lookup_lr _ _ _ _ _ _ He).
      * intros <-. apply Hn. by eapply list_elem_of_lookup_2.
Qed.

