(* ===== verification/SendAll.v ===== *)
(** The reply to a synchronisation request: [mlacp_sync_send_all_info_handler]
    sends everything, in a fixed order, and moves to the next stage. *)

From Stdlib Require Import ZArith Lia.
From stdpp Require Import base list gmap numbers option.
From coqutil Require Import Byte Word.LittleEndianList.
From S2P Require Import Prelude CBuf State MsgFormat Wire CsmMsg Csm SyncPrepare MacTable MacInv.
From S2P Require Import Senders.

(** ** The messages *)

Definition sys_config_tlv (m : mLACP) : Tlv :=
  T_SysConfig (ml_system_id m) (ml_system_priority m) (ml_node_id m).

Definition agg_config_tlv (purge : Z) (i : LocalInterface) : Tlv :=
  T_AggConfig (lif_po_id i) (lif_mac_addr i) (if purge =? 1 then 2 else 1) (strlen (lif_name i))
    (lif_name i).

Definition agg_state_tlv (i : LocalInterface) : Tlv := T_AggState (lif_po_id i) (lif_state i).

Definition peer_link_tlvs (s : CS) : list Tlv :=
  match csm_peer_link_if (cs_csm s) with
  | None => []
  | Some l => match cs_lifs s !! l with
              | Some i => [T_PeerLinkInfo (lif_name i) (lif_type i)] | None => [] end
  end.

(** The whole reply, given the batches of the neighbour queues. *)
Definition all_info (s : CS) (arps : list (list ArpEntry)) (nds : list (list NdEntry)) : list Tlv :=
  let req := ml_sync_req_num (MLACP (cs_csm s)) in
  [T_SyncData req 0]
  ++ [sys_config_tlv (MLACP (cs_csm s))]
  ++ (agg_config_tlv 0 <$> port_channels s)
  ++ (agg_state_tlv <$> port_channels s)
  ++ (port_channel_tlv <$> port_channels s)
  ++ peer_link_tlvs s
  ++ (T_ArpInfo <$> arps)
  ++ (T_NdiscInfo <$> nds)
  ++ [T_SyncData req 1].

(** ** States from which everything can be sent *)

Definition pc_ok (i : LocalInterface) : Prop :=
  lif_ok i /\ 52 + 2 * Z.of_nat (length (lif_vlan_tree i)) <= CSM_BUFFER_SIZE.

Record sendable (s : CS) : Prop := mk_sendable {
  sd_live : forall l, l ∈ ml_lif_list (MLACP (cs_csm s)) -> l ∈ dom (cs_lifs s);
  sd_pcs : Forall pc_ok (port_channels s);
  sd_link : forall l, csm_peer_link_if (cs_csm s) = Some l ->
    exists i, cs_lifs s !! l = Some i /\ lif_ok i;
  sd_id : length (ml_system_id (MLACP (cs_csm s))) = ETHER_ADDR_LEN;
}.

(** [ts] was sent and [G] happened to the application data. *)
Record progress (s0 : CS) (ts : list Tlv) (G : mLACP -> mLACP) (s : CS) : Prop := mk_progress {
  pg_sent : sent ts s0 s;
  pg_bare : bare (cs_csm s) = set_MLACP G (bare (cs_csm s0));
  pg_lifs : lifs_sim s0 s;
}.

(** Changes that leave the messages alone. *)
Definition tame (G : mLACP -> mLACP) : Prop :=
  forall m, ml_lif_list (G m) = ml_lif_list m /\ sys_config_tlv (G m) = sys_config_tlv m
    /\ ml_sync_req_num (G m) = ml_sync_req_num m.

Lemma progress_nil s : ready s -> progress s [] id s.
Proof.
  intros H. split; [by apply sent_nil| |apply lifs_sim_refl]. unfold set_MLACP, set.
  by destruct (bare (cs_csm s)) as [? ? ? ? ? ? ? ? ? ? ? ? ? ? ? ? ? ? [] ? ? ? ? ? ? ?].
Qed.

Lemma progress_trans s0 s1 s2 ts1 ts2 G H :
  progress s0 ts1 G s1 -> progress s1 ts2 H s2 -> progress s0 (ts1 ++ ts2) (fun m => H (G m)) s2.
Proof.
  intros [S1 B1 L1] [S2 B2 L2].
  split; [by eapply sent_trans|by rewrite B2, B1|by eapply lifs_sim_trans].
Qed.

Section Transfer.
Context (s0 s : CS) (ts : list Tlv) (G : mLACP -> mLACP) (HG : tame G) (Hp : progress s0 ts G s).

Lemma tame_proj {A} (f : mLACP -> A) :
  (forall m, f (m <| ml_dbg_counters := ∅ |>) = f m) -> (forall m, f (G m) = f m) ->
  f (MLACP (cs_csm s)) = f (MLACP (cs_csm s0)).
Proof.
  intros H1 H2. rewrite <- (H1 (MLACP (cs_csm s))), <- bare_MLACP, (pg_bare _ _ _ _ Hp).
  change (MLACP (set_MLACP G (bare (cs_csm s0)))) with (G (MLACP (bare (cs_csm s0)))).
  by rewrite H2, bare_MLACP, H1.
Qed.

Lemma tame_list : ml_lif_list (MLACP (cs_csm s)) = ml_lif_list (MLACP (cs_csm s0)).
Proof. apply tame_proj; [done|]. apply HG. Qed.

Lemma tame_link : csm_peer_link_if (cs_csm s) = csm_peer_link_if (cs_csm s0).
Proof.
  change (csm_peer_link_if (bare (cs_csm s)) = csm_peer_link_if (bare (cs_csm s0))).
  by rewrite (pg_bare _ _ _ _ Hp).
Qed.

Lemma tame_port_channels : port_channels s = port_channels s0.
Proof.
  unfold port_channels. rewrite tame_list. apply list_omap_ext, Forall_Forall2_diag.
  apply Forall_true. intros l. pose proof (pg_lifs _ _ _ _ Hp l) as E.
  destruct (cs_lifs s !! l) as [i|], (cs_lifs s0 !! l) as [j|]; try done.
  apply (inj Some) in E. cbn. by rewrite (bare_lif_type i), (bare_lif_type j), E.
Qed.

Lemma tame_peer_link : peer_link_tlvs s = peer_link_tlvs s0.
Proof.
  unfold peer_link_tlvs. rewrite tame_link. destruct (csm_peer_link_if _) as [l|]; [|done].
  pose proof (pg_lifs _ _ _ _ Hp l) as E.
  destruct (cs_lifs s !! l) as [i|], (cs_lifs s0 !! l) as [j|]; try done. apply (inj Some) in E.
  change (lif_name i) with (lif_name (bare_lif i)). change (lif_type i) with (lif_type (bare_lif i)).
  by rewrite E.
Qed.

Lemma tame_sendable : sendable s0 -> sendable s.
Proof.
  intros [H1 H2 H3 H4]. pose proof (pg_lifs _ _ _ _ Hp) as Hsim. split.
  - intros l. rewrite tame_list. intros [j E]%H1%elem_of_dom. apply elem_of_dom.
    specialize (Hsim l). rewrite E in Hsim. by destruct (cs_lifs s !! l).
  - by rewrite tame_port_channels.
  - intros l. rewrite tame_link. intros (j & E & Hj)%H3. specialize (Hsim l). rewrite E in Hsim.
    destruct (cs_lifs s !! l) as [i|]; [|done]. exists i. split; [done|].
    apply (inj Some) in Hsim. change (lif_ok (bare_lif i)). by rewrite Hsim.
  - rewrite (tame_proj ml_system_id); [done|done|]. intros m.
    destruct (HG m) as (_ & E & _). unfold sys_config_tlv in E. by injection E.
Qed.
End Transfer.

(** ** The senders make progress *)

Lemma prepares_id prep t s :
  prep s = Some (wire_size t, with_msg s (wire_msg MSG_T_RG_APP_DATA (cur_id s) (rg_id s) t)) ->
  prepares prep id t s.
Proof. intros E. unfold prepares. rewrite E. by destruct (with_msg _ _). Qed.

Lemma same_progress s ts s' : sent ts s s' -> same s s' -> progress s ts id s'.
Proof.
  intros Hs [Hb Hl]. split; [done| |done]. rewrite Hb. unfold set_MLACP, set.
  by destruct (bare (cs_csm s)) as [? ? ? ? ? ? ? ? ? ? ? ? ? ? ? ? ? ? [] ? ? ? ? ? ? ?].
Qed.

(** A function that builds [t] from any state of this CSM. *)
Definition builds (prep : M CS Z) (c : CSM) (t : Tlv) : Prop :=
  forall s, cs_csm s = c ->
    prep s = Some (wire_size t, with_msg s (wire_msg MSG_T_RG_APP_DATA (cur_id s) (rg_id s) t)).

Lemma send_progress prep t s :
  ready s -> builds prep (cs_csm s) t -> wp (send_prepared prep) (fun _ => progress s [t] id) s.
Proof.
  intros Hr Hp. destruct (send_prepared_run prep id t s Hr) as (s' & E & Hs & Hb & Hl);
    [done|by apply prepares_id, Hp|].
  exists (wire_size t), s'. split; [done|]. apply same_progress; [done|].
  split; [done|by apply lifs_sim_eq].
Qed.

(** The two senders that test the length first. *)
Lemma send_positive prep t s :
  ready s -> builds prep (cs_csm s) t ->
  wp (memset_buf;; n ← prep; when (n >? 0) (send_buf n;; mret tt)) (fun _ => progress s [t] id) s.
Proof.
  intros Hr Hp. destruct (send_progress prep t s Hr Hp) as (n & s' & E & Hpr).
  exists tt, s'. split; [|done]. unfold send_prepared in E.
  rewrite (bind_Some memset_buf _ s tt (cleared s)) in E by done.
  rewrite (bind_Some memset_buf _ s tt (cleared s)) by done.
  rewrite (bind_Some _ _ _ _ _ (Hp (cleared s) eq_refl)) in E.
  rewrite (bind_Some _ _ _ _ _ (Hp (cleared s) eq_refl)).
  replace (wire_size t >? 0) with true
    by (symmetry; unfold wire_size; rewrite Z.gtb_lt; lia).
  cbn [when]. by rewrite (bind_Some _ _ _ _ _ E).
Qed.

Lemma sysConf_progress s :
  ready s -> sendable s ->
  wp mlacp_sync_send_sysConf (fun _ => progress s [sys_config_tlv (MLACP (cs_csm s))] id) s.
Proof.
  intros Hr Hsd. apply send_positive; [done|]. intros s1 E. pose proof (sd_id _ Hsd) as Hid.
  rewrite <- E in *. rewrite prepare_sys_config_wire by done. do 2 f_equal.
  unfold wire_size, sys_config_tlv. cbn [wire_payload]. autorewrite with len. by rewrite Hid.
Qed.

Lemma aggConf_progress s :
  ready s -> sendable s ->
  wp mlacp_sync_send_aggConf (fun _ => progress s (agg_config_tlv 0 <$> port_channels s) id) s.
Proof.
  intros Hr [Hlive Hpcs _ _].
  eapply wp_mono; [apply (for_port_channels_run _ (agg_config_tlv 0) _ pc_ok)|]; try done.
  - intros i s1 [Hi _] _. apply prepares_id.
    change (agg_config_tlv 0 (bare_lif i)) with (agg_config_tlv 0 i). change (lif_ok i) in Hi.
    rewrite (prepare_aggport_config_wire s1 i 0 Hi). do 2 f_equal.
    unfold wire_size, agg_config_tlv. cbn [wire_payload]. destruct Hi as (Hn & _ & Hm).
    autorewrite with len. rewrite Hn, Hm, pad_length by (cbn; lia). done.
  - intros ? s' [Hs Hsame]. by apply same_progress.
Qed.

Lemma aggState_progress s :
  ready s -> sendable s ->
  wp mlacp_sync_send_aggState (fun _ => progress s (agg_state_tlv <$> port_channels s) id) s.
Proof.
  intros Hr [Hlive Hpcs _ _].
  eapply wp_mono; [apply (for_port_channels_run _ agg_state_tlv _ pc_ok)|]; try done.
  - intros i s1 _ Ht. apply prepares_id. by apply prepare_aggport_state_wire.
  - intros ? s' [Hs Hsame]. by apply same_progress.
Qed.

Lemma portChannelInfo_progress s :
  ready s -> sendable s ->
  wp mlacp_sync_send_syncPortChannelInfo
    (fun _ => progress s (port_channel_tlv <$> port_channels s) id) s.
Proof.
  intros Hr [Hlive Hpcs _ _].
  eapply wp_mono; [apply (for_port_channels_run _ port_channel_tlv _ pc_ok)|]; try done.
  - intros i s1 [Hi Hv] Ht. apply prepares_id. change (lif_ok i) in Hi.
    change (52 + 2 * Z.of_nat (length (lif_vlan_tree i)) <= CSM_BUFFER_SIZE) in Hv.
    change (port_channel_tlv (bare_lif i)) with (port_channel_tlv i).
    rewrite prepare_port_channel_wire by (done || by rewrite Ht). do 2 f_equal.
    destruct Hi as (Hn & Hz & _). apply cstr_nul_length in Hz. rewrite Hn in Hz.
    unfold MAX_L_PORT_NAME in *.
    unfold wire_size, port_channel_tlv. cbn [wire_payload]. autorewrite with len.
    rewrite pad_length, length_map by lia. lia.
  - intros ? s' [Hs Hsame]. by apply same_progress.
Qed.

Lemma peerLink_progress s :
  ready s -> sendable s ->
  wp mlacp_sync_send_syncPeerLinkInfo (fun _ => progress s (peer_link_tlvs s) id) s.
Proof.
  intros Hr [_ _ Hlk _]. unfold mlacp_sync_send_syncPeerLinkInfo, peer_link_tlvs.
  apply wp_bind, wp_gets. destruct (csm_peer_link_if (cs_csm s)) as [l|];
    [|by apply wp_ret, progress_nil].
  destruct (Hlk l eq_refl) as (i & Ei & Hi). rewrite Ei.
  apply wp_bind. exists i, s. split; [unfold get_lif; by rewrite Ei|].
  apply wp_bind. eapply wp_mono; [apply send_progress; [done|]|].
  - intros s1 _. rewrite prepare_peerlink_wire by done. do 2 f_equal.
    destruct Hi as (Hn & _ & _). unfold wire_size. cbn [wire_payload]. autorewrite with len.
    by rewrite Hn.
  - intros n s' Hp. by apply wp_ret.
Qed.

Lemma syncData_progress s e :
  ready s ->
  wp (send_prepared (mlacp_prepare_for_sync_data_tlv e))
    (fun _ => progress s [T_SyncData (ml_sync_req_num (MLACP (cs_csm s))) (if e =? 0 then 0 else 1)] id) s.
Proof.
  intros Hr. apply send_progress; [done|]. intros s1 E. by rewrite prepare_sync_data_wire, E.
Qed.

(** A change of the application data between two sends. *)
Definition bare_ok (f : mLACP -> mLACP) : Prop :=
  forall m, f m <| ml_dbg_counters := ∅ |> = f (m <| ml_dbg_counters := ∅ |>).

Lemma bare_set f c : bare_ok f -> bare (set_MLACP f c) = set_MLACP f (bare c).
Proof.
  intros Hf. pose proof (Hf (MLACP c)) as E. unfold bare, set_MLACP, MLACP, set in *. cbn in *.
  by rewrite E.
Qed.

Lemma mlacp_progress f s :
  ready s -> bare_ok f -> progress s [] f (s <| cs_csm ::= set_MLACP f |>).
Proof.
  intros Hr Hf. split; [|by apply bare_set|by apply lifs_sim_eq].
  apply sent_quiet; try done. by apply ready_harmless.
Qed.

Lemma syncDone_progress s :
  ready s ->
  wp mlacp_sync_send_syncDoneData
    (fun _ => progress s [T_SyncData (ml_sync_req_num (MLACP (cs_csm s))) 1]
       (fun m => m <| ml_wait_for_sync_data := 0 |>)) s.
Proof.
  intros Hr. apply wp_bind, wp_on_mlacp.
  set (f := fun m : mLACP => m <| ml_wait_for_sync_data := 0 |>).
  assert (H1 : progress s [] f (s <| cs_csm ::= set_MLACP f |>)) by by apply mlacp_progress.
  apply wp_bind. eapply wp_mono; [apply syncData_progress, H1|]. intros n s' H2. apply wp_ret.
  exact (progress_trans _ _ _ _ _ _ _ H1 H2).
Qed.

(** ** The loop *)

Lemma progress_ext s0 ts G H s :
  G (MLACP (bare (cs_csm s0))) = H (MLACP (bare (cs_csm s0))) ->
  progress s0 ts G s -> progress s0 ts H s.
Proof.
  intros E [Hs Hb Hl]. split; [done| |done]. rewrite Hb. unfold set_MLACP, set, MLACP in *. cbn in *.
  by rewrite E.
Qed.

(** What the reply has done to the application data when the loop is in state
    [st] and the neighbour queues hold [a] and [n]. *)
Definition in_reply (st : MLACP_SYNC_STATE) (a n : list Msg) (m : mLACP) : mLACP :=
  m <| ml_sync_state := st |> <| ml_arp_msg_list := a |> <| ml_ndisc_msg_list := n |>.

Lemma in_reply_tame st a n : tame (in_reply st a n). Proof. done. Qed.

Lemma in_reply_sync s0 ts st a n s :
  progress s0 ts (in_reply st a n) s ->
  ml_sync_state (MLACP (cs_csm s)) = st /\ ml_arp_msg_list (MLACP (cs_csm s)) = a
  /\ ml_ndisc_msg_list (MLACP (cs_csm s)) = n
  /\ ml_current_state (MLACP (cs_csm s)) = ml_current_state (MLACP (cs_csm s0)).
Proof.
  intros [_ Hb _].
  change (ml_sync_state (MLACP (bare (cs_csm s))) = st
    /\ ml_arp_msg_list (MLACP (bare (cs_csm s))) = a
    /\ ml_ndisc_msg_list (MLACP (bare (cs_csm s))) = n
    /\ ml_current_state (MLACP (bare (cs_csm s))) = ml_current_state (MLACP (bare (cs_csm s0)))).
  by rewrite Hb.
Qed.

(** One turn of the loop: the sender of the current state, then the next state. *)
Lemma send_all_turn fuel s0 ts st a n s ts' a' n' (Q : unit -> CS -> Prop) :
  progress s0 ts (in_reply st a n) s -> st <> MLACP_SYNC_DONE ->
  wp mlacp_sync_sender_handler (fun _ => progress s ts' (in_reply st a' n')) s ->
  (forall s', progress s0 (ts ++ ts') (in_reply (next_sync st) a' n') s' ->
     wp (send_all_loop fuel) Q s') ->
  wp (send_all_loop (S fuel)) Q s.
Proof.
  intros H0 Hne Hw HQ. cbn [send_all_loop]. apply wp_bind. eapply wp_mono; [exact Hw|].
  intros ? s1 H1. apply wp_bind, wp_gets. destruct (in_reply_sync _ _ _ _ _ _ H1) as (E1 & _).
  rewrite E1, bool_decide_eq_true_2 by done. apply wp_bind, wp_on_mlacp, HQ.
  set (f := fun m : mLACP => m <| ml_sync_state ::= next_sync |>).
  assert (H2 : progress s1 [] f (s1 <| cs_csm ::= set_MLACP f |>))
    by (apply mlacp_progress; [apply H1|by intros ?]).
  rewrite <- (app_nil_r ts'), app_assoc. eapply progress_ext; [|eapply progress_trans;
    [eapply progress_trans; [exact H0|exact H1]|exact H2]]. done.
Qed.

(** A sender that leaves the application data alone. *)
Lemma quiet_turn st a n s0 ts s ts' (W : M CS unit) :
  progress s0 ts (in_reply st a n) s -> wp W (fun _ => progress s ts' id) s ->
  wp W (fun _ => progress s ts' (in_reply st a n)) s.
Proof.
  intros H0 Hw. eapply wp_mono; [exact Hw|]. intros ? s' H. eapply progress_ext; [|exact H].
  destruct (in_reply_sync _ _ _ _ _ _ H0) as (E1 & E2 & E3 & _).
  rewrite bare_MLACP. destruct (MLACP (cs_csm s)). cbn in *. by subst.
Qed.

Ltac handler H :=
  unfold mlacp_sync_sender_handler; apply wp_bind, wp_gets;
  rewrite (proj1 (in_reply_sync _ _ _ _ _ _ H)); cbn beta iota.

(** The turns up to the neighbour queues. *)
Lemma send_all_first fuel s0 ts s a n (Q : unit -> CS -> Prop) :
  sendable s0 -> progress s0 ts (in_reply MLACP_SYNC_SYSCONF a n) s ->
  (forall s', progress s0
      (ts ++ [sys_config_tlv (MLACP (cs_csm s0))] ++ (agg_config_tlv 0 <$> port_channels s0)
       ++ (agg_state_tlv <$> port_channels s0) ++ (port_channel_tlv <$> port_channels s0)
       ++ peer_link_tlvs s0)
      (in_reply MLACP_SYNC_ARP_INFO a n) s' -> wp (send_all_loop fuel) Q s') ->
  wp (send_all_loop (S (S (S (S (S fuel)))))) Q s.
Proof.
  intros Hsd H0 HQ.
  assert (Hpc : forall st ts s, progress s0 ts (in_reply st a n) s -> port_channels s = port_channels s0)
    by (intros; eapply tame_port_channels; [apply in_reply_tame|eassumption]).
  assert (Hok : forall st ts s, progress s0 ts (in_reply st a n) s -> ready s /\ sendable s)
    by (intros ? ? ? H; split; [apply H|eapply tame_sendable; [apply in_reply_tame|eassumption..]]).
  eapply send_all_turn; [exact H0|done| |].
  { handler H0. eapply quiet_turn; [exact H0|]. destruct (Hok _ _ _ H0). by apply sysConf_progress. }
  intros s1 H1. eapply send_all_turn; [exact H1|done| |].
  { handler H1. eapply quiet_turn; [exact H1|]. destruct (Hok _ _ _ H1). by apply aggConf_progress. }
  intros s2 H2. eapply send_all_turn; [exact H2|done| |].
  { handler H2. eapply quiet_turn; [exact H2|]. destruct (Hok _ _ _ H2). by apply aggState_progress. }
  intros s3 H3. eapply send_all_turn; [exact H3|done| |].
  { handler H3. eapply quiet_turn; [exact H3|]. destruct (Hok _ _ _ H3).
    by apply portChannelInfo_progress. }
  intros s4 H4. eapply send_all_turn; [exact H4|done| |].
  { handler H4. eapply quiet_turn; [exact H4|]. destruct (Hok _ _ _ H4). by apply peerLink_progress. }
  intros s5 H5. apply HQ. revert H5. rewrite <- !app_assoc.
  rewrite (Hpc _ _ _ H1), (Hpc _ _ _ H2), (Hpc _ _ _ H3).
  rewrite (tame_peer_link _ _ _ _ H4).
  replace (sys_config_tlv (MLACP (cs_csm s))) with (sys_config_tlv (MLACP (cs_csm s0))); [done|].
  symmetry. by apply (tame_proj _ _ _ _ H0 sys_config_tlv).
Qed.

(** The turns of the two neighbour queues. *)
Lemma send_all_neighbours fuel s0 ts s a n arps nds (Q : unit -> CS -> Prop) :
  progress s0 ts (in_reply MLACP_SYNC_ARP_INFO a n) s ->
  Forall2 (fun m e => arp_of (msg_buf m) = Some e) a arps ->
  Forall2 (fun m e => nd_of (msg_buf m) = Some e) n nds ->
  (forall s' ca cn, batched 40 arps ca -> batched 40 nds cn ->
     progress s0 (ts ++ (T_ArpInfo <$> ca) ++ (T_NdiscInfo <$> cn)) (in_reply MLACP_SYNC_DONE [] []) s' ->
     wp (send_all_loop fuel) Q s') ->
  wp (send_all_loop (S (S fuel))) Q s.
Proof.
  intros H0 Ha Hn HQ. destruct (in_reply_sync _ _ _ _ _ _ H0) as (E1 & E2 & E3 & _).
  destruct (arp_queue_run s arps) as (ca & s1 & R1 & S1 & C1 & B1 & L1); [apply H0|by rewrite E2|].
  eapply (send_all_turn _ _ _ _ _ _ _ (T_ArpInfo <$> ca) [] n); [exact H0|done| |].
  { handler H0. exists tt, s1. split; [done|]. split; [done| |by apply lifs_sim_eq].
    rewrite B1. unfold set_MLACP, set, in_reply, MLACP in *. cbn in *. by rewrite E1, E3. }
  intros s2 H2. destruct (in_reply_sync _ _ _ _ _ _ H2) as (F1 & F2 & F3 & _).
  destruct (ndisc_queue_run s2 nds) as (cn & s3 & R3 & S3 & C3 & B3 & L3); [apply H2|by rewrite F3|].
  eapply (send_all_turn _ _ _ _ _ _ _ (T_NdiscInfo <$> cn) [] []); [exact H2|done| |].
  { handler H2. exists tt, s3. split; [done|]. split; [done| |by apply lifs_sim_eq].
    rewrite B3. unfold set_MLACP, set, in_reply, MLACP in *. cbn in *. by rewrite F1, F2. }
  intros s4 H4. apply (HQ s4 ca cn); [done..|]. by rewrite app_assoc.
Qed.

(** The data of the application after the reply. *)
Definition after_all (next : MLACP_APP_STATE) (m : mLACP) : mLACP :=
  in_reply MLACP_SYNC_DONE [] [] m <| ml_wait_for_sync_data := 0 |> <| ml_current_state := next |>.

(** The last turn: the end marker, then the stage. *)
Lemma send_all_last s0 ts s next :
  progress s0 ts (in_reply MLACP_SYNC_DONE [] []) s ->
  next_stage (ml_current_state (MLACP (cs_csm s0))) = Some next ->
  wp (send_all_loop 1)
    (fun _ => progress s0 (ts ++ [T_SyncData (ml_sync_req_num (MLACP (cs_csm s0))) 1]) (after_all next)) s.
Proof.
  intros H0 Hnext. cbn [send_all_loop]. apply wp_bind. handler H0.
  eapply wp_mono; [apply syncDone_progress, H0|]. intros ? s1 H1.
  rewrite (tame_proj _ _ _ _ H0 ml_sync_req_num) in H1 by done.
  pose proof (progress_trans _ _ _ _ _ _ _ H0 H1) as H2. set (F := fun m => _) in H2.
  assert (E : ml_sync_state (MLACP (cs_csm s1)) = MLACP_SYNC_DONE
    /\ ml_current_state (MLACP (cs_csm s1)) = ml_current_state (MLACP (cs_csm s0))).
  { change (ml_sync_state (MLACP (bare (cs_csm s1))) = MLACP_SYNC_DONE
      /\ ml_current_state (MLACP (bare (cs_csm s1))) = ml_current_state (MLACP (bare (cs_csm s0)))).
    by rewrite (pg_bare _ _ _ _ H2). }
  destruct E as [E1 E2]. apply wp_bind, wp_gets. rewrite E1, bool_decide_eq_false_2 by auto.
  apply wp_bind, wp_on_mlacp. apply wp_bind, wp_gets, wp_bind.
  cbn [cs_csm]. exists next. eexists. split.
  { unfold lift. rewrite <- E2 in Hnext. unfold set_MLACP, set, MLACP in *. cbn in *. by rewrite Hnext. }
  apply wp_on_mlacp. set (f := fun m : mLACP => m <| ml_wait_for_sync_data := 0 |>).
  set (g := fun m : mLACP => m <| ml_current_state := next |>).
  assert (H3 : progress s1 [] f (s1 <| cs_csm ::= set_MLACP f |>))
    by (apply mlacp_progress; [apply H1|by intros ?]).
  set (s2 := s1 <| cs_csm ::= set_MLACP f |>) in *.
  assert (H4 : progress s2 [] g (s2 <| cs_csm ::= set_MLACP g |>))
    by (apply mlacp_progress; [apply H3|by intros ?]).
  pose proof (progress_trans _ _ _ _ _ _ _ H2 (progress_trans _ _ _ _ _ _ _ H3 H4)) as H5.
  rewrite app_nil_r in H5. eapply progress_ext; [|exact H5]. done.
Qed.

Lemma send_all_reply s arps nds next :
  ready s -> sendable s ->
  Forall2 (fun m e => arp_of (msg_buf m) = Some e) (ml_arp_msg_list (MLACP (cs_csm s))) arps ->
  Forall2 (fun m e => nd_of (msg_buf m) = Some e) (ml_ndisc_msg_list (MLACP (cs_csm s))) nds ->
  next_stage (ml_current_state (MLACP (cs_csm s))) = Some next ->
  exists ca cn s', mlacp_sync_send_all_info_handler s = Some (tt, s')
    /\ batched 40 arps ca /\ batched 40 nds cn
    /\ progress s (all_info s ca cn) (after_all next) s'.
Proof.
  intros Hr Hsd Ha Hn Hnext.
  enough (wp mlacp_sync_send_all_info_handler (fun _ s' => exists ca cn, batched 40 arps ca
    /\ batched 40 nds cn /\ progress s (all_info s ca cn) (after_all next) s') s)
    as ([] & s' & E & ca & cn & H) by (exists ca, cn, s'; by split).
  unfold mlacp_sync_send_all_info_handler. apply wp_bind.
  eapply wp_mono; [by apply syncData_progress|]. intros ? s1 H1. apply wp_bind, wp_on_mlacp.
  set (f := fun m : mLACP => m <| ml_sync_state := MLACP_SYNC_SYSCONF |>).
  assert (H2 : progress s1 [] f (s1 <| cs_csm ::= set_MLACP f |>))
    by (apply mlacp_progress; [apply H1|by intros ?]).
  pose proof (progress_trans _ _ _ _ _ _ _ H1 H2) as H3. rewrite app_nil_r in H3.
  eapply (send_all_first _ _ _ _ (ml_arp_msg_list (MLACP (cs_csm s)))
    (ml_ndisc_msg_list (MLACP (cs_csm s)))); [exact Hsd|eapply progress_ext; [|exact H3]|].
  { rewrite bare_MLACP. unfold f. by destruct (MLACP (cs_csm s)). }
  intros s4 H4. eapply send_all_neighbours; [exact H4|done|done|].
  intros s5 ca cn Hca Hcn H5. eapply wp_mono; [by apply send_all_last|]. intros ? s6 H6.
  exists ca, cn. split_and!; [done..|]. unfold all_info. rewrite <- !app_assoc in H6. exact H6.
Qed.

(** C7. The reply to a synchronisation request terminates and sends, in this order, the start
    marker, the system configuration, the configuration, the state and the VLANs of every
    port channel, the peer link, the queued ARP and ND entries in messages of at most 40, and the
    end marker, each exactly once and nothing else.  The neighbour queues are then empty and the
    application is in the stage that follows the one the request was answered in. *)
Theorem send_all_info s arps nds next :
  ready s -> sendable s ->
  Forall2 (fun m e => arp_of (msg_buf m) = Some e) (ml_arp_msg_list (MLACP (cs_csm s))) arps ->
  Forall2 (fun m e => nd_of (msg_buf m) = Some e) (ml_ndisc_msg_list (MLACP (cs_csm s))) nds ->
  next_stage (ml_current_state (MLACP (cs_csm s))) = Some next ->
  exists ca cn s', mlacp_sync_send_all_info_handler s = Some (tt, s')
    /\ batched 40 arps ca /\ batched 40 nds cn
    /\ progress s (all_info s ca cn) (after_all next) s'.
Proof. by apply send_all_reply. Qed.
