(* ===== verification/PortSync.v ===== *)
(** VLAN trees stay sorted, and a port channel of this switch reads back as the
    peer's view of it. *)

From Stdlib Require Import ZArith Lia Sorted.
From stdpp Require Import base list gmap numbers option.
From coqutil Require Import Byte Word.LittleEndianList.
From S2P Require Import Prelude CBuf State MsgFormat Wire CsmMsg Port AppCsm Csm MsgLogRing.
From S2P Require Import SyncPrepare Decode.

(** ** The VLANs of a local interface *)

(** The tree is sorted and the counter counts it. *)
Definition lif_vlans_ok (i : LocalInterface) : Prop :=
  sorted_vids (lif_vlan_tree i) /\ lif_vlan_count i = u32 (Z.of_nat (length (lif_vlan_tree i))).

Lemma u32_add_l a b : u32 (u32 a + b) = u32 (a + b).
Proof. unfold u32. by rewrite Zplus_mod_idemp_l. Qed.

Lemma vids_elem v t : v ∈ t -> vlan_vid v ∈ vids t.
Proof. apply (list_elem_of_fmap_2 vlan_vid). Qed.

Lemma vids_filter (P : Z -> Prop) `{!forall x, Decision (P x)} t x :
  x ∈ vids (filter (fun v => P (vlan_vid v)) t) <-> P x /\ x ∈ vids t.
Proof.
  unfold vids. split.
  - intros (v & -> & [? ?]%list_elem_of_filter)%list_elem_of_fmap. split; [done|by apply vids_elem].
  - intros [HP (v & -> & Hv)%list_elem_of_fmap]. apply vids_elem, list_elem_of_filter. done.
Qed.

Lemma vlan_remove_length vid t v :
  sorted_vids t -> v ∈ t -> vlan_vid v = vid -> length t = S (length (vlan_remove vid t)).
Proof.
  unfold sorted_vids, vlan_remove. induction t as [|y t IH]; cbn [vids map]; intros Hs Hv E; [set_solver|].
  apply StronglySorted_inv in Hs as [Hs Hy]. rewrite Forall_lt_elem in Hy. rewrite filter_cons.
  apply elem_of_cons in Hv as [<-|Hv].
  - rewrite decide_False by auto. cbn. f_equal. f_equal. symmetry. apply filter_keep.
    intros x Hx%vids_elem%Hy. lia.
  - rewrite decide_True; [cbn; f_equal; by apply IH|]. pose proof (Hy _ (vids_elem _ _ Hv)). lia.
Qed.

Lemma add_vlan_ok vid itf i :
  lif_vlans_ok i ->
  lif_vlans_ok (lif_add_vlan vid itf i)
  /\ forall x, x ∈ vids (lif_vlan_tree (lif_add_vlan vid itf i)) <-> x = vid \/ x ∈ vids (lif_vlan_tree i).
Proof.
  intros [Hs Hc]. unfold lif_add_vlan. set (f := fun v : VLAN_ID => v <| vlan_removed := 0 |>).
  assert (Hf : forall t, vids (vlan_update vid f t) = vids t) by (intros; by apply vids_update).
  assert (Hlen : forall t, length (vlan_update vid f t) = length t) by (intros; apply length_map).
  pose proof (vlan_find_spec vid (lif_vlan_tree i)) as Hfind.
  unfold lif_vlans_ok, sorted_vids in *. destruct (vlan_find vid (lif_vlan_tree i)) as [v|]; cbn.
  - rewrite Hf, Hlen. split; [done|]. intros x. split; [auto|]. intros [->|]; [|done].
    destruct Hfind as [Hv <-]. by apply vids_elem.
  - rewrite Hf, Hlen, vlan_insert_length by done. split; [split|].
    + by apply vlan_insert_sorted.
    + rewrite Hc, u32_add_l. f_equal. lia.
    + intros x. by apply vlan_insert_elem.
Qed.

Lemma del_vlan_ok vid i :
  lif_vlans_ok i ->
  lif_vlans_ok (local_if_del_vlan vid i)
  /\ forall x, x ∈ vids (lif_vlan_tree (local_if_del_vlan vid i)) <-> x <> vid /\ x ∈ vids (lif_vlan_tree i).
Proof.
  intros [Hs Hc]. unfold local_if_del_vlan. pose proof (vlan_find_spec vid (lif_vlan_tree i)) as Hf.
  destruct (vlan_find vid (lif_vlan_tree i)) as [v|]; cbn.
  - destruct Hf as [Hv E]. split; [split|].
    + by apply sorted_filter.
    + cbn. rewrite Hc, (vlan_remove_length vid _ v) by done.
      change (u32 ?a - 1) with (u32 a + -1). rewrite u32_add_l. f_equal. lia.
    + intros x. exact (vids_filter (fun y => y <> vid) (lif_vlan_tree i) x).
  - split; [done|]. intros x. split; [|tauto]. intros Hx. split; [|done]. by intros ->.
Qed.

Lemma del_all_run vs i :
  foldl (fun i v => i <| lif_vlan_tree ::= vlan_remove (vlan_vid v) |>
                      <| lif_vlan_count := u32 (lif_vlan_count i - 1) |>) i vs
  = i <| lif_vlan_tree ::= filter (fun v => vlan_vid v ∉ vids vs) |>
      <| lif_vlan_count := if vs is [] then lif_vlan_count i
                           else u32 (lif_vlan_count i - Z.of_nat (length vs)) |>.
Proof.
  revert i. induction vs as [|v vs IH]; intros i; cbn [foldl].
  - destruct i. unfold set. cbn. f_equal. symmetry. apply filter_keep. intros x _. apply not_elem_of_nil.
  - rewrite IH. unfold set. cbn. f_equal.
    + destruct vs as [|w vs]; [done|]. change (u32 ?a - ?b) with (u32 a + - b). rewrite u32_add_l.
      f_equal. cbn [length]. lia.
    + unfold vlan_remove. rewrite list_filter_filter. apply list_filter_iff. intros w. set_solver.
Qed.

(** Adding and removing VLANs keeps the tree of an interface sorted and its counter
    equal to its size; the VLANs afterwards are the ones before with the one
    added, without the one removed, or none. *)
Theorem local_vlans_kept vid itf i :
  lif_vlans_ok i ->
  (lif_vlans_ok (lif_add_vlan vid itf i)
   /\ forall x, x ∈ vids (lif_vlan_tree (lif_add_vlan vid itf i)) <-> x = vid \/ x ∈ vids (lif_vlan_tree i))
  /\ (lif_vlans_ok (local_if_del_vlan vid i)
   /\ forall x, x ∈ vids (lif_vlan_tree (local_if_del_vlan vid i)) <-> x <> vid /\ x ∈ vids (lif_vlan_tree i))
  /\ lif_vlan_tree (local_if_del_all_vlan i) = [] /\ lif_vlan_count (local_if_del_all_vlan i) = 0.
Proof.
  intros Hi. split; [by apply add_vlan_ok|]. split; [by apply del_vlan_ok|].
  unfold local_if_del_all_vlan. rewrite del_all_run. destruct Hi as [_ Hc]. cbn. split.
  - destruct (filter _ _) as [|v t] eqn:E; [done|]. exfalso.
    assert (v ∈ v :: t) as Hv by set_solver. rewrite <- E in Hv.
    apply list_elem_of_filter in Hv as [Hn Hv]. by apply Hn, vids_elem.
  - destruct (lif_vlan_tree i) as [|v t] eqn:E; [by rewrite Hc|]. rewrite Hc.
    change (u32 ?a - ?b) with (u32 a + - b). rewrite u32_add_l. by rewrite Z.add_opp_diag_r.
Qed.

(** ** A port channel as the peer sees it *)

Lemma read_vlans_wire vs : forall i p,
  Forall (fun v => 0 <= v < 2 ^ 16) vs -> length p = (TLV + 36 + 2 * i)%nat ->
  read_vlans i (length vs) (p ++ (vs ≫= be 2)) = Some vs.
Proof.
  induction vs as [|v vs IH]; intros i p Hr Hp; [done|]. apply Forall_cons_1 in Hr as [Hv Hr].
  cbn [length read_vlans]. unfold mLACPPortChannelInfoTLV.get_vlan_id, rd16.
  rewrite bind_cons, (rd_shift0 p _ _ 2 Hp). rewrite rd_head by len. cbn [fmap option_fmap option_map].
  cbn [mbind option_bind]. rewrite (app_assoc p), IH; [|done|rewrite length_app, be_length; lia].
  cbn [mbind option_bind]. by rewrite ntohs_be, u16_small.
Qed.

(** The fields of a received port-channel TLV. *)
Lemma rx_port_channel id rg po name nl l3 ip vs :
  (length name <= 20)%nat -> Forall (fun v => 0 <= v < 2 ^ 16) vs -> Z.of_nat (length vs) < 2 ^ 16 ->
  let b := rx_app id rg (T_PortChannelInfo po name nl l3 ip vs) MSG_T_RG_APP_DATA in
  ntohs <$> mLACPPortChannelInfoTLV.get_agg_id b = Some (u16 po)
  /\ ntohl <$> mLACPPortChannelInfoTLV.get_ipv4_addr b = Some (u32 ip)
  /\ mLACPPortChannelInfoTLV.get_l3_mode b = Some (u8 l3)
  /\ ntohs <$> mLACPPortChannelInfoTLV.get_num_of_vlan_id b = Some (Z.of_nat (length vs))
  /\ read_vlans 0 (length vs) b = Some vs.
Proof.
  intros Hn Hr Hl b. unfold b, rx_app, rx_hdr. cbn [wire_payload].
  unfold mLACPPortChannelInfoTLV.get_agg_id, mLACPPortChannelInfoTLV.get_ipv4_addr,
    mLACPPortChannelInfoTLV.get_l3_mode, mLACPPortChannelInfoTLV.get_num_of_vlan_id, rd16, rd32, rd8.
  assert (Hp : length (pad 20 name) = 20%nat) by by apply pad_length.
  unfold TLV, ICCHdr.sizeof. cbn [Nat.add]. rewrite <- !app_assoc. split_and!.
  - bop. by rewrite ntohs_be.
  - bop. by rewrite ntohl_be.
  - bop. unfold b8. by rewrite le_combine_split.
  - bop. rewrite ntohs_be. f_equal. apply u16_small. lia.
  - rewrite !app_assoc. apply read_vlans_wire; [done|].
    autorewrite with len. unfold TLV, ICCHdr.sizeof. rewrite Hp. done.
Qed.

Lemma update_first_found {A} (P : A -> bool) f (l : list A) x :
  find_first P l = Some x ->
  exists l1 l2, l = l1 ++ x :: l2 /\ find_first P l1 = None /\ P x = true
    /\ update_first P f l = l1 ++ f x :: l2.
Proof.
  induction l as [|y l IH]; cbn; [done|]. destruct (P y) eqn:E.
  - intros [= ->]. by exists [], l.
  - intros H. destruct (IH H) as (l1 & l2 & -> & H1 & H2 & H3). exists (y :: l1), l2.
    split_and!; [done| |done|cbn; by rewrite H3]. cbn. by rewrite E.
Qed.

(** What an interface record has in common at the two ends. *)
Definition mirrors (i : LocalInterface) (p : PeerInterface) : Prop :=
  pif_ipv4_addr p = lif_ipv4_addr i /\ pif_l3_mode p = lif_l3_mode i
  /\ vids (pif_vlan_tree p) = vids (lif_vlan_tree i) /\ sorted_vids (pif_vlan_tree p).

(** Ranges of the fields of an interface. *)
Record lif_fields_ok (i : LocalInterface) : Prop := mk_lif_fields {
  lf_name : lif_ok i;
  lf_vlans : sorted_vids (lif_vlan_tree i) /\ Forall (fun v => 0 <= v < 2 ^ 16) (vids (lif_vlan_tree i));
  lf_po : 0 <= lif_po_id i < 2 ^ 16;
  lf_ip : 0 <= lif_ipv4_addr i < 2 ^ 32;
  lf_l3 : 0 <= lif_l3_mode i < 2 ^ 8;
  lf_size : 52 + 2 * Z.of_nat (length (lif_vlan_tree i)) <= CSM_BUFFER_SIZE;
}.

(** The record after the handler. *)
Definition relearnt (ip l3 : Z) (vs : list Z) (p : PeerInterface) : PeerInterface :=
  let p := p <| pif_vlan_tree ::= map (fun v => v <| vlan_removed := 1 |>) |>
             <| pif_ipv4_addr := ip |> <| pif_l3_mode := l3 |> in
  peer_if_clean_unused_vlan (foldl (fun p v => peer_if_add_vlan v p) p vs).

Lemma add_vlans_keep vs p :
  foldl (fun p v => peer_if_add_vlan v p) p vs
  = p <| pif_vlan_tree := pif_vlan_tree (foldl (fun p v => peer_if_add_vlan v p) p vs) |>.
Proof.
  revert p. induction vs as [|v vs IH]; intros p; cbn [foldl]; [by destruct p|].
  rewrite IH. unfold peer_if_add_vlan. by case_match.
Qed.

Lemma relearnt_keep ip l3 vs p :
  relearnt ip l3 vs p
  = p <| pif_ipv4_addr := ip |> <| pif_l3_mode := l3 |>
      <| pif_vlan_tree := pif_vlan_tree (relearnt ip l3 vs p) |>.
Proof. unfold relearnt. cbn zeta. by rewrite add_vlans_keep. Qed.

Lemma relearnt_vids ip l3 vs p :
  sorted_vids (pif_vlan_tree p) -> StronglySorted Z.lt vs ->
  vids (pif_vlan_tree (relearnt ip l3 vs p)) = vs /\ sorted_vids (pif_vlan_tree (relearnt ip l3 vs p)).
Proof.
  intros Hs Hvs. unfold relearnt. cbn zeta. set (p0 := p <| pif_vlan_tree ::= _ |> <| pif_ipv4_addr := _ |> <| pif_l3_mode := _ |>).
  destruct (clean_relearnt vs (foldl (fun p v => peer_if_add_vlan v p) p0 vs)) as (H1 & H2 & _);
    [by apply (relearn_all [] vs p0), relearn_start|].
  split; [|done]. by apply sorted_ext.
Qed.

Lemma update_port_channel_run id rg po name nl l3 ip vs len r p :
  (length name <= 20)%nat -> Forall (fun v => 0 <= v < 2 ^ 16) vs -> Z.of_nat (length vs) < 2 ^ 16 ->
  find_first (is_peer_po (u16 po)) (ml_pif_list (MLACP (cs_csm r))) = Some p ->
  mlacp_fsm_update_port_channel_info
    (mkMsg (rx_app id rg (T_PortChannelInfo po name nl l3 ip vs) MSG_T_RG_APP_DATA) len) r
  = Some (0, r <| cs_csm ::= set_MLACP (fun m => m <| ml_pif_list ::=
      update_first (is_peer_po (u16 po)) (relearnt (u32 ip) (u8 l3) vs) |>) |>).
Proof.
  intros Hn Hr Hl Hf. destruct (rx_port_channel id rg po name nl l3 ip vs Hn Hr Hl) as (E1 & E2 & E3 & E4 & E5).
  unfold mlacp_fsm_update_port_channel_info. cbn [msg_buf]. set (b := rx_app _ _ _ _) in *.
  rewrite bind_the_csm.
  assert (Hex : existsb (fun p => pif_type p =? IF_T_PORT_CHANNEL) (ml_pif_list (MLACP (cs_csm r))) = true).
  { apply existsb_exists. apply find_first_Some in Hf as [Hin Hp]. exists p.
    split; [by apply list_elem_of_In|]. unfold is_peer_po in Hp. by apply andb_true_iff in Hp as [? _]. }
  rewrite Hex. cbn [negb].
  destruct (mLACPPortChannelInfoTLV.get_agg_id b) as [a|]; [|done]. apply (inj Some) in E1.
  lstep (eq_refl (Some a)). rewrite E1, Hf.
  destruct (mLACPPortChannelInfoTLV.get_ipv4_addr b) as [w|]; [|done]. apply (inj Some) in E2.
  lstep (eq_refl (Some w)). lstep E3.
  destruct (mLACPPortChannelInfoTLV.get_num_of_vlan_id b) as [n|]; [|done]. apply (inj Some) in E4.
  lstep (eq_refl (Some n)). rewrite E4, Nat2Z.id. lstep E5. rewrite E2. done.
Qed.

(** C21. A port channel described by one switch is recorded by the other: the message that
    [mlacp_prepare_for_port_channel_info] builds, sent and queued, makes the handler record the
    address, the mode and exactly the VLANs of the sender in the first peer port channel of that
    number, whatever VLANs were recorded before, and touch no other interface. *)
Theorem port_channel_mirrored s i r p len :
  lif_fields_ok i -> lif_type i <> IF_T_PORT ->
  find_first (is_peer_po (lif_po_id i)) (ml_pif_list (MLACP (cs_csm r))) = Some p ->
  sorted_vids (pif_vlan_tree p) ->
  exists m r' p' l1 l2,
    mlacp_prepare_for_port_channel_info i s
    = Some (wire_size (port_channel_tlv i), with_msg s m)
    /\ iccp_csm_enqueue_msg (mkMsg m len) r
       = Some (tt, r <| cs_csm ::= mlacp_enqueue_msg
            (mkMsg (rx_app (cur_id s) (rg_id s) (port_channel_tlv i) MSG_T_RG_APP_DATA) len) |>)
    /\ mlacp_fsm_update_port_channel_info
         (mkMsg (rx_app (cur_id s) (rg_id s) (port_channel_tlv i) MSG_T_RG_APP_DATA) len) r = Some (0, r')
    /\ ml_pif_list (MLACP (cs_csm r)) = l1 ++ p :: l2
    /\ r' = r <| cs_csm ::= set_MLACP (fun m => m <| ml_pif_list := l1 ++ p' :: l2 |>) |>
    /\ mirrors i p' /\ pif_name p' = pif_name p /\ pif_po_id p' = pif_po_id p.
Proof.
  intros [Hn [Hsv Hr] Hpo Hip Hl3 Hsz] Ht Hf Hs.
  assert (Hlen : Z.of_nat (length (vids (lif_vlan_tree i))) < 2 ^ 16)
    by (unfold vids; rewrite length_map; unfold CSM_BUFFER_SIZE in Hsz; lia).
  assert (Hname : (length (cstr (lif_name i)) <= 20)%nat).
  { destruct Hn as (Hn & Hz & _). apply cstr_nul_length in Hz. rewrite Hn in Hz.
    unfold MAX_L_PORT_NAME in Hz. lia. }
  rewrite <- (u16_small (lif_po_id i)) in Hf by lia.
  destruct (update_first_found _ (relearnt (u32 (lif_ipv4_addr i)) (u8 (lif_l3_mode i))
    (vids (lif_vlan_tree i))) _ _ Hf) as (l1 & l2 & El & _ & _ & Eu).
  eexists _, _, _, l1, l2. split_and!.
  - rewrite prepare_port_channel_wire by done. do 2 f_equal.
    unfold wire_size, port_channel_tlv. cbn [wire_payload]. autorewrite with len.
    rewrite pad_length, length_map by done. lia.
  - apply (enqueue_app_data (cur_id s) (rg_id s) (port_channel_tlv i) len r).
  - apply (update_port_channel_run _ _ _ _ _ _ _ _ _ _ p); done.
  - done.
  - unfold set_MLACP, set, vids in *. cbn. unfold MLACP in *. by rewrite Eu.
  - destruct (relearnt_vids (u32 (lif_ipv4_addr i)) (u8 (lif_l3_mode i)) (vids (lif_vlan_tree i)) p)
      as [E1 E2]; [done..|]. split_and!; [..|exact E1|exact E2]; rewrite relearnt_keep; cbn.
    + by apply u32_small.
    + by apply Z.mod_small.
  - by rewrite relearnt_keep.
  - by rewrite relearnt_keep.
Qed.
