(* ===== verification/Consistency.v ===== *)
(** The consistency check of an MCLAG interface ([iccp_consistency_check.c]): the
    local interface and the peer's record of the same name must agree on mode,
    address and VLANs. *)

From Stdlib Require Import ZArith Lia Sorted.
From stdpp Require Import base list gmap numbers option.
From coqutil Require Import Byte Word.LittleEndianList.
From S2P Require Import Prelude CBuf State MsgFormat Wire CsmMsg Port PortSync.

Inductive Reason_ID :=
  | REASON_NONE
  | REASON_INTERRFACE_MODE_IS_ASYNC
  | REASON_PEER_IF_IP_IS_ASYNC
  | REASON_PEER_IF_VLAN_IS_ASYNC.

#[export] Instance reason_eq_dec : EqDecision Reason_ID.
Proof. solve_decision. Defined.

(** [local_if_find_by_name] outside the code of a CSM. *)
Fixpoint w_lif_by_name (name : buf) (ls : list ptr) : M World (option ptr) :=
  match ls with
  | [] => mret None
  | l :: ls' =>
      lif ← w_get_lif l;
      if streq (lif_name lif) name then mret (Some l) else w_lif_by_name name ls'
  end.

(** The common head of the checks: the local interface, its CSM and the peer's
    interface, or the code of the first one that is missing. *)
Definition check_ends (ifname : buf)
    (k : LocalInterface -> PeerInterface -> M World Z) : M World Z :=
  ls ← gets (fun w => sys_lif_list (w_sys w));
  found ← w_lif_by_name ifname ls;
  match found with
  | None => mret (-2)
  | Some l =>
      local_if ← w_get_lif l;
      match lif_csm local_if with
      | None => mret (-3)
      | Some c =>
          csm ← get_csm c;
          match peer_if_find_by_name ifname csm with
          | None => mret (-4)
          | Some peer_if => k local_if peer_if
          end
      end
  end.

Definition iccp_check_interface_mode (ifname : buf) : M World Z :=
  check_ends ifname (fun local_if peer_if =>
    mret (if negb (pif_l3_mode peer_if =? lif_l3_mode local_if) then -5 else 1)).

Definition iccp_check_interface_layer3_addr (ifname : buf) : M World Z :=
  check_ends ifname (fun local_if peer_if =>
    mret (if negb (pif_ipv4_addr peer_if =? lif_ipv4_addr local_if) then -5 else 1)).

(** Every VLAN of the first tree is in the second. *)
Definition vlans_within (t1 t2 : list VLAN_ID) : bool :=
  forallb (fun v => match vlan_find (vlan_vid v) t2 with Some _ => true | None => false end) t1.

Definition iccp_check_interface_vlan (ifname : buf) : M World Z :=
  check_ends ifname (fun local_if peer_if =>
    mret (if negb (vlans_within (lif_vlan_tree local_if) (pif_vlan_tree peer_if)) then -5
          else if negb (vlans_within (pif_vlan_tree peer_if) (lif_vlan_tree local_if)) then -6
          else 1)).

(** [check_func]: the checks in the order of the reasons they report. *)
Definition check_func : list (Reason_ID * (buf -> M World Z)) :=
  [(REASON_INTERRFACE_MODE_IS_ASYNC, iccp_check_interface_mode);
   (REASON_PEER_IF_IP_IS_ASYNC, iccp_check_interface_layer3_addr);
   (REASON_PEER_IF_VLAN_IS_ASYNC, iccp_check_interface_vlan)].

Fixpoint run_checks (fs : list (Reason_ID * (buf -> M World Z))) (ifname : buf) : M World Reason_ID :=
  match fs with
  | [] => mret REASON_NONE
  | (i, f) :: fs' =>
      ret ← f ifname;
      if negb (ret =? 1) then mret i else run_checks fs' ifname
  end.

Definition iccp_consistency_check (ifname : buf) : M World Reason_ID := run_checks check_func ifname.

(** ** What the check decides *)

(** The two ends that the check compares. *)
Record ends (w : World) (ifname : buf) (i : LocalInterface) (p : PeerInterface) : Prop := mk_ends {
  en_live : forall l, l ∈ sys_lif_list (w_sys w) -> l ∈ dom (w_lifs w);
  en_local : exists l, find_first (fun l => match w_lifs w !! l with
      | Some j => streq (lif_name j) ifname | None => false end) (sys_lif_list (w_sys w)) = Some l
      /\ w_lifs w !! l = Some i;
  en_peer : exists c csm, lif_csm i = Some c /\ w_csms w !! c = Some csm
      /\ peer_if_find_by_name ifname csm = Some p;
}.

Lemma w_lif_by_name_run name ls w :
  (forall l, l ∈ ls -> l ∈ dom (w_lifs w)) ->
  w_lif_by_name name ls w
  = Some (find_first (fun l => match w_lifs w !! l with
      | Some j => streq (lif_name j) name | None => false end) ls, w).
Proof.
  induction ls as [|l ls IH]; intros Hl; [done|]. cbn [w_lif_by_name find_first].
  destruct (proj1 (elem_of_dom (w_lifs w) l) (Hl l ltac:(set_solver))) as [j Ej].
  rewrite (bind_Some _ _ w j w) by (unfold w_get_lif; by rewrite Ej). rewrite Ej.
  destruct (streq (lif_name j) name); [done|]. apply IH. set_solver.
Qed.

Lemma check_ends_run w ifname i p k :
  ends w ifname i p -> check_ends ifname k w = k i p w.
Proof.
  intros [Hl (l & Hf & Ei) (c & csm & Ec & Ecsm & Ep)]. unfold check_ends.
  rewrite (bind_Some _ _ w (sys_lif_list (w_sys w)) w) by done.
  rewrite (bind_Some _ _ _ _ _ (w_lif_by_name_run ifname _ w Hl)), Hf.
  rewrite (bind_Some _ _ w i w) by (unfold w_get_lif; by rewrite Ei). rewrite Ec.
  rewrite (bind_Some _ _ w csm w) by (unfold get_csm; by rewrite Ecsm). by rewrite Ep.
Qed.

Lemma vlans_within_spec t1 t2 : vlans_within t1 t2 = true <-> forall x, x ∈ vids t1 -> x ∈ vids t2.
Proof.
  unfold vlans_within. rewrite forallb_forall. split.
  - intros H x (v & -> & Hv)%list_elem_of_fmap. specialize (H v (proj1 (list_elem_of_In _ _) Hv)).
    pose proof (vlan_find_spec (vlan_vid v) t2) as Hf. destruct (vlan_find _ t2) as [u|]; [|done].
    destruct Hf as [Hu <-]. by apply vids_elem.
  - intros H v Hv%list_elem_of_In. pose proof (vlan_find_spec (vlan_vid v) t2) as Hf.
    destruct (vlan_find _ t2); [done|]. destruct Hf. by apply H, vids_elem.
Qed.

Lemma vlans_agree t1 t2 :
  sorted_vids t1 -> sorted_vids t2 ->
  vlans_within t1 t2 && vlans_within t2 t1 = bool_decide (vids t1 = vids t2).
Proof.
  intros H1 H2. apply eq_bool_prop_intro. rewrite andb_True, bool_decide_spec.
  rewrite !Is_true_true, !vlans_within_spec. split.
  - intros [? ?]. apply sorted_ext; [done..|]. by split; auto.
  - by intros ->.
Qed.

(** What the check should answer. *)
Definition consistency_verdict (i : LocalInterface) (p : PeerInterface) : Reason_ID :=
  if bool_decide (pif_l3_mode p <> lif_l3_mode i) then REASON_INTERRFACE_MODE_IS_ASYNC
  else if bool_decide (pif_ipv4_addr p <> lif_ipv4_addr i) then REASON_PEER_IF_IP_IS_ASYNC
  else if bool_decide (vids (lif_vlan_tree i) <> vids (pif_vlan_tree p)) then REASON_PEER_IF_VLAN_IS_ASYNC
  else REASON_NONE.

Lemma run_check_ends w ifname i p (k : LocalInterface -> PeerInterface -> Z) r fs :
  ends w ifname i p ->
  run_checks ((r, fun n => check_ends n (fun a b => mret (k a b))) :: fs) ifname w
  = if negb (k i p =? 1) then Some (r, w) else run_checks fs ifname w.
Proof.
  intros He. cbn [run_checks]. rewrite (bind_Some _ _ w (k i p) w); [by case_match|].
  by rewrite (check_ends_run _ _ _ _ _ He).
Qed.

Lemma verdict_none i p :
  sorted_vids (pif_vlan_tree p) -> consistency_verdict i p = REASON_NONE <-> mirrors i p.
Proof.
  intros Hp. unfold consistency_verdict, mirrors. repeat case_bool_decide; naive_solver.
Qed.

(** C25. For an interface that exists at both ends the check answers the first of mode, address and
    VLAN set in which they differ, changes nothing, and answers [REASON_NONE] exactly when the
    peer's record mirrors the local interface, VLAN for VLAN. *)
Theorem consistency_check_decides w ifname i p :
  ends w ifname i p -> sorted_vids (lif_vlan_tree i) -> sorted_vids (pif_vlan_tree p) ->
  iccp_consistency_check ifname w = Some (consistency_verdict i p, w)
  /\ (consistency_verdict i p = REASON_NONE <-> mirrors i p).
Proof.
  intros He Hi Hp. split; [|by apply verdict_none].
  unfold iccp_consistency_check, check_func, consistency_verdict, iccp_check_interface_mode,
    iccp_check_interface_layer3_addr, iccp_check_interface_vlan.
  rewrite !(run_check_ends w ifname i p) by done. pose proof (vlans_agree _ _ Hi Hp) as Hv.
  destruct (Z.eqb_spec (pif_l3_mode p) (lif_l3_mode i)) as [E1|E1]; cbn;
    [rewrite bool_decide_eq_false_2 by (by intros []) | by rewrite bool_decide_eq_true_2].
  destruct (Z.eqb_spec (pif_ipv4_addr p) (lif_ipv4_addr i)) as [E2|E2]; cbn;
    [rewrite bool_decide_eq_false_2 by (by intros []) | by rewrite bool_decide_eq_true_2].
  rewrite bool_decide_not, <- Hv. by repeat destruct (vlans_within _ _).
Qed.
