(* ===== verification/LinkMac.v ===== *)
(** What links and the switch do to the MAC table ([mlacp_link_handler.c]): a
    port channel or the peer link goes up or down, the session with the peer is
    lost, and mclagsyncd reports an address that the switch learnt or aged out.

    [RB_FOREACH_SAFE] fixes the successor before the body runs and the bodies
    remove only the entry they are at, so each loop is a [foreach] over the
    sequence of the tree. *)

From Stdlib Require Import ZArith Lia.
From stdpp Require Import base list gmap numbers option.
From coqutil Require Import Byte Word.LittleEndianList.
From S2P Require Import Prelude CBuf State MsgFormat Wire CsmMsg Csm Port SyncPrepare Receive.
From S2P Require Import Syncd MacTable.

Definition CNT_PEER_LINK_DOWN : Z := 10.
Definition CNT_SESSION_DOWN : Z := 11.

Definition MAC_AGE_BOTH : Z := Z.lor MAC_AGE_LOCAL MAC_AGE_PEER.

(** [age_flag = set_mac_local_age_flag(csm, mac_msg, set, 1)] *)
Definition mac_age (p : ptr) (set_ : Z) : M CS unit :=
  age ← set_mac_local_age_flag p set_ 1;
  set_mac p (fun m => m <| mac_age_flag := age |>).

(** Out of the tree, and released unless the entry is queued for the peer. *)
Definition mac_drop (p : ptr) : M CS unit :=
  MAC_RB_REMOVE p;; mac_free_unqueued p;; mret tt.

Definition mac_to_peer_link (p : ptr) : M CS unit :=
  csm ← the_csm;
  set_mac p (fun m => m <| mac_ifname := peer_itf_bytes csm |>).

(** [add_mac_to_chip(mac_msg, mac_msg->fdb_type)] *)
Definition readd_mac (p : ptr) : M CS unit :=
  m ← get_mac p; add_mac_to_chip p (mac_fdb_type m).

(** ** A port channel goes down or up: [update_l2_mac_state] *)

(** Redirect to the peer link, or forget the address while the link is down. *)
Definition redirect_or_del (p : ptr) : M CS unit :=
  up ← peer_link_up;
  if (up : bool) then mac_to_peer_link p;; readd_mac p
  else del_mac_from_chip p;; mac_to_peer_link p.

Definition l2_down_one (name : buf) (pif_up : bool) (p : ptr) : M CS unit :=
  m ← get_mac p;
  when (streq name (mac_origin_ifname m))
    (csm ← the_csm;
     let named := negb (strlen (csm_peer_itf_name csm) =? 0) in
     if (mac_age_flag m =? MAC_AGE_PEER) && pif_up then
       (if named then redirect_or_del p else del_mac_from_chip p;; mac_to_peer_link p);;
       set_mac p (fun m => m <| mac_pending_local_del := 1 |>)
     else
       mac_age p 1;;
       m ← get_mac p;
       if mac_age_flag m =? MAC_AGE_BOTH then
         when (negb (mac_fdb_type m =? MAC_TYPE_STATIC)) (del_mac_from_chip p);;
         mac_drop p
       else if named then redirect_or_del p
       else del_mac_from_chip p).

Definition l2_up_one (name : buf) (p : ptr) : M CS unit :=
  m ← get_mac p;
  when (streq name (mac_origin_ifname m))
    (csm ← the_csm;
     if streq (mac_ifname m) (csm_peer_itf_name csm) then
       when (truth (mac_pending_local_del m))
         (set_mac p (fun m => m <| mac_pending_local_del := 0 |>));;
       set_mac p (fun m => m <| mac_ifname := mac_origin_ifname m |>);;
       if mac_age_flag m =? MAC_AGE_LOCAL then readd_mac p
       else add_mac_to_chip p MAC_TYPE_DYNAMIC_LOCAL
     else
       when (truth (mac_pending_local_del m))
         (del_mac_from_chip p;;
          if negb (mac_fdb_type m =? MAC_TYPE_STATIC) then
            MAC_RB_REMOVE p;;
            set_mac p (fun m => m <| mac_op_type := MAC_SYNC_DEL |>);;
            mac_free_unqueued p;; mret tt
          else set_mac p (fun m => m <| mac_pending_local_del := 0 |>))).

Definition update_l2_mac_state (lif : ptr) (po_state : Z) : M CS unit :=
  i ← get_lif lif;
  csm ← the_csm;
  let pif_up := match peer_if_find_by_name (lif_name i) csm with
                | Some pif => pif_state pif =? PORT_STATE_UP | None => false end in
  t ← now;
  set_lif lif (fun i => i <| lif_po_down_time := if po_state =? 0 then t else 0 |>);;
  foreach (if po_state =? 0 then l2_down_one (lif_name i) pif_up else l2_up_one (lif_name i))
    (ml_mac_rb (MLACP csm)).

(** ** Orphan ports and detached interfaces *)

Definition orphan_one (name : buf) (p : ptr) : M CS unit :=
  m ← get_mac p;
  csm ← the_csm;
  when (streq (mac_origin_ifname m) name && (mac_age_flag m =? MAC_AGE_PEER)
        && bool_decide (ml_current_state (MLACP csm) = MLACP_STATE_EXCHANGE))
    (set_mac p (fun m => m <| mac_op_type := MAC_SYNC_ADD |>);; mac_enqueue p).

Definition update_orphan_port_mac (lif : ptr) (state : Z) : M CS unit :=
  when (truth state)
    (i ← get_lif lif; csm ← the_csm;
     foreach (orphan_one (lif_name i)) (ml_mac_rb (MLACP csm))).

Definition to_peerlink_one (name : buf) (p : ptr) : M CS unit :=
  m ← get_mac p;
  csm ← the_csm;
  when (streq name (mac_origin_ifname m) && negb (truth (Z.land (mac_age_flag m) MAC_AGE_PEER))
        && negb (strlen (csm_peer_itf_name csm) =? 0))
    (up ← peer_link_up;
     when (up && negb (streq (mac_ifname m) (csm_peer_itf_name csm)))
       (mac_to_peer_link p;; readd_mac p)).

Definition update_remote_macs_to_peerlink (lif : ptr) : M CS unit :=
  i ← get_lif lif; csm ← the_csm;
  foreach (to_peerlink_one (lif_name i)) (ml_mac_rb (MLACP csm)).

(** ** The session is lost *)

Definition disconn_one (p : ptr) : M CS unit :=
  m ← get_mac p;
  csm ← the_csm;
  if streq (mac_ifname m) (csm_peer_itf_name csm) then
    set_mac p (fun m => m <| mac_age_flag := Z.lor (mac_age_flag m) MAC_AGE_PEER |>);;
    m ← get_mac p;
    when ((mac_age_flag m =? MAC_AGE_BOTH) || truth (mac_pending_local_del m))
      (del_mac_from_chip p;; mac_drop p)
  else if mac_age_flag m =? 0 then
    set_mac p (fun m => m <| mac_age_flag := MAC_AGE_PEER |>)
  else
    when (mac_age_flag m =? MAC_AGE_LOCAL)
      (add_mac_to_chip p MAC_TYPE_DYNAMIC_LOCAL;;
       set_mac p (fun m => m <| mac_age_flag := MAC_AGE_PEER |>)).

Definition mlacp_peer_disconn_fdb_handler : M CS unit :=
  csm ← the_csm; foreach disconn_one (ml_mac_rb (MLACP csm)).

(** ** The peer link goes up or down *)

Definition peerlink_up_one (p : ptr) : M CS unit :=
  m ← get_mac p;
  csm ← the_csm;
  when (streq (mac_ifname m) (csm_peer_itf_name csm)) (add_mac_to_chip p (mac_fdb_type m)).

Definition mlacp_peerlink_up_handler : M CS unit :=
  csm ← the_csm; foreach peerlink_up_one (ml_mac_rb (MLACP csm)).

Definition peerlink_down_one (p : ptr) : M CS unit :=
  m ← get_mac p;
  csm ← the_csm;
  when (streq (mac_ifname m) (csm_peer_itf_name csm))
    (when (negb (truth (mac_pending_local_del m))) (mac_age p 1);;
     del_mac_from_chip p;;
     m ← get_mac p;
     when (mac_age_flag m =? MAC_AGE_BOTH) (mac_drop p)).

Definition mlacp_peerlink_down_handler : M CS unit :=
  csm ← the_csm;
  foreach peerlink_down_one (ml_mac_rb (MLACP csm));;
  SYSTEM_INCR CNT_PEER_LINK_DOWN.

(** ** Reports of the switch: [do_mac_update_from_syncd] *)

(** A report: the arguments of the handler. *)
Record FdbEvent := mkFdb {
  fe_mac : buf; fe_vid : Z; fe_ifname : buf; fe_type : Z; fe_op : Z }.

(** [del_mac_from_chip] and [add_mac_to_chip] of an entry on the stack. *)
Definition chip_stack (m : MACMsg) (ty op : Z) : M CS unit :=
  iccp_send_fdb_entry_to_syncd m ty op;; mret tt.

Definition lif_up (l : ptr) (st : Z) : M CS bool :=
  i ← get_lif l; mret (lif_state i =? st).

Definition pif_is (st : Z) (pif : option PeerInterface) : bool :=
  match pif with Some i => pif_state i =? st | None => false end.

(** [MAC_SYNC_ADD] for an address of the table; [mac_msg] is the entry built on
    the stack, whose [age_flag] is 0. *)
Definition syncd_add_existing (from_mclag : bool) (pif : option PeerInterface) (mac_lif : ptr)
    (mac_msg : MACMsg) (p : ptr) : M CS unit :=
  down ← lif_up mac_lif PORT_STATE_DOWN;
  if (down && from_mclag && pif_is PORT_STATE_UP pif)%bool then
    set_mac p (fun m => m <| mac_pending_local_del := 1 |> <| mac_fdb_type := mac_fdb_type mac_msg |>
                          <| mac_origin_ifname := mac_ifname mac_msg |>);;
    m ← get_mac p;
    csm ← the_csm;
    (if streq (mac_ifname m) (csm_peer_itf_name csm) then mret tt else mac_to_peer_link p);;
    add_mac_to_chip p (mac_fdb_type mac_msg)
  else
    m ← get_mac p;
    if negb (mac_fdb_type m =? mac_fdb_type mac_msg)
       || negb (streq (mac_ifname m) (mac_ifname mac_msg))
       || negb (streq (mac_origin_ifname m) (mac_ifname mac_msg))
    then
      n1 ← lift (sprintf_s 0 (mac_ifname mac_msg) (mac_ifname m));
      n2 ← lift (sprintf_s 0 (mac_ifname mac_msg) (mac_origin_ifname m));
      set_mac p (fun m => m <| mac_fdb_type := mac_fdb_type mac_msg |> <| mac_ifname := n1 |>
                            <| mac_origin_ifname := n2 |>);;
      mac_age p 0;;
      when (negb (truth (Z.land (mac_age_flag mac_msg) MAC_AGE_PEER)))
        (set_mac p (fun m => m <| mac_age_flag := MAC_AGE_PEER |>);;
         chip_stack mac_msg (mac_fdb_type mac_msg) MAC_SYNC_DEL)
    else
      mac_age p 0;;
      when (negb (truth (Z.land (mac_age_flag mac_msg) MAC_AGE_PEER)))
        (chip_stack mac_msg (mac_fdb_type mac_msg) MAC_SYNC_DEL).

(** [MAC_SYNC_ADD] for a new address. *)
Definition syncd_add_new (from_mclag : bool) (pif : option PeerInterface) (mac_lif : ptr)
    (mac_msg : MACMsg) : M CS unit :=
  down ← lif_up mac_lif PORT_STATE_DOWN;
  if (from_mclag && down && pif_is PORT_STATE_DOWN pif)%bool then
    chip_stack mac_msg (mac_fdb_type mac_msg) MAC_SYNC_DEL
  else
    let mac_msg := mac_msg <| mac_age_flag := Z.lor (mac_age_flag mac_msg) MAC_AGE_PEER |>
                           <| mac_op_type := MAC_SYNC_ADD |> in
    new ← iccp_csm_init_mac_msg mac_msg;
    mac_rb_insert new;;
    csm ← the_csm;
    if (down : bool) then
      when (from_mclag && pif_is PORT_STATE_UP pif)
        (chip_stack (mac_msg <| mac_pending_local_del := 1 |> <| mac_ifname := peer_itf_bytes csm |>)
           (mac_fdb_type mac_msg) MAC_SYNC_ADD)
    else
      when (bool_decide (ml_current_state (MLACP csm) = MLACP_STATE_EXCHANGE))
        (on_mlacp (fun m => m <| ml_mac_msg_list ::= fun l => l ++ [new] |>)).

(** [if (add_to_syncd) del_mac_from_chip(...)], then the end of the entry. *)
Definition syncd_forget (p : ptr) : M CS unit :=
  m ← get_mac p;
  when (truth (mac_add_to_syncd m)) (del_mac_from_chip p);;
  mac_drop p.

(** [MAC_SYNC_DEL] for an address of the table. *)
Definition syncd_del_existing (lif_po : option ptr) (p : ptr) : M CS unit :=
  m ← get_mac p;
  csm ← the_csm;
  if streq (mac_ifname m) (csm_peer_itf_name csm) then
    if truth (mac_pending_local_del m) then mret tt
    else
      mac_age p 1;;
      m ← get_mac p;
      if mac_age_flag m =? MAC_AGE_BOTH then syncd_forget p
      else
        match csm_peer_link_if csm with
        | None => mret tt
        | Some l => down ← lif_up l PORT_STATE_DOWN; when (negb down) (readd_mac p)
        end
  else
    mac_age p 1;;
    m ← get_mac p;
    if mac_age_flag m =? MAC_AGE_BOTH then syncd_forget p
    else
      down ← (match lif_po with Some l => lif_up l PORT_STATE_DOWN | None => mret false end);
      if (down : bool) then
        when (negb (strlen (csm_peer_itf_name csm) =? 0))
          (mac_to_peer_link p;; up ← peer_link_up; when up (readd_mac p))
      else
        ol ← local_if_find_by_name (mac_ifname m);
        match ol with
        | None => mret tt
        | Some l => up ← lif_up l PORT_STATE_UP; when up (readd_mac p)
        end.

(** The part that works on the first CSM; [lif_po] is the port channel of some
    CSM that the address was learnt on. *)
Definition mac_update_from_syncd (lif_po : option ptr) (e : FdbEvent) : M CS unit :=
  csm ← the_csm;
  let pif := peer_if_find_by_name (fe_ifname e) csm in
  mac_info ← mac_rb_find (mac_find (fe_vid e) (fe_mac e));
  if fe_op e =? MAC_SYNC_ADD then
    ol ← local_if_find_by_name (fe_ifname e);
    match ol with
    | None => mret tt
    | Some mac_lif =>
        n ← lift (sprintf_s 0 (fe_ifname e) (replicate MAX_L_PORT_NAME Byte.x00));
        let mac_msg := mkMac (fe_vid e) (fe_mac e) (fe_op e) (fe_type e) n n 0 0 0 in
        if streq (csm_peer_itf_name csm) n then mret tt
        else
          let from_mclag := bool_decide (lif_po <> None) in
          match mac_info with
          | Some p => syncd_add_existing from_mclag pif mac_lif mac_msg p
          | None => syncd_add_new from_mclag pif mac_lif mac_msg
          end
    end
  else
    match mac_info with
    | Some p => syncd_del_existing lif_po p
    | None => mret tt
    end.

(** The search of the CSMs for the port channel; it stops at a CSM whose peer
    link is the interface. *)
Fixpoint find_lif_po (ifname : buf) (cs : list ptr) : M World (option ptr) :=
  match cs with
  | [] => mret None
  | c :: cs' =>
      csm ← get_csm c;
      if streq ifname (csm_peer_itf_name csm) then mret None
      else
        ol ← with_csm c (mclag_if ifname (ml_lif_list (MLACP csm)));
        match ol with
        | Some l => mret (Some l)
        | None => find_lif_po ifname cs'
        end
  end.

Definition do_mac_update_from_syncd (e : FdbEvent) : M World unit :=
  if memcmp (fe_mac e) null_mac =? 0 then mret tt
  else
    cs ← gets (fun w => sys_csm_list (w_sys w));
    lif_po ← find_lif_po (fe_ifname e) cs;
    match cs with
    | [] => mret tt
    | first_csm :: _ => with_csm first_csm (mac_update_from_syncd lif_po e)
    end.
