(* ===== verification/LinkMacInv.v ===== *)
(** The events of [LinkMac] keep the MAC table well formed, whatever the table
    holds and whatever the socket of mclagsyncd does. *)

From Stdlib Require Import ZArith Lia Sorted.
From stdpp Require Import base list gmap numbers option.
From coqutil Require Import Byte Word.LittleEndianList.
From S2P Require Import Prelude CBuf State MsgFormat Wire CsmMsg Csm Port SyncPrepare Receive.
From S2P Require Import Syncd MacTable MacInv MacSync LinkMac.

(** ** Code that touches at most one entry *)

Create HintDb spares.

Definition spares {A} (p : ptr) (c : M CS A) : Prop :=
  forall s a s', c s = Some (a, s') ->
  forall q, q <> p -> (q ∈ rb s -> q ∈ rb s') /\ heap s' !! q = heap s !! q.

Section Spares.
Context (p : ptr).

Lemma spares_bind {A B} (c : M CS A) (k : A -> M CS B) :
  spares p c -> (forall a, spares p (k a)) -> spares p (c ≫= k).
Proof.
  intros Hc Hk s b s'' (a & s' & E1 & E2)%bind_inv q Hq.
  destruct (Hc _ _ _ E1 q Hq) as [Hr1 Hh1]. destruct (Hk _ _ _ _ E2 q Hq) as [Hr2 Hh2].
  split; [auto|congruence].
Qed.

Lemma spares_ret {A} (a : A) : spares p (mret a).
Proof. by intros s ? s' [= <- <-]. Qed.

Lemma spares_gets {A} (f : CS -> A) : spares p (gets f).
Proof. by intros s ? s' [= <- <-]. Qed.

Lemma spares_the_csm : spares p the_csm.
Proof. apply spares_gets. Qed.

Lemma spares_lift {A} (o : option A) : spares p (lift o).
Proof. intros s a s'. unfold lift. destruct o; [|done]. by intros [= <- <-]. Qed.

Lemma spares_when b c : spares p c -> spares p (when b c).
Proof. destruct b; [done|]. intros _. apply spares_ret. Qed.

Lemma spares_on_mlacp f :
  (forall m, ml_mac_rb (f m) = ml_mac_rb m
    /\ forall q, q <> p -> ml_mac_heap (f m) !! q = ml_mac_heap m !! q) -> spares p (on_mlacp f).
Proof.
  intros Hf s a s' [= <- <-] q Hq. destruct (Hf (MLACP (cs_csm s))) as [Hr Hh].
  split; [|by apply Hh]. intros Hin. change (q ∈ ml_mac_rb (f (MLACP (cs_csm s)))). by rewrite Hr.
Qed.

Lemma spares_get_mac q : spares p (get_mac q).
Proof. intros s a s'. unfold get_mac. destruct (heap s !! q); [|done]. by intros [= <- <-]. Qed.

Lemma spares_get_lif l : spares p (get_lif l).
Proof. intros s a s'. unfold get_lif. destruct (cs_lifs s !! l); [|done]. by intros [= <- <-]. Qed.

Lemma spares_set_mac f : spares p (set_mac p f).
Proof.
  apply spares_bind; [apply spares_get_mac|]. intros m. apply spares_on_mlacp. intros t.
  split; [done|]. intros q Hq. cbn. by rewrite lookup_insert_ne.
Qed.

Lemma spares_free_mac : spares p (free_mac p).
Proof.
  apply spares_bind; [apply spares_get_mac|]. intros m. apply spares_on_mlacp. intros t.
  split; [done|]. intros q Hq. cbn. by rewrite lookup_delete_ne.
Qed.

Lemma spares_rb_remove : spares p (MAC_RB_REMOVE p).
Proof. intros s a s' [= <- <-] q Hq. split; [|done]. intros Hr. cbn. by apply list_elem_of_filter. Qed.

Lemma spares_fdb vid n a ty op : spares p (syncd_send_fdb vid n a ty op).
Proof.
  intros s r s' E q _. destruct (syncd_send_fdb_spec vid n a ty op s) as (r' & s1 & E' & A & Ht).
  rewrite E in E'. injection E' as <- <-. by destruct Ht as (? & ? & ? & ->).
Qed.
End Spares.

#[export] Hint Resolve spares_ret spares_gets spares_the_csm spares_lift spares_get_mac spares_get_lif
  spares_set_mac spares_free_mac spares_rb_remove spares_fdb : spares.

Ltac spare :=
  repeat first
    [ progress auto with spares
    | apply spares_bind; [|intros ?]
    | apply spares_when
    | by apply spares_on_mlacp
    | case_match ].

Lemma spares_chip p m ty op : spares p (iccp_send_fdb_entry_to_syncd m ty op).
Proof. unfold iccp_send_fdb_entry_to_syncd. spare. Qed.
#[export] Hint Resolve spares_chip : spares.

Lemma spares_add p ty : spares p (add_mac_to_chip p ty).
Proof. unfold add_mac_to_chip. spare. Qed.
Lemma spares_del p : spares p (del_mac_from_chip p).
Proof. unfold del_mac_from_chip. spare. Qed.
Lemma spares_in_list p : spares p (MAC_IN_MSG_LIST p).
Proof. unfold MAC_IN_MSG_LIST. spare. Qed.
#[export] Hint Resolve spares_add spares_del spares_in_list : spares.
Lemma spares_enqueue p : spares p (mac_enqueue p).
Proof. unfold mac_enqueue. spare. Qed.
Lemma spares_free_unqueued p : spares p (mac_free_unqueued p).
Proof. unfold mac_free_unqueued. spare. Qed.
Lemma spares_link_up p : spares p peer_link_up.
Proof. unfold peer_link_up. spare. Qed.
#[export] Hint Resolve spares_enqueue spares_free_unqueued spares_link_up : spares.
Lemma spares_local_age p a b : spares p (set_mac_local_age_flag p a b).
Proof. unfold set_mac_local_age_flag. spare. Qed.
#[export] Hint Resolve spares_local_age : spares.
Lemma spares_mac_age p a : spares p (mac_age p a).
Proof. unfold mac_age. spare. Qed.
Lemma spares_mac_drop p : spares p (mac_drop p).
Proof. unfold mac_drop. spare. Qed.
Lemma spares_to_peer_link p : spares p (mac_to_peer_link p).
Proof. unfold mac_to_peer_link. spare. Qed.
Lemma spares_readd p : spares p (readd_mac p).
Proof. unfold readd_mac. spare. Qed.
#[export] Hint Resolve spares_mac_age spares_mac_drop spares_to_peer_link spares_readd : spares.

(** ** One entry *)

Section Events.
Context (s0 : CS) (Hlinks : links_ok s0).
Implicit Types (s : CS) (p : ptr).

Lemma wp_mac_age p a (Q : unit -> CS -> Prop) s :
  InvP s0 p s -> (forall s', InvP s0 p s' -> Q tt s') -> wp (mac_age p a) Q s.
Proof.
  intros Hp HQ. apply wp_bind, (wp_set_local_age s0); [done|]. intros z s' Hp'.
  by apply (wp_set_mac_fields s0).
Qed.

Lemma wp_mac_drop p (Q : unit -> CS -> Prop) s :
  InvP s0 p s -> (forall s', Inv s0 s' -> Q tt s') -> wp (mac_drop p) Q s.
Proof.
  intros Hp HQ. apply wp_bind. eapply wp_rb_remove; [done|]. clear s Hp. intros s Hp Hr.
  apply wp_bind. eapply wp_free_unqueued; [done|done|]. intros b s' Hi _. by apply wp_ret, HQ.
Qed.

Lemma wp_to_peer_link p (Q : unit -> CS -> Prop) s :
  InvP s0 p s -> (forall s', InvP s0 p s' -> Q tt s') -> wp (mac_to_peer_link p) Q s.
Proof.
  intros Hp HQ. apply wp_bind, wp_gets. destruct (peer_bytes_ok s0 Hlinks s) as [Hl Hn]; [apply Hp|].
  eapply wp_set_mac; [done|by apply keeps_ifname|done].
Qed.

Lemma wp_readd p (Q : unit -> CS -> Prop) s :
  InvP s0 p s -> (forall s', InvP s0 p s' -> Q tt s') -> wp (readd_mac p) Q s.
Proof.
  intros Hp HQ. apply wp_bind. eapply wp_get_mac; [done|]. intros m _ _.
  by apply (wp_add_mac_to_chip s0 Hlinks).
Qed.

(** Run the next operation on the live entry of the goal's state. *)
Ltac fresh_state := let s := fresh "s" in let H := fresh "Hp" in intros s H.
Ltac op L :=
  match goal with
  | Hp : InvP s0 _ ?s |- wp _ _ ?s =>
      first [apply wp_bind, (L _ _ _ Hp) | apply wp_bind, (L _ _ _ _ Hp)
            | apply (L _ _ _ Hp) | apply (L _ _ _ _ Hp)]; fresh_state
  end.
Ltac look :=
  match goal with
  | Hp : InvP s0 ?p ?s |- wp (get_mac ?p ≫= _) _ ?s =>
      apply wp_bind, (wp_get_mac s0 p _ s Hp); intros ? _ _
  end.
Ltac field :=
  match goal with
  | Hp : InvP s0 _ ?s |- wp _ _ ?s =>
      first [apply wp_bind, (wp_set_mac_fields s0); [done|exact Hp|]
            | apply (wp_set_mac_fields s0); [done|exact Hp|]]; fresh_state
  end.
Ltac inv_now := match goal with H : InvP s0 _ ?x |- Inv s0 ?x => apply H end.
Ltac finish :=
  match goal with
  | Hp : InvP s0 _ ?s, HQ : forall s', Inv s0 s' -> _ |- _ => apply HQ, Hp
  | Hp : InvP s0 ?p ?s, HQ : forall s', InvP s0 ?p s' -> _ |- _ => apply HQ, Hp
  | HQ : forall s', Inv s0 s' -> _ |- wp (mac_drop ?p) _ _ => apply (wp_mac_drop p); [assumption|exact HQ]
  end.

Lemma wp_redirect_or_del p (Q : unit -> CS -> Prop) s :
  InvP s0 p s -> (forall s', InvP s0 p s' -> Q tt s') -> wp (redirect_or_del p) Q s.
Proof.
  intros Hp HQ. apply wp_bind, (wp_peer_link_up s0 Hlinks); [apply Hp|]. intros [|].
  - op wp_to_peer_link. op wp_readd. finish.
  - op (wp_del_mac_from_chip s0 Hlinks). op wp_to_peer_link. finish.
Qed.

Lemma wp_l2_down_one name b p (Q : unit -> CS -> Prop) s :
  InvP s0 p s -> (forall s', Inv s0 s' -> Q tt s') -> wp (l2_down_one name b p) Q s.
Proof.
  intros Hp HQ. unfold l2_down_one. look. apply wp_when; intros _; [|finish].
  apply wp_bind, wp_gets. cbn zeta. case_match.
  - apply wp_bind. case_match.
    + op wp_redirect_or_del. field. finish.
    + op (wp_del_mac_from_chip s0 Hlinks). op wp_to_peer_link. field. finish.
  - op wp_mac_age. look. case_match; [|case_match].
    + apply wp_bind, wp_when; intros _; [op (wp_del_mac_from_chip s0 Hlinks)|]; finish.
    + op wp_redirect_or_del. finish.
    + op (wp_del_mac_from_chip s0 Hlinks). finish.
Qed.

(** The entry leaves the tree marked as deleted. *)
Lemma wp_unlink_marked p (Q : unit -> CS -> Prop) s :
  InvP s0 p s -> (forall s', Inv s0 s' -> Q tt s') ->
  wp (MAC_RB_REMOVE p;; set_mac p (fun m => m <| mac_op_type := MAC_SYNC_DEL |>);;
      mac_free_unqueued p;; mret tt) Q s.
Proof.
  intros Hp HQ. apply wp_bind. eapply wp_rb_remove; [done|]. clear s Hp. intros s Hp Hr.
  apply wp_bind, wp_bind. eapply wp_get_mac; [exact Hp|]. intros e Ee He. apply wp_on_mlacp.
  set (s1 := s <| cs_csm ::= _ |>).
  assert (Hp1 : InvP s0 p s1).
  { destruct Hp as [Hi Hp]. split; [|cbn; rewrite dom_insert; set_solver].
    apply inv_on_mlacp; [done| |done]. destruct Hi. by eapply wf_set_mac. }
  apply wp_bind. eapply wp_free_unqueued; [exact Hp1|exact Hr|]. intros b s' Hi _.
  by apply wp_ret, HQ.
Qed.

Lemma keeps_origin_name : keeps (fun m => m <| mac_ifname := mac_origin_ifname m |>).
Proof. intros e ((Ha & Hol & Hon) & _ & _). done. Qed.

Lemma wp_l2_up_one name p (Q : unit -> CS -> Prop) s :
  InvP s0 p s -> (forall s', Inv s0 s' -> Q tt s') -> wp (l2_up_one name p) Q s.
Proof.
  intros Hp HQ. unfold l2_up_one. look. apply wp_when; intros _; [|finish].
  apply wp_bind, wp_gets. case_match.
  - match goal with |- wp (_ ≫= fun _ => ?c) _ _ =>
      assert (Hnext : forall s', InvP s0 p s' -> wp c Q s') end.
    { intros s' Hp'. apply wp_bind. eapply wp_set_mac; [exact Hp'|exact keeps_origin_name|].
      intros s'' Hp''. case_match; [op wp_readd|op (wp_add_mac_to_chip s0 Hlinks)]; finish. }
    apply wp_bind, wp_when; intros _; [field|]; by apply Hnext.
  - apply wp_when; intros _; [|finish]. op (wp_del_mac_from_chip s0 Hlinks).
    case_match; [by apply wp_unlink_marked|field; finish].
Qed.

Lemma wp_orphan_one name p (Q : unit -> CS -> Prop) s :
  InvP s0 p s -> (forall s', Inv s0 s' -> Q tt s') -> wp (orphan_one name p) Q s.
Proof.
  intros Hp HQ. unfold orphan_one. look. apply wp_bind, wp_gets, wp_when; intros _; [|finish].
  field. op (wp_mac_enqueue s0). finish.
Qed.

Lemma wp_to_peerlink_one name p (Q : unit -> CS -> Prop) s :
  InvP s0 p s -> (forall s', Inv s0 s' -> Q tt s') -> wp (to_peerlink_one name p) Q s.
Proof.
  intros Hp HQ. unfold to_peerlink_one. look. apply wp_bind, wp_gets, wp_when; intros _; [|finish].
  apply wp_bind, (wp_peer_link_up s0 Hlinks); [apply Hp|]. intros b.
  apply wp_when; intros _; [|finish]. op wp_to_peer_link. op wp_readd. finish.
Qed.

Lemma wp_disconn_one p (Q : unit -> CS -> Prop) s :
  InvP s0 p s -> (forall s', Inv s0 s' -> Q tt s') -> wp (disconn_one p) Q s.
Proof.
  intros Hp HQ. unfold disconn_one. look. apply wp_bind, wp_gets. case_match; [|case_match].
  - field. look. apply wp_when; intros _; [|finish].
    op (wp_del_mac_from_chip s0 Hlinks). finish.
  - field. finish.
  - apply wp_when; intros _; [|finish]. op (wp_add_mac_to_chip s0 Hlinks). field. finish.
Qed.

Lemma wp_peerlink_up_one p (Q : unit -> CS -> Prop) s :
  InvP s0 p s -> (forall s', Inv s0 s' -> Q tt s') -> wp (peerlink_up_one p) Q s.
Proof.
  intros Hp HQ. unfold peerlink_up_one. look. apply wp_bind, wp_gets, wp_when; intros _; [|finish].
  op (wp_add_mac_to_chip s0 Hlinks). finish.
Qed.

Lemma wp_peerlink_down_one p (Q : unit -> CS -> Prop) s :
  InvP s0 p s -> (forall s', Inv s0 s' -> Q tt s') -> wp (peerlink_down_one p) Q s.
Proof.
  intros Hp HQ. unfold peerlink_down_one. look. apply wp_bind, wp_gets, wp_when; intros _; [|finish].
  apply wp_bind, wp_when; intros _; [op wp_mac_age|]; op (wp_del_mac_from_chip s0 Hlinks); look;
    (apply wp_when; intros _; finish).
Qed.

Lemma wp_clear_pending_one name p (Q : unit -> CS -> Prop) s :
  InvP s0 p s -> (forall s', Inv s0 s' -> Q tt s') -> wp (clear_pending_one name p) Q s.
Proof.
  intros Hp HQ. unfold clear_pending_one. look. apply wp_when; intros _; [|finish].
  op (wp_del_mac_from_chip s0 Hlinks). case_match; [by apply wp_unlink_marked|field; finish].
Qed.

Lemma wp_convert_one name p (Q : unit -> CS -> Prop) s :
  InvP s0 p s -> (forall s', Inv s0 s' -> Q tt s') -> wp (convert_one name p) Q s.
Proof.
  intros Hp HQ. unfold convert_one. look. apply wp_when; intros _; [|finish].
  field. op (wp_add_mac_to_chip s0 Hlinks). field. op (wp_mac_enqueue s0). finish.
Qed.

(** ** Reports of the switch *)

Context (Hsys : forall l, l ∈ sys_lif_list (cs_sys s0) -> l ∈ dom (cs_lifs s0)).

Definition live (ol : option ptr) : Prop := forall l, ol = Some l -> l ∈ dom (cs_lifs s0).

Lemma wp_lif_by_name name ls (Q : option ptr -> CS -> Prop) s :
  Inv s0 s -> (forall l, l ∈ ls -> l ∈ dom (cs_lifs s0)) ->
  (forall ol, live ol -> Q ol s) -> wp (lif_by_name name ls) Q s.
Proof.
  intros Hi. induction ls as [|l ls IH]; intros Hls HQ; cbn [lif_by_name].
  - by apply wp_ret, HQ.
  - apply wp_bind, (wp_get_lif s0); [done|apply Hls; set_solver|]. intros i. case_match.
    + apply wp_ret, HQ. intros ? [= <-]. apply Hls. set_solver.
    + apply IH; [set_solver|done].
Qed.

Lemma wp_find_by_name name (Q : option ptr -> CS -> Prop) s :
  Inv s0 s -> (forall ol, live ol -> Q ol s) -> wp (local_if_find_by_name name) Q s.
Proof.
  intros Hi HQ. apply wp_bind, wp_gets. destruct (Hi) as [_ Hf]. rewrite (fr_sys _ _ Hf).
  by apply wp_lif_by_name.
Qed.

Lemma wp_lif_up l st (Q : bool -> CS -> Prop) s :
  Inv s0 s -> l ∈ dom (cs_lifs s0) -> (forall b, Q b s) -> wp (lif_up l st) Q s.
Proof. intros Hi Hl HQ. apply wp_bind, (wp_get_lif s0); [done|done|]. intros i. by apply wp_ret. Qed.

Lemma wp_chip_stack m ty op (Q : unit -> CS -> Prop) s :
  Inv s0 s -> (forall s', Inv s0 s' -> Q tt s') -> wp (chip_stack m ty op) Q s.
Proof. intros. by apply (wp_tell_switch s0). Qed.

Lemma sprintf_over n m :
  length n = MAX_L_PORT_NAME -> has_nul n = true -> length m = MAX_L_PORT_NAME ->
  exists r, sprintf_s 0 n m = Some r /\ length r = MAX_L_PORT_NAME /\ has_nul r = true.
Proof.
  intros Hn Hnn Hm. unfold sprintf_s. rewrite Hnn. apply cstr_nul_length in Hnn.
  destruct (wr_total 0 (cstr n ++ [Byte.x00]) m) as [r Hr]; [rewrite length_app; cbn [length]; lia|].
  exists r. split; [done|]. split; [by rewrite (wr_length _ _ _ _ Hr)|].
  unfold wr in Hr. case_match; [|done]. injection Hr as <-. rewrite !has_nul_app.
  replace (has_nul [Byte.x00]) with true by done. by rewrite !orb_true_r.
Qed.

Lemma wp_syncd_add_existing b pif l m p (Q : unit -> CS -> Prop) s :
  InvP s0 p s -> l ∈ dom (cs_lifs s0) -> entry_ok m -> (forall s', Inv s0 s' -> Q tt s') ->
  wp (syncd_add_existing b pif l m p) Q s.
Proof.
  intros Hp Hl ((_ & Ho & Hon) & Hn & Hnn) HQ. unfold syncd_add_existing.
  apply wp_bind, wp_lif_up; [apply Hp|done|]. intros down. case_match.
  - apply wp_bind. eapply wp_set_mac; [exact Hp| |].
    { intros e ((Ha & _ & _) & He). split; [|done]. split; [done|exact He]. }
    clear s Hp. intros s Hp. look. apply wp_bind, wp_gets, wp_bind.
    case_match; [apply wp_ret|op wp_to_peer_link]; op (wp_add_mac_to_chip s0 Hlinks); finish.
  - apply wp_bind. eapply wp_get_mac; [exact Hp|]. intros e Ee ((Ha & Heo & Heon) & Hei & Hein).
    case_match.
    + destruct (sprintf_over (mac_ifname m) (mac_ifname e)) as (n1 & E1 & ? & ?); [done..|].
      destruct (sprintf_over (mac_ifname m) (mac_origin_ifname e)) as (n2 & E2 & ? & ?); [done..|].
      apply wp_bind. eapply wp_lift; [exact E1|]. apply wp_bind. eapply wp_lift; [exact E2|].
      apply wp_bind. eapply wp_set_mac; [exact Hp| |].
      { intros e' ((Ha' & _ & _) & _). done. }
      clear dependent s. intros s Hp. op wp_mac_age. apply wp_when; intros _; [|finish].
      field. apply wp_chip_stack; [inv_now|done].
    + op wp_mac_age. apply wp_when; intros _; [|finish]. apply wp_chip_stack; [inv_now|done].
Qed.

(** The copy of a new entry is linked into the tree and not into the queue. *)
Lemma wp_new_linked data (Q : ptr -> CS -> Prop) s :
  Inv s0 s -> entry_ok data -> mac_key data ∉ (key_at (heap s) <$> rb s) ->
  (forall new s', InvP s0 new s' -> new ∉ queue s' -> Q new s') ->
  wp (new ← iccp_csm_init_mac_msg data; mac_rb_insert new;; mret new) Q s.
Proof.
  intros [Hwf Hf] Hok Hn HQ. apply wp_bind, wp_bind, wp_gets. cbn zeta.
  set (p := fresh (dom (heap s))). assert (Hp : p ∉ dom (heap s)) by apply is_fresh.
  apply wp_bind, wp_on_mlacp, wp_ret.
  set (s' := s <| cs_csm ::= set_MLACP (fun t => t <| ml_mac_heap ::= <[p := data]> |>) |>).
  assert (Hk : forall q, q ∈ rb s -> key_at (heap s') q = key_at (heap s) q).
  { intros q Hq. unfold key_at. cbn. rewrite lookup_insert_ne; [done|]. intros <-.
    by apply Hp, (wf_live _ Hwf); left. }
  assert (Hwf' : WF s') by by apply wf_new.
  destruct (mac_rb_insert_run p data s') as (t' & E & Hwt & _); [done|apply lookup_insert_eq|..].
  { change (rb s') with (rb s). by erewrite fmap_ext_in by exact Hk. }
  apply wp_bind. eexists _, _. split; [exact E|]. apply wp_ret, HQ.
  - split; [|cbn; rewrite dom_insert; set_solver]. apply inv_on_mlacp; [|done|done].
    split; [done|]. destruct Hf. by split.
  - intros Hq. apply Hp, (wf_live _ Hwf). by right.
Qed.

Lemma wp_syncd_add_new b pif l m (Q : unit -> CS -> Prop) s :
  Inv s0 s -> l ∈ dom (cs_lifs s0) -> entry_ok m -> mac_key m ∉ (key_at (heap s) <$> rb s) ->
  (forall s', Inv s0 s' -> Q tt s') -> wp (syncd_add_new b pif l m) Q s.
Proof.
  intros Hi Hl Hm Hk HQ. unfold syncd_add_new. apply wp_bind, wp_lif_up; [done|done|].
  intros down. case_match; [by apply wp_chip_stack|]. cbn zeta.
  set (m' := m <| mac_age_flag := _ |> <| mac_op_type := _ |>).
  destruct (wp_new_linked m' (fun new s' => InvP s0 new s' /\ new ∉ queue s') s)
    as (new & s' & E & Hp & Hq); [done..|by intros|].
  apply bind_inv in E as (new' & s1 & E1 & E). apply bind_inv in E as ([] & s2 & E2 & E).
  injection E as -> ->. apply wp_bind. exists new, s1. split; [done|].
  apply wp_bind. exists tt, s'. split; [done|]. apply wp_bind, wp_gets.
  destruct down; apply wp_when; intros _; [apply wp_chip_stack; [apply Hp|done]|finish|..|finish].
  apply wp_on_mlacp, HQ. destruct Hp as [Hi' Hd]. apply inv_on_mlacp; [done| |done].
  destruct Hi'. by apply wf_enqueue.
Qed.

Lemma wp_syncd_forget p (Q : unit -> CS -> Prop) s :
  InvP s0 p s -> (forall s', Inv s0 s' -> Q tt s') -> wp (syncd_forget p) Q s.
Proof.
  intros Hp HQ. unfold syncd_forget. look.
  apply wp_bind, wp_when; intros _; [op (wp_del_mac_from_chip s0 Hlinks)|]; finish.
Qed.

Lemma wp_syncd_del_existing ol p (Q : unit -> CS -> Prop) s :
  InvP s0 p s -> live ol -> (forall s', Inv s0 s' -> Q tt s') ->
  wp (syncd_del_existing ol p) Q s.
Proof.
  intros Hp Hol HQ. unfold syncd_del_existing. look. apply wp_bind, wp_gets. case_match.
  - case_match; [apply wp_ret; finish|]. op wp_mac_age. look.
    case_match; [by apply wp_syncd_forget|].
    destruct (csm_peer_link_if (cs_csm s)) as [l|] eqn:El; [|apply wp_ret; finish].
    apply wp_bind, wp_lif_up; [inv_now| |].
    { destruct Hp as [[_ Hf] _]. rewrite (fr_link _ _ Hf) in El. by eapply lk_peer. }
    intros d. apply wp_when; intros _; [op wp_readd|]; finish.
  - op wp_mac_age. look. case_match; [by apply wp_syncd_forget|].
    match goal with H : InvP s0 p ?x |- wp _ _ ?x => rename x into s1, H into Hp1 end.
    assert (Hnext : forall d : bool, wp
      (if d then when (negb (strlen (csm_peer_itf_name (cs_csm s)) =? 0))
          (mac_to_peer_link p;; up ← peer_link_up; when up (readd_mac p))
       else ol' ← local_if_find_by_name (mac_ifname m0);
        match ol' with
        | None => mret tt
        | Some l => up ← lif_up l PORT_STATE_UP; when up (readd_mac p)
        end) Q s1).
    { intros [|].
      - apply wp_when; intros _; [|finish]. op wp_to_peer_link.
        apply wp_bind, (wp_peer_link_up s0 Hlinks);
          [inv_now|].
        intros u. apply wp_when; intros _; [op wp_readd|]; finish.
      - apply wp_bind, wp_find_by_name; [apply Hp1|]. intros [l|] Hl; [|apply wp_ret; finish].
        apply wp_bind, wp_lif_up; [apply Hp1|by apply Hl|]. intros u.
        apply wp_when; intros _; [op wp_readd|]; finish. }
    apply wp_bind. destruct ol as [l|]; [|apply wp_ret; exact (Hnext false)].
    apply wp_lif_up; [apply Hp1|by apply Hol|exact Hnext].
Qed.

Definition event_ok (e : FdbEvent) : Prop :=
  length (fe_mac e) = ETHER_ADDR_LEN /\ length (fe_ifname e) = MAX_L_PORT_NAME
  /\ has_nul (fe_ifname e) = true.

Lemma wp_mac_update_from_syncd ol e (Q : unit -> CS -> Prop) s :
  Inv s0 s -> live ol -> event_ok e -> (forall s', Inv s0 s' -> Q tt s') ->
  wp (mac_update_from_syncd ol e) Q s.
Proof.
  intros Hi Hol (Ha & Hn & Hnn) HQ. apply wp_bind, wp_gets. cbn zeta. apply wp_bind.
  destruct (mac_rb_find_spec (mac_find (fe_vid e) (fe_mac e)) s) as (o & E & Ho); [done|apply Hi|].
  exists o, s. split; [exact E|].
  assert (Hlive : forall p, o = Some p -> InvP s0 p s).
  { intros p ->. split; [done|]. destruct Hi as [Hwf _]. apply (wf_live _ Hwf). left. apply Ho. }
  destruct (fe_op e =? MAC_SYNC_ADD).
  - apply wp_bind, wp_find_by_name; [done|]. intros [l|] Hl; [|by apply wp_ret, HQ].
    apply wp_bind. eapply wp_lift; [by apply sprintf_name|]. cbn zeta.
    destruct (pad_name_ok _ Hn Hnn) as [Hpl Hpn].
    destruct (streq (csm_peer_itf_name _) _); [by apply wp_ret, HQ|]. destruct o as [p|].
    + apply wp_syncd_add_existing; [by apply Hlive|by apply Hl|done|done].
    + by apply wp_syncd_add_new; [|apply Hl|..].
  - destruct o as [p|]; [apply wp_syncd_del_existing; [by apply Hlive|done..]|by apply wp_ret, HQ].
Qed.

(** ** Whole-table loops *)

Lemma rb_nodup s : WF s -> NoDup (rb s).
Proof.
  intros Hwf. apply (NoDup_fmap_1 (key_at (heap s))). by apply rb_nodup_keys.
Qed.

(** [f] handles one entry, keeps the invariant, and removes no other entry. *)
Definition tidy (f : ptr -> M CS unit) : Prop :=
  (forall p (Q : unit -> CS -> Prop) s,
     InvP s0 p s -> (forall s', Inv s0 s' -> Q tt s') -> wp (f p) Q s)
  /\ forall p, spares p (f p).

Lemma wp_mac_loop f (Q : unit -> CS -> Prop) s :
  tidy f -> Inv s0 s -> (forall s', Inv s0 s' -> Q tt s') -> wp (foreach f (rb s)) Q s.
Proof.
  intros [Hf Hsp] Hi HQ. eapply wp_mono;
    [apply (wp_foreach (fun l s => Inv s0 s /\ NoDup l /\ forall p, p ∈ l -> p ∈ rb s))|].
  - intros p l s1 (Hi1 & Hn & Hl). inversion Hn as [|? ? Hpl Hn']; subst.
    destruct (Hf p (fun _ s' => Inv s0 s') s1) as ([] & s2 & E & Hi2); [|done|].
    + split; [done|]. destruct Hi1 as [Hwf _]. apply (wf_live _ Hwf). left. apply Hl. set_solver.
    + exists tt, s2. split; [done|]. split; [done|]. split; [done|]. intros q Hq.
      eapply (Hsp p); [exact E|congruence|apply Hl; set_solver].
  - split; [done|]. split; [apply rb_nodup, Hi|done].
  - intros [] s' (Hi' & _ & _). by apply HQ.
Qed.

Lemma tidy_l2_down name b : tidy (l2_down_one name b).
Proof. split; [apply wp_l2_down_one|]. intros p. unfold l2_down_one, redirect_or_del. spare. Qed.
Lemma tidy_l2_up name : tidy (l2_up_one name).
Proof. split; [apply wp_l2_up_one|]. intros p. unfold l2_up_one. spare. Qed.
Lemma tidy_orphan name : tidy (orphan_one name).
Proof. split; [apply wp_orphan_one|]. intros p. unfold orphan_one. spare. Qed.
Lemma tidy_to_peerlink name : tidy (to_peerlink_one name).
Proof. split; [apply wp_to_peerlink_one|]. intros p. unfold to_peerlink_one. spare. Qed.
Lemma tidy_disconn : tidy disconn_one.
Proof. split; [apply wp_disconn_one|]. intros p. unfold disconn_one. spare. Qed.
Lemma tidy_peerlink_up : tidy peerlink_up_one.
Proof. split; [apply wp_peerlink_up_one|]. intros p. unfold peerlink_up_one. spare. Qed.
Lemma tidy_peerlink_down : tidy peerlink_down_one.
Proof. split; [apply wp_peerlink_down_one|]. intros p. unfold peerlink_down_one. spare. Qed.
Lemma tidy_clear_pending name : tidy (clear_pending_one name).
Proof. split; [apply wp_clear_pending_one|]. intros p. unfold clear_pending_one. spare. Qed.
Lemma tidy_convert name : tidy (convert_one name).
Proof. split; [apply wp_convert_one|]. intros p. unfold convert_one. spare. Qed.
Lemma tidy_resync : tidy (fun p =>
    m ← get_mac p;
    when (negb (truth (Z.land (mac_age_flag m) MAC_AGE_LOCAL)))
      (set_mac p (fun m => m <| mac_op_type := MAC_SYNC_ADD |>);; mac_enqueue p)).
Proof.
  split; [|intros p; spare]. intros p Q s Hp HQ. look. apply wp_when; intros _; [|finish].
  field. op (wp_mac_enqueue s0). finish.
Qed.
End Events.

(** ** Sequences of events *)

Inductive MacEvent :=
  | Ev_po_state (lif : ptr) (po_state : Z)
  | Ev_orphan_port (lif : ptr) (state : Z)
  | Ev_detach (lif : ptr)
  | Ev_session_down
  | Ev_peerlink_up
  | Ev_peerlink_down
  | Ev_clear_pending (lif : ptr)
  | Ev_convert (po_name : buf)
  | Ev_resync
  | Ev_switch (lif_po : option ptr) (e : FdbEvent)
  | Ev_peer (d : MacData).

Definition run_event (ev : MacEvent) : M CS unit :=
  match ev with
  | Ev_po_state l st => update_l2_mac_state l st
  | Ev_orphan_port l st => update_orphan_port_mac l st
  | Ev_detach l => update_remote_macs_to_peerlink l
  | Ev_session_down => mlacp_peer_disconn_fdb_handler
  | Ev_peerlink_up => mlacp_peerlink_up_handler
  | Ev_peerlink_down => mlacp_peerlink_down_handler
  | Ev_clear_pending l => mlacp_local_lif_clear_pending_mac l
  | Ev_convert n => mlacp_convert_remote_mac_to_local n
  | Ev_resync => mlacp_sync_mac
  | Ev_switch ol e => mac_update_from_syncd ol e
  | Ev_peer d => mlacp_fsm_update_mac_entry_from_peer d
  end.

(** Pointers are live, names are strings, and the peer reports addresses only
    where a peer link is configured (see [MacSync.orphan_move_use_after_free]). *)
Definition ev_ok (s : CS) (ev : MacEvent) : Prop :=
  match ev with
  | Ev_po_state l _ | Ev_orphan_port l _ | Ev_detach l | Ev_clear_pending l => l ∈ dom (cs_lifs s)
  | Ev_switch ol e => live s ol /\ event_ok e
  | Ev_peer d => data_ok d /\ strlen (csm_peer_itf_name (cs_csm s)) <> 0
  | _ => True
  end.

Record table_ok (s : CS) : Prop := mk_table_ok {
  tk_wf : WF s;
  tk_links : links_ok s;
  tk_sys : forall l, l ∈ sys_lif_list (cs_sys s) -> l ∈ dom (cs_lifs s);
}.

(** What no event changes. *)
Definition same_links (s s' : CS) : Prop :=
  dom (cs_lifs s') = dom (cs_lifs s)
  /\ csm_peer_itf_name (cs_csm s') = csm_peer_itf_name (cs_csm s).

Lemma frame_ok s s' : table_ok s -> Inv s s' -> table_ok s' /\ same_links s s'.
Proof.
  intros [_ [Hl Hp Hn Hnn] Hs] [Hwf [Fl Fs Fn Fk Fi Fc]]. split; [|split; [by rewrite Fl|done]].
  split; [done|split|by rewrite Fs, Fl].
  - by rewrite Fi, Fl.
  - by rewrite Fk, Fl.
  - by rewrite Fn.
  - by rewrite Fn.
Qed.

Lemma wp_loop_event f s :
  (table_ok s -> tidy s f) -> table_ok s ->
  wp (foreach f (rb s)) (fun _ s' => table_ok s' /\ same_links s s') s.
Proof.
  intros Hf Hok. apply (wp_mac_loop s (tk_links _ Hok) (tk_sys _ Hok) f); [by apply Hf|split; [apply Hok|done]|].
  intros s'. by apply frame_ok.
Qed.

Lemma wp_get_lif_live l (Q : LocalInterface -> CS -> Prop) s :
  l ∈ dom (cs_lifs s) -> (forall i, cs_lifs s !! l = Some i -> Q i s) -> wp (get_lif l) Q s.
Proof.
  intros [i Ei]%elem_of_dom HQ. exists i, s. unfold get_lif. rewrite Ei. split; [done|by apply HQ].
Qed.

Lemma wp_run_event ev s :
  table_ok s -> ev_ok s ev ->
  wp (run_event ev) (fun _ s' => table_ok s' /\ same_links s s') s.
Proof.
  intros Hok Hev. destruct ev as [l st|l st|l| | | |l|n| |ol e|d]; cbn [run_event ev_ok] in *.
  - apply wp_bind, wp_get_lif_live; [done|]. intros i Ei. apply wp_bind, wp_gets. cbn zeta.
    apply wp_bind, wp_gets, wp_bind. unfold set_lif. eexists tt, _. split; [by rewrite Ei|].
    set (s1 := s <| cs_lifs ::= _ |>).
    assert (Hd : dom (cs_lifs s1) = dom (cs_lifs s)).
    { cbn. rewrite dom_insert_L. apply elem_of_dom_2 in Ei. set_solver. }
    assert (Hok1 : table_ok s1).
    { destruct Hok as [Hwf [Hl Hp Hn Hnn] Hs]. split; [done|split|]; rewrite ?Hd; done. }
    eapply wp_mono; [change (rb s) with (rb s1); apply (wp_loop_event _ s1); [|done]|].
    + intros []. case_match; [by apply tidy_l2_down|by apply tidy_l2_up].
    + intros _ s' [Hok' [Hd' Hn']]. split; [done|]. split; [by rewrite Hd', Hd|done].
  - apply wp_when; intros _; [|done]. apply wp_bind, wp_get_lif_live; [done|]. intros i _.
    apply wp_bind, wp_gets. apply wp_loop_event; [|done]. intros []. by apply tidy_orphan.
  - apply wp_bind, wp_get_lif_live; [done|]. intros i _. apply wp_bind, wp_gets.
    apply wp_loop_event; [|done]. intros []. by apply tidy_to_peerlink.
  - apply wp_bind, wp_gets, wp_loop_event; [|done]. intros []. by apply tidy_disconn.
  - apply wp_bind, wp_gets, wp_loop_event; [|done]. intros []. by apply tidy_peerlink_up.
  - apply wp_bind, wp_gets, wp_bind. eapply wp_mono.
    { apply wp_loop_event; [|done]. intros []. by apply tidy_peerlink_down. }
    intros _ s' [Hok' Hs]. apply wp_modify. by destruct Hok' as [? [????] ?].
  - apply wp_bind, wp_get_lif_live; [done|]. intros i _. apply wp_bind, wp_gets.
    apply wp_loop_event; [|done]. intros []. by apply tidy_clear_pending.
  - apply wp_bind, (wp_find_by_name s (tk_links _ Hok) (tk_sys _ Hok)); [split; [apply Hok|done]|].
    intros [l|] Hl; [|by apply wp_ret]. apply wp_bind, wp_get_lif_live; [by apply Hl|]. intros i _.
    case_match; [by apply wp_ret|]. apply wp_bind, wp_gets.
    apply wp_loop_event; [|done]. intros []. by apply tidy_convert.
  - apply wp_bind, wp_gets, wp_loop_event; [|done]. intros []. by apply tidy_resync.
  - apply (wp_mac_update_from_syncd s (tk_links _ Hok) (tk_sys _ Hok));
      [split; [apply Hok|done]|apply Hev|apply Hev|].
    intros s'. by apply frame_ok.
  - apply (wp_update_mac_entry s (tk_links _ Hok)); [apply Hev|split; [apply Hok|done]|apply Hev|].
    intros s'. by apply frame_ok.
Qed.

(** ** Properties *)

