(* ===== verification/LinkMacSpec.v ===== *)
(** What the events of [LinkMac] do to the contents of the MAC table. *)

From Stdlib Require Import ZArith Lia Sorted.
From stdpp Require Import base list gmap numbers option.
From coqutil Require Import Byte Word.LittleEndianList.
From S2P Require Import Prelude CBuf State MsgFormat Wire CsmMsg Csm Port SyncPrepare Receive.
From S2P Require Import Syncd MacTable MacInv MacSync LinkMac LinkMacInv.

(** ** Loops over the table *)

(** The new entry under a key, or none. *)
Definition upd (k : Z) (o : option MACMsg) (T : gmap Z MACMsg) : gmap Z MACMsg :=
  match o with Some e => <[k := e]> T | None => delete k T end.

Lemma lookup_upd k o T j : upd k o T !! j = if decide (j = k) then o else T !! j.
Proof.
  unfold upd. destruct o; case_decide; subst;
    rewrite ?lookup_insert_eq, ?lookup_delete_eq, ?lookup_insert_ne, ?lookup_delete_ne; done.
Qed.

Definition upd_all (g : MACMsg -> option MACMsg) (es : list MACMsg) (T : gmap Z MACMsg) :=
  foldl (fun T e => upd (mac_key e) (g e) T) T es.

Lemma lookup_upd_all g es T j :
  NoDup (mac_key <$> es) ->
  upd_all g es T !! j
  = match find_first (fun e => mac_key e =? j) es with Some e => g e | None => T !! j end.
Proof.
  revert T. induction es as [|e es IH]; intros T Hn; [done|].
  rewrite fmap_cons in Hn. inversion Hn as [|? ? He Hn']; subst.
  cbn [upd_all foldl find_first]. change (foldl _ ?t es) with (upd_all g es t). rewrite IH by done.
  destruct (find_first _ es) as [e'|] eqn:E.
  - apply find_first_Some in E as [Hin Hk%Z.eqb_eq].
    destruct (Z.eqb_spec (mac_key e) j) as [Ej|]; [|done].
    destruct He. rewrite Ej, <- Hk. by apply list_elem_of_fmap_2.
  - rewrite lookup_upd. destruct (Z.eqb_spec (mac_key e) j), (decide (j = mac_key e)); congruence.
Qed.

(** The entries in key order. *)
Definition entries (s : CS) : list MACMsg := mac_at (MLACP (cs_csm s)) <$> rb s.

Lemma entries_keys s : WF s -> NoDup (mac_key <$> entries s).
Proof.
  intros Hwf. unfold entries. rewrite <- list_fmap_compose.
  erewrite fmap_ext_in; [by apply rb_nodup_keys|].
  intros p Hp. destruct (wf_lookup _ Hwf p) as (e & E); [by left|].
  cbn. unfold key_at, mac_at. by rewrite E.
Qed.

(** Visiting every entry maps the table. *)
Lemma upd_all_omap g s : WF s -> upd_all g (entries s) (table s) = omap g (table s).
Proof.
  intros Hwf. apply map_eq. intros k. rewrite lookup_omap, lookup_upd_all by by apply entries_keys.
  destruct (find_first _ (entries s)) as [e|] eqn:E.
  - apply find_first_Some in E as [(p & -> & Hp)%list_elem_of_fmap Hk%Z.eqb_eq].
    destruct (wf_lookup _ Hwf p) as (e & Ee); [by left|]. unfold mac_at in *. rewrite Ee in *.
    cbn in *. replace (table s !! k) with (Some e); [done|]. symmetry. apply table_lookup; eauto.
  - replace (table s !! k) with (@None MACMsg); [done|]. symmetry. apply eq_None_not_Some.
    intros [e He]. apply table_lookup in He as (p & Hp & Ee & Hk); [|done].
    apply find_first_None in E. rewrite List.Forall_forall in E.
    specialize (E e). rewrite Hk, Z.eqb_refl in E. discriminate E.
    apply list_elem_of_In, list_elem_of_fmap. exists p. unfold mac_at. by rewrite Ee.
Qed.

Section Loop.
Context (s0 : CS) (f : ptr -> M CS unit) (g : MACMsg -> option MACMsg) (r : MACMsg -> list Action).

(** One visit, at entry [e]. *)
Context (Hstep : forall s p e, view s0 p e (table s) (acts s) s ->
  (exists k, table s0 !! k = Some e) ->
  wp (f p) (fun _ s' => Inv s0 s' /\ table s' = upd (mac_key e) (g e) (table s)
    /\ acts s' = acts s ++ r e /\ queue s' = queue s0 /\ g_sd (cs_g s') = []) s).
Context (Hsp : forall p, spares p (f p)).

Record visited (l : list ptr) (es : list MACMsg) (s : CS) : Prop := mk_visited {
  vi_inv : Inv s0 s;
  vi_queue : queue s = queue s0;
  vi_sd : g_sd (cs_g s) = [];
  vi_nodup : NoDup l;
  vi_todo : Forall2 (fun p e => p ∈ rb s /\ heap s !! p = Some e
              /\ exists k, table s0 !! k = Some e) l es;
}.

Lemma visit_all l es s :
  visited l es s ->
  wp (foreach f l) (fun _ s' => Inv s0 s' /\ queue s' = queue s0 /\ g_sd (cs_g s') = []
    /\ table s' = upd_all g es (table s) /\ acts s' = acts s ++ concat (r <$> es)) s.
Proof.
  revert es s. induction l as [|p l IH]; intros es s [Hi Hq Hd Hn Hl].
  { inversion Hl; subst. apply wp_ret. cbn. by rewrite app_nil_r. }
  inversion Hl as [|? e ? es' (Hp & Ee & Ht) Hl']; subst. inversion Hn as [|? ? Hpl Hn']; subst.
  cbn [foreach]. apply wp_bind. destruct (Hstep s p e) as ([] & s1 & E & Hi1 & Ht1 & Ha1 & Hq1 & Hd1);
    [by split|done|].
  exists tt, s1. split; [done|]. eapply wp_mono; [apply (IH es')|].
  - split; [done..|]. clear -Hl' Hpl E Hsp.
    induction Hl' as [|q e' l es (Hq & Ee & Ht) Hl IHl]; constructor; [|apply IHl; set_solver].
    destruct (Hsp p _ _ _ E q) as [Hr Hh]; [set_solver|]. rewrite Hh. auto.
  - intros _ s' (Hi' & Hq' & Hd' & Ht' & Ha'). split_and!; [done..|by rewrite Ht', Ht1|].
    rewrite Ha', Ha1. cbn. by rewrite app_assoc.
Qed.

Lemma visit_table s :
  s = s0 -> WF s -> g_sd (cs_g s) = [] ->
  wp (foreach f (rb s)) (fun _ s' => Inv s0 s' /\ queue s' = queue s0 /\ g_sd (cs_g s') = []
    /\ table s' = omap g (table s) /\ acts s' = acts s ++ concat (r <$> entries s)) s.
Proof.
  intros -> Hwf Hd. rewrite <- upd_all_omap by done. apply visit_all.
  split; [by split|done|done|by apply rb_nodup|].
  unfold entries. rewrite Forall2_fmap_r. apply Forall_Forall2_diag, list.Forall_forall.
  intros p Hp. destruct (wf_lookup _ Hwf p) as (e & Ee); [by left|].
  split; [done|]. unfold mac_at. rewrite Ee. split; [done|]. exists (mac_key e).
  apply table_lookup; eauto.
Qed.
End Loop.

(** ** The session is lost *)

(** What becomes of an entry, where [peer] is the name of the peer link. *)
Definition disconn_entry (peer : buf) (e : MACMsg) : option MACMsg :=
  if streq (mac_ifname e) peer then
    let e' := e <| mac_age_flag := Z.lor (mac_age_flag e) MAC_AGE_PEER |> in
    if (mac_age_flag e' =? MAC_AGE_BOTH) || truth (mac_pending_local_del e) then None else Some e'
  else if mac_age_flag e =? 0 then Some (e <| mac_age_flag := MAC_AGE_PEER |>)
  else if mac_age_flag e =? MAC_AGE_LOCAL
  then Some (e <| mac_add_to_syncd := 1 |> <| mac_age_flag := MAC_AGE_PEER |>)
  else Some e.

(** What the switch is asked. *)
Definition disconn_request (s : CS) (e : MACMsg) : list Action :=
  let peer := csm_peer_itf_name (cs_csm s) in
  if streq (mac_ifname e) peer then
    match disconn_entry peer e with
    | None => fdb_request s e (mac_fdb_type e) MAC_SYNC_DEL
    | Some _ => []
    end
  else if mac_age_flag e =? MAC_AGE_LOCAL
  then fdb_request s e MAC_TYPE_DYNAMIC_LOCAL MAC_SYNC_ADD else [].

Lemma fdb_request_same s e e' ty op :
  mac_vid e' = mac_vid e -> mac_ifname e' = mac_ifname e -> mac_addr e' = mac_addr e ->
  fdb_request s e' ty op = fdb_request s e ty op.
Proof. intros Hv Hi Ha. unfold fdb_request. by rewrite Hv, Hi, Ha. Qed.

Lemma disconn_step s0 s p e :
  view s0 p e (table s) (acts s) s -> mac_addr e <> null_mac ->
  wp (disconn_one p) (fun _ s' => Inv s0 s'
    /\ table s' = upd (mac_key e) (disconn_entry (csm_peer_itf_name (cs_csm s0)) e) (table s)
    /\ acts s' = acts s ++ disconn_request s0 e /\ queue s' = queue s0 /\ g_sd (cs_g s') = []) s.
Proof.
  intros Hv Hn. unfold disconn_one. apply wp_bind. eapply view_get; [done|]. apply wp_bind, wp_gets.
  destruct (vw_inv _ _ _ _ _ _ Hv) as [_ Hf]. rewrite (fr_name _ _ Hf).
  unfold disconn_request, disconn_entry. destruct (streq _ _).
  - apply wp_bind. eapply view_set; [done|by apply (view_entry _ _ _ _ _ _ Hv)|done|].
    set (e1 := e <| mac_age_flag := _ |>). cbn zeta. intros s1 Hv1.
    apply wp_bind. eapply view_get; [done|]. cbn beta. fold e1.
    change (mac_pending_local_del e1) with (mac_pending_local_del e).
    apply wp_when; intros ->.
    + apply wp_bind, wp_bind. eapply view_get; [done|]. eapply view_chip; [done|done|].
      cbn zeta. intros s2 Hv2. unfold mac_drop, wp. setoid_rewrite bind_assoc. apply wp_bind.
      eapply wp_mono; [by eapply view_drop|]. intros _ s3 (Hi3 & Ht3 & Ha3 & Hq3 & Hd3 & _).
      apply wp_ret. split_and!; [done| |by rewrite Ha3|done|done].
      rewrite Ht3. cbn [upd]. change (mac_key _) with (mac_key e) at 1 2 3.
      by rewrite !delete_insert_eq.
    + destruct Hv1 as [Hi1 _ _ Ht1 Ha1 Hq1 Hd1].
      split_and!; [done|by rewrite Ht1|by rewrite Ha1, app_nil_r|done|done].
  - destruct (Z.eqb_spec (mac_age_flag e) 0) as [E0|_].
    + rewrite E0. cbn [Z.eqb MAC_AGE_LOCAL].
      eapply view_set; [done|by apply (view_entry _ _ _ _ _ _ Hv)|done|].
      intros s1 [Hi1 _ _ Ht1 Ha1 Hq1 Hd1].
      split_and!; [done|by rewrite Ht1|by rewrite Ha1, app_nil_r|done|done].
    + apply wp_when; intros ->.
      * apply wp_bind, wp_bind. eapply view_get; [done|]. eapply view_chip; [done|done|].
        cbn zeta. intros s1 Hv1. eapply view_set; [done|by apply (view_entry _ _ _ _ _ _ Hv1)|done|].
        intros s2 [Hi2 _ _ Ht2 Ha2 Hq2 Hd2].
        split_and!; [done| |done|done|done]. rewrite Ht2. cbn [upd].
        change (mac_key (e <| mac_add_to_syncd := _ |>)) with (mac_key e).
        by rewrite insert_insert_eq.
      * destruct Hv as [Hi1 Hr Hh Ht1 Ha1 Hq1 Hd1].
        split_and!; [done| |by rewrite app_nil_r|done|done]. cbn [upd]. symmetry.
        apply insert_id, table_lookup; [apply Hi1|]. by exists p.
Qed.

Lemma spares_disconn p : spares p (disconn_one p).
Proof. unfold disconn_one. spare. Qed.

(** ** Properties *)

(** C26. When the session is lost, every entry is settled: an address behind the
    peer link that is aged on both sides or was only parked there is forgotten and
    the switch is told; an address known to both sides, or learnt by the peer on a
    shared port channel, becomes this switch's own (and, in the latter case, the
    switch learns it as a local one); the others stay.  The requests go out in
    the order of the keys. *)
Theorem session_down_settles_table s :
  WF s -> g_sd (cs_g s) = [] ->
  (forall k e, table s !! k = Some e -> mac_addr e <> null_mac) ->
  exists s', mlacp_peer_disconn_fdb_handler s = Some (tt, s') /\ WF s'
    /\ table s' = omap (disconn_entry (csm_peer_itf_name (cs_csm s))) (table s)
    /\ queue s' = queue s
    /\ acts s' = acts s ++ concat (disconn_request s <$> entries s).
Proof.
  intros Hwf Hd Hn. apply wp_unit, wp_bind, wp_gets.
  eapply wp_mono; [apply (visit_table s disconn_one
    (disconn_entry (csm_peer_itf_name (cs_csm s))) (disconn_request s))|].
  - intros s1 p e Hv [k Hk]. apply disconn_step; [done|by eapply Hn].
  - apply spares_disconn.
  - done.
  - done.
  - done.
  - intros _ s' (Hi & Hq & _ & Ht & Ha). split_and!; [apply Hi|done..].
Qed.

(** ** The switch learns an address *)

(** The entry of an address that the switch learnt. *)
Definition learnt (e : FdbEvent) : MACMsg :=
  let n := pad MAX_L_PORT_NAME (cstr (fe_ifname e)) in
  mkMac (fe_vid e) (fe_mac e) MAC_SYNC_ADD (fe_type e) n n MAC_AGE_PEER 0 0.

Definition event_key (e : FdbEvent) : Z := mac_key (mac_find (fe_vid e) (fe_mac e)).

(** The requests for a new address: forget it when both ends of its port channel
    are down; point it to the peer link when only this end is. *)
Definition learn_request (s : CS) (from_mclag down : bool) (e : FdbEvent) : list Action :=
  let pif := peer_if_find_by_name (fe_ifname e) (cs_csm s) in
  if from_mclag && down && pif_is PORT_STATE_DOWN pif
  then fdb_request s (learnt e) (fe_type e) MAC_SYNC_DEL
  else if down && from_mclag && pif_is PORT_STATE_UP pif
  then fdb_request s (learnt e <| mac_ifname := peer_itf_bytes (cs_csm s) |>) (fe_type e) MAC_SYNC_ADD
  else [].

(** C27. An address that the switch learnt and the table does not hold enters it
    as this switch's own, and is queued for the peer when its port is up and the
    peers are synchronised.  When both ends of its port channel are down it is
    refused.  (When only this end is down the switch is told to reach it over the
    peer link, but the entry in the table still names the port and is not marked
    as parked.) *)
Theorem switch_learns_address s lif_po e l i :
  WF s -> event_ok e -> fe_mac e <> null_mac -> fe_op e = MAC_SYNC_ADD ->
  local_if_find_by_name (fe_ifname e) s = Some (Some l, s) -> cs_lifs s !! l = Some i ->
  streq (csm_peer_itf_name (cs_csm s)) (fe_ifname e) = false ->
  table s !! event_key e = None -> g_sd (cs_g s) = [] ->
  let from_mclag := bool_decide (lif_po <> None) in
  let down := lif_state i =? PORT_STATE_DOWN in
  let refused := from_mclag && down
    && pif_is PORT_STATE_DOWN (peer_if_find_by_name (fe_ifname e) (cs_csm s)) in
  exists s', mac_update_from_syncd lif_po e s = Some (tt, s') /\ WF s'
    /\ table s' = (if refused then table s else <[event_key e := learnt e]> (table s))
    /\ acts s' = acts s ++ learn_request s from_mclag down e
    /\ exists new, queue s' = queue s ++ new
         /\ (heap s' !!.) <$> new
            = (if negb refused && negb down
                  && bool_decide (ml_current_state (MLACP (cs_csm s)) = MLACP_STATE_EXCHANGE)
               then [Some (learnt e)] else []).
Proof.
  intros Hwf (Ha & Hn & Hnn) Hnull Hop Hfind Hi Hpeer Ht Hd from_mclag down refused.
  set (d := mkMacData MAC_SYNC_ADD (fe_type e) (fe_mac e) (fe_vid e) (fe_ifname e)).
  destruct (find_absent s d Hwf) as [Hf Hk]; [done|done|].
  assert (Hok : entry_ok (learnt e)).
  { destruct (pad_name_ok _ Hn Hnn) as [Hpl Hpn]. done. }
  unfold mac_update_from_syncd. rewrite bind_the_csm. cbn zeta.
  rewrite (bind_Some _ _ _ _ _ Hf), Hop. cbn [Z.eqb MAC_SYNC_ADD Pos.eqb].
  rewrite (bind_Some _ _ _ _ _ Hfind).
  rewrite (bind_Some _ _ _ _ _ (lift_Some _ _ _ (sprintf_name _ Hn Hnn))). cbn zeta.
  replace (streq (csm_peer_itf_name (cs_csm s)) (pad MAX_L_PORT_NAME (cstr (fe_ifname e)))) with false
    by (rewrite <- Hpeer; unfold streq; by rewrite <- Hn, cstr_pad).
  fold from_mclag. unfold syncd_add_new.
  rewrite (bind_Some _ _ s down s)
    by (unfold lif_up, mbind, M_bind, get_lif; by rewrite Hi).
  unfold learn_request. cbn zeta. fold refused.
  change (mac_fdb_type (mkMac _ _ _ (fe_type e) _ _ _ _ _)) with (fe_type e).
  destruct refused eqn:Hr; cbn [negb andb].
  { match goal with |- context [chip_stack ?m _ _] =>
      destruct (wp_tell_switch_acc s m (fe_type e) MAC_SYNC_DEL) as ([] & s' & E & Htk);
        [apply Hok|done|done|] end.
    exists s'. split; [exact E|]. destruct Htk as (? & ? & ? & ->).
    split_and!; [done..|]. exists []. by rewrite app_nil_r. }
  destruct (insert_new_run s (learnt e)) as (t & Hrun & Hwf' & Htab); [done|done|exact Hk|].
  apply bind_inv in Hrun as (new & s1 & E1 & Hrun). 
  apply bind_inv in Hrun as ([] & s2' & E2 & Hrun). injection Hrun as -> ->.
  set (p := fresh (dom (heap s))) in *. set (s2 := s <| cs_csm ::= _ |>) in *.
  assert (Hp : p ∉ dom (heap s)) by apply is_fresh.
  rewrite (bind_Some _ _ _ _ _ E1), (bind_Some _ _ _ _ _ E2), bind_the_csm.
  change (Z.lor (mac_age_flag _) MAC_AGE_PEER) with MAC_AGE_PEER.
  destruct down; cbn [negb andb when].
  - unfold when. destruct (from_mclag && pif_is PORT_STATE_UP _).
    + match goal with |- context [chip_stack ?m _ _] =>
        destruct (wp_tell_switch_acc s2 m (fe_type e) MAC_SYNC_ADD) as ([] & s' & E & Htk);
          [apply Hok|done|done|] end.
      exists s'. split; [exact E|]. destruct Htk as (? & ? & ? & ->).
      split_and!; [done..|]. exists []. by rewrite app_nil_r.
    + exists s2. split; [done|]. split_and!; [done|done|by rewrite app_nil_r|].
      exists []. by rewrite app_nil_r.
  - change (ml_current_state (MLACP (cs_csm s2))) with (ml_current_state (MLACP (cs_csm s))).
    unfold when. case_bool_decide.
    + eexists. split; [done|]. split_and!; [|done|by rewrite app_nil_r|].
      * apply (wf_enqueue (MLACP (cs_csm s2))); [done|cbn; rewrite dom_insert; set_solver|].
        intros Hq. apply Hp, (wf_live _ Hwf). by right.
      * exists [p]. split; [done|]. cbn. by rewrite lookup_insert_eq.
    + exists s2. split; [done|]. split_and!; [done|done|by rewrite app_nil_r|].
      exists []. by rewrite app_nil_r.
Qed.
