(* ===== verification/Isolation.v ===== *)
(** Port isolation: a port channel that is up at both switches must not receive
    traffic from the peer link ([mlacp_link_handler.c]).

    [isolate_to_peer_link] of a local interface records the decision; mclagsyncd
    gets the list of all isolated ports and their members, and the kernel a rule
    of [ebtables]. *)

From Stdlib Require Import ZArith Lia.
From stdpp Require Import base list gmap numbers option.
From coqutil Require Import Byte Word.LittleEndianList.
From S2P Require Import Prelude CBuf State MsgFormat Wire CsmMsg Csm Port SyncPrepare Syncd.

(** ** The list of isolated ports *)

Definition MLAG_PO_BUF_SIZE : nat := 512.

(** [off += snprintf(b + off, sizeof(b) - off, "%s", str)]: the result counts the
    bytes of [str] even when they are cut off, and beyond the buffer the size
    wraps around. *)
Definition snprintf_at (str : buf) (st : buf * nat) : option (buf * nat) :=
  let '(b, off) := st in
  if (MLAG_PO_BUF_SIZE <? off)%nat then None
  else
    let n := (MLAG_PO_BUF_SIZE - off)%nat in
    b ← (if (n =? 0)%nat then Some b else wr off (take (n - 1) str ++ [Byte.x00]) b);
    Some (b, (off + length str)%nat).

Definition comma : byte := Byte.x2c.

(** A port and its members. *)
Definition port_and_members (lif : LocalInterface) : buf :=
  cstr (lif_name lif)
  ++ (if strlen (lif_portchannel_member_buf lif) =? 0 then [] else [comma])
  ++ cstr (lif_portchannel_member_buf lif).

Definition is_isolated (lif : LocalInterface) : bool :=
  (lif_type lif =? IF_T_PORT_CHANNEL) && (lif_isolate_to_peer_link lif =? 1).

Definition append_port (lif : LocalInterface) (st : buf * nat) : option (buf * nat) :=
  if is_isolated lif then
    st ← (if strlen st.1 =? 0 then Some st else snprintf_at [comma] st);
    snprintf_at (port_and_members lif) st
  else Some st.

Fixpoint append_ports (lifs : list LocalInterface) (st : buf * nat) : option (buf * nat) :=
  match lifs with
  | [] => Some st
  | lif :: lifs' => st ← append_port lif st; append_ports lifs' st
  end.

(** The interfaces of [lif_list]. *)
Fixpoint get_lifs (ls : list ptr) : M CS (list LocalInterface) :=
  match ls with
  | [] => mret []
  | l :: ls' => i ← get_lif l; rest ← get_lifs ls'; mret (i :: rest)
  end.

Definition update_peerlink_isolate_from_all_csm_lif : M CS unit :=
  csm ← the_csm;
  match csm_peer_link_if csm with
  | None => mret tt
  | Some l =>
      pl ← get_lif l;
      if lif_type pl =? IF_T_VXLAN then mret tt
      else
        lifs ← get_lifs (ml_lif_list (MLACP csm));
        st ← lift (append_ports lifs (zeros 512, 0%nat));
        dst ← lift (rd 0 st.2 st.1);
        m ← lift (syncd_build MCLAG_MSG_TYPE_PORT_ISOLATE
              [(MCLAG_SUB_OPTION_TYPE_ISOLATE_SRC, cstr (lif_name pl));
               (MCLAG_SUB_OPTION_TYPE_ISOLATE_DST, dst)]);
        syncd_write_once MCLAG_MSG_TYPE_PORT_ISOLATE m
  end.

(** ** Setting the flag *)

(** The rule is deleted, then inserted or deleted once more. *)
Definition set_peerlink_mlag_port_kernel_forward (lif : ptr) (enable : Z) : M CS unit :=
  csm ← the_csm;
  match csm_peer_link_if csm with
  | None => mret tt
  | Some l =>
      pl ← get_lif l; i ← get_lif lif;
      act (Act_ebtables false (cstr (lif_name pl)) (cstr (lif_name i)));;
      act (Act_ebtables (truth enable) (cstr (lif_name pl)) (cstr (lif_name i)))
  end.

Definition set_peerlink_mlag_port_isolate (lif : ptr) (enable : Z) (is_unbind_pending : bool)
    : M CS unit :=
  set_lif lif (fun i => i <| lif_isolate_to_peer_link := enable |>);;
  csm ← the_csm;
  when (bool_decide (csm_peer_link_if csm <> None)
        && bool_decide (ml_current_state (MLACP csm) = MLACP_STATE_EXCHANGE))
    (update_peerlink_isolate_from_all_csm_lif;;
     set_peerlink_mlag_port_kernel_forward lif enable;;
     when (negb is_unbind_pending)
       (i ← get_lif lif;
        mlacp_link_set_peerlink_port_isolation (csm_mlag_id csm) (lif_name i) (truth enable);;
        mret tt)).

Definition peerlink_port_isolate_cleanup : M CS unit :=
  csm ← the_csm;
  foreach (fun l =>
    i ← get_lif l;
    when (lif_type i =? IF_T_PORT_CHANNEL) (set_peerlink_mlag_port_isolate l 0 false))
    (ml_lif_list (MLACP csm)).

(** [LIST_FOREACH] over [lif_list] for a name. *)
Fixpoint mlacp_lif_by_name (name : buf) (ls : list ptr) : M CS (option ptr) :=
  match ls with
  | [] => mret None
  | l :: ls' =>
      i ← get_lif l;
      if streq (lif_name i) name then mret (Some l) else mlacp_lif_by_name name ls'
  end.

Definition isolation_ready (csm : CSM) : bool :=
  bool_decide (csm_peer_link_if csm <> None)
  && bool_decide (ml_current_state (MLACP csm) = MLACP_STATE_EXCHANGE).

Definition update_peerlink_isolate_from_pif (pif : PeerInterface) (pif_po_state new_create : Z)
    : M CS unit :=
  csm ← the_csm;
  if negb (bool_decide (csm_peer_link_if csm <> None))
     || ((new_create =? 0) && (pif_po_state =? pif_po_active pif))
     || negb (bool_decide (ml_current_state (MLACP csm) = MLACP_STATE_EXCHANGE))
  then mret tt
  else
    ol ← mlacp_lif_by_name (pif_name pif) (ml_lif_list (MLACP csm));
    match ol with
    | None => mret tt
    | Some l =>
        i ← get_lif l;
        when (lif_po_active i =? 1)
          (set_peerlink_mlag_port_isolate l (if pif_po_state =? 1 then 1 else 0) false)
    end.

(** An interface that the peer does not have counts as up there. *)
Definition update_peerlink_isolate_from_lif (lif : ptr) (lif_po_state : Z) : M CS unit :=
  csm ← the_csm;
  if negb (isolation_ready csm) then mret tt
  else
    i ← get_lif lif;
    let pif_po_state :=
      match peer_if_find_by_name (lif_name i) csm with
      | Some pif => pif_po_active pif | None => 1 end in
    when (lif_po_state =? 1)
      (set_peerlink_mlag_port_isolate lif (if pif_po_state =? 1 then 1 else 0) false).

Definition mlacp_mlag_link_del_handler (lif : ptr) : M CS unit :=
  csm ← the_csm;
  when (bool_decide (ml_current_state (MLACP csm) = MLACP_STATE_EXCHANGE))
    (set_peerlink_mlag_port_isolate lif 0 true).

(** ** The list, as a string *)

(** The names of the isolated ports and their members, separated by commas. *)
Definition joined (lifs : list LocalInterface) : buf :=
  foldl (fun acc lif =>
    if is_isolated lif then (match acc with [] => [] | _ => acc ++ [comma] end) ++ port_and_members lif
    else acc) [] lifs.

(** A buffer that holds the string [str]. *)
Definition po_buf (str : buf) : buf := pad MLAG_PO_BUF_SIZE str.

Definition named (lif : LocalInterface) : Prop := cstr (lif_name lif) <> [].

Lemma cstr_no_nul a : has_nul (cstr a) = false.
Proof. induction a as [|c a IH]; [done|]. cbn. destruct (is_nul c) eqn:E; [done|]. cbn. by rewrite E. Qed.

Lemma cstr_id a b : has_nul a = false -> cstr (a ++ Byte.x00 :: b) = a.
Proof.
  induction a as [|c a IH]; intros H; [done|]. cbn in *. destruct (is_nul c); [done|].
  by rewrite IH.
Qed.

Lemma has_nul_app' a b : has_nul (a ++ b) = has_nul a || has_nul b.
Proof. apply existsb_app. Qed.

Lemma port_no_nul lif : has_nul (port_and_members lif) = false.
Proof.
  unfold port_and_members. rewrite !has_nul_app', !cstr_no_nul. by case_match.
Qed.

Lemma po_buf_strlen str :
  has_nul str = false -> (length str < MLAG_PO_BUF_SIZE)%nat ->
  strlen (po_buf str) = Z.of_nat (length str).
Proof.
  intros Hn Hl. unfold strlen, po_buf, pad. f_equal.
  destruct (MLAG_PO_BUF_SIZE - length str)%nat as [|k] eqn:E; [lia|]. cbn [replicate].
  by rewrite cstr_id.
Qed.

Lemma snprintf_fits str s :
  has_nul str = false -> (length str + length s < MLAG_PO_BUF_SIZE)%nat ->
  snprintf_at s (po_buf str, length str) = Some (po_buf (str ++ s), length (str ++ s)).
Proof.
  intros Hn Hl. unfold snprintf_at. rewrite (proj2 (Nat.ltb_ge _ _)) by lia.
  rewrite (proj2 (Nat.eqb_neq _ _)) by lia. rewrite take_ge by lia.
  unfold po_buf at 1, pad. rewrite (wr_shift0 str) by done.
  replace (MLAG_PO_BUF_SIZE - length str)%nat
    with (length (s ++ [Byte.x00]) + (MLAG_PO_BUF_SIZE - length str - length (s ++ [Byte.x00])))%nat
    by (rewrite length_app; cbn [length]; lia).
  rewrite replicate_add, wr_head by (rewrite length_replicate; done).
  cbn [fmap option_fmap option_map mbind option_bind]. f_equal. f_equal; [|by rewrite length_app].
  unfold po_buf, pad. rewrite <- !app_assoc. do 2 f_equal. rewrite !length_app. cbn [length].
  destruct (MLAG_PO_BUF_SIZE - (length str + length s))%nat as [|k] eqn:E; [lia|].
  cbn [replicate app]. do 2 f_equal. lia.
Qed.

(** The fold of [joined], from a prefix. *)
Definition join_port (acc : buf) (lif : LocalInterface) : buf :=
  if is_isolated lif then (match acc with [] => [] | _ => acc ++ [comma] end) ++ port_and_members lif
  else acc.

Lemma join_port_length acc lif : (length acc <= length (join_port acc lif))%nat.
Proof. unfold join_port. case_match; [|lia]. destruct acc; rewrite ?length_app; cbn [length]; lia. Qed.

Lemma joined_length acc lifs : (length acc <= length (foldl join_port acc lifs))%nat.
Proof.
  revert acc. induction lifs as [|i lifs IH]; intros acc; cbn; [lia|].
  pose proof (IH (join_port acc i)). pose proof (join_port_length acc i). lia.
Qed.

Lemma join_port_no_nul acc lif : has_nul acc = false -> has_nul (join_port acc lif) = false.
Proof.
  intros H. unfold join_port. case_match; [|done]. rewrite has_nul_app', port_no_nul.
  destruct acc; [done|]. rewrite has_nul_app', H. done.
Qed.

(** Within the buffer. *)
Lemma append_port_fits acc lif :
  has_nul acc = false -> (length (join_port acc lif) < MLAG_PO_BUF_SIZE)%nat ->
  append_port lif (po_buf acc, length acc)
  = Some (po_buf (join_port acc lif), length (join_port acc lif)).
Proof.
  intros Hn Hl. pose proof (join_port_length acc lif). unfold append_port.
  unfold join_port in *. destruct (is_isolated lif); [|done]. cbn [fst].
  rewrite po_buf_strlen by (done || lia). destruct acc as [|c acc].
  - cbn [length app Z.of_nat Z.eqb mbind option_bind] in *. by apply (snprintf_fits []).
  - rewrite (proj2 (Z.eqb_neq _ _)) by (cbn; lia).
    rewrite snprintf_fits; [|done|rewrite !length_app in *; lia]. cbn [mbind option_bind].
    apply snprintf_fits; [rewrite has_nul_app', Hn; done|]. by rewrite <- length_app.
Qed.

Lemma append_ports_fit lifs acc :
  has_nul acc = false -> (length (foldl join_port acc lifs) < MLAG_PO_BUF_SIZE)%nat ->
  append_ports lifs (po_buf acc, length acc)
  = Some (po_buf (foldl join_port acc lifs), length (foldl join_port acc lifs)).
Proof.
  revert acc. induction lifs as [|i lifs IH]; intros acc Hn Hl; [done|]. cbn [foldl append_ports] in *.
  pose proof (joined_length (join_port acc i) lifs).
  rewrite append_port_fits by (done || lia). cbn [mbind option_bind].
  apply IH; [by apply join_port_no_nul|done].
Qed.

(** Beyond it, the count goes on. *)
Definition tracks (acc : buf) (st : buf * nat) : Prop :=
  st.2 = length acc /\ length st.1 = MLAG_PO_BUF_SIZE
  /\ (strlen st.1 = 0 <-> acc = []).

Lemma strlen_zero b : strlen b = 0 <-> match b with [] => True | c :: _ => is_nul c = true end.
Proof.
  unfold strlen. destruct b as [|c b]; [by split|]. cbn. destruct (is_nul c); cbn; split; intros; try done; lia.
Qed.

Lemma snprintf_tracks acc s st st' :
  tracks acc st -> has_nul s = false -> (acc = [] -> s <> []) -> snprintf_at s st = Some st' ->
  tracks (acc ++ s) st'.
Proof.
  destruct st as [b off]. intros (Ho & Hb & Hz) Hs Hne. cbn [fst snd] in *. subst off.
  unfold snprintf_at. destruct (_ <? _)%nat eqn:E1; [done|]. apply Nat.ltb_ge in E1.
  assert (Hnil : acc ++ s <> []) by (destruct acc; [by apply Hne|done]).
  destruct (_ =? 0)%nat eqn:E2; cbn [mbind option_bind].
  - intros [= <-]. apply Nat.eqb_eq in E2. split_and!; cbn; [by rewrite length_app|done|].
    split; [|done]. intros H%Hz. subst acc. cbn in E2. unfold MLAG_PO_BUF_SIZE in E2. lia.
  - apply Nat.eqb_neq in E2. destruct (wr _ _ b) as [b'|] eqn:Ew; [|done]. intros [= <-].
    split_and!; cbn; [by rewrite length_app|by rewrite (wr_length _ _ _ _ Ew)|].
    split; [|done]. rewrite strlen_zero in *. unfold wr in Ew. destruct (_ <=? _)%nat; [|done].
    injection Ew as <-. destruct acc as [|c acc].
    + destruct s as [|c s]; [by destruct Hne|]. cbn [length] in E2.
      replace (MLAG_PO_BUF_SIZE - length (@nil byte) - 1)%nat with (S 510) by done. cbn.
      rewrite take_0. cbn in Hs |- *. by destruct (is_nul c).
    + destruct b as [|c' b]; [done|]. cbn. intros H. by apply Hz in H.
Qed.

Lemma append_ports_track lifs acc st st' :
  tracks acc st -> Forall named lifs -> append_ports lifs st = Some st' ->
  tracks (foldl join_port acc lifs) st'.
Proof.
  revert acc st. induction lifs as [|i lifs IH]; intros acc st Ht Hn; cbn [append_ports foldl].
  { by intros [= <-]. }
  apply Forall_cons_1 in Hn as [Hi Hn]. destruct (append_port i st) as [st1|] eqn:E; [|done].
  cbn [mbind option_bind]. apply IH; [|done]. unfold append_port in E. unfold join_port.
  destruct (is_isolated i); [|by injection E as <-].
  assert (Hp : port_and_members i <> []).
  { unfold port_and_members, named in *. by destruct (cstr (lif_name i)). }
  pose proof Ht as (_ & _ & Hz). destruct (Z.eqb_spec (strlen st.1) 0) as [E0|E0].
  - apply Hz in E0 as ->. cbn [mbind option_bind] in E.
    by apply (snprintf_tracks [] _ st); [|apply port_no_nul|..].
  - destruct acc as [|c acc]; [by destruct E0; apply Hz|].
    destruct (snprintf_at [comma] st) as [st2|] eqn:E2; [|done]. cbn [mbind option_bind] in E.
    eapply snprintf_tracks; [eapply snprintf_tracks; [exact Ht|done|done|exact E2]|..|exact E];
      [apply port_no_nul|by destruct acc].
Qed.

Lemma zeros_po_buf : zeros 512 = po_buf [].
Proof. done. Qed.

Lemma zeros_tracks : tracks [] (zeros 512, 0%nat).
Proof. split_and!; [done|apply zeros_length|done]. Qed.

Lemma joined_foldl lifs : joined lifs = foldl join_port [] lifs.
Proof. done. Qed.

(** The string that goes out, or nothing. *)
Lemma ports_string lifs :
  (length (joined lifs) < MLAG_PO_BUF_SIZE)%nat ->
  (st ← append_ports lifs (zeros 512, 0%nat); rd 0 st.2 st.1) = Some (joined lifs).
Proof.
  intros H. rewrite zeros_po_buf, joined_foldl in *.
  pose proof (append_ports_fit lifs [] eq_refl H) as E. change (length []) with 0%nat in E.
  rewrite E. cbn [mbind option_bind fst snd].
  unfold po_buf, pad. by apply rd_head.
Qed.

Lemma ports_overflow lifs :
  Forall named lifs -> (MLAG_PO_BUF_SIZE < length (joined lifs))%nat ->
  (st ← append_ports lifs (zeros 512, 0%nat); rd 0 st.2 st.1) = None.
Proof.
  intros Hn H. destruct (append_ports _ _) as [st|] eqn:E; [|done].
  destruct (append_ports_track _ _ _ _ zeros_tracks Hn E) as (Ho & Hb & _).
  cbn [mbind option_bind]. unfold rd. rewrite Ho, Hb, <- joined_foldl.
  rewrite (proj2 (Nat.leb_gt _ _)) by lia. done.
Qed.

(** ** What is asked of the switch *)

Definition lifs_at (s : CS) (ls : list ptr) : list LocalInterface :=
  omap (fun l => cs_lifs s !! l) ls.

Lemma get_lifs_run ls s :
  (forall l, l ∈ ls -> l ∈ dom (cs_lifs s)) -> get_lifs ls s = Some (lifs_at s ls, s).
Proof.
  induction ls as [|l ls IH]; intros H; [done|]. cbn [get_lifs].
  destruct (proj1 (elem_of_dom (cs_lifs s) l)) as [i Ei]; [apply H; set_solver|].
  rewrite (bind_Some (get_lif l) _ s i s) by (unfold get_lif; by rewrite Ei).
  rewrite (bind_Some _ _ s _ s (IH ltac:(set_solver))).
  unfold lifs_at. cbn [omap list_omap]. by rewrite Ei.
Qed.

(** The peer link [pl] is configured and the switch listens. *)
Record isolating (s : CS) (link : ptr) (pl : LocalInterface) : Prop := mk_isolating {
  io_acc : acc s;
  io_link : csm_peer_link_if (cs_csm s) = Some link;
  io_pl : cs_lifs s !! link = Some pl;
  io_type : lif_type pl <> IF_T_VXLAN;
  io_name : (length (cstr (lif_name pl)) < MAX_L_PORT_NAME)%nat;
  io_live : forall l, l ∈ ml_lif_list (MLACP (cs_csm s)) -> l ∈ dom (cs_lifs s);
}.

Definition isolate_frame (pl : LocalInterface) (lifs : list LocalInterface) : buf :=
  frame MCLAG_MSG_TYPE_PORT_ISOLATE (subs_bytes
    [(MCLAG_SUB_OPTION_TYPE_ISOLATE_SRC, cstr (lif_name pl));
     (MCLAG_SUB_OPTION_TYPE_ISOLATE_DST, joined lifs)]).

Definition csm_lifs (s : CS) : list LocalInterface := lifs_at s (ml_lif_list (MLACP (cs_csm s))).

Lemma isolate_all_run s link pl :
  isolating s link pl -> (length (joined (csm_lifs s)) < MLAG_PO_BUF_SIZE)%nat ->
  exists tx, update_peerlink_isolate_from_all_csm_lif s
  = Some (tt, talk [Act_syncd (isolate_frame pl (csm_lifs s))] [] (g_slept (cs_g s)) tx s).
Proof.
  intros [Ha Hl Hp Ht Hn Hv] Hj. eexists. unfold update_peerlink_isolate_from_all_csm_lif.
  rewrite bind_the_csm, Hl.
  rewrite (bind_Some (get_lif link) _ s pl s) by (unfold get_lif; by rewrite Hp).
  rewrite (proj2 (Z.eqb_neq _ _) Ht). rewrite (bind_Some _ _ _ _ _ (get_lifs_run _ s Hv)).
  fold (csm_lifs s). pose proof (ports_string _ Hj) as E.
  destruct (append_ports (csm_lifs s) (zeros 512, 0%nat)) as [st|] eqn:Est; [|done].
  cbn [mbind option_bind] in E. rewrite (bind_Some _ _ _ _ _ (lift_Some _ _ _ eq_refl)).
  rewrite (bind_Some _ _ _ _ _ (lift_Some _ _ _ E)).
  erewrite bind_Some by (apply lift_Some, syncd_build_eq;
    rewrite !subs_bytes_cons, !length_app, !sub_bytes_length; cbn [snd length subs_bytes concat fmap list_fmap];
    unfold IccpSyncdHDr.sizeof, ICCP_MLAGSYNCD_SEND_MSG_BUFFER_SIZE, MLAG_PO_BUF_SIZE, MAX_L_PORT_NAME in *; lia).
  apply syncd_write_once_acc; [done|apply frame_nonnil].
Qed.

(** The state with the flag of [l] set. *)
Definition flagged (s : CS) (l : ptr) (i : LocalInterface) (enable : Z) : CS :=
  s <| cs_lifs ::= <[l := i <| lif_isolate_to_peer_link := enable |>]> |>.

(** The actions of one decision. *)
Definition isolation_actions (s : CS) (pl i : LocalInterface) (enable : Z) : list Action :=
  [Act_syncd (isolate_frame pl (csm_lifs s));
   Act_ebtables false (cstr (lif_name pl)) (cstr (lif_name i));
   Act_ebtables (truth enable) (cstr (lif_name pl)) (cstr (lif_name i))].

Definition isolation_request (s : CS) (i : LocalInterface) (enable : Z) : Action :=
  Act_syncd (request_frame (R_port_isolation (csm_mlag_id (cs_csm s)) (lif_name i) (truth enable))).

Lemma wp_act A s s' a (Q : unit -> CS -> Prop) :
  talked A s s' -> acc s' -> (forall s'', talked (A ++ [a]) s s'' -> acc s'' -> Q tt s'') ->
  wp (act a) Q s'.
Proof.
  intros (sd & sl & tx & ->) Ha HQ. apply wp_modify, HQ; [|exact Ha].
  exists sd, sl, tx. unfold talk. cbn. by rewrite app_assoc.
Qed.

Lemma wp_link_lif A s s' l i (Q : LocalInterface -> CS -> Prop) :
  talked A s s' -> cs_lifs s !! l = Some i -> Q i s' -> wp (get_lif l) Q s'.
Proof. intros (? & ? & ? & ->) Hi HQ. eexists _, _. split; [|exact HQ]. unfold get_lif. cbn. by rewrite Hi. Qed.

Lemma set_isolate_run s link pl l i enable b :
  isolating s link pl -> link <> l -> cs_lifs s !! l = Some i ->
  (length (cstr (lif_name i)) < MAX_L_PORT_NAME)%nat ->
  ml_current_state (MLACP (cs_csm s)) = MLACP_STATE_EXCHANGE ->
  let s1 := flagged s l i enable in
  (length (joined (csm_lifs s1)) < MLAG_PO_BUF_SIZE)%nat ->
  exists s', set_peerlink_mlag_port_isolate l enable b s = Some (tt, s')
    /\ talked (isolation_actions s1 pl i enable ++ (if b then [] else [isolation_request s i enable])) s1 s'
    /\ acc s'.
Proof.
  intros Hio Hne Hi Hn Hst s1 Hj.
  assert (Hio1 : isolating s1 link pl).
  { destruct Hio as [Ha Hl Hp Ht Hnm Hv]. split; try done.
    - unfold s1, flagged. cbn. by rewrite lookup_insert_ne.
    - intros q Hq. unfold s1, flagged. cbn. rewrite dom_insert. set_solver. }
  unfold set_peerlink_mlag_port_isolate.
  rewrite (bind_Some _ _ s tt s1) by (unfold set_lif; by rewrite Hi).
  rewrite bind_the_csm. change (cs_csm s1) with (cs_csm s).
  rewrite (io_link _ _ _ Hio), Hst. rewrite bool_decide_eq_true_2 by done.
  rewrite bool_decide_eq_true_2 by done. cbn [andb when]. apply wp_unit, wp_bind.
  destruct (isolate_all_run s1 link pl Hio1 Hj) as (tx & E). eexists _, _. split; [exact E|].
  assert (Hi1 : cs_lifs s1 !! l = Some (i <| lif_isolate_to_peer_link := enable |>))
    by (unfold s1, flagged; cbn; apply lookup_insert_eq).
  set (A1 := [Act_syncd _]). assert (Ht2 : talked A1 s1 (talk A1 [] (g_slept (cs_g s1)) tx s1))
    by by do 3 eexists.
  assert (Ha2 : acc (talk A1 [] (g_slept (cs_g s1)) tx s1)) by apply acc_talk, Hio1.
  revert Ht2 Ha2. generalize (talk A1 [] (g_slept (cs_g s1)) tx s1). intros s2 Ht2 Ha2.
  apply wp_bind, wp_bind, wp_gets.
  replace (csm_peer_link_if (cs_csm s2)) with (Some link)
    by (destruct Ht2 as (? & ? & ? & ->); symmetry; apply Hio).
  apply wp_bind. eapply wp_link_lif; [exact Ht2|apply Hio1|].
  apply wp_bind. eapply wp_link_lif; [exact Ht2|exact Hi1|].
  apply wp_bind. eapply wp_act; [exact Ht2|done|]. clear s2 Ht2 Ha2. intros s2 Ht2 Ha2.
  eapply wp_act; [exact Ht2|done|]. clear s2 Ht2 Ha2. intros s2 Ht2 Ha2.
  destruct b; cbn [when negb]; [apply wp_ret; split; [exact Ht2|done]|].
  apply wp_bind. eapply wp_link_lif; [exact Ht2|exact Hi1|]. apply wp_bind.
  eexists _, _. split; [apply (run_request_acc (R_port_isolation _ _ _)); [exact Ha2|exact Hn]|].
  apply wp_ret. split; [|by apply acc_talk].
  eapply (talked_trans _ [_]); [exact Ht2|]. by do 3 eexists.
Qed.

(** ** Properties *)


(** The list of isolated ports is built in 512 bytes.  When the names of the
    isolated ports and their members, with the commas between them, are longer,
    the function reads or writes past the end of the buffer. *)
Theorem isolation_list_overflows s link pl :
  csm_peer_link_if (cs_csm s) = Some link -> cs_lifs s !! link = Some pl ->
  lif_type pl <> IF_T_VXLAN ->
  (forall l, l ∈ ml_lif_list (MLACP (cs_csm s)) -> l ∈ dom (cs_lifs s)) ->
  Forall named (csm_lifs s) -> (MLAG_PO_BUF_SIZE < length (joined (csm_lifs s)))%nat ->
  update_peerlink_isolate_from_all_csm_lif s = None.
Proof.
  intros Hl Hp Ht Hv Hn Hj. unfold update_peerlink_isolate_from_all_csm_lif.
  rewrite bind_the_csm, Hl.
  rewrite (bind_Some (get_lif link) _ s pl s) by (unfold get_lif; by rewrite Hp).
  rewrite (proj2 (Z.eqb_neq _ _) Ht). rewrite (bind_Some _ _ _ _ _ (get_lifs_run _ s Hv)).
  fold (csm_lifs s). pose proof (ports_overflow _ Hn Hj) as E.
  destruct (append_ports (csm_lifs s) (zeros 512, 0%nat)) as [st|] eqn:Est; [|done].
  cbn [mbind option_bind] in E. rewrite (bind_Some _ _ _ _ _ (lift_Some _ _ _ eq_refl)).
  apply bind_None. unfold lift. by rewrite E.
Qed.
