(* ===== verification/LinkState.v ===== *)
(** Port channels and the session, up and down ([mlacp_link_handler.c]): MAC
    addresses, isolation, neighbours and traffic follow the state of the two ends
    of a port channel and of the session. *)

From Stdlib Require Import ZArith Lia.
From stdpp Require Import base list gmap numbers option strings.
From coqutil Require Import Byte Word.LittleEndianList.
From S2P Require Import Prelude CBuf State MsgFormat Wire CsmMsg Csm Port SyncPrepare Receive Syncd.
From S2P Require Import MacTable Kernel Senders Neigh LinkMac Isolation.

Inductive ROUTE_MANIPULATE_TYPE := ROUTE_NONE | ROUTE_ADD | ROUTE_DEL.

Definition the_state : M CS MLACP_APP_STATE := gets (fun s => ml_current_state (MLACP (cs_csm s))).

(** ** Interfaces *)

Definition update_vlan_if_info (vlan_if : ptr) : M CS unit :=
  st ← the_state; set_lif vlan_if (fun i => i <| lif_mlacp_state := st |>).

Definition update_l3_if_info (l3_if : ptr) : M CS unit :=
  st ← the_state; set_lif l3_if (fun i => i <| lif_mlacp_state := st |>).

Definition update_po_if_info (lif : ptr) (po_state : Z) : M CS unit :=
  i ← get_lif lif;
  when (negb (lif_po_active i =? po_state))
    (set_lif lif (fun i => i <| lif_changed := 1 |> <| lif_po_active := of_bool (truth po_state) |>));;
  st ← the_state;
  set_lif lif (fun i => i <| lif_mlacp_state := st |>).

(** A neighbour is withdrawn from the kernel when its interface is reached over
    the peer link (but left to age on a VLAN), and set again afterwards. *)
Definition set_l3_itf_state (l : ptr) (route_type : ROUTE_MANIPULATE_TYPE) : M CS unit :=
  i ← get_lif l;
  match route_type with
  | ROUTE_NONE => mret tt
  | ROUTE_ADD =>
      when (negb (starts_with VLAN_PREFIX (cstr (lif_name i))))
        (arp_set_handler i false;; ndisc_set_handler i false)
  | ROUTE_DEL => arp_set_handler i true;; ndisc_set_handler i true
  end.

Definition peer_po_is_alive (csm : CSM) (po_ifindex : Z) : bool :=
  match find_first (is_peer_po po_ifindex) (ml_pif_list (MLACP csm)) with
  | Some pif => truth (pif_po_active pif)
  | None => false
  end.

(** The peer's port channel is searched by the interface index of the local one. *)
Definition update_l2_po_vlan (lif : ptr) (po_state : Z) (vlan_if : ptr) : M CS unit :=
  update_vlan_if_info vlan_if;;
  vi ← get_lif vlan_if;
  when (local_if_is_l3_mode vi)
    (i ← get_lif lif;
     csm ← the_csm;
     let st := ml_current_state (MLACP csm) in
     let route_type :=
       if negb (po_state =? lif_po_active i) || bool_decide (st <> lif_mlacp_state vi) then
         if po_state =? 1 then ROUTE_DEL
         else if (po_state =? 0) && bool_decide (st = MLACP_STATE_EXCHANGE)
                 && peer_po_is_alive csm (lif_ifindex i)
         then ROUTE_ADD else ROUTE_NONE
       else ROUTE_NONE in
     set_l3_itf_state vlan_if route_type;;
     update_l3_if_info vlan_if).

Definition update_l2_po_state (lif : ptr) (po_state : Z) : M CS unit :=
  i ← get_lif lif;
  foreach (fun v => match vlan_itf v with
                    | None => mret tt
                    | Some l => update_l2_po_vlan lif po_state l
                    end) (lif_vlan_tree i).

Definition update_l3_po_state (lif : ptr) (po_state : Z) : M CS unit :=
  i ← get_lif lif;
  csm ← the_csm;
  let st := ml_current_state (MLACP csm) in
  let exchange := bool_decide (st = MLACP_STATE_EXCHANGE) in
  let changed := negb (po_state =? lif_po_active i) in
  let if_alive := if peer_po_is_alive csm (lif_po_id i) then ROUTE_ADD else ROUTE_NONE in
  let route_type :=
    if changed && (po_state =? 1) then ROUTE_DEL
    else if changed && (po_state =? 0) && exchange then if_alive
    else if bool_decide (st <> lif_mlacp_state i) && exchange && (po_state =? 0) then if_alive
    else ROUTE_NONE in
  set_l3_itf_state lif route_type;;
  update_l3_if_info lif.

Definition is_local_vlan_on (v : VLAN_ID) : bool := bool_decide (vlan_itf v <> None).

(** One interface above the port channel whose peer end changed. *)
Definition stp_peer_itf (po_state po_active : Z) (l : ptr) : M CS unit :=
  (if (po_state =? 1) && (po_active =? 0) then set_l3_itf_state l ROUTE_ADD
   else when ((po_state =? 0) && (po_active =? 0)) (set_l3_itf_state l ROUTE_DEL));;
  when ((po_state =? 1) && (po_active =? 1))
    (i ← get_lif l; syn_arp_info_to_peer i;; syn_ndisc_info_to_peer i).

Definition update_stp_peer_link (pif : PeerInterface) (po_state new_create : Z) : M CS unit :=
  if (new_create =? 0) && (po_state =? pif_po_active pif) then mret tt
  else
    csm ← the_csm;
    ol ← mlacp_lif_by_name (pif_name pif) (ml_lif_list (MLACP csm));
    match ol with
    | None => mret tt
    | Some l =>
        i ← get_lif l;
        if local_if_is_l3_mode i then stp_peer_itf po_state (lif_po_active i) l
        else
          foreach (fun v =>
            match vlan_itf v with
            | None => mret tt
            | Some vl =>
                vi ← get_lif vl;
                i ← get_lif l;
                when (local_if_is_l3_mode vi) (stp_peer_itf po_state (lif_po_active i) vl)
            end) (lif_vlan_tree i)
    end.

(** ** Traffic over a port channel

    A port channel that goes down stops passing traffic until the peer has
    acknowledged that it is up again. *)

Definition mlacp_link_disable_traffic_distribution (lif : ptr) : M CS unit :=
  i ← get_lif lif;
  match lif_csm i with
  | None => mret tt
  | Some c =>
      csm ← csm_at c;
      when (bool_decide (ml_current_state (MLACP csm) = MLACP_STATE_EXCHANGE)
            && (lif_type i =? IF_T_PORT_CHANNEL) && negb (truth (lif_po_active i))
            && negb (lif_is_traffic_disable i))
        (rc ← mlacp_link_set_traffic_dist_mode (lif_name i) false;
         when (rc =? 0) (set_lif lif (fun i => i <| lif_is_traffic_disable := true |>)))
  end.

Definition mlacp_link_enable_traffic_distribution (lif : ptr) : M CS unit :=
  i ← get_lif lif;
  when (bool_decide (lif_csm i <> None) && (lif_type i =? IF_T_PORT_CHANNEL)
        && lif_is_traffic_disable i)
    (rc ← mlacp_link_set_traffic_dist_mode (lif_name i) true;
     when (rc =? 0) (set_lif lif (fun i => i <| lif_is_traffic_disable := false |>))).

(** ** Events of a port channel *)

Definition update_po_routes (lif : ptr) (po_state : Z) : M CS unit :=
  i ← get_lif lif;
  if local_if_is_l3_mode i then update_l3_po_state lif po_state else update_l2_po_state lif po_state.

Definition mlacp_portchannel_state_handler (lif : ptr) (po_state : Z) : M CS unit :=
  update_peerlink_isolate_from_lif lif po_state;;
  update_l2_mac_state lif po_state;;
  update_po_routes lif po_state;;
  update_po_if_info lif po_state;;
  when (po_state =? 0) (mlacp_link_disable_traffic_distribution lif).

Definition mlacp_mlag_intf_detach_handler (lif : ptr) : M CS unit :=
  mlacp_mlag_link_del_handler lif;;
  update_remote_macs_to_peerlink lif;;
  update_po_routes lif 0;;
  i ← get_lif lif;
  when (lif_is_traffic_disable i)
    (csm ← the_csm;
     only_here ← match csm_peer_link_if csm with
                 | None => mret true
                 | Some l => pl ← get_lif l; mret (streq (lif_name pl) (lif_name i))
                 end;
     when only_here (mlacp_link_enable_traffic_distribution lif)).

Definition mlacp_peer_mlag_intf_delete_handler (mlag_if_name : buf) : M CS unit :=
  ol ← local_if_find_by_name mlag_if_name;
  match ol with
  | None => mret tt
  | Some l => recover_if_ipmac_on_standby l
  end.

Definition mlacp_mlag_link_add_handler (lif : ptr) : M CS unit :=
  csm ← the_csm;
  when (bool_decide (ml_current_state (MLACP csm) = MLACP_STATE_EXCHANGE))
    (i ← get_lif lif;
     update_peerlink_isolate_from_lif lif (lif_po_active i);;
     when (bool_decide (csm_role_type csm = STP_ROLE_STANDBY)
           && bool_decide (peer_if_find_by_name (lif_name i) csm <> None))
       (update_if_ipmac_on_standby lif;;
        i ← get_lif lif;
        mlacp_link_set_iccp_system_id (csm_mlag_id csm) (lif_mac_addr i);; mret tt)).

(** ** The session *)

Definition mlacp_conn_handler_fdb : M CS unit := mlacp_sync_mac.

Definition mlacp_fix_bridge_mac : M CS unit :=
  csm ← the_csm;
  when (negb (same_mac (ml_system_id (MLACP csm)) null_mac))
    (act (Act_command (str "ip link set dev Bridge address " ++ SET_MAC_STR (ml_system_id (MLACP csm))
            ++ str " > /dev/null 2>&1"))).

(** [csm_trans_time], which nothing reads, is left out. *)
Definition mlacp_peer_conn_handler : M CS unit :=
  csm ← the_csm;
  when (negb (csm_warm_reboot_disconn_time csm =? 0))
    (on_csm (fun c => c <| csm_warm_reboot_disconn_time := 0 |>));;
  match csm_peer_link_if csm with
  | None => mret tt
  | Some l =>
      pl ← get_lif l;
      set_peerlink_mlag_port_learn pl 0;;
      set_peerlink_learn_kernel 0
  end;;
  once ← gets (fun s => g_once_connected (cs_g s));
  when (once =? 0)
    (on_g (fun g => g <| g_once_connected := 1 |>);; mlacp_fix_bridge_mac);;
  mlacp_conn_handler_fdb;;
  foreach (fun l =>
    i ← get_lif l;
    when (lif_type i =? IF_T_PORT_CHANNEL)
      (mlacp_portchannel_state_handler l (if lif_state i =? PORT_STATE_UP then 1 else 0)))
    (ml_lif_list (MLACP csm));;
  mlacp_link_set_iccp_state (csm_mlag_id csm) true;;
  foreach (fun pif =>
    mlacp_link_set_remote_if_state (csm_mlag_id csm) (pif_name pif) (pif_state pif =? PORT_STATE_UP);;
    mret tt) (ml_pif_list (MLACP csm));;
  update_peerlink_isolate_from_all_csm_lif;;
  match csm_peer_link_if csm with
  | None => mret tt
  | Some l => update_vlan_if_mac_on_iccp_up l true None
  end;;
  sync_unique_ip.

Definition mlacp_peer_disconn_handler : M CS unit :=
  exiting ← gets (fun s => sys_warmboot_exit (cs_sys s) =? WARM_REBOOT);
  csm ← the_csm;
  if exiting : bool then mret tt
  else if negb (csm_peer_warm_reboot_time csm =? 0) then
    t ← now;
    on_csm (fun c => c <| csm_peer_warm_reboot_time := 0 |> <| csm_warm_reboot_disconn_time := t |>)
  else
    mlacp_peer_disconn_fdb_handler;;
    mlacp_link_set_iccp_state (csm_mlag_id csm) false;;
    peerlink_port_isolate_cleanup;;
    let remote := rs_system_id (ml_remote_system (MLACP csm)) in
    on_mlacp (fun m => m <| ml_remote_system ::= fun r => r <| rs_system_id := null_mac |> |>);;
    foreach (fun l =>
      when (bool_decide (csm_role_type csm = STP_ROLE_STANDBY)) (recover_if_ipmac_on_standby l);;
      i ← get_lif l;
      when (lif_is_traffic_disable i) (mlacp_link_enable_traffic_distribution l))
      (ml_lif_list (MLACP csm));;
    match csm_peer_link_if csm with
    | None => mret tt
    | Some l => update_vlan_if_mac_on_iccp_up l false (Some remote)
    end;;
    SYSTEM_INCR CNT_SESSION_DOWN;;
    when (bool_decide (csm_role_type csm = STP_ROLE_STANDBY))
      (mlacp_link_set_iccp_system_id (csm_mlag_id csm) (ml_system_id (MLACP csm));; mret tt);;
    foreach (fun pif =>
      mlacp_link_del_remote_if_info (csm_mlag_id csm) (pif_name pif);; mret tt)
      (ml_pif_list (MLACP csm)).
