(* ===== verification/SyncUpdate.v ===== *)
(** What the peer tells about itself, its port channels and its neighbours
    ([mlacp_sync_update.c]; its MAC and VLAN updates are in [MacTable] and
    [Port]). *)

From Stdlib Require Import ZArith Lia.
From stdpp Require Import base list gmap numbers option strings.
From coqutil Require Import Byte Word.LittleEndianList.
From S2P Require Import Prelude CBuf State MsgFormat Wire CsmMsg Csm Port SyncPrepare Receive Syncd.
From S2P Require Import MacTable Kernel Senders Neigh LinkMac Isolation LinkState.

(** ** The system *)

(** The node identifiers of the two switches must differ. *)
Definition mlacp_fsm_update_system_conf (msg : Msg) : M CS Z :=
  let b := msg_buf msg in
  csm ← the_csm;
  node ← lift (mLACPSysConfigTLV.get_node_id b);
  when (node =? ml_node_id (MLACP csm))
    (on_mlacp (fun m => m <| ml_node_id := u8 (ml_node_id m + 1) |>));;
  let old := rs_system_id (ml_remote_system (MLACP csm)) in
  sys_id ← lift (mLACPSysConfigTLV.get_sys_id b);
  prio ← lift (mLACPSysConfigTLV.get_sys_priority b);
  on_mlacp (fun m => m <| ml_remote_system := mkRemote sys_id (ntohs prio) node |>);;
  foreach update_if_ipmac_on_standby (ml_lif_list (MLACP csm));;
  when (bool_decide (csm_role_type csm = STP_ROLE_STANDBY) && negb (same_mac old sys_id))
    (mlacp_link_set_iccp_system_id (csm_mlag_id csm) sys_id;; mret tt);;
  mret 0.

(** ** Port channels *)

(** Assignments through the pointer to a peer interface: the one just created,
    at the head of the list, or the one found under its name. *)
Definition on_pif (new_create : bool) (name : buf) (f : PeerInterface -> PeerInterface) : M CS unit :=
  on_mlacp (fun m => m <| ml_pif_list ::=
    update_first (if new_create then fun _ => true else fun p => streq (pif_name p) name) f |>).

(** A name of more than 20 bytes overruns [pif->name]; a configuration of an
    unknown interface that does not create it dereferences [NULL]. *)
Definition mlacp_fsm_update_Agg_conf (msg : Msg) : M CS Z :=
  let b := msg_buf msg in
  csm ← the_csm;
  agg_name ← lift (mLACPAggConfigTLV.get_agg_name b);
  flags ← lift (mLACPAggConfigTLV.get_flags b);
  let opif := peer_if_find_by_name agg_name csm in
  if truth (Z.land flags 2) then
    match opif with
    | Some pif =>
        mlacp_peer_mlag_intf_delete_handler (pif_name pif);;
        mlacp_link_del_remote_if_info (csm_mlag_id csm) (pif_name pif);;
        on_csm (peer_if_destroy agg_name)
    | None => on_mlacp (fun m => m <| ml_need_to_sync := 1 |>)
    end;;
    mret 0
  else
    agg ← lift (mLACPAggConfigTLV.get_agg_id b);
    let new_create := bool_decide (opif = None) && truth (Z.land flags 1) in
    opif ← (if new_create then peer_if_create (ntohs agg) IF_T_PORT_CHANNEL else mret opif);
    if new_create && bool_decide (opif = None) then mret MCLAG_ERROR
    else
      pif ← lift opif;
      n ← lift (mLACPAggConfigTLV.get_agg_name_len b);
      bytes ← lift (rd (TLV + 26) (Z.to_nat n) b);
      name ← lift (wr 0 bytes (pif_name pif));
      mac ← lift (mLACPAggConfigTLV.get_mac_addr b);
      let pif := pif <| pif_po_id := ntohs agg |> <| pif_name := name |> <| pif_mac_addr := mac |> in
      let po_active := of_bool (pif_state pif =? PORT_STATE_UP) in
      on_pif new_create agg_name (fun _ => pif);;
      update_stp_peer_link pif po_active (of_bool new_create);;
      update_peerlink_isolate_from_pif pif po_active (of_bool new_create);;
      on_pif new_create agg_name (fun p => p <| pif_po_active := po_active |>);;
      when new_create
        (mlacp_link_set_remote_if_state (csm_mlag_id csm) name (truth po_active);;
         when (bool_decide (csm_role_type csm = STP_ROLE_STANDBY))
           (ol ← local_if_find_by_name agg_name;
            match ol with Some l => update_if_ipmac_on_standby l | None => mret tt end));;
      mret 0.

Definition mlacp_fsm_update_Aggport_state (msg : Msg) : M CS Z :=
  let b := msg_buf msg in
  csm ← the_csm;
  st ← lift (mLACPAggPortStateTLV.get_agg_state b);
  agg ← lift (mLACPAggPortStateTLV.get_agg_id b);
  let po_active := of_bool (st =? PORT_STATE_UP) in
  match find_first (is_peer_po (ntohs agg)) (ml_pif_list (MLACP csm)) with
  | None => mret 0
  | Some pif =>
      let on_peer_if f := on_mlacp (fun m => m <| ml_pif_list ::= update_first (is_peer_po (ntohs agg)) f |>) in
      let pif := pif <| pif_state := st |> in
      on_peer_if (fun _ => pif);;
      update_stp_peer_link pif po_active 0;;
      update_peerlink_isolate_from_pif pif po_active 0;;
      on_peer_if (fun p => p <| pif_po_active := po_active |>);;
      when (bool_decide (ml_current_state (MLACP csm) = MLACP_STATE_EXCHANGE))
        (when (st =? PORT_STATE_DOWN) (mlacp_convert_remote_mac_to_local (pif_name pif));;
         mlacp_link_set_remote_if_state (csm_mlag_id csm) (pif_name pif) (st =? PORT_STATE_UP);; mret tt);;
      mret 0
  end.

(** ** Neighbours *)

(** [inet_ntop] prints an address that starts with the bytes fe 80 as [fe80:...]. *)
Definition is_link_local (ip : buf) : bool := bool_decide (take 2 ip = [Byte.xfe; Byte.x80]).

(** The address is this interface's own; for ND also its link local one, where
    the code compares it. *)
Definition own_ip (k : NeighKind) (i : LocalInterface) (ip : buf) : bool :=
  if nk_family k =? AF_INET then bool_decide (ip = ip4_bytes (lif_ipv4_addr i))
  else bool_decide (ip = ip6_bytes (lif_ipv6_addr i)).
Definition own_ll (k : NeighKind) (i : LocalInterface) (ip : buf) : bool :=
  negb (nk_family k =? AF_INET) && is_link_local ip
  && bool_decide (ip = ip6_bytes (lif_ipv6_ll_addr i)).

(** The two flags the searches compute. *)
Record Reach := mkReach { r_my_ip : bool; r_set : bool }.

Definition neigh_vlan_id (n : Neigh) : Z := u16 (default 0 (scan_after VLAN_PREFIX (n_ifname n))).

(** Is the VLAN of the entry on the peer link, or an interface of its own? *)
Definition reach_peer_link (k : NeighKind) (vlan_id : Z) (n : Neigh) : M CS Reach :=
  csm ← the_csm;
  opl ← (if vlan_id =? 0 then mret None else local_if_find_by_name (csm_peer_itf_name csm));
  match opl with
  | None => mret (mkReach false false)
  | Some l =>
      pl ← get_lif l;
      if local_if_is_l3_mode pl then mret (mkReach false false)
      else
        match vlan_find vlan_id (lif_vlan_tree pl) with
        | Some v =>
            match vlan_itf v with
            | None => mret (mkReach false false)
            | Some vl =>
                vi ← get_lif vl;
                mret (mkReach (streq (lif_name vi) (n_ifname n) && local_if_is_l3_mode vi
                               && (own_ip k vi (n_ip n) || own_ll k vi (n_ip n))) true)
            end
        | None =>
            ovl ← local_if_find_by_name (n_ifname n);
            match ovl with
            | None => mret (mkReach false false)
            | Some vl =>
                vi ← get_lif vl;
                if lif_is_l3_proto_enabled vi
                then mret (mkReach (own_ip k vi (n_ip n) || own_ll k vi (n_ip n)) true)
                else mret (mkReach false false)
            end
        end
  end.

(** A port channel that is up and carries the VLAN, or is the interface itself. *)
Fixpoint reach_port_channel (k : NeighKind) (vlan_id : Z) (n : Neigh) (my_ip : bool) (ls : list ptr)
    : M CS Reach :=
  match ls with
  | [] => mret (mkReach my_ip false)
  | l :: ls' =>
      i ← get_lif l;
      if negb (lif_type i =? IF_T_PORT_CHANNEL) then reach_port_channel k vlan_id n my_ip ls'
      else if local_if_is_l3_mode i then
        if streq (lif_name i) (n_ifname n) && (lif_po_active i =? 1)
        then mret (mkReach my_ip true) else reach_port_channel k vlan_id n my_ip ls'
      else
        let ov := if vlan_id =? 0 then None else vlan_find vlan_id (lif_vlan_tree i) in
        mine ← match v ← ov; vlan_itf v with
               | None => mret my_ip
               | Some vl => vi ← get_lif vl; mret (my_ip || own_ip k vi (n_ip n))
               end;
        if bool_decide (ov <> None) && (lif_po_active i =? 1) then mret (mkReach mine true)
        else reach_port_channel k vlan_id n mine ls'
  end.

(** What the kernel is asked, and whether the update goes on. *)
Definition neigh_to_kernel (k : NeighKind) (n : Neigh) : M CS bool :=
  let ll := negb (nk_family k =? AF_INET) && truth (Z.land (n_flag n) NEIGH_SYNC_FLAG_SELF_LL) in
  let permanent := ll || truth (Z.land (n_flag n) NEIGH_SYNC_FLAG_SELF_IP) in
  let add := n_op n =? NEIGH_SYNC_ADD in
  err ← iccp_netlink_neighbor_request (nk_family k) (n_ip n) add (n_mac n) (n_ifname n) permanent;
  if (err <? 0) && negb (err =? ICCP_NLE_SEQ_MISMATCH) then mret false
  else
    when (add && truth (Z.land (n_flag n) NEIGH_SYNC_FLAG_ACK))
      (syn_ack_local_neigh_mac_info_to_peer (n_ifname n) ll);;
    mret true.

(** [TAILQ_FOREACH] to the first entry with the address, and its removal. *)
Definition has_ip (k : NeighKind) (ip : buf) (msg : Msg) : option bool :=
  a ← nk_get_ip k 0 (msg_buf msg); Some (bool_decide (a = ip)).

Fixpoint neigh_update (k : NeighKind) (ip : buf) (f : Msg -> option (list Msg)) (l : list Msg)
    : option (bool * list Msg) :=
  match l with
  | [] => Some (false, [])
  | msg :: l' =>
      h ← has_ip k ip msg;
      if h : bool then ms ← f msg; Some (true, ms ++ l')
      else r ← neigh_update k ip f l'; Some (r.1, msg :: r.2)
  end.

(** The name and the MAC of the entry; the entry goes when it was deleted. *)
Definition neigh_refresh (k : NeighKind) (n : Neigh) (msg : Msg) : option (list Msg) :=
  b ← sprintf_s 3 (n_ifname n) (msg_buf msg);
  b ← nk_set_mac k 0 (n_mac n) b;
  Some (if n_op n =? NEIGH_SYNC_DEL then [] else [msg <| msg_buf := b |>]).

(** [mlacp_enqueue_arp] and [mlacp_enqueue_ndisc] *)
Definition neigh_enqueue (k : NeighKind) (msg : Msg) (l : list Msg) : option (list Msg) :=
  op ← nk_get_op 0 (msg_buf msg);
  Some (if op =? NEIGH_SYNC_DEL then l else l ++ [msg]).

Definition mlacp_enqueue_arp : Msg -> list Msg -> option (list Msg) := neigh_enqueue ARP.
Definition mlacp_enqueue_ndisc : Msg -> list Msg -> option (list Msg) := neigh_enqueue ND.

(** The members that the code does not assign in the new struct are never read. *)
Definition neigh_table (k : NeighKind) (n : Neigh) (l : list Msg) : option (list Msg) :=
  r ← neigh_update k (n_ip n) (neigh_refresh k n) l;
  if negb r.1 && (n_op n =? NEIGH_SYNC_ADD) then
    b ← neigh_struct k (n_op n) 0 NEIGH_REMOTE [] (n_ip n) (n_mac n);
    b ← sprintf_s 3 (n_ifname n) b;
    m ← iccp_csm_init_msg b (Z.of_nat (nk_size k));
    match m with inr m => neigh_enqueue k m r.2 | inl _ => Some r.2 end
  else Some r.2.

(** The loop that searches and removes until the address is gone. *)
Fixpoint neigh_purge (k : NeighKind) (ip : buf) (l : list Msg) : option (list Msg) :=
  match l with
  | [] => Some []
  | msg :: l' =>
      h ← has_ip k ip msg;
      r ← neigh_purge k ip l';
      Some (if h : bool then r else msg :: r)
  end.

Definition neigh_record (k : NeighKind) (n : Neigh) : M CS unit :=
  csm ← the_csm;
  t ← lift (neigh_table k n (nk_table k (MLACP csm)));
  on_mlacp (nk_set_table k t);;
  q ← lift (neigh_purge k (n_ip n) (nk_queue k (MLACP csm)));
  on_mlacp (nk_set_queue k q).

Definition neigh_update_entry (k : NeighKind) (n : Neigh) : M CS Z :=
  let vlan_id := neigh_vlan_id n in
  r ← reach_peer_link k vlan_id n;
  if r_my_ip r then mret 0
  else
    csm ← the_csm;
    r ← (if r_set r then mret r
         else reach_port_channel k vlan_id n false (ml_lif_list (MLACP csm)));
    if r_my_ip r then mret 0
    else if r_set r then
      ok ← neigh_to_kernel k n;
      if ok : bool then neigh_record k n;; mret 0 else mret MCLAG_ERROR
    else
      ol ← local_if_find_by_name (n_ifname n);
      mine ← match ol with
             | None => mret false
             | Some l => i ← get_lif l; mret (own_ip k i (n_ip n))
             end;
      if mine : bool then mret 0 else neigh_record k n;; mret 0.

Definition mlacp_fsm_update_arp_entry : Neigh -> M CS Z := neigh_update_entry ARP.
Definition mlacp_fsm_update_ndisc_entry : Neigh -> M CS Z := neigh_update_entry ND.

Definition neigh_update_info (k : NeighKind) (msg : Msg) : M CS unit :=
  n ← lift (mLACPListTLV.get_num_of_entry (msg_buf msg));
  foreach (fun i =>
    e ← lift (read_neigh k (mLACPListTLV.entry_off (nk_size k) i) (msg_buf msg));
    neigh_update_entry k e;; mret tt) (seq 0 (Z.to_nat (ntohs n))).

Definition mlacp_fsm_update_arp_info : Msg -> M CS unit := neigh_update_info ARP.
Definition mlacp_fsm_update_ndisc_info : Msg -> M CS unit := neigh_update_info ND.

(** ** Peer link, heartbeat, warm reboot *)

(** Differences of the two peer links are logged only. *)
Definition mlacp_fsm_update_peerlink_info (msg : Msg) : M CS Z :=
  csm ← the_csm;
  match csm_peer_link_if csm with
  | None => mret 0
  | Some l =>
      get_lif l;;
      ty ← lift (mLACPPeerLinkInfoTLV.get_port_type (msg_buf msg));
      when (ty =? IF_T_VXLAN) (lift (mLACPPeerLinkInfoTLV.get_if_name (msg_buf msg));; mret tt);;
      mret 0
  end.

Definition mlacp_fsm_update_heartbeat : M CS unit :=
  t ← now; on_csm (fun c => c <| csm_heartbeat_update_time := t |>).

Definition mlacp_fsm_update_warmboot : M CS unit :=
  t ← now; on_csm (fun c => c <| csm_peer_warm_reboot_time := t |>).
