(* ===== verification/MlacpFsm.v ===== *)
(** The mLACP application ([mlacp_fsm.c]): the messages of the peer, the two
    synchronisation stages, the exchange state and the transit. *)

From Stdlib Require Import ZArith Lia.
From stdpp Require Import base list gmap numbers option strings.
From coqutil Require Import Byte Word.LittleEndianList.
From S2P Require Import Prelude CBuf State MsgFormat Wire CsmMsg Csm Port SyncPrepare Receive Syncd.
From S2P Require Import AppCsm MacTable Kernel Senders Neigh LinkMac Isolation LinkState SyncUpdate.

Definition WARM_REBOOT_TIMEOUT : Z := 90.
Definition MLACP_LOCAL_IF_DOWN_TIMER : Z := 600.
Definition IF_UP_ACK_TYPE_PORT_CHANNEL : Z := 1.
Definition PORT_ISOLATION_STATE_ENABLE : Z := 1.

(** ** Rejections *)

Definition mlacp_sync_send_nak_handler (msg : Msg) : M CS unit :=
  memset_buf;;
  id ← lift (LDPHdr.get_msg_id (msg_buf msg));
  on_csm (fun c => c <| csm_app_csm ::= fun a => a <| app_invalid_msg_id := ntohl id |> |>);;
  msg_len ← app_csm_prepare_nak_msg;
  send_buf msg_len;; mret tt.

(** [tlvType] starts as the [uint16_t] -1, and is then not 0. *)
Definition mlacp_sync_recv_nak_handler (msg : Msg) : M CS unit :=
  csm ← the_csm;
  rj ← lift (NAKTLV.get_rejected_msg_id (msg_buf msg));
  let tlvType := match find_log (ntohl rj) (csm_msg_log csm) with
                 | Some e => u16 (log_tlv e) | None => u16 (-1) end in
  if tlvType =? TLV_T_MLACP_SYSTEM_CONFIG then
    on_mlacp (fun m => m <| ml_node_id := u8 (ml_node_id m - 1) |> <| ml_system_config_changed := 1 |>)
  else on_mlacp (fun m => m <| ml_need_to_sync := 1 |>).

(** ** Messages *)

Definition msg_tlv (msg : Msg) : M CS Z := lift (ICCParameter.get_type TLV (msg_buf msg)).

(** [MLACP_SET_ICCP_RX_DBG_COUNTER(csm, tlv->icc_parameter.type, status)] *)
Definition count_rx (msg : Msg) (status : Z) : M CS unit :=
  ty ← msg_tlv msg; on_csm (MLACP_SET_ICCP_RX_DBG_COUNTER ty status).

(** A rejected update is answered with a NAK. *)
Definition recv_checked (update : Msg -> M CS Z) (msg : Msg) : M CS unit :=
  rc ← update msg;
  if rc =? MCLAG_ERROR then mlacp_sync_send_nak_handler msg;; count_rx msg ICCP_DBG_CNTR_STS_ERR
  else count_rx msg ICCP_DBG_CNTR_STS_OK.

Definition mlacp_sync_recv_sysConf : Msg -> M CS unit := recv_checked mlacp_fsm_update_system_conf.
Definition mlacp_sync_recv_aggConf : Msg -> M CS unit := recv_checked mlacp_fsm_update_Agg_conf.
Definition mlacp_sync_recv_portChanInfo : Msg -> M CS unit :=
  recv_checked mlacp_fsm_update_port_channel_info.

Definition mlacp_sync_recv_aggState (msg : Msg) : M CS unit :=
  recv_checked mlacp_fsm_update_Aggport_state msg;;
  st ← lift (mLACPAggPortStateTLV.get_agg_state (msg_buf msg));
  when (st =? PORT_STATE_UP)
    (agg ← lift (mLACPAggPortStateTLV.get_agg_id (msg_buf msg));
     mlacp_fsm_send_if_up_ack IF_UP_ACK_TYPE_PORT_CHANNEL (ntohs agg) PORT_ISOLATION_STATE_ENABLE).

Definition mlacp_sync_recv_syncData (msg : Msg) : M CS unit :=
  fl ← lift (mLACPSyncDataTLV.get_flags (msg_buf msg));
  when (ntohs fl =? 1) (on_mlacp (fun m => m <| ml_wait_for_sync_data := 0 |>));;
  count_rx msg ICCP_DBG_CNTR_STS_OK.

Definition mlacp_sync_recv_syncReq (msg : Msg) : M CS unit :=
  n ← lift (mLACPSyncReqTLV.get_req_num (msg_buf msg));
  on_mlacp (fun m => m <| ml_sync_req_num := ntohs n |>);;
  mlacp_sync_send_all_info_handler;;
  count_rx msg ICCP_DBG_CNTR_STS_OK.

Definition mlacp_sync_recv_peerLlinkInfo (msg : Msg) : M CS unit :=
  mlacp_fsm_update_peerlink_info msg;; count_rx msg ICCP_DBG_CNTR_STS_OK.
Definition mlacp_sync_recv_macInfo (msg : Msg) : M CS unit :=
  mlacp_fsm_update_mac_info_from_peer msg;; count_rx msg ICCP_DBG_CNTR_STS_OK.
Definition mlacp_sync_recv_arpInfo (msg : Msg) : M CS unit :=
  mlacp_fsm_update_arp_info msg;; count_rx msg ICCP_DBG_CNTR_STS_OK.
Definition mlacp_sync_recv_ndiscInfo (msg : Msg) : M CS unit := mlacp_fsm_update_ndisc_info msg.
Definition mlacp_sync_recv_heartbeat (msg : Msg) : M CS unit :=
  mlacp_fsm_update_heartbeat;; count_rx msg ICCP_DBG_CNTR_STS_OK.
Definition mlacp_sync_recv_warmboot (msg : Msg) : M CS unit :=
  mlacp_fsm_update_warmboot;; count_rx msg ICCP_DBG_CNTR_STS_OK.

(** [local_if_find_by_po_id] *)
Fixpoint lif_by_po_id (po_id : Z) (ls : list ptr) : M CS (option ptr) :=
  match ls with
  | [] => mret None
  | l :: ls' =>
      i ← get_lif l;
      if (lif_type i =? IF_T_PORT_CHANNEL) && (lif_po_id i =? po_id)
      then mret (Some l) else lif_by_po_id po_id ls'
  end.

Definition mlacp_fsm_recv_if_up_ack (msg : Msg) : M CS unit :=
  let b := msg_buf msg in
  id ← lift (mLACPIfUpAckTLV.get_if_id b);
  ty ← lift (mLACPIfUpAckTLV.get_if_type b);
  if ty =? IF_UP_ACK_TYPE_PORT_CHANNEL then
    ls ← gets (fun s => sys_lif_list (cs_sys s));
    ol ← lif_by_po_id (ntohs id) ls;
    match ol with
    | None => mret tt
    | Some l => i ← get_lif l;
                when (truth (lif_po_active i)) (mlacp_link_enable_traffic_distribution l)
    end;;
    count_rx msg ICCP_DBG_CNTR_STS_OK
  else count_rx msg ICCP_DBG_CNTR_STS_ERR.

Definition mlacp_sync_receiver_handler (om : option Msg) : M CS unit :=
  match om with
  | None => mret tt
  | Some msg =>
      ty ← msg_tlv msg;
      if ty =? TLV_T_MLACP_SYSTEM_CONFIG then mlacp_sync_recv_sysConf msg
      else if ty =? TLV_T_MLACP_AGGREGATOR_CONFIG then mlacp_sync_recv_aggConf msg
      else if ty =? TLV_T_MLACP_AGGREGATOR_STATE then mlacp_sync_recv_aggState msg
      else if ty =? TLV_T_MLACP_SYNC_DATA then mlacp_sync_recv_syncData msg
      else if ty =? TLV_T_MLACP_SYNC_REQUEST then mlacp_sync_recv_syncReq msg
      else if ty =? TLV_T_MLACP_PORT_CHANNEL_INFO then mlacp_sync_recv_portChanInfo msg
      else if ty =? TLV_T_MLACP_PEERLINK_INFO then mlacp_sync_recv_peerLlinkInfo msg
      else if ty =? TLV_T_MLACP_MAC_INFO then mlacp_sync_recv_macInfo msg
      else if ty =? TLV_T_MLACP_ARP_INFO then mlacp_sync_recv_arpInfo msg
      else if ty =? TLV_T_MLACP_NDISC_INFO then mlacp_sync_recv_ndiscInfo msg
      else if ty =? TLV_T_MLACP_HEARTBEAT then mlacp_sync_recv_heartbeat msg
      else if ty =? TLV_T_MLACP_WARMBOOT_FLAG then mlacp_sync_recv_warmboot msg
      else if ty =? TLV_T_MLACP_IF_UP_ACK then mlacp_fsm_recv_if_up_ack msg
      else mret tt
  end.

(** ** The two stages *)

Definition is_sync_request (msg : Msg) : option bool :=
  mt ← LDPHdr.get_msg_type (msg_buf msg);
  if mt =? MSG_T_RG_APP_DATA then
    ty ← ICCParameter.get_type TLV (msg_buf msg); Some (ty =? TLV_T_MLACP_SYNC_REQUEST)
  else Some false.

Definition mlacp_stage_sync_send_handler (om : option Msg) : M CS unit :=
  csm ← the_csm;
  match om with
  | Some msg =>
      when (ml_wait_for_sync_data (MLACP csm) =? 0)
        (q ← lift (is_sync_request msg);
         when q
           (n ← lift (mLACPSyncReqTLV.get_req_num (msg_buf msg));
            on_mlacp (fun m => m <| ml_wait_for_sync_data := 1 |> <| ml_sync_req_num := ntohs n |>);;
            mlacp_sync_send_all_info_handler))
  | None => mret tt
  end.

Definition mlacp_stage_sync_request_handler (om : option Msg) : M CS unit :=
  csm ← the_csm;
  if ml_wait_for_sync_data (MLACP csm) =? 0 then
    send_prepared mlacp_prepare_for_sync_request_tlv;;
    on_mlacp (fun m => m <| ml_wait_for_sync_data := 1 |>)
  else
    mlacp_sync_receiver_handler om;;
    csm ← the_csm;
    when (ml_wait_for_sync_data (MLACP csm) =? 0) stage_incr.

(** In stage 1 the active switch answers, in stage 2 the standby. *)
Definition mlacp_stage_handler (om : option Msg) : M CS unit :=
  csm ← the_csm;
  if xorb (bool_decide (ml_current_state (MLACP csm) = MLACP_STATE_STAGE1))
          (bool_decide (csm_role_type csm = STP_ROLE_ACTIVE))
  then mlacp_stage_sync_request_handler om
  else mlacp_stage_sync_send_handler om.

(** ** The exchange state *)

Definition send_config_changes : M CS unit :=
  csm ← the_csm;
  when (negb (ml_need_to_sync (MLACP csm) =? 0))
    (on_mlacp (fun m => m <| ml_need_to_sync := 0 |>);;
     send_prepared mlacp_prepare_for_sync_request_tlv;; mret tt);;
  when (negb (ml_system_config_changed (MLACP csm) =? 0))
    (send_prepared mlacp_prepare_for_sys_config;;
     mlacp_sync_send_syncPeerLinkInfo;;
     on_mlacp (fun m => m <| ml_system_config_changed := 0 |>)).

(** [LIST_REMOVE] leaves the link of the removed interface, which the loop follows. *)
Definition purge_one (l : ptr) : M CS unit :=
  i ← get_lif l;
  send_prepared (mlacp_prepare_for_Aggport_config i 1);;
  when ((lif_type i =? IF_T_PORT_CHANNEL) && lif_is_traffic_disable i)
    (mlacp_link_enable_traffic_distribution l);;
  on_mlacp (fun m => m <| ml_lif_purge_list ::= list_remove l |>).

Definition send_lif_changes (l : ptr) : M CS unit :=
  i ← get_lif l;
  when (lif_type i =? IF_T_PORT_CHANNEL)
    (when (truth (lif_port_config_sync i))
       (when (negb (truth (lif_po_active i))) (mlacp_link_disable_traffic_distribution l);;
        i ← get_lif l;
        send_prepared (mlacp_prepare_for_Aggport_config i 0);;
        send_prepared (mlacp_prepare_for_port_channel_info i);;
        set_lif l (fun i => i <| lif_port_config_sync := 0 |>));;
     i ← get_lif l;
     when (truth (lif_changed i))
       (rc ← send_prepared (mlacp_prepare_for_Aggport_state i);
        when (rc >? 0) (set_lif l (fun i => i <| lif_changed := 0 |>)))).

Definition warm_reboot_timeout : M CS unit :=
  csm ← the_csm;
  t ← now;
  when (negb (csm_peer_warm_reboot_time csm =? 0)
        && (t - csm_peer_warm_reboot_time csm >=? WARM_REBOOT_TIMEOUT))
    (on_csm (fun c => c <| csm_peer_warm_reboot_time := 0 |>)).

Definition mlacp_exchange_handler (om : option Msg) : M CS unit :=
  match om with
  | None => mret tt
  | Some msg =>
      mt ← lift (LDPHdr.get_msg_type (msg_buf msg));
      when (mt =? MSG_T_RG_APP_DATA) (mlacp_sync_receiver_handler om)
  end;;
  send_config_changes;;
  csm ← the_csm;
  foreach purge_one (ml_lif_purge_list (MLACP csm));;
  csm ← the_csm;
  foreach send_lif_changes (ml_lif_list (MLACP csm));;
  mlacp_sync_send_syncMacInfo;;
  mlacp_sync_send_syncArpInfo;;
  mlacp_sync_send_syncNdiscInfo;;
  warm_reboot_timeout.

(** ** The transit *)

Definition mlacp_local_lif_state_mac_handler : M CS unit :=
  csm ← the_csm;
  t ← now;
  foreach (fun l =>
    i ← get_lif l;
    when ((lif_state i =? PORT_STATE_DOWN) && (lif_type i =? IF_T_PORT_CHANNEL)
          && truth (lif_po_down_time i) && (t - lif_po_down_time i >? MLACP_LOCAL_IF_DOWN_TIMER))
      (mlacp_local_lif_clear_pending_mac l;;
       set_lif l (fun i => i <| lif_po_down_time := 0 |>))) (ml_lif_list (MLACP csm)).

Definition mlacp_peer_link_learning_handler : M CS unit :=
  csm ← the_csm;
  t ← now;
  match csm_peer_link_if csm with
  | None => mret tt
  | Some l =>
      i ← get_lif l;
      let r := csm_peer_link_learning_retry_time csm in
      when (negb (lif_vlan_count i =? 0) && truth r && (t - r >? 2))
        (set_peerlink_learn_kernel (csm_peer_link_learning_enable csm))
  end.

Definition scheduler_csm_socket_cleanup : M CS unit :=
  csm ← the_csm;
  when (csm_sock_fd csm >? 0)
    (act (Act_epoll_del (csm_sock_fd csm));;
     r ← kernel (Act_close (csm_sock_fd csm));
     when (negb (r =? 0)) (SYSTEM_INCR CNT_SOCKET_CLOSE_ERR);;
     on_csm (fun c => c <| csm_sock_fd := -1 |>)).

Definition clear_queues : M CS unit :=
  on_mlacp (fun m => m <| ml_mlacp_msg_list := [] |> <| ml_arp_msg_list := [] |>
                       <| ml_ndisc_msg_list := [] |>);;
  mlacp_mac_msg_queue_reinit.

Definition tear_down : M CS unit :=
  csm ← the_csm;
  when (bool_decide (ml_current_state (MLACP csm) <> MLACP_STATE_INIT))
    (clear_queues;;
     on_mlacp (fun m => m <| ml_current_state := MLACP_STATE_INIT |>);;
     when (csm_sock_fd csm >? 0)
       (scheduler_csm_socket_cleanup;; SYSTEM_INCR CNT_SOCKET_CLEANUP)).

Definition is_nak (msg : Msg) : option bool :=
  mt ← LDPHdr.get_msg_type (msg_buf msg);
  if mt =? MSG_T_NOTIFICATION then
    ty ← ICCParameter.get_type TLV (msg_buf msg); Some (ty =? TLV_T_NAK)
  else Some false.

(** Entering the exchange state runs [mlacp_peer_conn_handler]; [prev_state] is
    one variable for all CSMs. *)
Definition note_state : M CS unit :=
  csm ← the_csm;
  prev ← gets (fun s => g_prev_state (cs_g s));
  let st := ml_current_state (MLACP csm) in
  when (bool_decide (prev <> st))
    (when (bool_decide (st = MLACP_STATE_EXCHANGE)) mlacp_peer_conn_handler;;
     csm ← the_csm;
     on_g (fun g => g <| g_prev_state := ml_current_state (MLACP csm) |>)).

Definition begin_stages : M CS unit :=
  csm ← the_csm;
  when (bool_decide (ml_current_state (MLACP csm) = MLACP_STATE_INIT))
    (on_mlacp (fun m => m <| ml_wait_for_sync_data := 0 |> <| ml_current_state := MLACP_STATE_STAGE1 |>);;
     mlacp_resync_arp;; mlacp_resync_ndisc).

Definition state_handler (om : option Msg) : M CS unit :=
  csm ← the_csm;
  match ml_current_state (MLACP csm) with
  | MLACP_STATE_INIT | MLACP_STATE_ERROR => mret tt
  | MLACP_STATE_STAGE1 | MLACP_STATE_STAGE2 => mlacp_stage_handler om
  | MLACP_STATE_EXCHANGE => mlacp_exchange_handler om
  end.

(** One turn of the loop; [false]: the queue was empty, and the loop ends. *)
Definition transit_turn : M CS bool :=
  csm ← the_csm;
  let init := bool_decide (ml_current_state (MLACP csm) = MLACP_STATE_INIT) in
  om ← (if init then mret None else mlacp_dequeue_msg);
  nak ← match om with Some msg => lift (is_nak msg) | None => mret false end;
  match nak, om with
  | true, Some msg => mlacp_sync_recv_nak_handler msg;; mret true
  | _, _ =>
      note_state;;
      begin_stages;;
      state_handler om;;
      mret (init || bool_decide (om <> None))
  end.

Fixpoint transit_loop (fuel : nat) : M CS unit :=
  match fuel with
  | O => ub
  | S fuel' => more ← transit_turn; when more (transit_loop fuel')
  end.

(** One turn for each message, one in the state [INIT], and one on the empty queue. *)
Definition mlacp_fsm_transit : M CS unit :=
  csm ← the_csm;
  if (csm_sock_fd csm <=? 0) || bool_decide (app_current_state (csm_app_csm csm) <> APP_OPERATIONAL)
  then tear_down
  else
    t ← now;
    when (negb (csm_warm_reboot_disconn_time csm =? 0)
          && (t - csm_warm_reboot_disconn_time csm >=? WARM_REBOOT_TIMEOUT))
      (on_csm (fun c => c <| csm_warm_reboot_disconn_time := 0 |>);; mlacp_peer_disconn_handler);;
    mlacp_sync_send_heartbeat;;
    mlacp_local_lif_state_mac_handler;;
    mlacp_peer_link_learning_handler;;
    n ← gets (fun s => length (ml_mlacp_msg_list (MLACP (cs_csm s))));
    transit_loop (n + 2).
