(* ===== verification/Session.v ===== *)
(** The end of a session ([scheduler.c], [iccp_csm.c], [app_csm.c]): heartbeat
    timeout, read error, disconnection and the reset of the CSM. *)

From Stdlib Require Import ZArith Lia.
From stdpp Require Import base list gmap numbers option strings.
From coqutil Require Import Byte Word.LittleEndianList.
From S2P Require Import Prelude CBuf State MsgFormat Wire CsmMsg Csm Port SyncPrepare Receive Syncd.
From S2P Require Import AppCsm MacTable Kernel Senders Neigh LinkMac Isolation LinkState SyncUpdate MlacpFsm.

(** ** Reset of a CSM that is kept for the next session

    The functions are called with [all] = 0: configuration, interfaces, the MAC
    table and the neighbours stay. *)

Definition ml_reset (m : mLACP) : mLACP :=
  m <| ml_sync_req_num := -1 |> <| ml_need_to_sync := 0 |>
    <| ml_current_state := MLACP_STATE_INIT |>
    <| ml_remote_system ::= fun r => r <| rs_system_id := null_mac |> |>.
Definition ml_forget (m : mLACP) : mLACP := m <| ml_pif_list := [] |> <| ml_lif_purge_list := [] |>.

Definition mlacp_init : M CS unit :=
  on_mlacp ml_reset;;
  clear_queues;;
  on_mlacp ml_forget.

Definition app_reset (a : AppCSM) : AppCSM :=
  a <| app_msg_list := [] |> <| app_current_state := APP_NONEXISTENT |>
    <| app_rx_connect_msg_id := 0 |> <| app_tx_connect_msg_id := 0 |>
    <| app_invalid_msg_id := 0 |> <| app_invalid_msg := 0 |> <| app_nak_msg := 0 |>.

Definition app_csm_init : M CS unit :=
  on_csm (fun c => c <| csm_app_csm ::= app_reset |>);;
  mlacp_init.

Definition csm_reset (c : CSM) : CSM :=
  c <| csm_msg_list := [] |> <| csm_sock_fd := -1 |> <| csm_connTimePrev := 0 |>
    <| csm_heartbeat_send_time := 0 |> <| csm_heartbeat_update_time := 0 |>
    <| csm_peer_warm_reboot_time := 0 |> <| csm_warm_reboot_disconn_time := 0 |>
    <| csm_peer_link_learning_retry_time := 0 |> <| csm_peer_link_learning_enable := 0 |>
    <| csm_role_type := STP_ROLE_NONE |> <| csm_peer_link_if := None |>
    <| csm_u_msg_in_count := 0 |> <| csm_i_msg_in_count := 0 |>
    <| csm_icc_msg_in_count := 0 |> <| csm_icc_msg_out_count := 0 |>
    <| csm_current_state := ICCP_NONEXISTENT |>
    <| csm_iccp_info ::= fun i => i <| status_code := 0 |> <| rejected_msg_id := 0 |>
         <| peer_capability_flag := 0 |> <| peer_rg_connect_flag := 0 |>
         <| sender_capability_flag := 0 |> <| sender_rg_connect_flag := 0 |> |>.

Definition iccp_csm_status_reset : M CS unit :=
  on_csm csm_reset;;
  app_csm_init;;
  on_csm (fun c => c <| csm_msg_log := zero_log |>).

(** ** Disconnection *)

Definition scheduler_unregister_sock_read_event_callback : M CS unit :=
  csm ← the_csm;
  when (csm_sock_fd csm >? 0)
    (modify (fun s => s <| cs_sys ::= fun y => y <| sys_readfd ::= filter (fun f => f <> csm_sock_fd csm) |> |>)).

Definition scheduler_session_disconnect_handler : M CS unit :=
  scheduler_unregister_sock_read_event_callback;;
  scheduler_csm_socket_cleanup;;
  mlacp_peer_disconn_handler;;
  on_mlacp (fun m => m <| ml_current_state := MLACP_STATE_INIT |>);;
  iccp_csm_status_reset;;
  t ← now;
  on_csm (fun c => c <| csm_connTimePrev := t |>).

Definition heartbeat_check : M CS unit :=
  csm ← the_csm;
  t ← now;
  if csm_heartbeat_update_time csm =? 0
  then on_csm (fun c => c <| csm_heartbeat_update_time := t |>)
  else when (t - csm_heartbeat_update_time csm >? csm_session_timeout csm)
         scheduler_session_disconnect_handler.

Definition heartbeat_update : M CS unit :=
  csm ← the_csm;
  when (csm_sock_fd csm >? 0) heartbeat_check.

Definition scheduler_csm_read_callback : M CS Z :=
  csm ← the_csm;
  if csm_sock_fd csm <=? 0 then mret MCLAG_ERROR
  else
    ok ← csm_read_message;
    if ok : bool then mret 1
    else scheduler_session_disconnect_handler;; mret MCLAG_ERROR.

(** ** The CSM at rest *)

(** A CSM that waits for the next connection, as of time [t]. *)
Record at_rest (t : Z) (c : CSM) : Prop := mk_at_rest {
  ar_fd : csm_sock_fd c = -1;
  ar_conn : csm_connTimePrev c = t;
  ar_state : csm_current_state c = ICCP_NONEXISTENT
    /\ app_current_state (csm_app_csm c) = APP_NONEXISTENT
    /\ ml_current_state (MLACP c) = MLACP_STATE_INIT;
  ar_role : csm_role_type c = STP_ROLE_NONE /\ csm_peer_link_if c = None;
  ar_timers : csm_heartbeat_send_time c = 0 /\ csm_heartbeat_update_time c = 0
    /\ csm_peer_warm_reboot_time c = 0 /\ csm_warm_reboot_disconn_time c = 0;
  ar_queues : csm_msg_list c = [] /\ app_msg_list (csm_app_csm c) = []
    /\ ml_mlacp_msg_list (MLACP c) = [] /\ ml_arp_msg_list (MLACP c) = []
    /\ ml_ndisc_msg_list (MLACP c) = [] /\ ml_mac_msg_list (MLACP c) = [];
  ar_peer : ml_pif_list (MLACP c) = [] /\ ml_lif_purge_list (MLACP c) = []
    /\ rs_system_id (ml_remote_system (MLACP c)) = null_mac;
  ar_log : csm_msg_log c = zero_log;
}.

(** The table of [s] with another queue and other entries. *)
Definition retabled (q : list ptr) (h : gmap ptr MACMsg) (s : CS) : CS :=
  s <| cs_csm ::= set_MLACP (fun m => m <| ml_mac_msg_list := q |> <| ml_mac_heap := h |>) |>.

Lemma retabled_same s : s = retabled (ml_mac_msg_list (MLACP (cs_csm s))) (ml_mac_heap (MLACP (cs_csm s))) s.
Proof.
  by destruct s as [[? ? ? ? ? ? ? ? ? ? ? ? ? ? ? ? ? ? [[] ? ? ? ? ? ? ?] ? ? ? ? ? ? ?] ? ? ? ?].
Qed.

Lemma get_mac_inv p m s s' : get_mac p s = Some (m, s') -> s' = s.
Proof. unfold get_mac. destruct (_ !! p); [|done]. by intros [= _ <-]. Qed.

Lemma reinit_queue_shape q s s' :
  ml_mac_msg_list (MLACP (cs_csm s)) = q -> reinit_queue q s = Some (tt, s') -> exists h, s' = retabled [] h s.
Proof.
  revert s. induction q as [|p q IH]; intros s Eq E; cbn [reinit_queue] in E.
  { injection E as <-. exists (ml_mac_heap (MLACP (cs_csm s))). rewrite <- Eq. apply retabled_same. }
  apply bind_inv in E as ([] & s1 & E1 & E). injection E1 as <-.
  apply bind_inv in E as (m & s2 & ->%get_mac_inv & E).
  apply bind_inv in E as ([] & s3 & E3 & E).
  assert (exists h, s3 = retabled q h s) as [h ->].
  { destruct (_ =? _); cbn [when] in E3.
    - apply bind_inv in E3 as (m' & s4 & ->%get_mac_inv & E3). injection E3 as <-. by eexists.
    - injection E3 as <-. exists (ml_mac_heap (MLACP (cs_csm s))). done. }
  destruct (IH (retabled q h s) eq_refl E) as [h' ->]. by exists h'.
Qed.

Lemma foreach_get_inv ps s s' : foreach (fun p => get_mac p;; mret tt) ps s = Some (tt, s') -> s' = s.
Proof.
  revert s. induction ps as [|p ps IH]; intros s E; cbn [foreach] in E; [by injection E as <-|].
  apply bind_inv in E as ([] & s1 & E1 & E). apply bind_inv in E1 as (m & s2 & ->%get_mac_inv & E1).
  injection E1 as <-. by apply IH.
Qed.

Lemma reinit_shape s s' : mlacp_mac_msg_queue_reinit s = Some (tt, s') -> exists h, s' = retabled [] h s.
Proof.
  unfold mlacp_mac_msg_queue_reinit. rewrite bind_the_csm. intros ([] & s1 & E1 & ->%foreach_get_inv)%bind_inv.
  by apply reinit_queue_shape in E1.
Qed.

Lemma on_csm_inv f a s s' : on_csm f s = Some (a, s') -> s' = s <| cs_csm ::= f |>.
Proof. by intros [= _ <-]. Qed.

Lemma on_csm_twice (f g : CSM -> CSM) (s : CS) :
  s <| cs_csm ::= f |> <| cs_csm ::= g |> = s <| cs_csm ::= fun c => g (f c) |>.
Proof. done. Qed.

Lemma on_cs f c g l y p o : mkCS c g l y p o <| cs_csm ::= f |> = mkCS (f c) g l y p o.
Proof. done. Qed.

(** The reset, whatever it starts from: the functions are applied in turn. *)
Definition ml_cleared (h : gmap ptr MACMsg) (c : CSM) : CSM :=
  set_MLACP ml_forget (set_MLACP (fun m => m <| ml_mac_msg_list := [] |> <| ml_mac_heap := h |>)
    (set_MLACP (fun m => m <| ml_mlacp_msg_list := [] |> <| ml_arp_msg_list := [] |>
                           <| ml_ndisc_msg_list := [] |>) (set_MLACP ml_reset c))).

Lemma clear_queues_shape s s' : clear_queues s = Some (tt, s') -> exists h,
  s' = retabled [] h (s <| cs_csm ::= set_MLACP (fun m => m <| ml_mlacp_msg_list := [] |> <| ml_arp_msg_list := [] |>
                           <| ml_ndisc_msg_list := [] |>) |>).
Proof.
  unfold clear_queues. intros ([] & s3 & E3 & E)%bind_inv. apply reinit_shape in E as [h E].
  unfold on_mlacp in E3. apply on_csm_inv in E3. subst s3. exists h. exact E.
Qed.

Lemma mlacp_init_shape s s' : mlacp_init s = Some (tt, s') -> exists h, s' = s <| cs_csm ::= ml_cleared h |>.
Proof.
  unfold mlacp_init, on_mlacp. intros ([] & s1 & E1 & E)%bind_inv. apply on_csm_inv in E1.
  apply bind_inv in E as ([] & s2 & E & E2). apply on_csm_inv in E2.
  apply clear_queues_shape in E as [h E].
  exists h. rewrite E2, E, E1. destruct s as [c g l y p o]. unfold retabled. rewrite !on_cs.
  unfold ml_cleared. reflexivity.
Qed.

Definition reset_to (t : Z) (h : gmap ptr MACMsg) (c : CSM) : CSM :=
  ml_cleared h (csm_reset c <| csm_app_csm ::= app_reset |>)
    <| csm_msg_log := zero_log |> <| csm_connTimePrev := t |>.

Lemma reset_at_rest t h c : at_rest t (reset_to t h c).
Proof. split; repeat split; reflexivity. Qed.

Lemma status_reset_shape s s' :
  (iccp_csm_status_reset;; t ← now; on_csm (fun c => c <| csm_connTimePrev := t |>)) s = Some (tt, s') ->
  exists h, s' = s <| cs_csm ::= reset_to (g_now (cs_g s)) h |>.
Proof.
  unfold iccp_csm_status_reset, app_csm_init. intros ([] & s1 & E & E')%bind_inv.
  apply bind_inv in E as ([] & s2 & E2 & E). apply on_csm_inv in E2.
  apply bind_inv in E as ([] & s3 & E3 & E). apply on_csm_inv in E.
  apply bind_inv in E3 as ([] & s4 & E4 & E3). apply on_csm_inv in E4.
  apply mlacp_init_shape in E3 as [h E3]. exists h.
  apply bind_inv in E' as (t & s5 & E5 & E'). apply on_csm_inv in E'.
  assert (E0 : t = g_now (cs_g s1) /\ s5 = s1) by (unfold now, gets in E5; by injection E5).
  destruct E0 as [-> ->]. destruct s as [c g l y p o]. rewrite E2 in E4. rewrite E4 in E3. rewrite E3 in E.
  rewrite !on_cs in E. rewrite E in E'. rewrite on_cs in E'. cbn [cs_g] in E' |- *.
  rewrite E', on_cs. unfold reset_to. reflexivity.
Qed.

(** Closing the socket. *)
Definition close_acts (c : CSM) : list Action :=
  if csm_sock_fd c >? 0 then [Act_epoll_del (csm_sock_fd c); Act_close (csm_sock_fd c)] else [].

Lemma cleanup_shape a s s' :
  scheduler_csm_socket_cleanup s = Some (a, s') ->
  exists fd, cs_csm s' = cs_csm s <| csm_sock_fd := fd |> /\ cs_lifs s' = cs_lifs s /\ cs_sys s' = cs_sys s
    /\ g_acts (cs_g s') = g_acts (cs_g s) ++ close_acts (cs_csm s).
Proof.
  unfold scheduler_csm_socket_cleanup, close_acts. rewrite bind_the_csm.
  destruct (csm_sock_fd (cs_csm s) >? 0); cbn [when].
  2:{ intros [= _ <-]. exists (csm_sock_fd (cs_csm s)). rewrite app_nil_r. split; [|done].
      by destruct (cs_csm s). }
  intros ([] & s1 & [= <-] & E)%bind_inv. apply bind_inv in E as (r & s2 & [= <- <-] & E).
  apply bind_inv in E as ([] & s3 & E3 & E). apply on_csm_inv in E. subst s'. exists (-1).
  assert (H : cs_csm s3 = cs_csm s /\ cs_lifs s3 = cs_lifs s /\ cs_sys s3 = cs_sys s
    /\ g_acts (cs_g s3) = (g_acts (cs_g s) ++ [Act_epoll_del (csm_sock_fd (cs_csm s))])
                            ++ [Act_close (csm_sock_fd (cs_csm s))]).
  { unfold when in E3. destruct (negb (_ =? 0)); by injection E3 as <-. }
  destruct H as (H1 & H2 & H3 & H4). rewrite <- app_assoc in H4. destruct s3. cbn in *. by subst.
Qed.

Lemma unregister_shape a s s' :
  scheduler_unregister_sock_read_event_callback s = Some (a, s') ->
  exists y, s' = s <| cs_sys := y |> /\ sys_warmboot_exit y = sys_warmboot_exit (cs_sys s).
Proof.
  unfold scheduler_unregister_sock_read_event_callback. rewrite bind_the_csm.
  destruct (_ >? 0); cbn [when]; intros [= _ <-]; [by eexists|].
  exists (cs_sys s). split; [by destruct s|done].
Qed.

(** The peer had announced a warm reboot: only the timer is set. *)
Lemma warm_disconn s s' :
  mlacp_peer_disconn_handler s = Some (tt, s') ->
  sys_warmboot_exit (cs_sys s) <> WARM_REBOOT -> csm_peer_warm_reboot_time (cs_csm s) <> 0 ->
  s' = s <| cs_csm ::= fun c => c <| csm_peer_warm_reboot_time := 0 |>
                                  <| csm_warm_reboot_disconn_time := g_now (cs_g s) |> |>.
Proof.
  intros E H1%Z.eqb_neq H2%Z.eqb_neq. revert E. unfold mlacp_peer_disconn_handler.
  rewrite (bind_Some (gets _) _ s _ s eq_refl), H1, bind_the_csm, H2. cbn [negb].
  by intros [= <-].
Qed.

