(* ===== verification/SyncdRecv.v ===== *)
(** Reception from mclagsyncd: [iccp_mclagsyncd_msg_handler] of
    [mlacp_link_handler.c].

    One call takes what the socket holds, walks over the messages in it, reads
    the missing part of the last one, and hands each message to the function of
    its type.  The functions are a parameter here; [Config] supplies those of
    the daemon.  [feeds] of [Receive] describes what the socket brings. *)

From Stdlib Require Import ZArith Lia.
From stdpp Require Import base list gmap numbers option.
From coqutil Require Import Byte Word.LittleEndianList.
From S2P Require Import Prelude CBuf State MsgFormat Wire CsmMsg AppCsm Csm Receive Syncd.

Definition MCLAG_MAX_MSG_LEN : Z := 4096.
Definition ICCP_MLAGSYNCD_RECV_MSG_BUFFER_SIZE : Z := MCLAG_MAX_MSG_LEN * 256.
Definition SYNCD_RECV_RETRY_INTERVAL_USEC : Z := 50000.
Definition SYNCD_RECV_RETRY_MAX : Z := 5.
Definition CNT_RX_READ_SOCK_ZERO : Z := 10.

Definition MCLAG_SYNCD_MSG_TYPE_FDB_OPERATION : Z := 1.
Definition MCLAG_SYNCD_MSG_TYPE_CFG_MCLAG_DOMAIN : Z := 2.
Definition MCLAG_SYNCD_MSG_TYPE_CFG_MCLAG_IFACE : Z := 3.
Definition MCLAG_SYNCD_MSG_TYPE_VLAN_MBR_UPDATES : Z := 4.
Definition MCLAG_SYNCD_MSG_TYPE_CFG_MCLAG_UNIQUE_IP : Z := 5.
Definition SYNCD_RX_DBG_CNTR_MSG_MAX : Z := 5.

Definition system_syncdrx_to_dbg_msg_type (msg_type : Z) : Z :=
  if msg_type =? MCLAG_SYNCD_MSG_TYPE_FDB_OPERATION then 0
  else if msg_type =? MCLAG_SYNCD_MSG_TYPE_CFG_MCLAG_DOMAIN then 1
  else if msg_type =? MCLAG_SYNCD_MSG_TYPE_CFG_MCLAG_IFACE then 2
  else if msg_type =? MCLAG_SYNCD_MSG_TYPE_CFG_MCLAG_UNIQUE_IP then 3
  else if msg_type =? MCLAG_SYNCD_MSG_TYPE_VLAN_MBR_UPDATES then 4
  else SYNCD_RX_DBG_CNTR_MSG_MAX.

(** The process, what the next calls of [recv] on [sync_fd] find, the buffer
    [g_iccp_mlagsyncd_recv_buf] and [syncd_rx_counters]. *)
Record Rx := mkRx {
  rx_w : World;
  rx_rd : list RecvEv;
  rx_buf : buf;
  rx_cnt : gmap (Z * Z) Z;
}.

#[export] Instance eta_rx : Eta Rx := fun r => mkRx (rx_w r) (rx_rd r) (rx_buf r) (rx_cnt r).

Definition rx_world {A} (m : M World A) : M Rx A := fun r =>
  x ← m (rx_w r); Some (x.1, r <| rx_w := x.2 |>).
Definition rx_on_g (f : Globals -> Globals) : M Rx unit :=
  rx_world (modify (fun w => w <| w_g ::= f |>)).
Definition rx_incr (k : Z) : M Rx unit :=
  rx_on_g (fun g => g <| g_cnt ::= <[k := u32 (cnt k g + 1)]> |>).
Definition rx_sleep : M Rx unit :=
  rx_on_g (fun g => g <| g_slept ::= fun t => t + SYNCD_RECV_RETRY_INTERVAL_USEC |>).

Definition SYSTEM_SET_SYNCD_RX_DBG_COUNTER (msg_type status : Z) : M Rx unit :=
  let ty := system_syncdrx_to_dbg_msg_type msg_type in
  when (ty <? SYNCD_RX_DBG_CNTR_MSG_MAX)
    (modify (fun r => r <| rx_cnt ::= fun c => <[(ty, status) := u64 (default 0 (c !! (ty, status)) + 1)]> c |>)).

(** [recv] of at most [n] bytes to offset [off] of the buffer. *)
Definition rx_recv (off n : nat) : M Rx RecvEv :=
  evs ← gets rx_rd;
  match evs with
  | [] => mret Rx_zero
  | Rx_data bs :: evs' =>
      let c := take n bs in
      r ← get;
      b ← lift (wr off c (rx_buf r));
      modify (fun r => r <| rx_buf := b |>
        <| rx_rd := if (length bs <=? n)%nat then evs' else Rx_data (drop n bs) :: evs' |>);;
      mret (Rx_data c)
  | ev :: evs' => modify (fun r => r <| rx_rd := evs' |>);; mret ev
  end.

(** The size asked for leaves room for the rest of a last message of
    [MCLAG_MAX_MSG_LEN] bytes. *)
Definition recv_cap : nat := Z.to_nat (ICCP_MLAGSYNCD_RECV_MSG_BUFFER_SIZE - MCLAG_MAX_MSG_LEN).

(** Results of the loops: [inl k], [return MCLAG_ERROR] after counting [k]. *)

(** [while (num_bytes_rxed < 0)]: entered with [num_bytes_rxed] = -1. *)
Fixpoint first_retry (fuel : nat) (num_retry : Z) : M Rx (Z + Z) :=
  match fuel with
  | O => ub
  | S fuel' =>
      ev ← rx_recv 0 recv_cap;
      match ev with
      | Rx_data (c :: bs) => mret (inr (-1 + Z.of_nat (length (c :: bs))))
      | Rx_again =>
          if num_retry + 1 >? SYNCD_RECV_RETRY_MAX then mret (inl CNT_RX_RETRY_FAIL)
          else rx_sleep;; first_retry fuel' (num_retry + 1)
      | Rx_err => mret (inl CNT_HDR_READ_SOCK_ERR)
      | Rx_zero | Rx_data [] => mret (inl CNT_HDR_READ_SOCK_ZERO_LEN)
      end
  end.

Definition first_recv : M Rx (Z + Z) :=
  ev ← rx_recv 0 recv_cap;
  match ev with
  | Rx_data (c :: bs) => mret (inr (Z.of_nat (length (c :: bs))))
  | Rx_zero | Rx_data [] => mret (inl CNT_RX_READ_SOCK_ZERO)
  | Rx_again | Rx_err => first_retry 6 0
  end.

(** [while (recv_len < pending_len)]: both loops that complete a header or a
    message, with the counters of each.  [inr]: the number of retries. *)
Fixpoint pending_loop (fuel : nat) (num_bytes_rxed recv_len pending_len : nat) (num_retry : Z)
    (zero err : Z) : M Rx (Z + Z) :=
  if (pending_len <=? recv_len)%nat then mret (inr num_retry)
  else match fuel with
  | O => ub
  | S fuel' =>
      ev ← rx_recv (num_bytes_rxed + recv_len) (pending_len - recv_len);
      match ev with
      | Rx_data (c :: bs) =>
          pending_loop fuel' num_bytes_rxed (recv_len + length (c :: bs)) pending_len num_retry zero err
      | Rx_again =>
          if num_retry + 1 >? SYNCD_RECV_RETRY_MAX then mret (inl CNT_RX_RETRY_FAIL)
          else rx_sleep;; pending_loop fuel' num_bytes_rxed recv_len pending_len (num_retry + 1) zero err
      | Rx_err => mret (inl err)
      | Rx_zero | Rx_data [] => mret (inl zero)
      end
  end.

(** A byte or one of six retries a pass. *)
Definition pending (num_bytes_rxed pending_len : nat) (num_retry zero err : Z) : M Rx (Z + Z) :=
  pending_loop (pending_len + 6) num_bytes_rxed 0 pending_len num_retry zero err.

Definition hdr_sizeof : nat := 4.

Section Handler.
(** The function of a message type, on the buffer from the message on. *)
Variable handle : Z -> option (buf -> M World unit).

(** The message at [pos], its header complete: [inl] when the call ends with an
    error, else the position of the next message and the retries so far. *)
Definition syncd_msg (pos num_bytes_rxed : nat) (num_retry : Z) : M Rx (Z + nat * Z) :=
  b ← gets (fun r => drop pos (rx_buf r));
  ver ← lift (rd8 0 b);
  len ← lift (rd16 2 b);
  if len =? 0 then mret (inl (-1))
  else if negb (ver =? 1) then mret (inr ((pos + Z.to_nat len)%nat, num_retry))
  else
    res ← (if (num_bytes_rxed <? pos + Z.to_nat len)%nat
           then pending num_bytes_rxed (pos + Z.to_nat len - num_bytes_rxed) num_retry
                  CNT_TLV_READ_SOCK_ZERO_LEN CNT_TLV_READ_SOCK_ERR
           else mret (inr num_retry));
    match res with
    | inl k => mret (inl k)
    | inr num_retry =>
        b ← gets (fun r => drop pos (rx_buf r));
        type ← lift (rd8 1 b);
        len ← lift (rd16 2 b);
        match handle type with
        | Some f => rx_world (f b);; SYSTEM_SET_SYNCD_RX_DBG_COUNTER type SYNCD_DBG_CNTR_STS_OK
        | None => mret tt
        end;;
        mret (inr ((pos + Z.to_nat len)%nat, num_retry))
    end.

(** [while (pos < num_bytes_rxed)] *)
Fixpoint syncd_loop_rx (fuel pos num_bytes_rxed : nat) (num_retry : Z) : M Rx Z :=
  if (num_bytes_rxed <=? pos)%nat then mret 0
  else match fuel with
  | O => ub
  | S fuel' =>
      res ← (if (num_bytes_rxed - pos <? hdr_sizeof)%nat
             then pending num_bytes_rxed (hdr_sizeof - (num_bytes_rxed - pos)) num_retry
                    CNT_HDR_READ_SOCK_ZERO_LEN CNT_HDR_READ_SOCK_ERR
             else mret (inr num_retry));
      match res with
      | inl k => rx_incr k;; mret MCLAG_ERROR
      | inr num_retry =>
          res ← syncd_msg pos num_bytes_rxed num_retry;
          match res with
          | inl k => when (0 <=? k) (rx_incr k);; mret MCLAG_ERROR
          | inr (pos, num_retry) => syncd_loop_rx fuel' pos num_bytes_rxed num_retry
          end
      end
  end.

Definition syncd_msg_handler : M Rx Z :=
  modify (fun r => r <| rx_buf := zeros ICCP_MLAGSYNCD_RECV_MSG_BUFFER_SIZE |>);;
  res ← first_recv;
  match res with
  | inl k => rx_incr k;; mret MCLAG_ERROR
  | inr n => syncd_loop_rx (Z.to_nat n) 0 (Z.to_nat n) 0
  end.
End Handler.

(** ** What a call does with a stream of messages *)

Section Stream.
Variable handle : Z -> option (buf -> M World unit).

(** The function of the type of [m] on the message, followed by [rest]. *)
Definition handled (m : Z * buf) (rest : buf) : M Rx unit :=
  match handle m.1 with
  | Some f => rx_world (f (frame m.1 m.2 ++ rest));; SYSTEM_SET_SYNCD_RX_DBG_COUNTER m.1 SYNCD_DBG_CNTR_STS_OK
  | None => mret tt
  end.

Definition slept (k : nat) (w : World) : World :=
  w <| w_g ::= fun g => g <| g_slept ::= fun t => t + Z.of_nat k * SYNCD_RECV_RETRY_INTERVAL_USEC |> |>.

(** The process and the counters of [syncd_rx_counters] after the messages [ms]
    were handed over one after the other, with pauses in between. *)
Inductive delivered : list (Z * buf) -> World * gmap (Z * Z) Z -> World * gmap (Z * Z) Z -> Prop :=
  | delivered_nil x : delivered [] x x
  | delivered_pause k ms w c x : delivered ms (slept k w, c) x -> delivered ms (w, c) x
  | delivered_cons m ms rest w c evs b w' c' x :
      handled m rest (mkRx w evs b c) = Some (tt, mkRx w' evs b c') ->
      delivered ms (w', c') x -> delivered (m :: ms) (w, c) x.

(** The functions of the messages [ms] are defined, one after the other from [w]
    on, whatever follows a message in the buffer and after any pause. *)
Fixpoint takes (ms : list (Z * buf)) (w : World) : Prop :=
  match ms with
  | [] => True
  | m :: ms' => forall k rest,
      match handle m.1 with
      | Some f => exists w', f (frame m.1 m.2 ++ rest) (slept k w) = Some (tt, w') /\ takes ms' w'
      | None => takes ms' (slept k w)
      end
  end.

Definition msg_ok (m : Z * buf) : Prop :=
  0 <= m.1 < 2 ^ 8 /\ (Z.of_nat (length (frame m.1 m.2)) <= MCLAG_MAX_MSG_LEN).

Definition stream (ms : list (Z * buf)) : buf := concat ((fun m => frame m.1 m.2) <$> ms).

Lemma stream_cons m ms : stream (m :: ms) = frame m.1 m.2 ++ stream ms.
Proof. done. Qed.
Lemma stream_app ms ms' : stream (ms ++ ms') = stream ms ++ stream ms'.
Proof. unfold stream. by rewrite fmap_app, concat_app. Qed.

Lemma slept_0 w : slept 0 w = w.
Proof. destruct w as [? ? ? []]. unfold slept. repeat unfold set; cbn. by rewrite Z.add_0_r. Qed.
Lemma slept_slept a b w : slept a (slept b w) = slept (b + a) w.
Proof.
  destruct w as [? ? ? []]. unfold slept. repeat unfold set; cbn. do 2 f_equal. lia.
Qed.

Lemma delivered_app ms ms' x y z : delivered ms x y -> delivered ms' y z -> delivered (ms ++ ms') x z.
Proof. induction 1; [done| |]; intros; [eapply delivered_pause|eapply delivered_cons]; eauto. Qed.

(** ** Header fields *)

Lemma frame_ver ty body rest : rd8 0 (frame ty body ++ rest) = Some 1.
Proof. unfold frame, rd8. rewrite <- !app_assoc. by rewrite rd_head by len. Qed.
Lemma frame_type ty body rest : 0 <= ty < 2 ^ 8 -> rd8 1 (frame ty body ++ rest) = Some ty.
Proof.
  intros H. unfold frame, rd8, b8. rewrite <- !app_assoc. skip_chunks. rewrite rd_head by len. simpl fmap.
  rewrite le_combine_split. f_equal. by apply Z.mod_small.
Qed.
Lemma frame_len ty body rest : 4 + Z.of_nat (length body) < 2 ^ 16 ->
  rd16 2 (frame ty body ++ rest) = Some (4 + Z.of_nat (length body)).
Proof.
  intros H. unfold frame, rd16, b8. rewrite <- !app_assoc. skip_chunks. rewrite rd_head by len. simpl fmap.
  rewrite le_combine_split2; [done|]. unfold IccpSyncdHDr.sizeof. lia.
Qed.

(** The header alone decides the fields. *)
Lemma rd_take off n k b : (off + n <= k)%nat -> (k <= length b)%nat -> rd off n (take k b) = rd off n b.
Proof. intros H1 H2. rewrite <- (take_drop k b) at 2. symmetry. apply rd_app_l. rewrite length_take. lia. Qed.
Lemma rd_prefix off n k b b' : (off + n <= k)%nat -> (k <= length b)%nat -> (k <= length b')%nat ->
  take k b = take k b' -> rd off n b = rd off n b'.
Proof. intros H Hb Hb' E. rewrite <- (rd_take off n k b), <- (rd_take off n k b') by done. by rewrite E. Qed.

(** ** The loops on a script *)

Lemma rx_recv_all off n bs evs w b c b' :
  (length bs <= n)%nat -> wr off bs b = Some b' ->
  rx_recv off n (mkRx w (Rx_data bs :: evs) b c) = Some (Rx_data bs, mkRx w evs b' c).
Proof.
  intros Hn Hw. unfold rx_recv, mbind, M_bind, gets, get, lift, modify. cbn -[Nat.leb take].
  rewrite take_ge by lia. rewrite Hw. cbn -[Nat.leb]. by rewrite (proj2 (Nat.leb_le _ _) Hn).
Qed.
Lemma rx_recv_part off n d e evs w b c b' :
  length d = n -> e <> [] -> wr off d b = Some b' ->
  rx_recv off n (mkRx w (Rx_data (d ++ e) :: evs) b c) = Some (Rx_data d, mkRx w (Rx_data e :: evs) b' c).
Proof.
  intros <- He Hw. unfold rx_recv, mbind, M_bind, gets, get, lift, modify. cbn -[Nat.leb take].
  rewrite take_app_length, Hw. cbn -[Nat.leb].
  rewrite (proj2 (Nat.leb_gt (length (d ++ e)) _)) by (rewrite length_app; destruct e; simpl; [done|lia]).
  by rewrite drop_app_length.
Qed.
Lemma rx_recv_again off n evs w b c :
  rx_recv off n (mkRx w (Rx_again :: evs) b c) = Some (Rx_again, mkRx w evs b c).
Proof. done. Qed.

Lemma rx_sleep_eq w evs b c : rx_sleep (mkRx w evs b c) = Some (tt, mkRx (slept 1 w) evs b c).
Proof. done. Qed.

Lemma pending_data fuel num n k r z e d s s' :
  (n < k)%nat -> d <> [] -> rx_recv (num + n) (k - n) s = Some (Rx_data d, s') ->
  pending_loop (S fuel) num n k r z e s = pending_loop fuel num (n + length d) k r z e s'.
Proof.
  intros Hn Hd E. cbn [pending_loop]. rewrite (proj2 (Nat.leb_gt k n)) by lia.
  rewrite (bind_Some _ _ _ _ _ E). by destruct d.
Qed.

Lemma pending_again fuel num n k r z e w evs b c :
  (n < k)%nat -> r < SYNCD_RECV_RETRY_MAX ->
  pending_loop (S fuel) num n k r z e (mkRx w (Rx_again :: evs) b c)
  = pending_loop fuel num n k (r + 1) z e (mkRx (slept 1 w) evs b c).
Proof.
  intros Hn Hr. cbn [pending_loop]. rewrite (proj2 (Nat.leb_gt k n)) by lia.
  rewrite (bind_Some _ _ _ _ _ (rx_recv_again _ _ _ _ _ _)).
  rewrite Z.gtb_ltb, (proj2 (Z.ltb_ge _ _)) by lia.
  by rewrite (bind_Some _ _ _ _ _ (rx_sleep_eq _ _ _ _)).
Qed.

(** The script brings [bs]: the buffer holds [p], [q] and has room [x]. *)
Lemma pending_feeds bs k evs evs' : feeds bs k evs evs' ->
  forall p q x tl w c r z e fuel n pl,
  length p = n -> pl = (length q + length bs)%nat -> length x = length bs ->
  (length bs + k <= fuel)%nat -> r + Z.of_nat k <= SYNCD_RECV_RETRY_MAX ->
  pending_loop fuel n (length q) pl r z e (mkRx w evs (p ++ q ++ x ++ tl) c)
  = Some (inr (r + Z.of_nat k), mkRx (slept k w) evs' (p ++ q ++ bs ++ tl) c).
Proof.
  induction 1 as [evs|d bs k evs evs' Hd Hf IH|d d' evs Hd Hd'|bs k evs evs' Hb Hf IH];
    intros p q x tl w c r z e fuel n pl <- -> Hx Hfuel Hr.
  - destruct x; [|done]. rewrite slept_0, Z.add_0_r.
    destruct fuel; cbn [pending_loop length]; by rewrite (proj2 (Nat.leb_le _ _)) by lia.
  - rewrite length_app in *. destruct fuel as [|fuel]; [destruct d; simpl in *; [done|lia]|].
    assert (0 < length d)%nat by (destruct d; simpl; [done|lia]).
    erewrite (pending_data _ _ _ _ _ _ _ d); [|lia|done|apply rx_recv_all; [lia|]].
    2: { rewrite <- length_app, (app_assoc p q). apply wr_fragment. lia. }
    rewrite <- !app_assoc, (app_assoc q d), <- (length_app q d).
    rewrite IH; [by rewrite <- !app_assoc|done|rewrite length_app; lia|rewrite length_drop; lia|lia|lia].
  - destruct fuel as [|fuel]; [destruct d; simpl in *; [done|lia]|].
    assert (0 < length d)%nat by (destruct d; simpl; [done|lia]).
    erewrite (pending_data _ _ _ _ _ _ _ d); [|lia|done|apply rx_recv_part; [lia|done|]].
    2: { rewrite <- length_app, (app_assoc p q). apply wr_fragment. lia. }
    rewrite <- Hx, drop_all, Hx, slept_0, Z.add_0_r, <- !app_assoc.
    destruct fuel; cbn [pending_loop app]; by rewrite (proj2 (Nat.leb_le _ _)) by lia.
  - destruct fuel as [|fuel]; [lia|].
    assert (0 < length bs)%nat by (destruct bs; simpl; [done|lia]).
    rewrite pending_again by lia. rewrite IH; [|done|done|done|lia|lia].
    rewrite slept_slept. do 3 f_equal. lia.
Qed.

(** ** One message *)

Lemma takes_slept ms w j : takes ms w -> takes ms (slept j w).
Proof. destruct ms as [|m ms]; [done|]. intros H k rest. rewrite slept_slept. apply H. Qed.

Lemma handled_total m ms k rest w evs b c : takes (m :: ms) w ->
  exists w' c', handled m rest (mkRx (slept k w) evs b c) = Some (tt, mkRx w' evs b c') /\ takes ms w'.
Proof.
  intros H. specialize (H k rest). unfold handled. destruct (handle m.1) as [f|]; [|by exists (slept k w), c].
  destruct H as (w' & Ef & Hw'). unfold mbind, M_bind, rx_world. cbn. rewrite Ef. cbn.
  unfold SYSTEM_SET_SYNCD_RX_DBG_COUNTER. destruct (_ <? _); cbn; eauto.
Qed.

Lemma msg_ok_len m : msg_ok m -> 4 + Z.of_nat (length m.2) < 2 ^ 16.
Proof. intros [_ H]. rewrite frame_length in H. unfold MCLAG_MAX_MSG_LEN in H. lia. Qed.

Lemma syncd_msg_complete m p rest num r w evs c s' :
  msg_ok m -> (length p + length (frame m.1 m.2) <= num)%nat ->
  handled m rest (mkRx w evs (p ++ frame m.1 m.2 ++ rest) c) = Some (tt, s') ->
  syncd_msg handle (length p) num r (mkRx w evs (p ++ frame m.1 m.2 ++ rest) c)
  = Some (inr ((length p + length (frame m.1 m.2))%nat, r), s').
Proof.
  intros Hm Hn Hh. assert (Hl := msg_ok_len m Hm). destruct Hm as [Ht _].
  unfold syncd_msg, mbind, M_bind, gets, lift. cbn [rx_buf]. rewrite drop_app_length.
  rewrite frame_ver, frame_len by done. cbn [mbind option_bind].
  rewrite (proj2 (Z.eqb_neq _ _)) by lia. cbn [negb Z.eqb Pos.eqb].
  replace (Z.to_nat (4 + Z.of_nat (length m.2))) with (length (frame m.1 m.2)) by (rewrite frame_length; lia).
  rewrite (proj2 (Nat.ltb_ge _ _)) by lia. cbn [mret M_ret rx_buf]. rewrite drop_app_length.
  rewrite frame_type, frame_len by done. cbn [mbind option_bind].
  unfold handled, mbind, M_bind in Hh. destruct (handle m.1) as [f|]; rewrite Hh;
  by replace (Z.to_nat (4 + Z.of_nat (length m.2))) with (length (frame m.1 m.2)) by (rewrite frame_length; lia).
Qed.

(** The part [h] of the message is there and holds the header. *)
Lemma syncd_msg_last m p h t x tl num r k w evs evs' c s' :
  msg_ok m -> frame m.1 m.2 = h ++ t -> (4 <= length h)%nat -> t <> [] ->
  num = (length p + length h)%nat -> length x = length t ->
  feeds t k evs evs' -> r + Z.of_nat k <= SYNCD_RECV_RETRY_MAX -> 0 <= r ->
  handled m tl (mkRx (slept k w) evs' (p ++ frame m.1 m.2 ++ tl) c) = Some (tt, s') ->
  syncd_msg handle (length p) num r (mkRx w evs (p ++ h ++ x ++ tl) c)
  = Some (inr ((length p + length (frame m.1 m.2))%nat, r + Z.of_nat k), s').
Proof.
  intros Hm Hht Hh Hne -> Hx Hf Hr Hr0 Hd. assert (Hl := msg_ok_len m Hm). destruct Hm as [Ht _].
  assert (Hlen := f_equal length Hht). rewrite frame_length, length_app in Hlen.
  assert (Hpos : (0 < length t)%nat) by (destruct t; simpl; [done|lia]).
  assert (Hrd : forall off n, (off + n <= 4)%nat ->
            rd off n (h ++ x ++ tl) = rd off n (frame m.1 m.2 ++ tl)).
  { intros off n Hon. rewrite Hht, <- app_assoc, !rd_app_l by lia. done. }
  unfold syncd_msg, mbind, M_bind, gets, lift. cbn [rx_buf]. rewrite drop_app_length.
  unfold rd8 at 1, rd16 at 1. rewrite !Hrd by lia. fold (rd8 0 (frame m.1 m.2 ++ tl)).
  fold (rd16 2 (frame m.1 m.2 ++ tl)).
  rewrite frame_ver, frame_len by done. cbn [mbind option_bind].
  rewrite (proj2 (Z.eqb_neq _ _)) by lia. cbn [negb Z.eqb Pos.eqb].
  rewrite (proj2 (Nat.ltb_lt _ _)) by lia. unfold pending.
  replace (length p + Z.to_nat (4 + Z.of_nat (length m.2)) - (length p + length h))%nat
    with (length (@nil byte) + length t)%nat by (cbn; lia).
  rewrite (app_assoc p h), <- (app_nil_l (x ++ tl)).
  erewrite (pending_feeds t k evs evs' Hf (p ++ h) [] x tl);
    [|by rewrite length_app|done|done|cbn; unfold SYNCD_RECV_RETRY_MAX in Hr; lia|done].
  cbn [app rx_buf]. rewrite <- (app_assoc p h), (app_assoc h t), <- Hht, drop_app_length.
  rewrite frame_type, frame_len by done. cbn [mbind option_bind].
  unfold handled, mbind, M_bind in Hd. destruct (handle m.1) as [f|]; rewrite Hd;
  by replace (Z.to_nat (4 + Z.of_nat (length m.2))) with (length (frame m.1 m.2)) by (rewrite frame_length; lia).
Qed.

(** ** The walk over the messages *)

Lemma syncd_loop_next fuel pos num r s pos' r' s' :
  (4 <= num - pos)%nat -> syncd_msg handle pos num r s = Some (inr (pos', r'), s') ->
  syncd_loop_rx handle (S fuel) pos num r s = syncd_loop_rx handle fuel pos' num r' s'.
Proof.
  intros Hn E. cbn [syncd_loop_rx]. rewrite (proj2 (Nat.leb_gt _ _)) by lia.
  unfold hdr_sizeof. rewrite (proj2 (Nat.ltb_ge _ _)) by lia.
  unfold mbind at 1, M_bind at 1, mret at 1, M_ret at 1. by rewrite (bind_Some _ _ _ _ _ E).
Qed.

Lemma syncd_loop_complete ms ms' : Forall msg_ok ms ->
  forall fuel p rest num r w c evs, takes (ms ++ ms') w ->
  (length p + length (stream ms) <= num)%nat -> (length ms <= fuel)%nat ->
  exists w' c', delivered ms (w, c) (w', c') /\ takes ms' w'
    /\ syncd_loop_rx handle fuel (length p) num r (mkRx w evs (p ++ stream ms ++ rest) c)
       = syncd_loop_rx handle (fuel - length ms) (length p + length (stream ms)) num r
           (mkRx w' evs (p ++ stream ms ++ rest) c').
Proof.
  induction ms as [|m ms IH]; intros Hok fuel p rest num r w c evs Ht Hn Hf.
  { exists w, c. split; [constructor|split; [done|]]. by rewrite Nat.sub_0_r, Nat.add_0_r. }
  apply Forall_cons_1 in Hok as [Hm Hok]. rewrite stream_cons, length_app in *.
  destruct fuel as [|fuel]; [simpl in Hf; lia|].
  destruct (handled_total m (ms ++ ms') 0 (stream ms ++ rest) w evs (p ++ frame m.1 m.2 ++ stream ms ++ rest) c)
    as (w1 & c1 & E1 & Ht1); [done|]. rewrite slept_0 in E1.
  destruct (IH Hok fuel (p ++ frame m.1 m.2) rest num r w1 c1 evs Ht1)
    as (w' & c' & Hd & Ht' & E); [rewrite length_app; lia|simpl in Hf; lia|].
  exists w', c'. split; [by eapply delivered_cons|split; [done|]].
  rewrite <- !app_assoc. erewrite syncd_loop_next; [|rewrite frame_length in Hn; lia|by apply syncd_msg_complete; [..|lia|exact E1]].
  rewrite <- !app_assoc, length_app in E. rewrite E. cbn [length Nat.sub]. by rewrite Nat.add_assoc.
Qed.

(** ** A batch of messages *)

Lemma feeds_nil_inv k evs evs' : feeds [] k evs evs' -> k = 0%nat /\ evs' = evs.
Proof.
  remember (@nil byte) as bs eqn:Hbs. destruct 1 as [|c bs' k' ? ? Hc _|c d ? Hc _|bs' k' ? ? Hb _]; [done|..].
  - destruct c; [done|discriminate].
  - by subst.
  - by subst.
Qed.

Lemma wr_zeros bs z : (Z.of_nat (length bs) <= z) -> wr 0 bs (zeros z) = Some (bs ++ zeros (z - Z.of_nat (length bs))).
Proof.
  intros H. rewrite (zeros_split (Z.of_nat (length bs)) z) by lia. apply wr_head. rewrite zeros_length. lia.
Qed.

Lemma recv_cap_spec : Z.of_nat recv_cap + MCLAG_MAX_MSG_LEN = ICCP_MLAGSYNCD_RECV_MSG_BUFFER_SIZE.
Proof. unfold recv_cap. rewrite Z2Nat.id by done. done. Qed.
Lemma recv_room (bs : buf) : (length bs <= recv_cap)%nat ->
  Z.of_nat (length bs) + MCLAG_MAX_MSG_LEN <= ICCP_MLAGSYNCD_RECV_MSG_BUFFER_SIZE.
Proof. rewrite <- recv_cap_spec. lia. Qed.
Lemma recv_room' (bs : buf) : (length bs <= recv_cap)%nat -> Z.of_nat (length bs) <= ICCP_MLAGSYNCD_RECV_MSG_BUFFER_SIZE.
Proof. intros H%recv_room. unfold MCLAG_MAX_MSG_LEN in H. lia. Qed.

Lemma first_recv_data bs evs w c :
  bs <> [] -> (length bs <= recv_cap)%nat ->
  first_recv (mkRx w (Rx_data bs :: evs) (zeros ICCP_MLAGSYNCD_RECV_MSG_BUFFER_SIZE) c)
  = Some (inr (Z.of_nat (length bs)),
          mkRx w evs (bs ++ zeros (ICCP_MLAGSYNCD_RECV_MSG_BUFFER_SIZE - Z.of_nat (length bs))) c).
Proof.
  intros Hb Hc. unfold first_recv.
  assert (Hz := recv_room' bs Hc).
  erewrite bind_Some by (apply rx_recv_all; [done|by apply wr_zeros]). by destruct bs.
Qed.

Lemma first_retry_data j bs evs w c fuel r :
  bs <> [] -> (length bs <= recv_cap)%nat -> (j < fuel)%nat -> r + Z.of_nat j <= SYNCD_RECV_RETRY_MAX ->
  first_retry fuel r (mkRx w (replicate j Rx_again ++ Rx_data bs :: evs) (zeros ICCP_MLAGSYNCD_RECV_MSG_BUFFER_SIZE) c)
  = Some (inr (-1 + Z.of_nat (length bs)),
          mkRx (slept j w) evs (bs ++ zeros (ICCP_MLAGSYNCD_RECV_MSG_BUFFER_SIZE - Z.of_nat (length bs))) c).
Proof.
  intros Hb Hc. assert (Hz := recv_room' bs Hc).
  revert fuel r w. induction j as [|j IH]; intros fuel r w Hf Hr; (destruct fuel as [|fuel]; [lia|]); cbn [first_retry].
  - rewrite slept_0. cbn [replicate app]. erewrite bind_Some by (apply rx_recv_all; [done|by apply wr_zeros]).
    by destruct bs.
  - cbn [replicate app]. rewrite (bind_Some _ _ _ _ _ (rx_recv_again _ _ _ _ _ _)).
    rewrite Z.gtb_ltb, (proj2 (Z.ltb_ge _ _)) by lia.
    rewrite (bind_Some _ _ _ _ _ (rx_sleep_eq _ _ _ _)). rewrite IH by lia. by rewrite slept_slept.
Qed.

Lemma stream_length ms : (length ms <= length (stream ms))%nat.
Proof. induction ms as [|m ms IH]; [done|]. rewrite stream_cons, length_app, frame_length. simpl. lia. Qed.

Lemma stream_ok_split all (ms : list (Z * buf)) m : all = ms ++ [m] -> Forall msg_ok all -> Forall msg_ok ms /\ msg_ok m.
Proof. intros ->. rewrite Forall_app, Forall_singleton. done. Qed.

Lemma syncd_loop_done fuel pos num r s : (num <= pos)%nat -> syncd_loop_rx handle fuel pos num r s = Some (0, s).
Proof. intros H. destruct fuel; cbn [syncd_loop_rx]; by rewrite (proj2 (Nat.leb_le _ _)) by lia. Qed.

Lemma syncd_msg_handler_first w evs b c n s' :
  first_recv (mkRx w evs (zeros ICCP_MLAGSYNCD_RECV_MSG_BUFFER_SIZE) c) = Some (inr n, s') ->
  syncd_msg_handler handle (mkRx w evs b c) = syncd_loop_rx handle (Z.to_nat n) 0 (Z.to_nat n) 0 s'.
Proof.
  intros E. unfold syncd_msg_handler. erewrite bind_Some by reflexivity.
  by rewrite (bind_Some _ _ _ _ _ E).
Qed.

(** C17. A batch that ends with a message or inside the body of one is handed over
    message by message, and exactly its bytes are taken from the socket. *)
Theorem syncd_stream_delivered ms m h t k evs evs' w c b :
  takes (ms ++ [m]) w -> Forall msg_ok (ms ++ [m]) ->
  frame m.1 m.2 = h ++ t -> (4 <= length h)%nat -> (length (stream ms ++ h) <= recv_cap)%nat ->
  feeds t k evs evs' -> Z.of_nat k <= SYNCD_RECV_RETRY_MAX ->
  exists w' c' b', delivered (ms ++ [m]) (w, c) (w', c')
    /\ syncd_msg_handler handle (mkRx w (Rx_data (stream ms ++ h) :: evs) b c) = Some (0, mkRx w' evs' b' c').
Proof.
  intros Ha Hok Hht Hh Hcap Hf Hk. destruct (stream_ok_split _ ms m eq_refl Hok) as [Hms Hm].
  set (bs := stream ms ++ h) in *. set (tl := zeros (ICCP_MLAGSYNCD_RECV_MSG_BUFFER_SIZE - Z.of_nat (length bs))).
  assert (Hbs : bs <> []) by (unfold bs; destruct h; simpl in Hh; [lia|by destruct (stream ms)]).
  assert (Hlb : length bs = (length (stream ms) + length h)%nat) by (unfold bs; len).
  assert (Hsl := stream_length ms).
  destruct (syncd_loop_complete ms [m] Hms
    (length bs) [] (h ++ tl) (length bs) 0 w c evs Ha) as (w1 & c1 & Hd1 & Ht1 & E1); [simpl; lia|lia|].
  cbn [app length Nat.add] in E1. 
  rewrite (syncd_msg_handler_first _ _ b _ _ _ (first_recv_data bs evs w c Hbs Hcap)). fold tl. rewrite Nat2Z.id.
  unfold bs at 3. rewrite <- app_assoc, E1.
  destruct (length bs - length ms)%nat as [|fuel] eqn:Efuel; [lia|].
  destruct t as [|t0 t].
  - apply feeds_nil_inv in Hf as [-> ->]. rewrite app_nil_r in Hht.
    destruct (handled_total m [] 0 tl w1 evs (stream ms ++ frame m.1 m.2 ++ tl) c1 Ht1) as (w2 & c2 & E2 & _).
    rewrite slept_0 in E2. rewrite <- Hht.
    exists w2, c2, (stream ms ++ frame m.1 m.2 ++ tl). split.
    { eapply delivered_app; [exact Hd1|]. eapply delivered_cons; [exact E2|constructor]. }
    erewrite syncd_loop_next; [|lia|apply syncd_msg_complete; [done|rewrite Hht; lia|exact E2]].
    apply syncd_loop_done. rewrite Hht. lia.
  - set (x := take (length (t0 :: t)) tl). set (tl' := drop (length (t0 :: t)) tl).
    assert (Ht : Z.of_nat (length (t0 :: t)) <= MCLAG_MAX_MSG_LEN).
    { destruct Hm as [_ Hm]. rewrite Hht, length_app in Hm. lia. }
    assert (Hx : length x = length (t0 :: t)).
    { assert (Hroom := recv_room _ Hcap). unfold x, tl. rewrite length_take, zeros_length. lia. }
    replace (h ++ tl) with (h ++ x ++ tl') by (unfold x, tl'; by rewrite take_drop).
    destruct (handled_total m [] k tl' w1 evs' (stream ms ++ frame m.1 m.2 ++ tl') c1 Ht1) as (w2 & c2 & E2 & _).
    exists w2, c2, (stream ms ++ frame m.1 m.2 ++ tl'). split.
    { eapply delivered_app; [exact Hd1|]. eapply delivered_pause, delivered_cons; [exact E2|constructor]. }
    erewrite syncd_loop_next; [|lia|eapply (syncd_msg_last m (stream ms) h (t0 :: t) x tl');
      [done|done|done|done|lia|done|exact Hf|lia|lia|exact E2]].
    apply syncd_loop_done. rewrite Hht, length_app. lia.
Qed.

(** ** Batches that lose a message *)

(** [torn ms m evs evs']: the script [evs] brings [ms] and [m] and then nothing
    for six calls.  Either the first call ends inside the header of [m], or the
    first calls find nothing and the next one everything. *)
Inductive torn (ms : list (Z * buf)) (m : Z * buf) : list RecvEv -> list RecvEv -> Prop :=
  | torn_header h1 h2 body evs evs' :
      frame m.1 m.2 = h1 ++ h2 ++ body -> (0 < length h1 < 4)%nat -> (length h1 + length h2 = 4)%nat ->
      feeds (h2 ++ body) 0 evs (replicate 6 Rx_again ++ evs') ->
      torn ms m (Rx_data (stream ms ++ h1) :: evs) evs'
  | torn_retry j evs' :
      Z.of_nat j <= SYNCD_RECV_RETRY_MAX ->
      torn ms m (Rx_again :: replicate j Rx_again ++ Rx_data (stream (ms ++ [m])) :: replicate 6 Rx_again ++ evs') evs'.

Definition counted_up (k : Z) (w : World) : World :=
  w <| w_g ::= fun g => g <| g_cnt ::= <[k := u32 (cnt k g + 1)]> |> |>.

Lemma pending_starved fuel n q pl z e w evs b c :
  (q < pl)%nat -> (6 <= fuel)%nat ->
  pending_loop fuel n q pl 0 z e (mkRx w (replicate 6 Rx_again ++ evs) b c)
  = Some (inl CNT_RX_RETRY_FAIL, mkRx (slept 5 w) evs b c).
Proof.
  intros Hq Hf. do 6 (destruct fuel as [|fuel]; [lia|]). cbn [replicate app].
  do 5 rewrite pending_again by (unfold SYNCD_RECV_RETRY_MAX; lia). rewrite !slept_slept.
  cbn [pending_loop]. by rewrite (proj2 (Nat.leb_gt pl q)) by lia.
Qed.

(** A script that brings fewer bytes than are waited for. *)
Lemma pending_short bs k evs evs' : feeds bs k evs evs' -> forall evs0, k = 0%nat -> evs' = replicate 6 Rx_again ++ evs0 ->
  forall p q x tl w c z e fuel n pl,
  length p = n -> (length q + length bs < pl)%nat -> length x = length bs -> (length bs + 6 <= fuel)%nat ->
  exists b, pending_loop fuel n (length q) pl 0 z e (mkRx w evs (p ++ q ++ x ++ tl) c)
    = Some (inl CNT_RX_RETRY_FAIL, mkRx (slept 5 w) evs0 b c).
Proof.
  induction 1 as [evs|d bs k evs evs' Hd Hf IH|d d' evs Hd Hd'|bs k evs evs' Hb Hf IH];
    intros evs0 Hk He p q x tl w c z e fuel n pl <- Hpl Hx Hfuel; [| |discriminate|discriminate].
  - subst evs. eexists. apply pending_starved; simpl in *; lia.
  - rewrite length_app in *. destruct fuel as [|fuel]; [lia|].
    assert (0 < length d)%nat by (destruct d; simpl; [done|lia]).
    erewrite (pending_data _ _ _ _ _ _ _ d); [|lia|done|apply rx_recv_all; [lia|]].
    2: { rewrite <- length_app, (app_assoc p q). apply wr_fragment. lia. }
    rewrite <- !app_assoc, (app_assoc q d), <- (length_app q d).
    apply IH; [done|done|done|rewrite length_app; lia|rewrite length_drop; lia|lia].
Qed.

Lemma feeds_one a evs : a <> [] -> feeds a 0 (Rx_data a :: evs) evs.
Proof. intros H. assert (F := feeds_chunk a [] 0 evs evs H (feeds_nil evs)). by rewrite app_nil_r in F. Qed.

Lemma feeds_split bs k evs evs' : feeds bs k evs evs' -> forall a b, k = 0%nat -> bs = a ++ b -> a <> [] ->
  exists mid, feeds a 0 evs mid /\ feeds b 0 mid evs'.
Proof.
  induction 1 as [evs|d bs k evs evs' Hd Hf IH|d d' evs Hd Hd'|bs k evs evs' Hb Hf IH]; intros a b Hk E Ha.
  - by destruct a.
  - subst k. apply app_eq_app in E as (l & [[-> ->]|[-> ->]]).
    + destruct l as [|l0 l].
      * exists evs. rewrite app_nil_r. split; [by apply feeds_one|done].
      * exists (Rx_data (l0 :: l) :: evs). split; [by constructor|]. by constructor.
    + destruct l as [|l0 l].
      * exists evs. rewrite app_nil_r. split; [by apply feeds_one|done].
      * destruct (IH (l0 :: l) b eq_refl eq_refl) as (mid & H1 & H2); [done|]. exists mid. split; [by constructor|done].
  - subst d. destruct b as [|b0 b].
    + exists (Rx_data d' :: evs). rewrite app_nil_r. split; [by constructor|constructor].
    + exists (Rx_data ((b0 :: b) ++ d') :: evs). rewrite <- app_assoc. split; by constructor.
  - discriminate.
Qed.

(** The loop ends when a header or a body does not come. *)
Lemma syncd_loop_header_fails fuel pos num r s k s' :
  (pos < num)%nat -> (num - pos < 4)%nat ->
  pending num (4 - (num - pos)) r CNT_HDR_READ_SOCK_ZERO_LEN CNT_HDR_READ_SOCK_ERR s = Some (inl k, s') ->
  syncd_loop_rx handle (S fuel) pos num r s
  = Some (MCLAG_ERROR, mkRx (counted_up k (rx_w s')) (rx_rd s') (rx_buf s') (rx_cnt s')).
Proof.
  intros H1 H2 E. cbn [syncd_loop_rx]. rewrite (proj2 (Nat.leb_gt _ _)) by lia. unfold hdr_sizeof.
  rewrite (proj2 (Nat.ltb_lt _ _)) by lia. rewrite (bind_Some _ _ _ _ _ E). by destruct s'.
Qed.

Lemma syncd_msg_fails pos num r s len k s' :
  rd8 0 (drop pos (rx_buf s)) = Some 1 -> rd16 2 (drop pos (rx_buf s)) = Some len -> 0 < len ->
  (num < pos + Z.to_nat len)%nat ->
  pending num (pos + Z.to_nat len - num) r CNT_TLV_READ_SOCK_ZERO_LEN CNT_TLV_READ_SOCK_ERR s = Some (inl k, s') ->
  syncd_msg handle pos num r s = Some (inl k, s').
Proof.
  intros Hv Hl H0 Hn E. unfold syncd_msg. erewrite bind_Some by reflexivity.
  rewrite (bind_Some _ _ _ _ _ (lift_Some _ _ _ Hv)), (bind_Some _ _ _ _ _ (lift_Some _ _ _ Hl)).
  rewrite (proj2 (Z.eqb_neq _ _)) by lia. cbn [negb Z.eqb Pos.eqb].
  rewrite (proj2 (Nat.ltb_lt _ _)) by lia. by rewrite (bind_Some _ _ _ _ _ E).
Qed.

Lemma syncd_loop_body_fails fuel pos num r r' s s1 k s' :
  (pos < num)%nat -> 0 <= k ->
  ((4 <= num - pos)%nat /\ s1 = s /\ r' = r
   \/ (num - pos < 4)%nat /\ pending num (4 - (num - pos)) r CNT_HDR_READ_SOCK_ZERO_LEN CNT_HDR_READ_SOCK_ERR s
                            = Some (inr r', s1)) ->
  syncd_msg handle pos num r' s1 = Some (inl k, s') ->
  syncd_loop_rx handle (S fuel) pos num r s
  = Some (MCLAG_ERROR, mkRx (counted_up k (rx_w s')) (rx_rd s') (rx_buf s') (rx_cnt s')).
Proof.
  intros Hp Hk Hh E. cbn [syncd_loop_rx]. rewrite (proj2 (Nat.leb_gt _ _)) by lia. unfold hdr_sizeof.
  assert (forall e, e = (if (num - pos <? 4)%nat
             then pending num (4 - (num - pos)) r CNT_HDR_READ_SOCK_ZERO_LEN CNT_HDR_READ_SOCK_ERR
             else mret (inr r)) -> e s = Some (inr r', s1)) as Hs.
  { intros e ->. destruct Hh as [(H1 & -> & ->)|[H1 H2]].
    - by rewrite (proj2 (Nat.ltb_ge _ _)) by lia.
    - by rewrite (proj2 (Nat.ltb_lt _ _)) by lia. }
  rewrite (bind_Some _ _ _ _ _ (Hs _ eq_refl)), (bind_Some _ _ _ _ _ E).
  unfold when. rewrite (proj2 (Z.leb_le _ _)) by lia. by destruct s'.
Qed.

Lemma torn_header_lost ms m h1 h2 body evs evs' w c b :
  takes ms w -> Forall msg_ok (ms ++ [m]) -> (length (stream (ms ++ [m])) <= recv_cap)%nat ->
  frame m.1 m.2 = h1 ++ h2 ++ body -> (0 < length h1 < 4)%nat -> (length h1 + length h2 = 4)%nat ->
  feeds (h2 ++ body) 0 evs (replicate 6 Rx_again ++ evs') ->
  exists w' c' b', delivered ms (w, c) (w', c')
    /\ syncd_msg_handler handle (mkRx w (Rx_data (stream ms ++ h1) :: evs) b c)
       = Some (MCLAG_ERROR, mkRx (counted_up CNT_RX_RETRY_FAIL w') evs' b' c').
Proof.
  intros Ha Hok Hcap Efr Hh1 Hh12 Hf. destruct (stream_ok_split _ ms m eq_refl Hok) as [Hms Hm].
  assert (Hlf := f_equal length Efr). rewrite frame_length, !length_app in Hlf.
  rewrite stream_app, length_app in Hcap. change (stream [m]) with (frame m.1 m.2 ++ []) in Hcap.
  rewrite app_nil_r, Efr, !length_app in Hcap.
  destruct (feeds_split _ _ _ _ Hf h2 body eq_refl eq_refl) as (mid & Hf1 & Hf2); [by destruct h2; simpl in *; [lia|]|].
  set (bs := stream ms ++ h1). set (tl := zeros (ICCP_MLAGSYNCD_RECV_MSG_BUFFER_SIZE - Z.of_nat (length bs))).
  assert (Hlb : length bs = (length (stream ms) + length h1)%nat) by (unfold bs; len).
  assert (Hbs : bs <> []) by (intros E; rewrite E in Hlb; simpl in Hlb; lia).
  assert (Hsl := stream_length ms). assert (Hc : (length bs <= recv_cap)%nat) by lia.
  assert (Htl : (4096 <= length tl)%nat).
  { assert (Hroom := recv_room bs Hc). unfold tl. rewrite zeros_length. unfold MCLAG_MAX_MSG_LEN in Hroom. lia. }
  rewrite <- (app_nil_r ms) in Ha.
  destruct (syncd_loop_complete ms [] Hms (length bs) [] (h1 ++ tl) (length bs) 0 w c evs Ha)
    as (w1 & c1 & Hd1 & _ & E1); [simpl; lia|lia|]. cbn [app length Nat.add] in E1.
  rewrite (syncd_msg_handler_first _ _ b _ _ _ (first_recv_data bs evs w c Hbs Hc)). fold tl. rewrite Nat2Z.id.
  unfold bs at 3. rewrite <- app_assoc, E1. clear E1.
  destruct (length bs - length ms)%nat as [|fuel] eqn:Efuel; [lia|].
  set (x := take (length h2) tl). set (tl' := drop (length h2) tl).
  assert (Ex : stream ms ++ h1 ++ tl = bs ++ [] ++ x ++ tl')
    by (unfold bs, x, tl'; rewrite take_drop; by rewrite <- app_assoc).
  set (y := take (length body) (h2 ++ tl')). set (tl2 := drop (length body) (h2 ++ tl')).
  assert (Hmax : (length body <= length (h2 ++ tl'))%nat).
  { destruct Hm as [_ Hm]. rewrite frame_length in Hm. unfold MCLAG_MAX_MSG_LEN in Hm.
    unfold tl'. rewrite length_app, length_drop. lia. }
  assert (Ey : bs ++ [] ++ h2 ++ tl' = bs ++ [] ++ y ++ tl2) by (unfold y, tl2; by rewrite take_drop).
  set (s1 := mkRx w1 mid (bs ++ [] ++ h2 ++ tl') c1).
  destruct (pending_short _ _ _ _ Hf2 evs' eq_refl eq_refl bs [] y tl2 w1 c1 CNT_TLV_READ_SOCK_ZERO_LEN
    CNT_TLV_READ_SOCK_ERR (length h2 + length body + 6) (length bs) (length h2 + length body)) as [b2 E2];
    [done|simpl; lia|unfold y; rewrite length_take; lia|lia|].
  rewrite <- Ey in E2. fold s1 in E2.
  exists (slept 5 w1), c1, b2. split.
  { replace ms with (ms ++ []) by apply app_nil_r. eapply delivered_app; [exact Hd1|].
    eapply delivered_pause. constructor. }
  eapply (syncd_loop_body_fails fuel _ _ 0 0 _ s1 _ (mkRx (slept 5 w1) evs' b2 c1)); [lia|done|right; split; [lia|]|].
  - rewrite Ex. unfold pending, s1.
    replace (4 - (length bs - length (stream ms)))%nat with (length (@nil byte) + length h2)%nat by (cbn; lia).
    erewrite (pending_feeds h2 0 evs mid Hf1 bs [] x tl');
      [by rewrite slept_0|done|done|unfold x; rewrite length_take; lia|cbn; lia|unfold SYNCD_RECV_RETRY_MAX; lia].
  - assert (Hdrop : drop (length (stream ms)) (rx_buf s1) = (h1 ++ h2) ++ tl').
    { unfold s1, bs. cbn [rx_buf app]. rewrite <- !app_assoc. apply drop_app_length. }
    assert (Hrd : forall off n, (off + n <= 4)%nat ->
              rd off n ((h1 ++ h2) ++ tl') = rd off n (frame m.1 m.2 ++ [])).
    { intros off n Hon. rewrite Efr, (app_assoc h1 h2), <- (app_assoc (h1 ++ h2)).
      rewrite (rd_app_l off n (h1 ++ h2) tl'), (rd_app_l off n (h1 ++ h2) (body ++ [])) by (rewrite length_app; lia). done. }
    assert (Hml := msg_ok_len m Hm).
    eapply (syncd_msg_fails _ _ _ _ (4 + Z.of_nat (length m.2))).
    + rewrite Hdrop. unfold rd8. rewrite Hrd by lia. apply frame_ver.
    + rewrite Hdrop. unfold rd16. rewrite Hrd by lia. by apply frame_len.
    + lia.
    + lia.
    + unfold pending. replace (length (stream ms) + Z.to_nat (4 + Z.of_nat (length m.2)) - length bs)%nat
        with (length h2 + length body)%nat by lia. exact E2.
Qed.

Lemma torn_retry_lost ms m j evs' w c b :
  takes ms w -> Forall msg_ok (ms ++ [m]) -> (length (stream (ms ++ [m])) <= recv_cap)%nat ->
  Z.of_nat j <= SYNCD_RECV_RETRY_MAX ->
  exists w' c' b', delivered ms (w, c) (w', c')
    /\ syncd_msg_handler handle
         (mkRx w (Rx_again :: replicate j Rx_again ++ Rx_data (stream (ms ++ [m])) :: replicate 6 Rx_again ++ evs') b c)
       = Some (MCLAG_ERROR, mkRx (counted_up CNT_RX_RETRY_FAIL w') evs' b' c').
Proof.
  intros Ha Hok Hcap Hj. destruct (stream_ok_split _ ms m eq_refl Hok) as [Hms Hm].
  set (bs := stream (ms ++ [m])) in *.
  assert (Ebs : bs = stream ms ++ frame m.1 m.2) by (unfold bs; rewrite stream_app; cbn; by rewrite app_nil_r).
  set (tl := zeros (ICCP_MLAGSYNCD_RECV_MSG_BUFFER_SIZE - Z.of_nat (length bs))).
  assert (Hlb : length bs = (length (stream ms) + (4 + length m.2))%nat) by (rewrite Ebs, length_app, frame_length; lia).
  assert (Hbs : bs <> []) by (intros E; rewrite E in Hlb; simpl in Hlb; lia).
  assert (Hsl := stream_length ms). assert (Hml := msg_ok_len m Hm).
  set (rest := replicate 6 Rx_again ++ evs').
  apply (takes_slept _ _ j) in Ha. rewrite <- (app_nil_r ms) in Ha.
  destruct (syncd_loop_complete ms [] Hms (length bs - 1) [] (frame m.1 m.2 ++ tl)
    (length bs - 1) 0 (slept j w) c rest Ha) as (w1 & c1 & Hd1 & _ & E1); [simpl; lia|lia|]. cbn [app length Nat.add] in E1.
  assert (E0 : first_recv (mkRx w (Rx_again :: replicate j Rx_again ++ Rx_data bs :: rest)
                 (zeros ICCP_MLAGSYNCD_RECV_MSG_BUFFER_SIZE) c)
               = Some (inr (-1 + Z.of_nat (length bs)), mkRx (slept j w) rest (bs ++ tl) c)).
  { unfold first_recv. rewrite (bind_Some _ _ _ _ _ (rx_recv_again _ _ _ _ _ _)).
    apply first_retry_data; unfold SYNCD_RECV_RETRY_MAX in *; [done|done|lia|lia]. }
  rewrite (syncd_msg_handler_first _ _ b _ _ _ E0).
  replace (Z.to_nat (-1 + Z.of_nat (length bs))) with (length bs - 1)%nat by lia.
  replace (bs ++ tl) with (stream ms ++ frame m.1 m.2 ++ tl) by (by rewrite Ebs, <- app_assoc). rewrite E1. clear E1.
  destruct (length bs - 1 - length ms)%nat as [|fuel] eqn:Efuel; [lia|].
  exists (slept 5 w1), c1, (stream ms ++ frame m.1 m.2 ++ tl). split.
  { apply (delivered_pause j). replace ms with (ms ++ []) by apply app_nil_r. eapply delivered_app; [exact Hd1|].
    eapply delivered_pause. constructor. }
  unfold rest. destruct (decide (length m.2 = 0%nat)) as [Eb|Eb].
  - apply (syncd_loop_header_fails fuel _ _ 0 _ _ (mkRx (slept 5 w1) evs' (stream ms ++ frame m.1 m.2 ++ tl) c1)); [lia|lia|].
    apply pending_starved; lia.
  - eapply (syncd_loop_body_fails fuel _ _ 0 0 _ _ _ (mkRx (slept 5 w1) evs' (stream ms ++ frame m.1 m.2 ++ tl) c1));
      [lia|done|left; split; [lia|done]|].
    eapply (syncd_msg_fails _ _ _ _ (4 + Z.of_nat (length m.2))); cbn [rx_buf]; rewrite ?drop_app_length.
    + apply frame_ver.
    + by apply frame_len.
    + lia.
    + lia.
    + apply pending_starved; lia.
Qed.

(** C39. A torn batch costs its last message: the function of its type never sees
    it, its bytes are gone, and the call reports an error. *)
Theorem torn_message_lost ms m evs evs' w c b :
  takes ms w -> Forall msg_ok (ms ++ [m]) -> (length (stream (ms ++ [m])) <= recv_cap)%nat ->
  torn ms m evs evs' ->
  exists w' c' b', delivered ms (w, c) (w', c')
    /\ syncd_msg_handler handle (mkRx w evs b c)
       = Some (MCLAG_ERROR, mkRx (counted_up CNT_RX_RETRY_FAIL w') evs' b' c').
Proof.
  intros Ha Hok Hcap [h1 h2 body evs0 evs1 Efr Hh1 Hh12 Hf|j evs0 Hj].
  - by eapply torn_header_lost.
  - by apply torn_retry_lost.
Qed.
End Stream.
