(* ===== verification/Lifecycle.v ===== *)
(** CSMs and local interfaces come and go: [system.c], the life cycle of
    interfaces in [port.c], VLAN membership ahead of its interface
    ([iccp_ifm.c]), port channels and their members ([app_csm.c],
    [iccp_netlink.c]), attaching and detaching them ([iccp_cli.c]) and the end of
    a CSM ([iccp_csm.c], [mlacp_fsm.c]).

    All of it runs on [World].  Freeing an object takes it out of its heap;
    whatever reaches it later is undefined.  Loops over a list whose body unlinks
    elements run over the list as it was: [LIST_REMOVE] leaves the link of the
    element it takes out, and the elements that only such a loop still sees are
    ones on which its body does nothing. *)

From Stdlib Require Import ZArith Lia.
From stdpp Require Import base list gmap numbers option strings.
From coqutil Require Import Byte Word.LittleEndianList.
From S2P Require Import Prelude CBuf State MsgFormat Wire CsmMsg Csm Port SyncPrepare Receive Syncd.
From S2P Require Import AppCsm MacTable Kernel Senders Neigh LinkMac Isolation LinkState SyncUpdate MlacpFsm Session.

(** ** Addresses *)

(** The null pointer: the address of no object. *)
Definition no_csm : ptr := 0%nat.

Definition malloc (used : gset ptr) : ptr := fresh ({[no_csm]} ∪ used).

Lemma malloc_new X : (malloc X ∉ X) /\ malloc X <> no_csm.
Proof. assert (H := is_fresh ({[no_csm]} ∪ X)). unfold malloc. set_solver. Qed.

(** Code that has no CSM at hand. *)
Definition global {A} (m : M CS A) : M World A := fun w =>
  r ← m (mkCS zero_csm (w_g w) (w_lifs w) (w_sys w) no_csm (w_csms w));
  Some (r.1, w <| w_csms := cs_csms r.2 |> <| w_g := cs_g r.2 |>
               <| w_lifs := cs_lifs r.2 |> <| w_sys := cs_sys r.2 |>).

Definition the_sys : M World System := gets w_sys.
Definition find_by_name (name : buf) : M World (option ptr) := global (local_if_find_by_name name).
Definition find_by_ifindex (ifindex : Z) : M World (option ptr) := global (local_if_find_by_ifindex ifindex).

Definition free_lif (l : ptr) : M World unit := fun w =>
  _ ← w_lifs w !! l; Some (tt, w <| w_lifs ::= delete l |>).
Definition free_csm (c : ptr) : M World unit := fun w =>
  _ ← w_csms w !! c; Some (tt, w <| w_csms ::= delete c |>).

(** [LIST_REMOVE]: an element that is on no list has no links to follow. *)
Definition list_unlink (l : ptr) (ls : list ptr) : option (list ptr) :=
  if bool_decide (l ∈ ls) then Some (list_remove l ls) else None.

(** ** CSMs ([system.c]) *)

Definition MLACP_SYSCONF_NODEID_MSB_MASK : Z := 0x80.
Definition MLACP_SYSCONF_NODEID_NODEID_MASK : Z := 0x70.
Definition MLACP_SYSCONF_NODEID_FREE_MASK : Z := 0x0F.

(** [inet_addr] of the empty [sender_ip] is [INADDR_NONE]. *)
Definition new_node_id (rand : Z) : Z :=
  Z.lor (Z.lor MLACP_SYSCONF_NODEID_MSB_MASK
           (Z.land (Z.shiftl (Z.shiftr (2 ^ 32 - 1) 24) 4) MLACP_SYSCONF_NODEID_NODEID_MASK))
    (Z.rem rand MLACP_SYSCONF_NODEID_FREE_MASK).

(** A CSM that was just allocated, after [iccp_csm_status_reset] with [all] set:
    all zero, then the values that are not.  [rand] is what [rand()] returns. *)
Definition iccp_csm_init (rand : Z) : CSM :=
  set_MLACP (fun m => ml_forget (ml_reset m) <| ml_node_id := new_node_id rand |>)
    (csm_reset (zero_csm <| csm_app_csm ::= app_reset |>))
  <| csm_keepalive_time := CONNECT_INTERVAL_SEC |> <| csm_session_timeout := HEARTBEAT_TIMEOUT_SEC |>.

Definition system_create_csm (rand : Z) : M World ptr := fun w =>
  let c := malloc (dom (w_csms w)) in
  Some (c, w <| w_csms ::= <[c := iccp_csm_init rand]> |> <| w_sys ::= fun y => y <| sys_csm_list ::= cons c |> |>).

Fixpoint csm_by (P : CSM -> bool) (cs : list ptr) : M World (option ptr) :=
  match cs with
  | [] => mret None
  | c :: cs' => csm ← get_csm c; if P csm then mret (Some c) else csm_by P cs'
  end.
Definition find_csm (P : CSM -> bool) : M World (option ptr) :=
  y ← the_sys; csm_by P (sys_csm_list y).

Definition system_get_csm_by_peer_ip (peer_ip : buf) : M World (option ptr) :=
  find_csm (fun c => streq (csm_peer_ip c) peer_ip).
Definition system_get_csm_by_peer_ifname (ifname : buf) : M World (option ptr) :=
  find_csm (fun c => streq ifname (csm_peer_itf_name c)).
Definition system_get_csm_by_mlacp_id (id : Z) : M World (option ptr) :=
  find_csm (fun c => ml_id (MLACP c) =? id).

(** ** Interfaces ([port.c]) *)

Definition local_if_init : LocalInterface :=
  mkLif 0 IF_T_UNKNOW (replicate MAX_L_PORT_NAME Byte.x00) null_mac null_mac PORT_STATE_DOWN 0 32
    [0; 0; 0; 0] 0 [0; 0; 0; 0] 0 0 null_mac 0 (zeros 512) 0 (-1) 1 MLACP_STATE_INIT 0 0 None 1 0
    false false 0 0 [].

Definition vlan_name (vid : Z) : buf := VLAN_PREFIX ++ dec vid.

Definition local_if_add_vlan (l : ptr) (vid : Z) : M World unit :=
  i ← w_get_lif l;
  itf ← match vlan_find vid (lif_vlan_tree i) with
        | Some _ => mret None
        | None => find_by_name (vlan_name vid)
        end;
  w_set_lif l (lif_add_vlan vid itf);;
  i ← w_get_lif l;
  match vlan_find vid (lif_vlan_tree i) ≫= vlan_itf with
  | Some p => when (truth (lif_is_peer_link i)) (global (update_vlan_if_mac_on_standby p))
  | None => mret tt
  end.

(** *** VLAN members whose interface does not exist yet ([iccp_ifm.c]) *)

Definition pending_named (name : buf) (p : buf * list VLAN_ID) : bool := streq p.1 name.

Definition find_pending_vlan_mbr_if (name : buf) : M World (option (buf * list VLAN_ID)) :=
  y ← the_sys; mret (find_first (pending_named name) (sys_pending_vlan_mbr_if_list y)).

Definition add_pending_vlan_mbr (vid : Z) (t : list VLAN_ID) : list VLAN_ID :=
  match vlan_find vid t with Some _ => t | None => vlan_insert (mkVlan vid 0 None) t end.
Definition del_pending_vlan_mbr (vid : Z) (t : list VLAN_ID) : list VLAN_ID :=
  match vlan_find vid t with Some _ => vlan_remove vid t | None => t end.

Definition on_pending (name : buf) (f : list VLAN_ID -> list VLAN_ID) : M World unit :=
  set_sys (fun y => y <| sys_pending_vlan_mbr_if_list ::=
    update_first (pending_named name) (fun p => (p.1, f p.2)) |>).

Definition update_pending_vlan_mbr (mbr_if_name : buf) (vlan_id : Z) (add_flag : bool) : M World unit :=
  m ← find_pending_vlan_mbr_if mbr_if_name;
  let stored := carray MAX_L_PORT_NAME mbr_if_name in
  if bool_decide (m = None) && negb add_flag then mret tt
  else
    when (bool_decide (m = None))
      (set_sys (fun y => y <| sys_pending_vlan_mbr_if_list ::= cons (stored, []) |>));;
    (* the entry found, or the new one at the head of the list *)
    let name := match m with Some p => p.1 | None => stored end in
    on_pending name ((if add_flag then add_pending_vlan_mbr else del_pending_vlan_mbr) (u16 vlan_id)).

Definition move_pending_vlan_mbr_to_lif (l : ptr) : M World unit :=
  i ← w_get_lif l;
  m ← find_pending_vlan_mbr_if (lif_name i);
  match m with
  | None => mret tt
  | Some p =>
      foreach (fun v => local_if_add_vlan l (vlan_vid v);;
                        on_pending (lif_name i) (del_pending_vlan_mbr (vlan_vid v))) p.2;;
      set_sys (fun y => y <| sys_pending_vlan_mbr_if_list ::= remove_first (pending_named (lif_name i)) |>)
  end.

Definition del_all_pending_vlan_mbr_ifs : M World unit :=
  set_sys (fun y => y <| sys_pending_vlan_mbr_if_list := [] |>).

(** ** Members of a port channel ([iccp_netlink.c], [app_csm.c]) *)

Section Team.
(** The members of a team device as the kernel lists them: index, and whether the
    member was removed.  [None]: the request fails. *)
Variable team_ports : Z -> option (list (Z * bool)).

Definition bind_local_if : ptr -> ptr -> M World Z :=
  mlacp_bind_local_if (fun p _ => global (update_if_ipmac_on_standby p)).

(** [strcat] of the names, separated by commas, into a buffer of 512. *)
Fixpoint member_names (ls : list ptr) (po_id : Z) (st : buf * nat) : M World (buf * nat) :=
  match ls with
  | [] => mret st
  | l :: ls' =>
      i ← w_get_lif l;
      if (lif_type i =? IF_T_PORT) && (lif_po_id i =? po_id) then
        st ← lift (if strlen st.1 =? 0 then Some st else snprintf_at [comma] st);
        st ← lift (snprintf_at (cstr (lif_name i)) st);
        member_names ls' po_id st
      else member_names ls' po_id st
  end.

(** The list of names; whether it changed. *)
Definition update_member_buf (l : ptr) (ls : list ptr) (po_id : Z) : M World bool :=
  st ← member_names ls po_id (zeros 512, 0%nat);
  i ← w_get_lif l;
  if streq st.1 (lif_portchannel_member_buf i) then mret false
  else w_set_lif l (fun i => i <| lif_portchannel_member_buf := take 511 st.1 ++ [Byte.x00] |>);; mret true.

(** One member of a port channel of the CSM [c]. *)
Definition mclag_member (c : ptr) (po_id : Z) (p : Z * bool) : M World unit :=
  om ← find_by_ifindex p.1;
  match om with
  | None => mret tt
  | Some m =>
      i ← w_get_lif m;
      if p.2 && negb (lif_po_id i =? -1) then
        w_set_lif m (fun i => i <| lif_po_id := -1 |>);; mlacp_unbind_local_if m;; mret tt
      else when (lif_po_id i =? -1)
        (w_set_lif m (fun i => i <| lif_po_id := po_id |>);; bind_local_if c m;; mret tt)
  end.

(** One member of the peer link [l] of the CSM [c]. *)
Definition peer_link_member (c l : ptr) (po_id : Z) (p : Z * bool) : M World unit :=
  om ← find_by_ifindex p.1;
  match om with
  | None => mret tt
  | Some m =>
      csm ← get_csm c;
      i ← w_get_lif m;
      let exchange := bool_decide (ml_current_state (MLACP csm) = MLACP_STATE_EXCHANGE) in
      if p.2 && negb (lif_po_id i =? -1) then
        w_set_lif m (fun i => i <| lif_po_id := -1 |>);;
        i ← w_get_lif m;
        when exchange (global (set_peerlink_mlag_port_learn i 1))
      else when (lif_po_id i =? -1)
        (w_set_lif m (fun i => i <| lif_po_id := po_id |>);;
         i ← w_get_lif l;
         when exchange (global (set_peerlink_mlag_port_learn i 0)))
  end.

Definition iccp_get_portchannel_member_list_handler (ifindex : Z) (ports : list (Z * bool)) : M World unit :=
  ol ← find_by_ifindex ifindex;
  match ol with
  | None => mret tt
  | Some l =>
      i ← w_get_lif l;
      if negb (lif_type i =? IF_T_PORT_CHANNEL) then mret tt
      else match lif_csm i with
      | Some c =>
          foreach (mclag_member c (lif_po_id i)) ports;;
          csm ← get_csm c;
          changed ← update_member_buf l (ml_lif_list (MLACP csm)) (lif_po_id i);
          when ((changed : bool) && bool_decide (ml_current_state (MLACP csm) = MLACP_STATE_EXCHANGE))
            (with_csm c update_peerlink_isolate_from_all_csm_lif)
      | None =>
          if negb (truth (lif_is_peer_link i)) then mret tt
          else
            oc ← find_csm (fun c => bool_decide (csm_peer_link_if c = Some l));
            match oc with
            | None => mret tt
            | Some c =>
                foreach (peer_link_member c l (lif_po_id i)) ports;;
                y ← the_sys;
                update_member_buf l (sys_lif_list y) (lif_po_id i);; mret tt
            end
      end
  end.

(** The answer of the kernel is for the index that was asked for. *)
Definition iccp_get_port_member_list (l : ptr) : M World unit :=
  i ← w_get_lif l;
  match team_ports (lif_ifindex i) with
  | None => mret tt
  | Some ports => iccp_get_portchannel_member_list_handler (lif_ifindex i) ports
  end.

Definition mlacp_bind_port_channel_to_csm (c : ptr) (ifname : buf) : M World unit :=
  ol ← find_by_name ifname;
  match ol with
  | None => mret tt
  | Some l => bind_local_if c l;; iccp_get_port_member_list l;; with_csm c (mlacp_mlag_link_add_handler l)
  end.

(** ** Creation *)

Fixpoint from_digit (s : buf) : buf :=
  match s with
  | c :: s' => if bool_decide (digit c = None) then from_digit s' else s
  | [] => []
  end.

(** The peer link of a CSM, or an interface it has been waiting for. *)
Fixpoint claim_lif (l : ptr) (ifname : buf) (cs : list ptr) : M World unit :=
  match cs with
  | [] => mret tt
  | c :: cs' =>
      csm ← get_csm c;
      i ← w_get_lif l;
      if streq (lif_name i) (csm_peer_itf_name csm) then
        w_set_lif l (fun i => i <| lif_is_peer_link := 1 |>);;
        set_csm c (fun x => x <| csm_peer_link_if := Some l |>);;
        with_csm c (set_peerlink_learn_kernel 0)
      else
        foreach (fun cif => when (streq ifname cif) (mlacp_bind_port_channel_to_csm c ifname))
          (csm_if_bind_list csm);;
        claim_lif l ifname cs'
  end.

(** The object, up to the type check; [None]: a port channel without number. *)
Definition new_lif (ifindex : Z) (ifname : buf) (type state : Z) : option LocalInterface :=
  let i := local_if_init <| lif_ifindex := ifindex |> <| lif_type := type |> <| lif_state := state |> in
  if type =? IF_T_PORT_CHANNEL then
    match digits None (from_digit (cstr ifname)) with
    | None => None
    | Some n => Some (i <| lif_po_id := s32 n |> <| lif_po_active := of_bool (state =? PORT_STATE_UP) |>
                        <| lif_name := carray MAX_L_PORT_NAME ifname |>)
    end
  else Some (i <| lif_name := carray MAX_L_PORT_NAME ifname |>).

Definition known_type (type : Z) : bool :=
  (type =? IF_T_PORT_CHANNEL) || (type =? IF_T_PORT) || (type =? IF_T_VLAN) || (type =? IF_T_VXLAN).

Definition local_if_create (ifindex : Z) (ifname : buf) (type state : Z) : M World (option ptr) :=
  old ← (if ifindex >? 0 then find_by_ifindex ifindex else mret None);
  match old with
  | Some l => mret (Some l)
  | None =>
      w ← get;
      let l := malloc (dom (w_lifs w)) in
      match new_lif ifindex ifname type state with
      | None => modify (fun w => w <| w_lifs ::= <[l := local_if_init]> |>);; mret None
      | Some i =>
          if negb (known_type type) then mret None
          else
            unique ← (if type =? IF_T_VLAN then global (is_unique_ip_configured (lif_name i)) else mret false);
            modify (fun w => w <| w_lifs ::= <[l := if unique : bool then i <| lif_is_l3_proto_enabled := true |> else i]> |>);;
            set_sys (fun y => y <| sys_lif_list ::= cons l |>);;
            move_pending_vlan_mbr_to_lif l;;
            y ← the_sys;
            claim_lif l ifname (sys_csm_list y);;
            mret (Some l)
      end
  end.

Definition IF_OPER_DOWN : Z := 2.

Definition vlan_mbrship_change_handler (vlan_id : Z) (mbr_if_name : buf) (add_flag : bool) : M World unit :=
  ol ← find_by_name mbr_if_name;
  match ol with
  | None => update_pending_vlan_mbr mbr_if_name vlan_id add_flag
  | Some l =>
      if add_flag then
        ov ← find_by_name (vlan_name (s32 vlan_id));
        match ov with
        | None => local_if_create (-1) (vlan_name (s32 vlan_id)) IF_T_VLAN IF_OPER_DOWN;; mret tt
        | Some _ => mret tt
        end;;
        local_if_add_vlan l (u16 vlan_id)
      else w_set_lif l (local_if_del_vlan (u16 vlan_id))
  end.
End Team.

(** ** Leaving a CSM ([iccp_cli.c]) *)

Definition PORTCHANNEL_PREFIX : buf := str "PortChannel".

Definition on_lif_list (c : ptr) (f : list ptr -> option (list ptr)) : M World unit :=
  csm ← get_csm c;
  ls ← lift (f (ml_lif_list (MLACP csm)));
  set_csm c (set_MLACP (fun m => m <| ml_lif_list := ls |>)).

Definition iccp_cli_detach_mclag_domain_to_port_channel (ifname : buf) : M World Z :=
  if negb (starts_with PORTCHANNEL_PREFIX (cstr ifname)) then mret MCLAG_ERROR
  else
    ol ← find_by_name ifname;
    match ol with
    | None => mret MCLAG_ERROR
    | Some l =>
        i ← w_get_lif l;
        match lif_csm i with
        | None => mret MCLAG_ERROR
        | Some c =>
            if negb (lif_type i =? IF_T_PORT_CHANNEL) || (lif_po_id i <=? 0) then mret MCLAG_ERROR
            else
              global (recover_if_ipmac_on_standby l);;
              with_csm c (mlacp_mlag_intf_detach_handler l);;
              i ← w_get_lif l;
              mlacp_unbind_local_if l;;
              csm ← get_csm c;
              foreach (fun p =>
                pi ← w_get_lif p;
                when ((lif_type pi =? IF_T_PORT) && (lif_po_id pi =? lif_po_id i))
                  (mlacp_unbind_local_if p;; mret tt)) (ml_lif_list (MLACP csm));;
              set_csm c (fun x => x <| csm_if_bind_list ::= filter (fun n => streq ifname n = false) |>);;
              mret 0
        end
    end.

(** ** Destruction ([port.c]) *)

Definition local_if_vlan_remove (l : ptr) : M World unit :=
  i ← w_get_lif l;
  when (lif_type i =? IF_T_VLAN)
    (y ← the_sys;
     foreach (fun p =>
       pi ← w_get_lif p;
       when (negb (lif_type pi =? IF_T_VLAN))
         (w_set_lif p (fun x => x <| lif_vlan_tree ::=
            vlan_update (u16 (vlan_vid_of i)) (fun v => v <| vlan_itf := None |>) |>))) (sys_lif_list y)).

Definition local_if_po_remove (l : ptr) : M World unit :=
  i ← w_get_lif l;
  match lif_csm i with
  | None => mret tt
  | Some c =>
      csm ← get_csm c;
      foreach (fun p =>
        pi ← w_get_lif p;
        i ← w_get_lif l;
        when ((lif_type pi =? IF_T_PORT) && (lif_po_id pi =? lif_po_id i))
          (mlacp_unbind_local_if p;; mret tt)) (ml_lif_list (MLACP csm))
  end.

Definition local_if_remove (l : ptr) : M World unit :=
  mlacp_unbind_local_if l;; w_set_lif l (fun i => i <| lif_po_id := -1 |>).

Definition local_if_destroy (ifname : buf) : M World unit :=
  ol ← find_by_name ifname;
  match ol with
  | None => mret tt
  | Some l =>
      i ← w_get_lif l;
      (if lif_type i =? IF_T_VLAN then local_if_vlan_remove l
       else if lif_type i =? IF_T_PORT_CHANNEL then local_if_po_remove l
       else local_if_remove l);;
      oc ← system_get_csm_by_peer_ifname ifname;
      match oc with
      | Some c => with_csm c scheduler_session_disconnect_handler
      | None => mret tt
      end;;
      i ← w_get_lif l;
      exchange ← match lif_csm i with
                 | None => mret false
                 | Some c => csm ← get_csm c; mret (bool_decide (ml_current_state (MLACP csm) = MLACP_STATE_EXCHANGE))
                 end;
      set_sys (fun y => y <| sys_lif_list ::= list_remove l |>);;
      match lif_csm i with
      | None => mret tt
      | Some c => on_lif_list c (list_unlink l)
      end;;
      set_sys (fun y => y <| sys_lif_purge_list ::= cons l |>);;
      match lif_csm i with
      | Some c => when (exchange : bool) (set_csm c (set_MLACP (fun m => m <| ml_lif_purge_list ::= cons l |>)))
      | None => mret tt
      end
  end.

Definition local_if_mlacp_purge_del (l : ptr) : M World unit :=
  i ← w_get_lif l;
  match lif_csm i with
  | None => mret tt
  | Some c => get_csm c;; set_csm c (set_MLACP (fun m => m <| ml_lif_purge_list ::= list_remove l |>))
  end.

Definition local_if_finalize (l : ptr) : M World unit :=
  w_set_lif l local_if_del_all_vlan;; free_lif l.

(** [while (!LIST_EMPTY(&(sys->lif_purge_list)))] *)
Definition purge_one_lif (l : ptr) : M World unit :=
  w_get_lif l;;
  set_sys (fun y => y <| sys_lif_purge_list ::= tail |>);;
  local_if_mlacp_purge_del l;;
  local_if_finalize l.

Definition local_if_purge_clear : M World unit :=
  y ← the_sys;
  foreach purge_one_lif (sys_lif_purge_list y);;
  set_sys (fun y => y <| sys_lif_purge_list := [] |>).

(** ** The end of a CSM *)

(** [LIF_QUEUE_REINIT] touches every interface it unlinks; [is_arp_accept] is
    never set. *)
Definition mlacp_finalize : M CS unit :=
  clear_queues;;
  csm ← the_csm;
  on_mlacp (fun m => m <| ml_arp_list := [] |> <| ml_ndisc_list := [] |> <| ml_mac_rb := [] |>);;
  foreach (fun l => get_lif l;; mret tt) (ml_lif_list (MLACP csm));;
  foreach (fun l => get_lif l;; mret tt) (ml_lif_purge_list (MLACP csm));;
  on_mlacp (fun m => m <| ml_lif_list := [] |> <| ml_lif_purge_list := [] |> <| ml_pif_list := [] |>).

Definition app_csm_finalize : M CS unit := mlacp_finalize.

(** [iccp_csm_msg_list_finalize] and the bind list are parts of the object. *)
Definition iccp_csm_finalize (c : ptr) : M World unit :=
  y ← the_sys;
  csm ← get_csm c;
  when (negb (sys_warmboot_exit y =? WARM_REBOOT))
    (match csm_peer_link_if csm with
     | None => mret tt
     | Some l =>
         i ← w_get_lif l;
         with_csm c (set_peerlink_mlag_port_learn i 1;; set_peerlink_learn_kernel 1)
     end);;
  with_csm c scheduler_session_disconnect_handler;;
  csm ← get_csm c;
  foreach (fun l => i ← w_get_lif l; iccp_cli_detach_mclag_domain_to_port_channel (lif_name i);; mret tt)
    (ml_lif_list (MLACP csm));;
  with_csm c app_csm_finalize;;
  csm ← get_csm c;
  foreach (fun l => w_set_lif l (fun i => i <| lif_csm := None |>)) (ml_lif_list (MLACP csm));;
  set_sys (fun y => y <| sys_csm_list ::= list_remove c |>);;
  free_csm c.

(** The objects that [system_finalize] releases; the sockets and strings of the
    instance are left out. *)
Definition system_finalize : M World unit :=
  y ← the_sys;
  foreach (fun c =>
    csm ← get_csm c;
    when (negb (sys_warmboot_exit y =? WARM_REBOOT)) (global (mlacp_link_del_iccp_info (csm_mlag_id csm));; mret tt);;
    iccp_csm_finalize c) (sys_csm_list y);;
  y ← the_sys;
  foreach local_if_finalize (sys_lif_list y);;
  foreach local_if_finalize (sys_lif_purge_list y);;
  set_sys (fun y => y <| sys_lif_list := [] |> <| sys_lif_purge_list := [] |>);;
  del_all_pending_vlan_mbr_ifs;;
  set_sys (fun y => y <| sys_unq_ip_if_list := [] |>).
