(* ===== verification/LifecycleSpec.v ===== *)
(** VLAN members that are announced before their interface exists. *)

From Stdlib Require Import ZArith Lia.
From stdpp Require Import base list gmap numbers option strings.
From coqutil Require Import Byte Word.LittleEndianList.
From S2P Require Import Prelude CBuf State MsgFormat Wire CsmMsg Csm Port SyncPrepare Receive Syncd.
From S2P Require Import AppCsm MacTable Kernel Senders Neigh LinkMac Isolation LinkState SyncUpdate MlacpFsm Session.
From S2P Require Import Lifecycle.

(** ** Looking up an interface *)

Definition lifs_live (w : World) : Prop := forall l, l ∈ sys_lif_list (w_sys w) -> is_Some (w_lifs w !! l).

Definition lif_sat (P : LocalInterface -> bool) (lifs : gmap ptr LocalInterface) (l : ptr) : bool :=
  match lifs !! l with Some i => P i | None => false end.

Lemma global_same {A} (m : M CS A) a w :
  let s := mkCS zero_csm (w_g w) (w_lifs w) (w_sys w) no_csm (w_csms w) in
  m s = Some (a, s) -> global m w = Some (a, w).
Proof. intros s E. unfold global. fold s. rewrite E. by destruct w. Qed.

Lemma lif_by_name_run n ls s : (forall l, l ∈ ls -> is_Some (cs_lifs s !! l)) ->
  lif_by_name n ls s = Some (find_first (lif_sat (fun i => streq (lif_name i) n) (cs_lifs s)) ls, s).
Proof.
  induction ls as [|l ls IH]; intros H; [done|]. destruct (H l) as [i Ei]; [set_solver|].
  cbn [lif_by_name find_first]. rewrite (bind_Some _ _ _ i s) by (unfold get_lif; by rewrite Ei).
  unfold lif_sat at 1. rewrite Ei. destruct (streq _ _); [done|]. apply IH. set_solver.
Qed.
Lemma lif_by_ifindex_run n ls s : (forall l, l ∈ ls -> is_Some (cs_lifs s !! l)) ->
  lif_by_ifindex n ls s = Some (find_first (lif_sat (fun i => lif_ifindex i =? n) (cs_lifs s)) ls, s).
Proof.
  induction ls as [|l ls IH]; intros H; [done|]. destruct (H l) as [i Ei]; [set_solver|].
  cbn [lif_by_ifindex find_first]. rewrite (bind_Some _ _ _ i s) by (unfold get_lif; by rewrite Ei).
  unfold lif_sat at 1. rewrite Ei. destruct (_ =? _); [done|]. apply IH. set_solver.
Qed.

Definition named (n : buf) (w : World) : option ptr :=
  find_first (lif_sat (fun i => streq (lif_name i) n) (w_lifs w)) (sys_lif_list (w_sys w)).
Definition indexed (n : Z) (w : World) : option ptr :=
  find_first (lif_sat (fun i => lif_ifindex i =? n) (w_lifs w)) (sys_lif_list (w_sys w)).

Lemma find_by_name_run n w : lifs_live w -> find_by_name n w = Some (named n w, w).
Proof.
  intros H. apply global_same. unfold local_if_find_by_name. erewrite bind_Some by reflexivity.
  by apply lif_by_name_run.
Qed.
Lemma find_by_ifindex_run n w : lifs_live w -> find_by_ifindex n w = Some (indexed n w, w).
Proof.
  intros H. apply global_same. unfold local_if_find_by_ifindex. erewrite bind_Some by reflexivity.
  by apply lif_by_ifindex_run.
Qed.

(** ** VLANs of an interface that does not exist *)

(** Is [v] a member after the updates (VLAN, addition or removal)? *)
Definition member_after (us : list (Z * bool)) (v : Z) : bool :=
  foldl (fun b u => if u.1 =? v then u.2 else b) false us.

(** The pending tree: [None] until the first addition. *)
Definition pend_step (o : option (list VLAN_ID)) (u : Z * bool) : option (list VLAN_ID) :=
  match o with
  | None => if u.2 then Some (add_pending_vlan_mbr u.1 []) else None
  | Some t => Some ((if u.2 then add_pending_vlan_mbr else del_pending_vlan_mbr) u.1 t)
  end.

Definition tree_of (o : option (list VLAN_ID)) : list VLAN_ID := default [] o.

Lemma add_pending_spec v t : sorted_vids t ->
  sorted_vids (add_pending_vlan_mbr v t) /\ forall x, x ∈ vids (add_pending_vlan_mbr v t) <-> x = v \/ x ∈ vids t.
Proof.
  intros Hs. unfold add_pending_vlan_mbr. assert (H := vlan_find_spec v t). destruct (vlan_find v t) as [y|].
  - destruct H as [Hy <-]. split; [done|]. intros x. split; [by right|]. intros [->|]; [|done].
    by apply (list_elem_of_fmap_2 vlan_vid).
  - split; [by apply vlan_insert_sorted|]. intros x. by apply vlan_insert_elem.
Qed.

Lemma del_pending_spec v t : sorted_vids t ->
  sorted_vids (del_pending_vlan_mbr v t) /\ forall x, x ∈ vids (del_pending_vlan_mbr v t) <-> x <> v /\ x ∈ vids t.
Proof.
  intros Hs. unfold del_pending_vlan_mbr. assert (H := vlan_find_spec v t). destruct (vlan_find v t) as [y|].
  - split; [by apply sorted_filter|]. intros x. unfold vlan_remove, vids. rewrite !list_elem_of_fmap. split.
    + intros (z & -> & [Hz1 Hz2]%list_elem_of_filter). split; [done|]. by exists z.
    + intros (Hx & z & -> & Hz). exists z. split; [done|]. apply list_elem_of_filter. done.
  - split; [done|]. intros x. split; [|by intros [_ ?]]. intros Hx. split; [|done]. by intros ->.
Qed.

Lemma member_after_snoc us u v : member_after (us ++ [u]) v = if u.1 =? v then u.2 else member_after us v.
Proof. unfold member_after. by rewrite foldl_app. Qed.

Lemma pend_spec us : let t := tree_of (foldl pend_step None us) in
  sorted_vids t /\ forall v, v ∈ vids t <-> member_after us v = true.
Proof.
  induction us as [|u us IH] using rev_ind; cbn zeta.
  { split; [constructor|]. intros v. split; [by intros ?%elem_of_nil|done]. }
  rewrite foldl_app. cbn [foldl]. destruct IH as [Hs Hm].
  destruct u as [v b], (foldl pend_step None us) as [t|]; cbn [pend_step tree_of default fst snd] in *.
  - destruct b.
    + destruct (add_pending_spec v t Hs) as [Hs' Hm']. split; [done|]. intros x. rewrite Hm', Hm, member_after_snoc. cbn [fst snd].
      destruct (Z.eqb_spec v x) as [->|Hne]; [by split; [|left]|].
      split; [by intros [->|?]|by right].
    + destruct (del_pending_spec v t Hs) as [Hs' Hm']. split; [done|]. intros x. rewrite Hm', Hm, member_after_snoc. cbn [fst snd].
      destruct (Z.eqb_spec v x) as [->|Hne]; [by split; [intros [? _]|]|].
      split; [by intros [_ ?]|]. intros H. split; [by intros ->|done].
  - destruct b; cbn [tree_of default].
    + destruct (add_pending_spec v [] Hs) as [Hs' Hm']. split; [done|]. intros x. rewrite Hm', Hm, member_after_snoc. cbn [fst snd].
      destruct (Z.eqb_spec v x) as [->|Hne]; [by split; [|left]|].
      split; [by intros [->|?]|by right].
    + split; [done|]. intros x. rewrite Hm, member_after_snoc. cbn [fst snd]. destruct (Z.eqb_spec v x) as [->|]; [|done].
      split; [|done]. intros H. apply Hm in H. by apply elem_of_nil in H.
Qed.

Section Pending.
Variable team_ports : Z -> option (list (Z * bool)).
Context (name : buf) (Hname : (length name < 20)%nat /\ existsb is_nul name = false).

Lemma carray_name : cstr (carray MAX_L_PORT_NAME name) = name /\ cstr name = name.
Proof.
  destruct Hname as [Hl Hn]. assert (E := cstr_whole name Hn).
  split; [|done]. unfold carray. rewrite E, take_ge by (unfold MAX_L_PORT_NAME; lia).
  replace (MAX_L_PORT_NAME - length name)%nat with (S (19 - length name)) by (unfold MAX_L_PORT_NAME; lia).
  by apply cstr_ends.
Qed.

Lemma stored_named : streq (carray MAX_L_PORT_NAME name) name = true.
Proof. unfold streq. destruct carray_name as [-> ->]. by apply bool_decide_eq_true_2. Qed.

(** The list of pending interfaces with the tree of [name] in front. *)
Definition plist (P : list (buf * list VLAN_ID)) (o : option (list VLAN_ID)) : list (buf * list VLAN_ID) :=
  match o with None => P | Some t => (carray MAX_L_PORT_NAME name, t) :: P end.

Definition with_pending (P : list (buf * list VLAN_ID)) (w : World) : World :=
  w <| w_sys ::= fun y => y <| sys_pending_vlan_mbr_if_list := P |> |>.

Lemma with_pending_twice P Q w : with_pending P (with_pending Q w) = with_pending P w.
Proof. done. Qed.

Lemma pending_head P t : find_first (pending_named name) ((carray MAX_L_PORT_NAME name, t) :: P)
  = Some (carray MAX_L_PORT_NAME name, t).
Proof. cbn [find_first]. unfold pending_named at 1. cbn [fst]. by rewrite stored_named. Qed.
Lemma update_head n f P t : streq (carray MAX_L_PORT_NAME name) n = true ->
  update_first (pending_named n) (fun p => (p.1, f p.2)) ((carray MAX_L_PORT_NAME name, t) :: P)
  = (carray MAX_L_PORT_NAME name, f t) :: P.
Proof. intros E. cbn [update_first]. unfold pending_named at 1. cbn [fst snd]. by rewrite E. Qed.
Lemma streq_refl (a : buf) : streq a a = true.
Proof. by apply bool_decide_eq_true_2. Qed.

Lemma on_pending_run n f P w : on_pending n f (with_pending P w)
  = Some (tt, with_pending (update_first (pending_named n) (fun p => (p.1, f p.2)) P) w).
Proof. done. Qed.
Lemma find_pending_run P w :
  find_pending_vlan_mbr_if name (with_pending P w) = Some (find_first (pending_named name) P, with_pending P w).
Proof. done. Qed.

Lemma pending_update P o u w :
  lifs_live w -> named name w = None -> find_first (pending_named name) P = None -> 0 <= u.1 < 2 ^ 16 ->
  vlan_mbrship_change_handler team_ports u.1 name u.2 (with_pending (plist P o) w)
  = Some (tt, with_pending (plist P (pend_step o u)) w).
Proof.
  intros Hl Hnm HP Hu. unfold vlan_mbrship_change_handler.
  rewrite (bind_Some _ _ _ _ _ (find_by_name_run name (with_pending (plist P o) w) Hl)).
  assert (named name (with_pending (plist P o) w) = None) as -> by exact Hnm.
  unfold update_pending_vlan_mbr. rewrite (bind_Some _ _ _ _ _ (find_pending_run _ w)).
  assert (u16 u.1 = u.1) as -> by (by apply Z.mod_small).
  destruct o as [t|]; cbn [plist pend_step].
  - rewrite pending_head, bool_decide_eq_false_2 by done. cbn [andb when]. erewrite bind_Some by reflexivity.
    cbn [fst]. rewrite on_pending_run, update_head by apply streq_refl. by destruct u.2.
  - rewrite HP, bool_decide_eq_true_2 by done. destruct u.2; cbn [andb negb when]; [|done].
    rewrite (bind_Some _ _ _ tt (with_pending ((carray MAX_L_PORT_NAME name, []) :: P) w)) by reflexivity.
    by rewrite on_pending_run, update_head by apply streq_refl.
Qed.

Lemma pending_updates P us o w :
  lifs_live w -> named name w = None -> find_first (pending_named name) P = None ->
  Forall (fun u => 0 <= u.1 < 2 ^ 16) us ->
  foreach (fun u => vlan_mbrship_change_handler team_ports u.1 name u.2) us (with_pending (plist P o) w)
  = Some (tt, with_pending (plist P (foldl pend_step o us)) w).
Proof.
  intros Hl Hnm HP Hus. revert o. induction Hus as [|u us Hu Hus IH]; intros o; [done|].
  cbn [foreach foldl]. by rewrite (bind_Some _ _ _ _ _ (pending_update P o u w Hl Hnm HP Hu)).
Qed.

(** ** The interface appears *)

(** No CSM waits for the interface, as its peer link or as one of its port
    channels. *)
Definition unclaimed (w : World) : Prop := forall c, c ∈ sys_csm_list (w_sys w) ->
  exists x, w_csms w !! c = Some x /\ streq name (csm_peer_itf_name x) = false
    /\ Forall (fun n => streq name n = false) (csm_if_bind_list x).

Lemma claim_none l i cs w :
  w_lifs w !! l = Some i -> lif_name i = carray MAX_L_PORT_NAME name ->
  (forall c, c ∈ cs -> exists x, w_csms w !! c = Some x /\ streq name (csm_peer_itf_name x) = false
    /\ Forall (fun n => streq name n = false) (csm_if_bind_list x)) ->
  claim_lif team_ports l name cs w = Some (tt, w).
Proof.
  intros Hi Hnm. induction cs as [|c cs IH]; intros H; [done|].
  destruct (H c) as (x & Ex & Hp & Hb); [set_solver|]. cbn [claim_lif].
  rewrite (bind_Some _ _ _ x w) by (unfold get_csm; by rewrite Ex).
  rewrite (bind_Some _ _ _ i w) by (unfold w_get_lif; by rewrite Hi).
  assert (streq (lif_name i) (csm_peer_itf_name x) = false) as ->.
  { rewrite <- Hp, Hnm. unfold streq. by destruct carray_name as [-> ->]. }
  rewrite (bind_Some _ _ _ tt w); [apply IH; set_solver|].
  induction Hb as [|n ns Hn Hb IHb]; [done|]. cbn [foreach]. rewrite Hn. cbn [when].
  by erewrite bind_Some by reflexivity.
Qed.

(** One VLAN of an interface that is not the peer link. *)
Definition put_lif (l : ptr) (i : LocalInterface) (w : World) : World := w <| w_lifs ::= <[l := i]> |>.

Lemma put_lif_live l i w : lifs_live w -> lifs_live (put_lif l i w).
Proof.
  intros H p Hp. unfold put_lif. repeat unfold set; cbn. destruct (decide (l = p)) as [->|]; [by rewrite lookup_insert_eq|].
  rewrite lookup_insert_ne by done. by apply H.
Qed.

Lemma add_vlan_run l i v w : lifs_live w -> w_lifs w !! l = Some i -> lif_is_peer_link i = 0 ->
  exists itf, local_if_add_vlan l v w = Some (tt, put_lif l (lif_add_vlan v itf i) w).
Proof.
  intros Hl Hi Hp. unfold local_if_add_vlan. rewrite (bind_Some _ _ _ i w) by (unfold w_get_lif; by rewrite Hi).
  assert (exists itf, (match vlan_find v (lif_vlan_tree i) with
    | Some _ => mret None | None => find_by_name (vlan_name v) end) w = Some (itf, w)) as [itf Ei].
  { destruct (vlan_find v (lif_vlan_tree i)); [by exists None|]. eexists. by apply find_by_name_run. }
  exists itf. rewrite (bind_Some _ _ _ _ _ Ei).
  assert (Es : w_set_lif l (lif_add_vlan v itf) w = Some (tt, put_lif l (lif_add_vlan v itf i) w))
    by (unfold w_set_lif; by rewrite Hi).
  rewrite (bind_Some _ _ _ _ _ Es).
  rewrite (bind_Some _ _ _ (lif_add_vlan v itf i) (put_lif l (lif_add_vlan v itf i) w)).
  2: { unfold w_get_lif, put_lif. repeat unfold set; cbn. by rewrite lookup_insert_eq. }
  assert (lif_is_peer_link (lif_add_vlan v itf i) = 0) as Hp'.
  { unfold lif_add_vlan. by destruct (vlan_find v (lif_vlan_tree i)). }
  rewrite Hp'. by destruct (_ ≫= _).
Qed.

(** The counters and the tree after the addition of a VLAN that is not there. *)
Lemma lif_add_vlan_new v itf i : sorted_vids (lif_vlan_tree i) -> v ∉ vids (lif_vlan_tree i) ->
  let j := lif_add_vlan v itf i in
  sorted_vids (lif_vlan_tree j) /\ (forall x, x ∈ vids (lif_vlan_tree j) <-> x = v \/ x ∈ vids (lif_vlan_tree i))
  /\ lif_vlan_count j = u32 (lif_vlan_count i + 1) /\ length (lif_vlan_tree j) = S (length (lif_vlan_tree i))
  /\ lif_is_peer_link j = lif_is_peer_link i /\ lif_name j = lif_name i.
Proof.
  intros Hs Hv. unfold lif_add_vlan. assert (H := vlan_find_spec v (lif_vlan_tree i)).
  destruct (vlan_find v (lif_vlan_tree i)) as [y|]. { destruct H as [Hy <-]. exfalso. apply Hv. by apply (list_elem_of_fmap_2 vlan_vid). }
  repeat unfold set; cbn. unfold sorted_vids. rewrite !vids_update by done.
  split_and!; try done.
  - by apply vlan_insert_sorted.
  - intros x. by apply vlan_insert_elem.
  - unfold vlan_update. rewrite length_map. by apply vlan_insert_length.
Qed.

(** What the moves do to the interface. *)
Record moved (ts : list VLAN_ID) (i j : LocalInterface) : Prop := mk_moved {
  mv_sorted : sorted_vids (lif_vlan_tree j);
  mv_vids : forall x, x ∈ vids (lif_vlan_tree j) <-> x ∈ vids ts \/ x ∈ vids (lif_vlan_tree i);
  mv_count : lif_vlan_count j = u32 (lif_vlan_count i + Z.of_nat (length ts));
  mv_length : length (lif_vlan_tree j) = (length ts + length (lif_vlan_tree i))%nat;
  mv_peer : lif_is_peer_link j = lif_is_peer_link i;
  mv_name : lif_name j = lif_name i;
}.

Lemma put_put_lif l i j w : put_lif l i (put_lif l j w) = put_lif l i w.
Proof. unfold put_lif. repeat unfold set; cbn. by rewrite insert_insert_eq. Qed.

Lemma u32_add a b : u32 (u32 a + b) = u32 (a + b).
Proof. unfold u32. apply Zplus_mod_idemp_l. Qed.

Lemma sorted_NoDup t : sorted_vids t -> NoDup (vids t).
Proof.
  unfold sorted_vids. induction 1 as [|x xs _ IH H]; constructor; [|done].
  rewrite Forall_lt_elem in H. intros Hx. specialize (H x Hx). lia.
Qed.

Lemma move_loop l w P ts : (forall i, lifs_live (put_lif l i w)) -> forall i t, lif_name i = carray MAX_L_PORT_NAME name ->
  lif_is_peer_link i = 0 -> 0 <= lif_vlan_count i < 2 ^ 32 -> sorted_vids (lif_vlan_tree i) -> NoDup (vids ts) ->
  (forall x, x ∈ vids ts -> x ∉ vids (lif_vlan_tree i)) ->
  exists j t', moved ts i j
    /\ foreach (fun v => local_if_add_vlan l (vlan_vid v);;
                         on_pending (carray MAX_L_PORT_NAME name) (del_pending_vlan_mbr (vlan_vid v))) ts
         (put_lif l i (with_pending (plist P (Some t)) w))
       = Some (tt, put_lif l j (with_pending (plist P (Some t')) w)).
Proof.
  intros Hl. induction ts as [|v ts IH]; intros i t Hnm Hp Hc Hs Hnd Hdis.
  { exists i, t. split; [|done]. split; try done; cbn.
    - intros x. split; [by right|]. intros [?%elem_of_nil|?]; done.
    - rewrite Z.add_0_r. symmetry. by apply Z.mod_small. }
  cbn [foreach vids map] in *. apply NoDup_cons in Hnd as [Hv Hnd].
  set (W := with_pending (plist P (Some t)) w).
  destruct (add_vlan_run l i (vlan_vid v) (put_lif l i W)) as [itf E1].
  { exact (Hl i). }
  { unfold put_lif. repeat unfold set; cbn. apply lookup_insert_eq. }
  { done. }
  rewrite put_put_lif in E1. assert (Hvi : vlan_vid v ∉ vids (lif_vlan_tree i)) by (apply Hdis; set_solver).
  destruct (lif_add_vlan_new (vlan_vid v) itf i Hs Hvi) as (A1 & A2 & A3 & A4 & A5 & A6).
  set (i1 := lif_add_vlan (vlan_vid v) itf i) in *. cbn zeta in *.
  destruct (IH i1 (del_pending_vlan_mbr (vlan_vid v) t)) as (j & t' & Hmv & E2).
  { by rewrite A6. } { by rewrite A5. } { rewrite A3. apply Z.mod_pos_bound. lia. } { done. } { done. }
  { intros x Hx. rewrite A2. intros [->|Hx']; [done|]. apply (Hdis x); set_solver. }
  exists j, t'. split.
  - destruct Hmv as [M1 M2 M3 M4 M5 M6]. split; try done.
    + intros x. rewrite M2, A2. change (vids (v :: ts)) with (vlan_vid v :: vids ts). rewrite elem_of_cons. clear. tauto.
    + rewrite M3, A3, u32_add. cbn [length]. f_equal. lia.
    + rewrite M4, A4. cbn [length]. lia.
    + by rewrite M5.
    + by rewrite M6.
  - erewrite bind_Some; [exact E2|]. rewrite (bind_Some _ _ _ _ _ E1). cbn [plist].
    rewrite <- (update_head (carray MAX_L_PORT_NAME name) (del_pending_vlan_mbr (vlan_vid v)) P t (streq_refl _)). done.
Qed.

Lemma move_all l W P o i0 : (forall i, lifs_live (put_lif l i W)) -> lif_name i0 = carray MAX_L_PORT_NAME name ->
  lif_is_peer_link i0 = 0 -> lif_vlan_count i0 = 0 -> lif_vlan_tree i0 = [] -> sorted_vids (tree_of o) ->
  find_first (pending_named name) P = None ->
  exists j, moved (tree_of o) i0 j
    /\ move_pending_vlan_mbr_to_lif l (put_lif l i0 (with_pending (plist P o) W)) = Some (tt, put_lif l j (with_pending P W)).
Proof.
  intros HlW N0 P0 C0 T0 Hs Hnp. unfold move_pending_vlan_mbr_to_lif.
  rewrite (bind_Some _ _ _ i0 (put_lif l i0 (with_pending (plist P o) W))).
  2: { unfold w_get_lif, put_lif. repeat unfold set; cbn. by rewrite lookup_insert_eq. }
  rewrite N0. assert (Ef : find_pending_vlan_mbr_if (carray MAX_L_PORT_NAME name) (put_lif l i0 (with_pending (plist P o) W))
    = Some (find_first (pending_named name) (plist P o), put_lif l i0 (with_pending (plist P o) W))).
  { unfold find_pending_vlan_mbr_if, the_sys. erewrite bind_Some by reflexivity. unfold mret, M_ret. do 2 f_equal.
    unfold pending_named, streq. destruct carray_name as [-> ->]. done. }
  rewrite (bind_Some _ _ _ _ _ Ef). destruct o as [t|]; cbn [plist tree_of default] in *.
  - rewrite pending_head. cbn [fst snd].
    destruct (move_loop l W P t HlW i0 t) as (j & t' & Hmv & E2); try done.
    + rewrite C0. lia.
    + rewrite T0. constructor.
    + by apply sorted_NoDup.
    + rewrite T0. intros x _ ?%elem_of_nil. done.
    + exists j. split; [done|]. rewrite (bind_Some _ _ _ _ _ E2). unfold set_sys, modify. do 2 f_equal.
      unfold put_lif, with_pending, plist. repeat unfold set; cbn [w_sys w_csms w_lifs w_g sys_pending_vlan_mbr_if_list]. f_equal. f_equal.
      cbn [remove_first]. unfold pending_named at 1. cbn [fst]. by rewrite streq_refl.
  - rewrite Hnp. exists i0. split; [|done]. split; rewrite ?T0, ?C0; try done.
    intros x. split; [by right|]. by intros [?|?].
Qed.

(** VLANs are 16-bit numbers, so there are fewer than the counter can hold. *)
Lemma pend_length us : Forall (fun u => 0 <= u.1 < 2 ^ 16) us ->
  (Z.of_nat (length (tree_of (foldl pend_step None us))) < 2 ^ 32).
Proof.
  intros Hus. destruct (pend_spec us) as [Hs Hm]. set (t := tree_of _) in *.
  assert (Hb : forall v, member_after us v = true -> 0 <= v < 2 ^ 16).
  { clear -Hus. induction us as [|u us IH] using rev_ind; [done|]. intros v.
    apply Forall_app in Hus as [Hus Hu]. rewrite Forall_singleton in Hu. rewrite member_after_snoc.
    destruct (Z.eqb_spec u.1 v) as [<-|]; [intros _; exact Hu|by apply IH]. }
  apply sorted_NoDup in Hs. assert (Hsub : vids t ⊆+ seqZ 0 (2 ^ 16)).
  { apply NoDup_submseteq; [done|]. intros v Hv%Hm%Hb. apply elem_of_seqZ. lia. }
  apply submseteq_length in Hsub. rewrite length_seqZ in Hsub. unfold vids in Hsub. rewrite length_map in Hsub. lia.
Qed.

(** C20. A port or port channel that no CSM waits for gets, when it appears, exactly the
    VLANs whose last announcement was an addition; nothing of them stays pending. *)
Theorem pending_vlans_delivered us P ifindex type state i0 w :
  lifs_live w -> named name w = None -> sys_pending_vlan_mbr_if_list (w_sys w) = P ->
  find_first (pending_named name) P = None -> unclaimed w ->
  (ifindex <= 0 \/ indexed ifindex w = None) ->
  new_lif ifindex name type state = Some i0 -> type = IF_T_PORT \/ type = IF_T_PORT_CHANNEL ->
  Forall (fun u => 0 <= u.1 < 2 ^ 16) us ->
  exists l i, w_lifs w !! l = None
    /\ (foreach (fun u => vlan_mbrship_change_handler team_ports u.1 name u.2) us;;
        local_if_create team_ports ifindex name type state) w
       = Some (Some l, put_lif l i (w <| w_sys ::= fun y => y <| sys_lif_list ::= cons l |> |>))
    /\ sorted_vids (lif_vlan_tree i) /\ (forall v, v ∈ vids (lif_vlan_tree i) <-> member_after us v = true)
    /\ lif_vlan_count i = Z.of_nat (length (lif_vlan_tree i)) /\ lif_name i = carray MAX_L_PORT_NAME name.
Proof.
  intros Hl Hnm HP Hnp Hun Hix Hnew Hty Hus.
  assert (Ew : w = with_pending (plist P None) w) by (destruct w as [[] ? ? ?]; cbn in *; by subst P).
  set (o := foldl pend_step None us). set (w1 := with_pending (plist P o) w).
  assert (E1 : foreach (fun u => vlan_mbrship_change_handler team_ports u.1 name u.2) us w = Some (tt, w1))
    by (rewrite Ew at 1; by apply pending_updates).
  set (l := malloc (dom (w_lifs w))). destruct (malloc_new (dom (w_lifs w))) as [Hfresh _]. fold l in Hfresh.
  apply not_elem_of_dom in Hfresh.
  assert (Hi0 : lif_name i0 = carray MAX_L_PORT_NAME name /\ lif_vlan_tree i0 = [] /\ lif_vlan_count i0 = 0 /\ lif_is_peer_link i0 = 0).
  { unfold new_lif in Hnew. destruct (type =? IF_T_PORT_CHANNEL); [destruct (digits _ _); [|done]|]; by injection Hnew as <-. }
  destruct Hi0 as (N0 & T0 & C0 & P0). set (W := w <| w_sys ::= fun y => y <| sys_lif_list ::= cons l |> |>).
  assert (HlW : forall i, lifs_live (put_lif l i W)).
  { intros i p Hp. unfold put_lif, W in *. repeat unfold set in *; cbn in *. apply elem_of_cons in Hp as [->|Hp]; [by rewrite lookup_insert_eq|].
    destruct (decide (l = p)) as [->|]; [by rewrite lookup_insert_eq|]. rewrite lookup_insert_ne by done. by apply Hl. }
  destruct (pend_spec us) as [Hps Hpm]. fold o in Hps, Hpm.
  assert (HWP : with_pending P W = W) by (unfold W; destruct w as [[] ? ? ?]; cbn in *; by subst P).
  assert (Hold : (if ifindex >? 0 then find_by_ifindex ifindex else mret None) w1 = Some (None, w1)).
  { destruct Hix as [Hix|Hix]; [by rewrite Z.gtb_ltb, (proj2 (Z.ltb_ge _ _)) by lia|].
    destruct (ifindex >? 0); [|done]. rewrite (find_by_ifindex_run ifindex w1 Hl). unfold w1. by rewrite <- Hix. }
  destruct (move_all l W P o i0 HlW N0 P0 C0 T0 Hps Hnp) as (j & Hmv & Emove).
  exists l, j. split; [done|]. destruct Hmv as [M1 M2 M3 M4 M5 M6]. rewrite T0, C0 in *. split_and!; try done.
  - rewrite (bind_Some _ _ _ _ _ E1). unfold local_if_create. rewrite (bind_Some _ _ _ _ _ Hold).
    erewrite bind_Some by reflexivity. cbn zeta. change (dom (w_lifs w1)) with (dom (w_lifs w)). fold l. rewrite Hnew.
    assert (known_type type = true) as -> by (by destruct Hty as [-> | ->]). cbn [negb].
    assert ((type =? IF_T_VLAN) = false) as -> by (by destruct Hty as [-> | ->]).
    erewrite bind_Some by reflexivity. erewrite bind_Some by reflexivity. erewrite bind_Some by reflexivity.
    rewrite (bind_Some _ _ _ _ _ Emove), HWP. unfold the_sys. erewrite bind_Some by reflexivity.
    rewrite (bind_Some _ _ _ tt (put_lif l j W)); [done|].
    apply claim_none with (i := j); [unfold put_lif; repeat unfold set; cbn; apply lookup_insert_eq|by rewrite M6|exact Hun].
  - intros v. rewrite M2, <- Hpm. split; [|by left]. intros [?|?%elem_of_nil]; done.
  - rewrite M3, M4. cbn [length]. rewrite Nat.add_0_r. unfold u32. apply Z.mod_small. split; [lia|].
    assert (Hlen := pend_length us Hus). fold o in Hlen. lia.
  - by rewrite M6.
Qed.
End Pending.
