(* ===== verification/Config.v ===== *)
(** Configuration: the setters of [iccp_cli.c], the domains of [iccp_cmd.c], the
    configuration file and the messages of mclagsyncd that carry the same
    commands ([mlacp_link_handler.c]). *)

From Stdlib Require Import ZArith Lia.
From stdpp Require Import base list gmap numbers option strings.
From coqutil Require Import Byte Word.LittleEndianList.
From S2P Require Import Prelude CBuf State MsgFormat Wire CsmMsg Csm Port SyncPrepare Receive Syncd.
From S2P Require Import AppCsm MacTable Kernel Senders Neigh LinkMac Isolation LinkState SyncUpdate MlacpFsm Session.
From S2P Require Import Lifecycle SyncdRecv.

Definition FRONT_PANEL_PORT_PREFIX : buf := str "Ethernet".
Definition VXLAN_TUNNEL_PREFIX : buf := str "VTTNL".

(** An array of [n] characters after [memset] and [memcpy] of a string that
    fits. *)
Definition set_string (n : nat) (s : buf) : buf := s ++ replicate (n - length s) Byte.x00.

(** ** Domains *)

Definition set_mc_lag_id (c : ptr) (id : Z) : M World Z :=
  set_csm c (fun x => set_MLACP (fun m => m <| ml_id := id |>)
                        (set_info (fun i => i <| icc_rg_id := id |>) (x <| csm_mlag_id := id |>)));;
  mret 0.

Definition unset_mc_lag_id (c : ptr) : M World Z :=
  csm ← get_csm c;
  global (mlacp_link_del_iccp_info (csm_mlag_id csm));;
  iccp_csm_finalize c;;
  mret 0.

Definition set_mc_lag_by_id (rand mid : Z) : M World Z :=
  oc ← system_get_csm_by_mlacp_id mid;
  match oc with
  | Some _ => mret 0
  | None => c ← system_create_csm rand; set_mc_lag_id c mid
  end.

Definition unset_mc_lag_by_id (mid : Z) : M World Z :=
  oc ← system_get_csm_by_mlacp_id mid;
  match oc with
  | Some c => unset_mc_lag_id c
  | None => mret MCLAG_ERROR
  end.

(** The function of a domain, or an error when there is no such domain. *)
Definition with_domain (mid : Z) (f : ptr -> M World Z) : M World Z :=
  oc ← system_get_csm_by_mlacp_id mid;
  match oc with
  | Some c => f c
  | None => mret MCLAG_ERROR
  end.

(** ** Addresses and timers *)

Definition set_local_address (mid : Z) (addr : buf) : M World Z :=
  with_domain mid (fun c =>
    csm ← get_csm c;
    if negb (strlen (csm_sender_ip csm) =? 0) && streq (csm_sender_ip csm) addr then mret 0
    else
      when (negb (strlen (csm_sender_ip csm) =? 0)) (with_csm c scheduler_session_disconnect_handler);;
      set_csm c (fun x => x <| csm_sender_ip := zeros 16 |>);;
      if strlen addr >? Z.of_nat INET_ADDRSTRLEN then mret MCLAG_ERROR
      else
        set_csm c (fun x => x <| csm_sender_ip := set_string INET_ADDRSTRLEN (cstr addr) |>);;
        set_csm c (set_info (fun i => i <| sender_name ::= fun n =>
          set_string INET_ADDRSTRLEN (cstr addr) ++ drop INET_ADDRSTRLEN n |>));;
        mret 0).

Definition unset_local_address (mid : Z) : M World Z :=
  with_domain mid (fun c =>
    set_csm c (fun x => set_info (fun i => i <| sender_name ::= fun n => zeros 16 ++ drop INET_ADDRSTRLEN n |>)
                          (x <| csm_sender_ip := zeros 16 |>));;
    with_csm c scheduler_session_disconnect_handler;;
    mret 0).

Definition set_peer_address (mid : Z) (addr : buf) : M World Z :=
  with_domain mid (fun c =>
    csm ← get_csm c;
    if negb (strlen (csm_peer_ip csm) =? 0) && streq (csm_peer_ip csm) addr then mret 0
    else
      when (negb (strlen (csm_peer_ip csm) =? 0)) (with_csm c scheduler_session_disconnect_handler);;
      set_csm c (fun x => x <| csm_peer_ip := zeros 16 |>);;
      if strlen addr >? Z.of_nat INET_ADDRSTRLEN then mret MCLAG_ERROR
      else
        set_csm c (fun x => x <| csm_peer_ip := set_string INET_ADDRSTRLEN (cstr addr) |>);;
        mret 0).

Definition unset_peer_address (mid : Z) : M World Z :=
  with_domain mid (fun c =>
    set_csm c (fun x => x <| csm_peer_ip := zeros 16 |>);;
    with_csm c scheduler_session_disconnect_handler;;
    mret 0).

Definition set_keepalive_time (mid keepalive_time : Z) : M World Z :=
  with_domain mid (fun c =>
    csm ← get_csm c;
    when (negb (csm_keepalive_time csm =? keepalive_time))
      (set_csm c (fun x => x <| csm_keepalive_time := keepalive_time |> <| csm_heartbeat_send_time := 0 |>));;
    mret 0).

Definition set_session_timeout (mid session_timeout_val : Z) : M World Z :=
  with_domain mid (fun c =>
    set_csm c (fun x => x <| csm_session_timeout := session_timeout_val |>);; mret 0).

(** ** The peer link *)

Section Team.
Variable team_ports : Z -> option (list (Z * bool)).

Definition drop_peer_link (c : ptr) : M World unit :=
  csm ← get_csm c;
  match csm_peer_link_if csm with
  | None => mret tt
  | Some l =>
      w_set_lif l (fun i => i <| lif_is_peer_link := 0 |>);;
      set_csm c (fun x => x <| csm_peer_link_if := None |>)
  end.

Definition set_peer_link (mid : Z) (ifname : buf) : M World Z :=
  let name := cstr ifname in
  if negb (starts_with FRONT_PANEL_PORT_PREFIX name) && negb (starts_with PORTCHANNEL_PREFIX name)
     && negb (starts_with VXLAN_TUNNEL_PREFIX name) then mret MCLAG_ERROR
  else with_domain mid (fun c =>
    if strlen ifname >? Z.of_nat MAX_L_PORT_NAME then mret MCLAG_ERROR
    else
      csm ← get_csm c;
      let configured := negb (strlen (csm_peer_itf_name csm) =? 0) in
      if configured && streq (csm_peer_itf_name csm) ifname then mret 0
      else
        when configured (with_csm c scheduler_session_disconnect_handler;; drop_peer_link c);;
        set_csm c (fun x => x <| csm_peer_itf_name := zeros 16 |>);;
        if strlen ifname >? Z.of_nat IFNAMSIZ then mret MCLAG_ERROR
        else
          set_csm c (fun x => x <| csm_peer_itf_name := set_string IFNAMSIZ name |>);;
          ol ← find_by_name name;
          match ol with
          | None => mret tt
          | Some l =>
              set_csm c (fun x => set_MLACP (fun m => m <| ml_system_config_changed := 1 |>)
                                    (x <| csm_peer_link_if := Some l |>));;
              w_set_lif l (fun i => i <| lif_is_peer_link := 1 |>);;
              i ← w_get_lif l;
              when (lif_type i =? IF_T_PORT_CHANNEL) (iccp_get_port_member_list team_ports l);;
              with_csm c (set_peerlink_learn_kernel 0)
          end;;
          with_csm c scheduler_session_disconnect_handler;;
          mret 0).

(** The [memset] of 20 bytes runs over the 16 of [peer_itf_name] into the low half
    of [peer_link_learning_retry_time], which the disconnection has just cleared. *)
Definition unset_peer_link (mid : Z) : M World Z :=
  with_domain mid (fun c =>
    csm ← get_csm c;
    when (bool_decide (ml_current_state (MLACP csm) = MLACP_STATE_EXCHANGE))
      (match csm_peer_link_if csm with
       | None => mret tt
       | Some l => i ← w_get_lif l;
                   with_csm c (set_peerlink_mlag_port_learn i 1;; set_peerlink_learn_kernel 1)
       end);;
    with_csm c scheduler_session_disconnect_handler;;
    set_csm c (fun x => x <| csm_peer_itf_name := zeros 16 |>
                          <| csm_peer_link_learning_retry_time ::= fun t => Z.ldiff t (Z.ones 32) |>);;
    csm ← get_csm c;
    match csm_peer_link_if csm with
    | None => mret tt
    | Some _ => drop_peer_link c;; set_csm c (set_MLACP (fun m => m <| ml_system_config_changed := 1 |>))
    end;;
    mret 0).

(** ** Port channels *)

Definition iccp_cli_attach_mclag_domain_to_port_channel (domain : Z) (ifname : buf) : M World Z :=
  if negb (starts_with PORTCHANNEL_PREFIX (cstr ifname)) then mret MCLAG_ERROR
  else with_domain domain (fun c =>
    ol ← find_by_name ifname;
    when (bool_decide (ol <> None)) (mlacp_bind_port_channel_to_csm team_ports c ifname);;
    csm ← get_csm c;
    when (negb (existsb (fun n => streq n ifname) (csm_if_bind_list csm)))
      (set_csm c (fun x => x <| csm_if_bind_list ::= cons (carray MAX_L_PORT_NAME ifname) |>));;
    mret 0).

(** ** The system MAC *)

(** A hexadecimal digit. *)
Definition hex_value (c : byte) : option Z :=
  let n := byte.unsigned c in
  if (48 <=? n) && (n <=? 57) then Some (n - 48)
  else if (65 <=? n) && (n <=? 70) then Some (n - 65 + 10)
  else if (97 <=? n) && (n <=? 102) then Some (n - 97 + 10)
  else None.

(** The loop over the six numbers: what is in [bin_mac] when it stops, and
    whether it ran to its end.  A first digit that is followed by a bad one has
    already been stored. *)
Fixpoint parse_bytes (i : nat) (n : nat) (s bin_mac : buf) : buf * bool :=
  match n with
  | O => (bin_mac, true)
  | S n' =>
      match hex_value (nth (i * 3) s Byte.x00) with
      | None => (bin_mac, false)
      | Some h =>
          let bin_mac := <[i := byte.of_Z (Z.shiftl h 4)]> bin_mac in
          match hex_value (nth (i * 3 + 1) s Byte.x00) with
          | None => (bin_mac, false)
          | Some l => parse_bytes (S i) n' s (<[i := byte.of_Z (Z.lor (Z.shiftl h 4) l)]> bin_mac)
          end
      end
  end.

Definition parseMacString (str_mac bin_mac : buf) : buf * Z :=
  let s := cstr str_mac in
  let at_ k := byte.unsigned (nth k s Byte.x00) in
  if negb (length s =? ETHER_ADDR_LEN * 2 + 5)%nat then (bin_mac, MCLAG_ERROR)
  else if negb ((at_ 2%nat =? at_ 5%nat) && (at_ 5%nat =? at_ 8%nat) && (at_ 8%nat =? at_ 11%nat)
                && (at_ 11%nat =? at_ 14%nat)) then (bin_mac, MCLAG_ERROR)
  else if negb (at_ 2%nat =? 58) && negb (at_ 2%nat =? 45) then (bin_mac, MCLAG_ERROR)
  else let '(b, ok) := parse_bytes 0 ETHER_ADDR_LEN s bin_mac in (b, if ok then 0 else MCLAG_ERROR).

Definition set_local_system_id (mac : buf) : M World Z :=
  y ← the_sys;
  foreach (fun c => set_csm c (set_MLACP (fun m => m <| ml_system_id ::= fun b => (parseMacString mac b).1 |>)))
    (sys_csm_list y);;
  mret 0.

Definition unset_local_system_id : M World Z :=
  y ← the_sys;
  foreach (fun c => set_csm c (set_MLACP (fun m => m <| ml_system_id := null_mac |>))) (sys_csm_list y);;
  mret 0.

(** [mac_addr_to_str]: six pairs of lower-case digits. *)
Definition mac_addr_to_str (mac : buf) : buf := SET_MAC_STR mac.
End Team.

(** ** The configuration file ([iccp_cmd.c]) *)

(** Where the first blank or terminator is. *)
Fixpoint word_end (s : buf) : nat :=
  match s with
  | c :: s' => if is_space c || is_nul c then O else S (word_end s')
  | [] => O
  end.

Definition atoi (s : buf) : Z := s32 (default 0 (scan_number (cstr s))).

Definition is_sep (c : byte) : bool :=
  let n := byte.unsigned c in (n =? 44) || (n =? 13) || (n =? 10).

Fixpoint span_name (s : buf) : buf * buf :=
  match s with
  | c :: s' => if is_sep c || is_nul c then ([], s) else let '(a, r) := span_name s' in (c :: a, r)
  | [] => ([], [])
  end.
Fixpoint skip_seps (s : buf) : buf :=
  match s with
  | c :: s' => if is_space c || is_sep c then skip_seps s' else s
  | [] => []
  end.

Section Commands.
Variable team_ports : Z -> option (list (Z * bool)).
Variable rand : Z.

(** The names after [mclag_interface].  [token] is the array of 64 characters on
    the stack, with what it happens to hold. *)
Fixpoint attach_names (fuel : nat) (mid : Z) (token s : buf) : M World Z :=
  match fuel with
  | O => ub
  | S fuel' =>
      let '(name, rest) := span_name s in
      if negb (has_nul token) then ub
      else if Z.of_nat (length name) >? strlen token then mret MCLAG_ERROR
      else
        let token := name ++ Byte.x00 :: drop (S (length name)) token in
        iccp_cli_attach_mclag_domain_to_port_channel team_ports mid token;;
        let rest := skip_seps rest in
        match cstr rest with
        | [] => mret 1
        | _ => attach_names fuel' mid token rest
        end
  end.

Definition after (word s : buf) : buf := drop (length word + 1) s.

(** [mid] is the static variable; the result is its new value and that of the
    function. *)
Definition iccp_config_from_command (token line : buf) (mid : Z) : M World (Z * Z) :=
  let cp := skip_space line in
  match cstr cp with
  | [] => mret (mid, 0)
  | _ =>
      let cp := <[word_end cp := Byte.x00]> cp in
      let arg word := after (str word) cp in
      if starts_with (str "mclag_id") cp then
        let mid := atoi (arg "mclag_id"%string) in
        set_mc_lag_by_id rand (u16 mid);; mret (mid, 1)
      else if starts_with (str "local_ip") cp then
        set_local_address mid (arg "local_ip"%string);; mret (mid, 1)
      else if starts_with (str "peer_ip") cp then
        set_peer_address mid (arg "peer_ip"%string);; mret (mid, 1)
      else if starts_with (str "peer_link") cp then
        set_peer_link team_ports mid (arg "peer_link"%string);; mret (mid, 1)
      else if starts_with (str "mclag_interface") cp then
        let s := arg "mclag_interface"%string in
        rc ← attach_names (S (length s)) mid token s; mret (mid, rc)
      else if starts_with (str "system_mac") cp then
        set_local_system_id (arg "system_mac"%string);; mret (mid, 1)
      else mret (mid, 1)
  end.

(** ** Messages of mclagsyncd *)

Definition MCLAG_CFG_OPER_ADD : Z := 1.
Definition MCLAG_CFG_OPER_DEL : Z := 2.
Definition MCLAG_CFG_OPER_UPDATE : Z := 3.
Definition MCLAG_CFG_OPER_ATTR_DEL : Z := 4.
Definition MCLAG_CFG_ATTR_SRC_ADDR : Z := 0x1.
Definition MCLAG_CFG_ATTR_PEER_ADDR : Z := 0x2.
Definition MCLAG_CFG_ATTR_PEER_LINK : Z := 0x4.
Definition MCLAG_CFG_ATTR_KEEPALIVE_INTERVAL : Z := 0x8.
Definition MCLAG_CFG_ATTR_SESSION_TIMEOUT : Z := 0x10.

(** The string at an offset: it ends at the first NUL, which may lie in a later
    member. *)
Definition rd_str (off : nat) (b : buf) : option buf :=
  let s := drop off b in if has_nul s then Some (cstr s) else None.
Definition rd_int (off : nat) (b : buf) : option Z := s32 <$> rd32 off b.

(** The number of records of [size] bytes: a [size_t] quotient, stored as [int]. *)
Definition record_count (size len : Z) : Z := s32 (u64 (len - 4) / size).

(** [for (i = 0; i < count; i++)] over records; the state of the loop is [A].  The
    fuel is the size of the buffer: later records would lie outside. *)
Fixpoint records {A} (fuel : nat) (i count : Z) (size : nat) (f : buf -> A -> M World A) (b : buf) (a : A)
    : M World A :=
  if i >=? count then mret a
  else match fuel with
  | O => ub
  | S fuel' => a ← f b a; records fuel' (i + 1) count size f (drop size b) a
  end.

Definition for_records {A} (size : nat) (f : buf -> A -> M World A) (msg : buf) (a : A) : M World unit :=
  len ← lift (rd16 2 msg);
  records (length msg) 0 (record_count (Z.of_nat size) len) size f (drop hdr_sizeof msg) a;;
  mret tt.

Record mclag_domain_cfg_info := mkDomainCfg {
  dc_op_type : Z;
  dc_domain_id : Z;
  dc_keepalive_time : Z;
  dc_session_timeout : Z;
  dc_local_ip : buf;
  dc_peer_ip : buf;
  dc_peer_ifname : buf;
  dc_system_mac : buf;
  dc_attr_bmap : Z;
}.

Definition rd_domain_cfg (b : buf) : option mclag_domain_cfg_info :=
  op ← rd_int 0 b; id ← rd_int 4 b; ka ← rd_int 8 b; st ← rd_int 12 b;
  lip ← rd_str 16 b; pip ← rd_str 32 b; pif ← rd_str 48 b; mac ← rd 68 6 b; attr ← rd_int 76 b;
  Some (mkDomainCfg op id ka st lip pip pif mac attr).

Definition attr_set (d : mclag_domain_cfg_info) (a : Z) : bool := negb (Z.land (dc_attr_bmap d) a =? 0).

Definition domain_update (d : mclag_domain_cfg_info) : M World unit :=
  let id := dc_domain_id d in
  when (dc_op_type d =? MCLAG_CFG_OPER_ADD)
    (set_mc_lag_by_id rand (u16 id);; set_local_system_id (mac_addr_to_str (dc_system_mac d));; mret tt);;
  when (attr_set d MCLAG_CFG_ATTR_SRC_ADDR) (set_local_address id (dc_local_ip d);; mret tt);;
  when (attr_set d MCLAG_CFG_ATTR_PEER_ADDR) (set_peer_address id (dc_peer_ip d);; mret tt);;
  when (attr_set d MCLAG_CFG_ATTR_PEER_LINK) (set_peer_link team_ports id (dc_peer_ifname d);; mret tt);;
  when (attr_set d MCLAG_CFG_ATTR_KEEPALIVE_INTERVAL)
    (set_keepalive_time id (if dc_keepalive_time d =? -1 then CONNECT_INTERVAL_SEC else dc_keepalive_time d);; mret tt);;
  when (attr_set d MCLAG_CFG_ATTR_SESSION_TIMEOUT)
    (set_session_timeout id (if dc_session_timeout d =? -1 then HEARTBEAT_TIMEOUT_SEC else dc_session_timeout d);; mret tt).

(** One attribute of those asked for. *)
Definition domain_attr_del (d : mclag_domain_cfg_info) : M World unit :=
  let id := dc_domain_id d in
  (if attr_set d MCLAG_CFG_ATTR_PEER_LINK then unset_peer_link id
   else if attr_set d MCLAG_CFG_ATTR_KEEPALIVE_INTERVAL then set_keepalive_time id CONNECT_INTERVAL_SEC
   else if attr_set d MCLAG_CFG_ATTR_SESSION_TIMEOUT then set_session_timeout id HEARTBEAT_TIMEOUT_SEC
   else if attr_set d MCLAG_CFG_ATTR_SRC_ADDR then unset_local_address id
   else if attr_set d MCLAG_CFG_ATTR_PEER_ADDR then unset_peer_address id
   else mret 0);;
  mret tt.

Definition domain_cfg (d : mclag_domain_cfg_info) : M World unit :=
  let op := dc_op_type d in
  if (op =? MCLAG_CFG_OPER_ADD) || (op =? MCLAG_CFG_OPER_UPDATE) then domain_update d
  else if op =? MCLAG_CFG_OPER_DEL then unset_mc_lag_by_id (u16 (dc_domain_id d));; mret tt
  else when (op =? MCLAG_CFG_OPER_ATTR_DEL) (domain_attr_del d).

Definition iccp_mclagsyncd_mclag_domain_cfg_handler (msg : buf) : M World unit :=
  for_records 80 (fun b _ => d ← lift (rd_domain_cfg b); domain_cfg d) msg tt.

Definition iface_cfg (op domain_id : Z) (name : buf) : M World unit :=
  if op =? MCLAG_CFG_OPER_ADD then iccp_cli_attach_mclag_domain_to_port_channel team_ports domain_id name;; mret tt
  else when (op =? MCLAG_CFG_OPER_DEL) (iccp_cli_detach_mclag_domain_to_port_channel name;; mret tt).

Definition iccp_mclagsyncd_mclag_iface_cfg_handler (msg : buf) : M World unit :=
  for_records 28 (fun b _ =>
    op ← lift (rd_int 0 b); id ← lift (rd_int 4 b); name ← lift (rd_str 8 b); iface_cfg op id name) msg tt.

(** The variables [sync_add], [is_v4] and [is_v6] keep their values from one
    record to the next. *)
Record SyncFlags := mkSyncFlags { sf_add : bool; sf_v4 : bool; sf_v6 : bool }.

Definition unique_ip_cfg (op : Z) (name : buf) (fl : SyncFlags) : M World SyncFlags :=
  let add := op =? MCLAG_CFG_OPER_ADD in
  let del := op =? MCLAG_CFG_OPER_DEL in
  y ← the_sys;
  let same n := streq n name in
  when (add && negb (existsb same (sys_unq_ip_if_list y)))
    (set_sys (fun y => y <| sys_unq_ip_if_list ::= cons (carray MAX_L_PORT_NAME name) |>));;
  when del (set_sys (fun y => y <| sys_unq_ip_if_list ::= remove_first same |>));;
  ol ← find_by_name name;
  match ol with
  | None => mret fl
  | Some l =>
      when (add || del) (w_set_lif l (fun i => i <| lif_is_l3_proto_enabled := add |>));;
      i ← w_get_lif l;
      let fl := if add || del then mkSyncFlags add (sf_v4 fl || truth (lif_ipv4_addr i)) (sf_v6 fl || truth (lif_prefixlen_v6 i))
                else fl in
      let sync := global (syn_local_neigh_mac_info_to_peer l (sf_add fl) (sf_v4 fl) (sf_v6 fl) true true false);; mret tt in
      (if local_if_is_l3_mode i then
         when (sf_add fl) (global (update_vlan_if_mac_on_standby l));; sync
       else when (negb (sf_add fl)) (global (recover_vlan_if_mac_on_standby l 6 None);; sync));;
      mret fl
  end.

Definition iccp_mclagsyncd_mclag_unique_ip_cfg_handler (msg : buf) : M World unit :=
  for_records 24 (fun b fl =>
    op ← lift (rd_int 0 b); name ← lift (rd_str 4 b); unique_ip_cfg op name fl) msg (mkSyncFlags false false false).

Definition vlan_mbr_update (op vid : Z) (name : buf) : M World unit :=
  if op =? MCLAG_CFG_OPER_ADD then vlan_mbrship_change_handler team_ports vid name true
  else when (op =? MCLAG_CFG_OPER_DEL) (vlan_mbrship_change_handler team_ports vid name false).

Definition iccp_mclagsyncd_vlan_mbr_update_handler (msg : buf) : M World unit :=
  for_records 28 (fun b _ =>
    op ← lift (rd_int 0 b); vid ← lift (rd32 4 b); name ← lift (rd_str 8 b); vlan_mbr_update op vid name) msg tt.

Definition iccp_receive_fdb_handler_from_syncd (msg : buf) : M World unit :=
  for_records 36 (fun b _ =>
    mac ← lift (rd 0 6 b); vid ← lift (rd32 8 b); name ← lift (rd_str 12 b);
    type ← lift (rd16 32 b); op ← lift (rd16 34 b);
    do_mac_update_from_syncd (mkFdb mac (u16 vid) name (u8 type) (u8 op))) msg tt.

(** The functions of the message types. *)
Definition syncd_dispatch (type : Z) : option (buf -> M World unit) :=
  if type =? MCLAG_SYNCD_MSG_TYPE_FDB_OPERATION then Some iccp_receive_fdb_handler_from_syncd
  else if type =? MCLAG_SYNCD_MSG_TYPE_CFG_MCLAG_DOMAIN then Some iccp_mclagsyncd_mclag_domain_cfg_handler
  else if type =? MCLAG_SYNCD_MSG_TYPE_CFG_MCLAG_IFACE then Some iccp_mclagsyncd_mclag_iface_cfg_handler
  else if type =? MCLAG_SYNCD_MSG_TYPE_CFG_MCLAG_UNIQUE_IP then Some iccp_mclagsyncd_mclag_unique_ip_cfg_handler
  else if type =? MCLAG_SYNCD_MSG_TYPE_VLAN_MBR_UPDATES then Some iccp_mclagsyncd_vlan_mbr_update_handler
  else None.

Definition iccp_mclagsyncd_msg_handler : M Rx Z := syncd_msg_handler syncd_dispatch.
End Commands.
