(* ===== verification/ConfigSpec.v ===== *)
(** What configuration does: the text form of the system MAC, the messages of
    mclagsyncd as the commands they encode, and the creation of a domain. *)

From Stdlib Require Import ZArith Lia.
From stdpp Require Import base list gmap numbers option strings.
From coqutil Require Import Byte Word.LittleEndianList.
From S2P Require Import Prelude CBuf State MsgFormat Wire CsmMsg Csm Port SyncPrepare Receive Syncd.
From S2P Require Import AppCsm MacTable Kernel Senders Neigh LinkMac Isolation LinkState SyncUpdate MlacpFsm Session.
From S2P Require Import Lifecycle SyncdRecv.
From S2P Require Import Config.

(** ** The system MAC, printed and parsed *)

Definition dash : byte := Byte.x2d.

(** [tolower] *)
Definition lower (c : byte) : byte :=
  let n := byte.unsigned c in if (65 <=? n) && (n <=? 90) then byte.of_Z (n + 32) else c.

Lemma hex_digit_value n : 0 <= n < 16 -> hex_value (hex_digit n) = Some n /\ is_nul (hex_digit n) = false.
Proof.
  intros H. rewrite <- (Z2Nat.id n) by lia. assert (Z.to_nat n < 16)%nat as Hn by lia.
  generalize dependent (Z.to_nat n). intros k Hk. do 16 (destruct k as [|k]; [by split|]). lia.
Qed.

Lemma nibbles h l : 0 <= h < 16 -> 0 <= l < 16 -> Z.lor (Z.shiftl h 4) l = 16 * h + l.
Proof.
  intros Hh Hl. rewrite <- (Z2Nat.id h), <- (Z2Nat.id l) by lia.
  assert (Z.to_nat h < 16)%nat as Ha by lia. assert (Z.to_nat l < 16)%nat as Hb by lia.
  generalize dependent (Z.to_nat h). generalize dependent (Z.to_nat l). clear. intros b Hb a Ha.
  do 16 (destruct a as [|a]; [do 16 (destruct b as [|b]; [reflexivity|]); lia|]). lia.
Qed.

Lemma hex2_digits c : exists hv lv, hex2 c = [hex_digit hv; hex_digit lv] /\ 0 <= hv < 16 /\ 0 <= lv < 16
  /\ byte.of_Z (Z.lor (Z.shiftl hv 4) lv) = c.
Proof.
  assert (Hc := byte.unsigned_range c). exists (byte.unsigned c / 16), (byte.unsigned c mod 16).
  assert (0 <= byte.unsigned c / 16 < 16) by (split; [apply Z.div_pos; lia|apply Z.div_lt_upper_bound; lia]).
  assert (0 <= byte.unsigned c mod 16 < 16) by (apply Z.mod_pos_bound; lia).
  split_and!; try done; try lia. rewrite nibbles, <- Z.div_mod by lia. apply byte.of_Z_unsigned.
Qed.

Lemma hex_value_lower c v : hex_value c = Some v -> lower c = hex_digit v /\ 0 <= v < 16.
Proof. destruct c; try discriminate; intros [= <-]; by split. Qed.

Lemma hex_pair h l hv lv : hex_value h = Some hv -> hex_value l = Some lv ->
  hex2 (byte.of_Z (Z.lor (Z.shiftl hv 4) lv)) = [lower h; lower l].
Proof.
  intros [-> Hhv]%hex_value_lower [-> Hlv]%hex_value_lower. rewrite nibbles by done. unfold hex2.
  rewrite byte.unsigned_of_Z. unfold byte.wrap. rewrite Z.mod_small by lia.
  rewrite (Z.add_comm _ lv), (Z.mul_comm 16), Z.div_add, Z.mod_add, Z.div_small, Z.mod_small by lia. done.
Qed.

Definition mac_sep (sep : byte) : Prop := sep = colon \/ sep = dash.

(** The twelve digits and five separators that the parser looks at. *)
Lemma parse_mac_digits sep b h0 l0 h1 l1 h2 l2 h3 l3 h4 l4 h5 l5 b0 b1 b2 b3 b4 b5 H0 L0 H1 L1 H2 L2 H3 L3 H4 L4 H5 L5 :
  mac_sep sep -> b = [b0; b1; b2; b3; b4; b5] ->
  hex_value h0 = Some H0 -> hex_value l0 = Some L0 -> hex_value h1 = Some H1 -> hex_value l1 = Some L1 ->
  hex_value h2 = Some H2 -> hex_value l2 = Some L2 -> hex_value h3 = Some H3 -> hex_value l3 = Some L3 ->
  hex_value h4 = Some H4 -> hex_value l4 = Some L4 -> hex_value h5 = Some H5 -> hex_value l5 = Some L5 ->
  let s := [h0; l0; sep; h1; l1; sep; h2; l2; sep; h3; l3; sep; h4; l4; sep; h5; l5] in
  cstr s = s ->
  parseMacString s b = ([byte.of_Z (Z.lor (Z.shiftl H0 4) L0); byte.of_Z (Z.lor (Z.shiftl H1 4) L1);
    byte.of_Z (Z.lor (Z.shiftl H2 4) L2); byte.of_Z (Z.lor (Z.shiftl H3 4) L3);
    byte.of_Z (Z.lor (Z.shiftl H4 4) L4); byte.of_Z (Z.lor (Z.shiftl H5 4) L5)], 0).
Proof.
  intros Hs -> Eh0 El0 Eh1 El1 Eh2 El2 Eh3 El3 Eh4 El4 Eh5 El5 s Ec. unfold parseMacString. rewrite Ec. unfold s.
  cbn [length nth Nat.eqb ETHER_ADDR_LEN Nat.mul Nat.add negb]. rewrite !Z.eqb_refl. cbn [andb negb].
  assert (negb (byte.unsigned sep =? 58) && negb (byte.unsigned sep =? 45) = false) as -> by (by destruct Hs as [-> | ->]).
  unfold ETHER_ADDR_LEN. cbn [parse_bytes nth Nat.mul Nat.add].
  rewrite Eh0, El0, Eh1, El1, Eh2, El2, Eh3, El3, Eh4, El4, Eh5, El5. done.
Qed.


Lemma list_of_6 {A} (l : list A) : length l = 6%nat -> exists a b c d e f, l = [a; b; c; d; e; f].
Proof. destruct l as [|? [|? [|? [|? [|? [|? [|]]]]]]]; simpl; try lia. eauto 10. Qed.

Lemma parse_printed sep mac b : mac_sep sep -> length mac = 6%nat -> length b = 6%nat ->
  parseMacString (joined_by sep (hex2 <$> mac)) b = (mac, 0).
Proof.
  intros Hs (c0 & c1 & c2 & c3 & c4 & c5 & ->)%list_of_6 (b0 & b1 & b2 & b3 & b4 & b5 & ->)%list_of_6. cbn [fmap list_fmap].
  destruct (hex2_digits c0) as (H0 & L0 & -> & Rh0 & Rl0 & <-), (hex2_digits c1) as (H1 & L1 & -> & Rh1 & Rl1 & <-),
    (hex2_digits c2) as (H2 & L2 & -> & Rh2 & Rl2 & <-), (hex2_digits c3) as (H3 & L3 & -> & Rh3 & Rl3 & <-),
    (hex2_digits c4) as (H4 & L4 & -> & Rh4 & Rl4 & <-), (hex2_digits c5) as (H5 & L5 & -> & Rh5 & Rl5 & <-).
  cbn [joined_by app]. eapply parse_mac_digits; try done; try by apply hex_digit_value.
  apply cstr_whole. cbn [existsb].
  repeat match goal with H : 0 <= ?x < 16 |- _ => rewrite (proj2 (hex_digit_value x H)); clear H end.
  by destruct Hs as [-> | ->].
Qed.

Lemma parse_accepts s b m : length b = 6%nat -> parseMacString s b = (m, 0) ->
  length m = 6%nat /\ exists sep, mac_sep sep /\ map lower (cstr s) = joined_by sep (hex2 <$> m).
Proof.
  intros Hb. unfold parseMacString. set (t := cstr s).
  destruct (Nat.eqb_spec (length t) (ETHER_ADDR_LEN * 2 + 5)) as [Hl|]; [|by intros [= _ ?]]. cbn [negb].
  destruct t as [|h0 [|l0 [|s0 [|h1 [|l1 [|s1 [|h2 [|l2 [|s2 [|h3 [|l3 [|s3 [|h4 [|l4 [|s4 [|h5 [|l5 [|]]]]]]]]]]]]]]]]]];
    simpl in Hl; try lia. cbn [nth].
  destruct ((byte.unsigned s0 =? byte.unsigned s1) && _ && _ && _) eqn:Es; [|by intros [= _ ?]].
  apply andb_prop in Es as [Es E4]. apply andb_prop in Es as [Es E3]. apply andb_prop in Es as [E1 E2].
  apply Z.eqb_eq, byte.unsigned_inj in E1, E2, E3, E4. subst s1 s2 s3 s4. cbn [negb].
  destruct (negb (byte.unsigned s0 =? 58) && negb (byte.unsigned s0 =? 45)) eqn:Esep; [by intros [= _ ?]|].
  assert (mac_sep s0 /\ lower s0 = s0) as [Hsep Hlow].
  { destruct s0; try discriminate; (split; [|done]); [by right|by left]. }
  destruct (list_of_6 b Hb) as (b0 & b1 & b2 & b3 & b4 & b5 & ->).
  unfold ETHER_ADDR_LEN. cbn [parse_bytes nth Nat.mul Nat.add].
  repeat (match goal with |- context [hex_value ?x] => destruct (hex_value x) as [?|] eqn:? end; [|by intros [= _ ?]]).
  intros [= <-]. split; [done|]. exists s0. split; [done|]. cbn [map fmap list_fmap joined_by insert list_insert].
  repeat match goal with H : hex_value ?h = Some ?a, H' : hex_value ?l = Some ?b |- context [byte.of_Z (Z.lor (Z.shiftl ?a 4) ?b)] =>
    rewrite (hex_pair h l a b H H') end.
  by rewrite Hlow.
Qed.

(** C38. Both separators, both cases of the digits, and nothing else. *)
Theorem mac_string_roundtrip :
  (forall sep mac b, mac_sep sep -> length mac = 6%nat -> length b = 6%nat ->
     parseMacString (joined_by sep (hex2 <$> mac)) b = (mac, 0))
  /\ (forall s b m, length b = 6%nat -> parseMacString s b = (m, 0) ->
     length m = 6%nat /\ exists sep, mac_sep sep /\ map lower (cstr s) = joined_by sep (hex2 <$> m)).
Proof. split; [apply parse_printed|apply parse_accepts]. Qed.

(** ** Configuration messages, encoded and applied *)

Section Records.
Context {R : Type} (enc : R -> buf) (size : nat) (g : R -> M World unit) (f : buf -> unit -> M World unit).
Context (ok : R -> Prop) (Hsize : forall r, ok r -> length (enc r) = size) (Hpos : (0 < size)%nat).

Lemma records_enc rs : Forall ok rs ->
  (forall r rest, ok r -> f (enc r ++ rest) tt = g r) ->
  forall fuel i rest w, (length rs <= fuel)%nat ->
  records fuel i (i + Z.of_nat (length rs)) size f (concat (enc <$> rs) ++ rest) tt w = foreach g rs w.
Proof.
  intros Hok Hf. induction Hok as [|r rs Hr Hok IH]; intros fuel i rest w Hfuel.
  - destruct fuel; cbn [records length]; rewrite Z.geb_leb, (proj2 (Z.leb_le _ _)) by lia; done.
  - destruct fuel as [|fuel]; [simpl in Hfuel; lia|]. cbn [records length foreach].
    rewrite Z.geb_leb, (proj2 (Z.leb_gt _ _)) by lia. cbn [fmap list_fmap concat].
    rewrite <- app_assoc, Hf by done. unfold mbind, M_bind. destruct (g r w) as [[[] w']|]; [|done].
    rewrite <- (Hsize r Hr), drop_app_length. rewrite <- (IH fuel (i + 1) rest w') by (simpl in Hfuel; lia).
    rewrite (Hsize r Hr). f_equal. lia.
Qed.

Lemma concat_enc_length rs : Forall ok rs -> length (concat (enc <$> rs)) = (length rs * size)%nat.
Proof.
  induction 1 as [|r rs Hr _ IH]; [done|]. cbn [fmap list_fmap concat length].
  rewrite length_app, (Hsize r Hr), IH. lia.
Qed.

(** A message of records, whatever lies behind it in the buffer. *)
Lemma for_records_enc rs ty rest w : Forall ok rs ->
  (forall r rest, ok r -> f (enc r ++ rest) tt = g r) -> 4 + Z.of_nat (length rs * size) < 2 ^ 16 ->
  for_records size f (frame ty (concat (enc <$> rs)) ++ rest) tt w = foreach g rs w.
Proof.
  intros Hok Hf Hlen. assert (Hl := concat_enc_length rs Hok). unfold for_records.
  assert (Hb : 4 + Z.of_nat (length (concat (enc <$> rs))) < 2 ^ 16) by (rewrite Hl; exact Hlen).
  rewrite (bind_Some _ _ _ _ _ (lift_Some _ _ _ (frame_len ty (concat (enc <$> rs)) rest Hb))).
  assert (Hc : record_count (Z.of_nat size) (4 + Z.of_nat (length (concat (enc <$> rs)))) = 0 + Z.of_nat (length rs)).
  { unfold record_count, u64, s32. rewrite Hl.
    rewrite (Z.mod_small (_ - 4)) by lia. rewrite Nat2Z.inj_mul.
    replace (4 + Z.of_nat (length rs) * Z.of_nat size - 4) with (Z.of_nat (length rs) * Z.of_nat size) by lia.
    rewrite Z.div_mul by lia. rewrite Z.mod_small by nia. lia. }
  rewrite Hc. assert (Hd : drop hdr_sizeof (frame ty (concat (enc <$> rs)) ++ rest) = concat (enc <$> rs) ++ rest) by done.
  rewrite Hd. unfold mbind, M_bind. rewrite records_enc; [|done|done|].
  - destruct (foreach g rs w) as [[[] ?]|]; done.
  - rewrite length_app, frame_length, Hl. nia.
Qed.
End Records.

(** The records of the messages, as mclagsyncd lays them out. *)
Definition enc_domain (d : mclag_domain_cfg_info) : buf :=
  le_split 4 (dc_op_type d) ++ le_split 4 (dc_domain_id d) ++ le_split 4 (dc_keepalive_time d)
  ++ le_split 4 (dc_session_timeout d) ++ pad 16 (dc_local_ip d) ++ pad 16 (dc_peer_ip d)
  ++ pad 20 (dc_peer_ifname d) ++ dc_system_mac d ++ [Byte.x00; Byte.x00] ++ le_split 4 (dc_attr_bmap d).

(** Operation, domain and name; operation, VLAN and name. *)
Definition enc_named (r : Z * Z * buf) : buf := le_split 4 r.1.1 ++ le_split 4 r.1.2 ++ pad 20 r.2.

Definition int_ok (x : Z) : Prop := - 2 ^ 31 <= x < 2 ^ 31.
Definition str_ok (n : nat) (s : buf) : Prop := (length s < n)%nat /\ existsb is_nul s = false.

Record domain_ok (d : mclag_domain_cfg_info) : Prop := mk_domain_ok {
  do_op : int_ok (dc_op_type d);
  do_id : int_ok (dc_domain_id d);
  do_ka : int_ok (dc_keepalive_time d);
  do_st : int_ok (dc_session_timeout d);
  do_attr : int_ok (dc_attr_bmap d);
  do_lip : str_ok 16 (dc_local_ip d);
  do_pip : str_ok 16 (dc_peer_ip d);
  do_pif : str_ok 20 (dc_peer_ifname d);
  do_mac : length (dc_system_mac d) = 6%nat;
}.
Definition iface_ok (r : Z * Z * buf) : Prop := int_ok r.1.1 /\ int_ok r.1.2 /\ str_ok 20 r.2.
Definition member_ok (r : Z * Z * buf) : Prop := int_ok r.1.1 /\ 0 <= r.1.2 < 2 ^ 32 /\ str_ok 20 r.2.

Lemma rd_int_head x c r : int_ok x -> c = le_split 4 x -> rd_int 0 (c ++ r) = Some x.
Proof.
  intros Hx ->. unfold rd_int, rd32. rewrite rd_head by len. cbn [fmap option_fmap option_map].
  rewrite le_combine_split. f_equal. unfold s32, int_ok in *. change (2 ^ (Z.of_nat 4 * 8)) with (2 ^ 32).
  rewrite Zplus_mod_idemp_l, Z.mod_small by lia. lia.
Qed.
Lemma rd_int_skip off c r k : length c = k -> (k <= off)%nat -> rd_int off (c ++ r) = rd_int (off - k) r.
Proof. intros. unfold rd_int, rd32. by rewrite (rd_skip off 4 c r k). Qed.

Lemma has_nul_app_nul s r : has_nul (s ++ Byte.x00 :: r) = true.
Proof. unfold has_nul. rewrite existsb_app. cbn. apply orb_true_r. Qed.

Lemma rd_str_head n s r : str_ok n s -> rd_str 0 (pad n s ++ r) = Some s.
Proof.
  intros [Hl Hn]. unfold rd_str, pad. rewrite drop_0. replace (n - length s)%nat with (S (n - length s - 1)) by lia.
  cbn [replicate]. rewrite <- app_assoc. cbn [app]. by rewrite has_nul_app_nul, cstr_ends.
Qed.
Lemma rd_str_skip off c r k : length c = k -> (k <= off)%nat -> rd_str off (c ++ r) = rd_str (off - k) r.
Proof. intros <- H. unfold rd_str. by rewrite drop_app_ge by lia. Qed.

Ltac skip_members := repeat first
  [ erewrite rd_int_skip; [cbn [Nat.sub] | elen | lia]
  | erewrite rd_str_skip; [cbn [Nat.sub] | elen | lia]
  | erewrite rd_skip; [cbn [Nat.sub] | elen | lia] ].

Lemma str_pad_length n s : str_ok n s -> length (pad n s) = n.
Proof. intros [H _]. apply pad_length. lia. Qed.
Lemma str_pad_length' n s : str_ok n s -> str_ok n s /\ length (pad n s) = n.
Proof. auto using str_pad_length. Qed.

Lemma rd_domain_enc d r : domain_ok d -> rd_domain_cfg (enc_domain d ++ r) = Some d.
Proof.
  intros [H1 H2 H3 H4 H5 L1%str_pad_length' L2%str_pad_length' L3%str_pad_length' Hm]. destruct L1 as [S1 L1], L2 as [S2 L2], L3 as [S3 L3].
  set (b := enc_domain d ++ r). assert (Eb : b = enc_domain d ++ r) by done.
  unfold enc_domain in Eb. rewrite <- !app_assoc in Eb.
  assert (E1 : rd_int 0 b = Some (dc_op_type d)) by (rewrite Eb; by apply rd_int_head).
  assert (E2 : rd_int 4 b = Some (dc_domain_id d)) by (rewrite Eb; skip_members; by apply rd_int_head).
  assert (E3 : rd_int 8 b = Some (dc_keepalive_time d)) by (rewrite Eb; skip_members; by apply rd_int_head).
  assert (E4 : rd_int 12 b = Some (dc_session_timeout d)) by (rewrite Eb; skip_members; by apply rd_int_head).
  assert (E5 : rd_str 16 b = Some (dc_local_ip d)) by (rewrite Eb; skip_members; by apply rd_str_head).
  assert (E6 : rd_str 32 b = Some (dc_peer_ip d)) by (rewrite Eb; skip_members; by apply rd_str_head).
  assert (E7 : rd_str 48 b = Some (dc_peer_ifname d)) by (rewrite Eb; skip_members; by apply rd_str_head).
  assert (E8 : rd 68 6 b = Some (dc_system_mac d)) by (rewrite Eb; skip_members; by apply rd_head).
  assert (E9 : rd_int 76 b = Some (dc_attr_bmap d)) by (rewrite Eb; skip_members; by apply rd_int_head).
  unfold rd_domain_cfg. rewrite E1, E2, E3, E4, E5, E6, E7, E8, E9. by destruct d.
Qed.

Lemma enc_domain_length d : domain_ok d -> length (enc_domain d) = 80%nat.
Proof.
  intros [_ _ _ _ _ L1%str_pad_length L2%str_pad_length L3%str_pad_length Hm]. unfold enc_domain.
  rewrite !length_app, L1, L2, L3, Hm, !length_le_split. done.
Qed.
Lemma enc_named_length r : str_ok 20 r.2 -> length (enc_named r) = 28%nat.
Proof. intros L%str_pad_length. unfold enc_named. rewrite !length_app, L, !length_le_split. done. Qed.

Lemma s32_u32_small x : int_ok x -> s32 (x mod 2 ^ 32) = x.
Proof. unfold s32, int_ok. intros H. rewrite Zplus_mod_idemp_l, Z.mod_small by lia. lia. Qed.

Lemma named_fields op id name tl : int_ok op -> str_ok 20 name ->
  let b := enc_named (op, id, name) ++ tl in
  rd_int 0 b = Some op /\ rd32 4 b = Some (id mod 2 ^ 32) /\ rd_str 8 b = Some name.
Proof.
  intros H1 H3. assert (L := str_pad_length _ _ H3). unfold enc_named. cbn [fst snd]. rewrite <- !app_assoc.
  split_and!.
  - by apply rd_int_head.
  - unfold rd32. skip_members. rewrite rd_head by len. cbn. by rewrite le_combine_split.
  - skip_members. by apply rd_str_head.
Qed.

Lemma domain_message_applied team_ports rand ds rest w :
  Forall domain_ok ds -> 4 + Z.of_nat (length ds * 80) < 2 ^ 16 ->
  iccp_mclagsyncd_mclag_domain_cfg_handler team_ports rand
    (frame MCLAG_SYNCD_MSG_TYPE_CFG_MCLAG_DOMAIN (concat (enc_domain <$> ds)) ++ rest) w
  = foreach (domain_cfg team_ports rand) ds w.
Proof.
  intros Hok Hlen. apply (for_records_enc enc_domain 80 _ _ domain_ok); [apply enc_domain_length|lia|done| |done].
  intros r tl Hr. by rewrite (rd_domain_enc r tl Hr).
Qed.

Lemma iface_message_applied team_ports rs rest w :
  Forall iface_ok rs -> 4 + Z.of_nat (length rs * 28) < 2 ^ 16 ->
  iccp_mclagsyncd_mclag_iface_cfg_handler team_ports
    (frame MCLAG_SYNCD_MSG_TYPE_CFG_MCLAG_IFACE (concat (enc_named <$> rs)) ++ rest) w
  = foreach (fun r => iface_cfg team_ports r.1.1 r.1.2 r.2) rs w.
Proof.
  intros Hok Hlen.
  apply (for_records_enc enc_named 28 _ _ iface_ok); [intros r Hr; apply enc_named_length, Hr|lia|done| |done].
  intros [[op id] name] tl (H1 & H2 & H3). destruct (named_fields op id name tl H1 H3) as (E1 & E2 & E3).
  rewrite E1, E3. unfold rd_int. rewrite E2. cbn [fmap option_fmap option_map fst snd].
  rewrite s32_u32_small by done. done.
Qed.

Lemma member_message_applied team_ports rs rest w :
  Forall member_ok rs -> 4 + Z.of_nat (length rs * 28) < 2 ^ 16 ->
  iccp_mclagsyncd_vlan_mbr_update_handler team_ports
    (frame MCLAG_SYNCD_MSG_TYPE_VLAN_MBR_UPDATES (concat (enc_named <$> rs)) ++ rest) w
  = foreach (fun r => vlan_mbr_update team_ports r.1.1 r.1.2 r.2) rs w.
Proof.
  intros Hok Hlen.
  apply (for_records_enc enc_named 28 _ _ member_ok); [intros r Hr; apply enc_named_length, Hr|lia|done| |done].
  intros [[op id] name] tl (H1 & H2 & H3). destruct (named_fields op id name tl H1 H3) as (E1 & E2 & E3).
  rewrite E1, E2, E3. by rewrite Z.mod_small by done.
Qed.

(** C18. The handlers of mclagsyncd's configuration messages do, record by record,
    what was encoded. *)
Theorem config_messages_applied team_ports rand rest w :
  (forall ds, Forall domain_ok ds -> 4 + Z.of_nat (length ds * 80) < 2 ^ 16 ->
     iccp_mclagsyncd_mclag_domain_cfg_handler team_ports rand
       (frame MCLAG_SYNCD_MSG_TYPE_CFG_MCLAG_DOMAIN (concat (enc_domain <$> ds)) ++ rest) w
     = foreach (domain_cfg team_ports rand) ds w)
  /\ (forall rs, Forall iface_ok rs -> 4 + Z.of_nat (length rs * 28) < 2 ^ 16 ->
     iccp_mclagsyncd_mclag_iface_cfg_handler team_ports
       (frame MCLAG_SYNCD_MSG_TYPE_CFG_MCLAG_IFACE (concat (enc_named <$> rs)) ++ rest) w
     = foreach (fun r => iface_cfg team_ports r.1.1 r.1.2 r.2) rs w)
  /\ (forall rs, Forall member_ok rs -> 4 + Z.of_nat (length rs * 28) < 2 ^ 16 ->
     iccp_mclagsyncd_vlan_mbr_update_handler team_ports
       (frame MCLAG_SYNCD_MSG_TYPE_VLAN_MBR_UPDATES (concat (enc_named <$> rs)) ++ rest) w
     = foreach (fun r => vlan_mbr_update team_ports r.1.1 r.1.2 r.2) rs w).
Proof.
  split_and!; intros; [by apply domain_message_applied|by apply iface_message_applied|by apply member_message_applied].
Qed.

(** ** A new domain *)

(** Every listed CSM exists, and every CSM is listed. *)
Definition csms_listed (w : World) : Prop :=
  NoDup (sys_csm_list (w_sys w)) /\ forall c, c ∈ sys_csm_list (w_sys w) <-> is_Some (w_csms w !! c).

Definition put_csm (c : ptr) (x : CSM) (w : World) : World := w <| w_csms ::= <[c := x]> |>.

Lemma csm_by_none P cs w :
  (forall c, c ∈ cs -> exists x, w_csms w !! c = Some x /\ P x = false) -> csm_by P cs w = Some (None, w).
Proof.
  induction cs as [|c cs IH]; intros H; [done|]. destruct (H c) as (x & Ex & Px); [set_solver|]. cbn [csm_by].
  rewrite (bind_Some _ _ _ x w) by (unfold get_csm; by rewrite Ex). rewrite Px. apply IH. set_solver.
Qed.

Lemma with_domain_head mid f c cs x w :
  sys_csm_list (w_sys w) = c :: cs -> w_csms w !! c = Some x -> ml_id (MLACP x) = mid ->
  with_domain mid f w = f c w.
Proof.
  intros El Ex Hid. unfold with_domain, system_get_csm_by_mlacp_id, find_csm.
  rewrite (bind_Some _ _ _ (Some c) w); [done|]. rewrite (bind_Some _ _ _ (w_sys w) w) by done. rewrite El. cbn [csm_by].
  rewrite (bind_Some _ _ _ x w) by (unfold get_csm; by rewrite Ex). by rewrite (proj2 (Z.eqb_eq _ _) Hid).
Qed.

Lemma set_csm_eq c f x w : w_csms w !! c = Some x -> set_csm c f w = Some (tt, put_csm c (f x) w).
Proof. intros E. unfold set_csm. rewrite E. done. Qed.
Lemma get_csm_eq c x w : w_csms w !! c = Some x -> get_csm c w = Some (x, w).
Proof. intros E. unfold get_csm. by rewrite E. Qed.
Lemma put_csm_at c x w : w_csms (put_csm c x w) !! c = Some x.
Proof. unfold put_csm. repeat unfold set; cbn. apply lookup_insert_eq. Qed.
Lemma put_put_csm c x y w : put_csm c x (put_csm c y w) = put_csm c x w.
Proof. unfold put_csm. repeat unfold set; cbn. by rewrite insert_insert_eq. Qed.

Lemma foreach_set_csm f cs w : (forall c, c ∈ cs -> is_Some (w_csms w !! c)) -> NoDup cs ->
  foreach (fun c => set_csm c f) cs w
  = Some (tt, w <| w_csms ::= map_imap (fun c x => Some (if bool_decide (c ∈ cs) then f x else x)) |>).
Proof.
  revert w. induction cs as [|c cs IH]; intros w Hl Hn.
  { cbn [foreach]. unfold mret, M_ret. do 2 f_equal. destruct w as [y cm lm g]. repeat unfold set; cbn. f_equal.
    apply map_eq. intros c. rewrite map_lookup_imap. by destruct (cm !! c). }
  cbn [foreach]. apply NoDup_cons in Hn as [Hc Hn]. destruct (Hl c) as [x Ex]; [set_solver|].
  rewrite (bind_Some _ _ _ _ _ (set_csm_eq c f x w Ex)), IH; [|intros c' Hc'|done].
  2: { unfold put_csm. repeat unfold set; cbn. destruct (decide (c = c')) as [->|]; [by rewrite lookup_insert_eq|].
       rewrite lookup_insert_ne by done. apply Hl. set_solver. }
  do 2 f_equal. destruct w as [y cm lm g]. unfold put_csm. repeat unfold set; cbn in *. f_equal.
  apply map_eq. intros c'. rewrite !map_lookup_imap. destruct (decide (c = c')) as [<-|Hne].
  - rewrite lookup_insert_eq, Ex. cbn. rewrite (bool_decide_eq_false_2 _ Hc).
    by rewrite (bool_decide_eq_true_2 (c ∈ c :: cs)) by set_solver.
  - rewrite lookup_insert_ne by done. destruct (cm !! c'); [|done]. cbn. do 2 f_equal.
    destruct (decide (c' ∈ cs)); [rewrite !bool_decide_eq_true_2 by set_solver|rewrite !bool_decide_eq_false_2 by set_solver]; done.
Qed.

Definition with_system_id (mac : buf) (x : CSM) : CSM := set_MLACP (fun m => m <| ml_system_id := mac |>) x.

(** Every CSM gets the address; those before had six bytes of one, too. *)
Lemma set_local_system_id_all mac w : csms_listed w -> length mac = 6%nat ->
  map_Forall (fun _ x => length (ml_system_id (MLACP x)) = 6%nat) (w_csms w) ->
  set_local_system_id (mac_addr_to_str mac) w = Some (0, w <| w_csms ::= fmap (with_system_id mac) |>).
Proof.
  intros [Hn Hl] Hm H6. unfold set_local_system_id, the_sys. erewrite bind_Some by reflexivity.
  erewrite bind_Some by (apply foreach_set_csm; [intros c Hc; by apply Hl|exact Hn]).
  unfold mret, M_ret. do 2 f_equal. destruct w as [y cm lm g]. repeat unfold set; cbn in *. f_equal.
  apply map_eq. intros c. rewrite map_lookup_imap, lookup_fmap. destruct (cm !! c) as [x|] eqn:Ex; [|done]. cbn.
  rewrite bool_decide_eq_true_2 by (apply Hl; eauto). f_equal. unfold with_system_id, set_MLACP. repeat unfold set; cbn.
  unfold mac_addr_to_str, SET_MAC_STR. rewrite take_ge by (rewrite Hm; done).
  rewrite (parse_printed colon mac) by first [by left|done|apply (H6 c x Ex)]. done.
Qed.

Definition identified (id : Z) (x : CSM) : CSM :=
  set_MLACP (fun m => m <| ml_id := id |>)
    (set_info (fun i => i <| icc_rg_id := id |>) (x <| csm_mlag_id := id |>)).
Definition with_local_ip (ip : buf) (x : CSM) : CSM :=
  set_info (fun i => i <| sender_name ::= fun n => set_string INET_ADDRSTRLEN ip ++ drop INET_ADDRSTRLEN n |>)
    (x <| csm_sender_ip := set_string INET_ADDRSTRLEN ip |>).
Definition with_peer_ip (ip : buf) (x : CSM) : CSM := x <| csm_peer_ip := set_string INET_ADDRSTRLEN ip |>.

(** The CSM that the attributes of the message describe. *)
Definition configured_csm (rand : Z) (d : mclag_domain_cfg_info) : CSM :=
  let opt a f x := if attr_set d a then f x else x in
  opt MCLAG_CFG_ATTR_SESSION_TIMEOUT
    (fun x => x <| csm_session_timeout := if dc_session_timeout d =? -1 then HEARTBEAT_TIMEOUT_SEC else dc_session_timeout d |>)
  (opt MCLAG_CFG_ATTR_KEEPALIVE_INTERVAL
    (fun x => x <| csm_keepalive_time := if dc_keepalive_time d =? -1 then CONNECT_INTERVAL_SEC else dc_keepalive_time d |>)
  (opt MCLAG_CFG_ATTR_PEER_ADDR (with_peer_ip (dc_peer_ip d))
  (opt MCLAG_CFG_ATTR_SRC_ADDR (with_local_ip (dc_local_ip d))
    (with_system_id (dc_system_mac d) (identified (dc_domain_id d) (iccp_csm_init rand)))))).

Section NewDomain.
Context (c : ptr) (cs : list ptr) (W : World) (id : Z).
Context (Hlist : sys_csm_list (w_sys W) = c :: cs).

Lemma domain_at x f : ml_id (MLACP x) = id -> with_domain id f (put_csm c x W) = f c (put_csm c x W).
Proof. intros H. eapply with_domain_head; [exact Hlist|apply put_csm_at|exact H]. Qed.

Lemma set_at f x : set_csm c f (put_csm c x W) = Some (tt, put_csm c (f x) W).
Proof. rewrite (set_csm_eq c f x) by apply put_csm_at. by rewrite put_put_csm. Qed.
Lemma get_at x : get_csm c (put_csm c x W) = Some (x, put_csm c x W).
Proof. apply get_csm_eq, put_csm_at. Qed.

Lemma set_local_address_new x ip : ml_id (MLACP x) = id -> strlen (csm_sender_ip x) = 0 -> str_ok 16 ip ->
  set_local_address id ip (put_csm c x W) = Some (0, put_csm c (with_local_ip ip x) W).
Proof.
  intros Hid Hs [Hl Hn]. unfold set_local_address. rewrite domain_at by done.
  rewrite (bind_Some _ _ _ _ _ (get_at x)), Hs. cbn [negb Z.eqb andb when].
  erewrite bind_Some by reflexivity. rewrite (bind_Some _ _ _ _ _ (set_at _ x)).
  unfold strlen. rewrite (cstr_whole ip Hn). rewrite Z.gtb_ltb, (proj2 (Z.ltb_ge _ _)) by (unfold INET_ADDRSTRLEN; lia).
  rewrite (bind_Some _ _ _ _ _ (set_at _ _)), (bind_Some _ _ _ _ _ (set_at _ _)). done.
Qed.

Lemma set_peer_address_new x ip : ml_id (MLACP x) = id -> strlen (csm_peer_ip x) = 0 -> str_ok 16 ip ->
  set_peer_address id ip (put_csm c x W) = Some (0, put_csm c (with_peer_ip ip x) W).
Proof.
  intros Hid Hs [Hl Hn]. unfold set_peer_address. rewrite domain_at by done.
  rewrite (bind_Some _ _ _ _ _ (get_at x)), Hs. cbn [negb Z.eqb andb when].
  erewrite bind_Some by reflexivity. rewrite (bind_Some _ _ _ _ _ (set_at _ x)).
  unfold strlen. rewrite (cstr_whole ip Hn). rewrite Z.gtb_ltb, (proj2 (Z.ltb_ge _ _)) by (unfold INET_ADDRSTRLEN; lia).
  rewrite (bind_Some _ _ _ _ _ (set_at _ _)). done.
Qed.

Lemma set_keepalive_time_new x t : ml_id (MLACP x) = id -> csm_heartbeat_send_time x = 0 ->
  set_keepalive_time id t (put_csm c x W) = Some (0, put_csm c (x <| csm_keepalive_time := t |>) W).
Proof.
  intros Hid Hh. unfold set_keepalive_time. rewrite domain_at by done. rewrite (bind_Some _ _ _ _ _ (get_at x)).
  destruct (Z.eqb_spec (csm_keepalive_time x) t) as [E|E]; cbn [negb when].
  - erewrite bind_Some by reflexivity. unfold mret, M_ret. do 3 f_equal. destruct x. cbn in *. by subst.
  - rewrite (bind_Some _ _ _ _ _ (set_at _ x)). unfold mret, M_ret. do 3 f_equal. destruct x. cbn in *. by subst.
Qed.

Lemma set_session_timeout_new x t : ml_id (MLACP x) = id ->
  set_session_timeout id t (put_csm c x W) = Some (0, put_csm c (x <| csm_session_timeout := t |>) W).
Proof. intros Hid. unfold set_session_timeout. rewrite domain_at by done. by rewrite (bind_Some _ _ _ _ _ (set_at _ x)). Qed.
End NewDomain.

(** The process with the new domain: a CSM at an address that was free, with the
    attributes of the message, and the system address of all CSMs. *)
Definition domain_added (rand : Z) (d : mclag_domain_cfg_info) (w : World) : World :=
  let c := malloc (dom (w_csms w)) in
  put_csm c (configured_csm rand d)
    (w <| w_csms ::= fmap (with_system_id (dc_system_mac d)) |> <| w_sys ::= fun y => y <| sys_csm_list ::= cons c |> |>).

Lemma opt_step (b : bool) (m : M World Z) f c x W :
  (b = true -> m (put_csm c x W) = Some (0, put_csm c (f x) W)) ->
  when b (m;; mret tt) (put_csm c x W) = Some (tt, put_csm c (if b then f x else x) W).
Proof. destruct b; [|done]. intros H. cbn [when]. by rewrite (bind_Some _ _ _ _ _ (H eq_refl)). Qed.

(** The two commands that every addition runs. *)
Lemma domain_created rand id w : csms_listed w -> 0 <= id < 2 ^ 16 ->
  map_Forall (fun _ x => ml_id (MLACP x) <> id) (w_csms w) ->
  let c := malloc (dom (w_csms w)) in
  set_mc_lag_by_id rand (u16 id) w
  = Some (0, put_csm c (identified id (iccp_csm_init rand)) (w <| w_sys ::= fun y => y <| sys_csm_list ::= cons c |> |>)).
Proof.
  intros [Hn Hl] Hid Hall c. unfold u16. rewrite Z.mod_small by done.
  unfold set_mc_lag_by_id, system_get_csm_by_mlacp_id, find_csm. rewrite (bind_Some _ _ _ None w).
  2: { unfold the_sys. erewrite bind_Some by reflexivity. apply csm_by_none. intros c' [x Ex]%Hl.
       exists x. split; [done|]. apply Z.eqb_neq, (Hall c' x Ex). }
  erewrite bind_Some by reflexivity. unfold set_mc_lag_id.
  erewrite bind_Some by (apply set_csm_eq; repeat unfold set; cbn; apply lookup_insert_eq).
  unfold mret, M_ret. do 2 f_equal. fold c. unfold put_csm. repeat unfold set; cbn. by rewrite insert_insert_eq.
Qed.

Lemma domain_addressed mac c x w : csms_listed w -> w_csms w !! c = None -> length mac = 6%nat ->
  length (ml_system_id (MLACP x)) = 6%nat ->
  map_Forall (fun _ x => length (ml_system_id (MLACP x)) = 6%nat) (w_csms w) ->
  set_local_system_id (mac_addr_to_str mac) (put_csm c x (w <| w_sys ::= fun y => y <| sys_csm_list ::= cons c |> |>))
  = Some (0, put_csm c (with_system_id mac x)
      (w <| w_csms ::= fmap (with_system_id mac) |> <| w_sys ::= fun y => y <| sys_csm_list ::= cons c |> |>)).
Proof.
  intros [Hn Hl] Hfresh Hmac Hx Hall. rewrite set_local_system_id_all; [|split|done|].
  - do 2 f_equal. unfold put_csm. repeat unfold set; cbn. f_equal. by rewrite fmap_insert.
  - repeat unfold set; cbn. apply NoDup_cons. split; [|done]. intros Hc%Hl. rewrite Hfresh in Hc. by destruct Hc.
  - intros c'. unfold put_csm. repeat unfold set; cbn. rewrite elem_of_cons, Hl.
    destruct (decide (c = c')) as [<-|Hne]; [rewrite lookup_insert_eq|rewrite lookup_insert_ne by done]; split; [by eauto|by left| |by right].
    by intros [->|?].
  - unfold put_csm. repeat unfold set; cbn. by apply map_Forall_insert_2.
Qed.

