(* ===== verification/Learn.v ===== *)
(** Neighbours that this switch learns itself: from the kernel's table and from
    ARP and ND packets ([iccp_ifm.c] and the packet handlers of
    [iccp_netlink.c]).

    The C code has a copy of each function for ARP and for ND; as in [Neigh] they
    are instances of one definition, and where the copies differ the definition
    looks at the kind. *)

From Stdlib Require Import ZArith Lia.
From stdpp Require Import base list gmap numbers option strings.
From coqutil Require Import Byte Word.LittleEndianList.
From S2P Require Import Prelude CBuf State MsgFormat Wire CsmMsg Csm Port SyncPrepare Receive Syncd.
From S2P Require Import AppCsm MacTable Kernel Senders Neigh LinkMac Isolation LinkState SyncUpdate MlacpFsm Session.
From S2P Require Import Lifecycle.

Definition MAX_BUFSIZE : Z := 4096.
Definition NEIGH_SYNC_LIF : Z := 0.
Definition NEIGH_LOCAL : Z := 1.
Definition bcast_mac : buf := replicate 6 Byte.xff.

Definition RTM_NEWNEIGH : Z := 28.
Definition RTM_DELNEIGH : Z := 29.
Definition NLMSG_DONE : Z := 3.
Definition NUD_NONE : Z := 0.
Definition NUD_INCOMPLETE : Z := 0x01.
Definition NUD_FAILED : Z := 0x20.
Definition NUD_NOARP : Z := 0x40.
Definition NUD_PERMANENT : Z := 0x80.
Definition RTN_UNICAST : Z := 1.
Definition NDA_DST : Z := 1.
Definition NDA_LLADDR : Z := 2.

(** ** Where an address belongs *)

(** The interface of the VLAN is the one with the index. *)
Definition vlan_matches (vlan_id ifindex : Z) (i : LocalInterface) : M World (option VLAN_ID) :=
  match vlan_find vlan_id (lif_vlan_tree i) with
  | None => mret None
  | Some v =>
      match vlan_itf v with
      | None => mret None
      | Some p => vi ← w_get_lif p; mret (if lif_ifindex vi =? ifindex then Some v else None)
      end
  end.

(** A port channel of the CSM: the interface itself, or one that carries its
    VLAN. *)
Fixpoint owner_port (vlan_id ifindex : Z) (ls : list ptr) : M World (option (option VLAN_ID)) :=
  match ls with
  | [] => mret None
  | l :: ls' =>
      i ← w_get_lif l;
      if negb (lif_type i =? IF_T_PORT_CHANNEL) then owner_port vlan_id ifindex ls'
      else if local_if_is_l3_mode i then
        if lif_ifindex i =? ifindex then mret (Some None) else owner_port vlan_id ifindex ls'
      else
        ov ← vlan_matches vlan_id ifindex i;
        match ov with
        | Some v => mret (Some (Some v))
        | None => owner_port vlan_id ifindex ls'
        end
  end.

(** The peer link carries the VLAN. *)
Definition owner_link (vlan_id ifindex : Z) (csm : CSM) : M World (option (option VLAN_ID)) :=
  match csm_peer_link_if csm with
  | None => mret None
  | Some pl =>
      i ← w_get_lif pl;
      if local_if_is_l3_mode i then mret None
      else ov ← vlan_matches vlan_id ifindex i; mret (Some <$> ov)
  end.

(** The CSM, and the VLAN when the interface is one. *)
Fixpoint neigh_owner (vlan_id ifindex : Z) (cs : list ptr) : M World (option (ptr * option VLAN_ID)) :=
  match cs with
  | [] => mret None
  | c :: cs' =>
      csm ← get_csm c;
      r ← owner_port vlan_id ifindex (ml_lif_list (MLACP csm));
      match r with
      | Some ov => mret (Some (c, ov))
      | None =>
          r ← owner_link vlan_id ifindex csm;
          match r with
          | Some ov => mret (Some (c, ov))
          | None => neigh_owner vlan_id ifindex cs'
          end
      end
  end.

(** An address of the VLAN interface itself. *)
Definition own_vlan_ip (k : NeighKind) (ov : option VLAN_ID) (ip : buf) : M World bool :=
  match ov with
  | None => mret false
  | Some v =>
      match vlan_itf v with
      | None => mret false
      | Some p =>
          if vlan_vid v =? 0 then mret false
          else vi ← w_get_lif p; mret (own_ip k vi ip || own_ll k vi ip)
      end
  end.

(** ** The list of known neighbours and the queue *)

Fixpoint neigh_find (k : NeighKind) (ip : buf) (l : list Msg) : option (option Msg) :=
  match l with
  | [] => Some None
  | msg :: l' => h ← has_ip k ip msg; if h : bool then Some (Some msg) else neigh_find k ip l'
  end.

(** Does the entry differ from the struct [b] in operation, interface or MAC? *)
Definition neigh_differs (k : NeighKind) (b e : buf) : option bool :=
  op ← nk_get_op 0 b; op' ← nk_get_op 0 e;
  nm ← nk_get_ifname 0 b; nm' ← nk_get_ifname 0 e;
  mac ← nk_get_mac k 0 b; mac' ← nk_get_mac k 0 e;
  Some (negb (op' =? op) || negb (streq nm' nm) || bool_decide (mac' <> mac)).

Definition neigh_rewrite (k : NeighKind) (b : buf) (msg : Msg) : option Msg :=
  op ← nk_get_op 0 b; nm ← nk_get_ifname 0 b; mac ← nk_get_mac k 0 b;
  e ← wr8 0 op (msg_buf msg);
  e ← sprintf_s 3 nm e;
  e ← nk_set_mac k 0 mac e;
  Some (msg <| msg_buf := e |>).

Definition on_table (k : NeighKind) (c : ptr) (f : list Msg -> option (list Msg)) : M World unit :=
  csm ← get_csm c;
  t ← lift (f (nk_table k (MLACP csm)));
  set_csm c (set_MLACP (nk_set_table k t)).

(** The known entry with the address is changed by [f], or goes. *)
Definition on_entry (k : NeighKind) (c : ptr) (ip : buf) (f : Msg -> option (list Msg)) : M World unit :=
  on_table k c (fun t => r ← neigh_update k ip f t; Some r.2).

(** A new entry. *)
Definition neigh_new (k : NeighKind) (c : ptr) (b : buf) : M World buf :=
  b ← lift (wr8 0 NEIGH_SYNC_LIF b);
  b ← lift (wr8 2 NEIGH_LOCAL b);
  m ← lift (iccp_csm_init_msg b (Z.of_nat (nk_size k)));
  match m with
  | inr m => on_table k c (neigh_enqueue k m)
  | inl _ => mret tt
  end;;
  mret b.

(** To the peer, while the switches are synchronised. *)
Definition neigh_tell (k : NeighKind) (c : ptr) (op : Z) (b : buf) : M World unit :=
  csm ← get_csm c;
  when (bool_decide (ml_current_state (MLACP csm) = MLACP_STATE_EXCHANGE))
    (b ← lift (wr8 0 op b);
     b ← lift (wr8 1 0 b);
     m ← lift (iccp_csm_init_msg b (Z.of_nat (nk_size k)));
     match m with
     | inr m => set_csm c (set_MLACP (fun x => nk_set_queue k (nk_queue k x ++ [m]) x))
     | inl _ => mret tt
     end).

(** ** From the kernel's table *)

(** For ND the code compares the entry with itself. *)
Definition kernel_differs (k : NeighKind) (b e : buf) : option bool :=
  if nk_family k =? AF_INET then neigh_differs k b e else neigh_differs k e e.

(** What is known about the address, and what the peer is told. *)
Definition learn_from_kernel (k : NeighKind) (c : ptr) (del : bool) (b : buf) : M World unit :=
  csm ← get_csm c;
  ip ← lift (nk_get_ip k 0 b);
  e ← lift (neigh_find k ip (nk_table k (MLACP csm)));
  match e with
  | Some msg =>
      if del then on_entry k c ip (fun _ => Some []);; neigh_tell k c NEIGH_SYNC_DEL b
      else
        d ← lift (kernel_differs k b (msg_buf msg));
        when (d : bool)
          (on_entry k c ip (fun x => y ← neigh_rewrite k b x; Some [y]);; neigh_tell k c NEIGH_SYNC_ADD b)
  | None =>
      when (negb del) (b ← neigh_new k c b; neigh_tell k c NEIGH_SYNC_ADD b)
  end.

(** [memcpy(dst, RTA_DATA(rta), RTA_PAYLOAD(rta))] into the struct. *)
Definition Attr : Type := buf * Z.
Definition copy_attr (off : nat) (oa : option Attr) (b : buf) : option buf :=
  match oa with
  | None => Some b
  | Some (p, n) => x ← rd 0 (Z.to_nat n) p; wr off x b
  end.

Definition kernel_struct (k : NeighKind) (name : buf) (dst lladdr : option Attr) : option buf :=
  b ← wr8 0 NEIGH_SYNC_LIF (zeros MAX_BUFSIZE);
  b ← sprintf_s 3 name b;
  b ← copy_attr 24 dst b;
  copy_attr (24 + nk_ip_len k) lladdr b.

(** No address of the family is configured. *)
Definition no_ip (k : NeighKind) (i : LocalInterface) : bool :=
  if nk_family k =? AF_INET then lif_ipv4_addr i =? 0
  else bool_decide (ip6_bytes (lif_ipv6_addr i) = zeros 16).

Definition do_neigh_learn_from_kernel (k : NeighKind) (ifindex : Z) (dst lladdr : option Attr)
    (msgtype : Z) (is_del : bool) : M World unit :=
  ol ← find_by_ifindex ifindex;
  match ol with
  | None => mret tt
  | Some l =>
      i ← w_get_lif l;
      b ← lift (kernel_struct k (lif_name i) dst (if is_del then None else lladdr));
      mac ← lift (nk_get_mac k 0 b);
      let del := msgtype =? RTM_DELNEIGH in
      let bcast := bool_decide (mac = bcast_mac) in
      if negb del && no_ip k i then mret tt
      else if bcast && negb (nk_family k =? AF_INET) then mret tt
      else
        nm ← lift (nk_get_ifname 0 b);
        y ← the_sys;
        o ← neigh_owner (u16 (default 0 (scan_after VLAN_PREFIX nm))) ifindex (sys_csm_list y);
        match o with
        | None => mret tt
        | Some (c, ov) =>
            ip ← lift (nk_get_ip k 0 b);
            mine ← own_vlan_ip k ov ip;
            if mine : bool then mret tt else learn_from_kernel k c (del || bcast) b
        end
  end.

Definition do_arp_learn_from_kernel := do_neigh_learn_from_kernel ARP.
Definition do_ndisc_learn_from_kernel := do_neigh_learn_from_kernel ND.

(** ** Messages of the kernel *)

Definition RTA_ALIGN (n : Z) : Z := Z.land (n + 3) (Z.lnot 3).

(** The two attributes that are read; the last one of a type counts. *)
Definition NdAttrs : Type := option Attr * option Attr.
Definition set_attr (type : Z) (a : Attr) (tb : NdAttrs) : NdAttrs :=
  if type =? NDA_DST then (Some a, tb.2) else if type =? NDA_LLADDR then (tb.1, Some a) else tb.

(** The loop over the [len] bytes at the start of [b]; every pass takes four bytes
    or more. *)
Fixpoint ifm_parse_rtattr (fuel : nat) (tb : NdAttrs) (b : buf) (len : Z) : option NdAttrs :=
  match fuel with
  | O => None
  | S fuel' =>
      if len <? 4 then Some tb
      else
        rta_len ← rd16 0 b;
        if (rta_len <? 4) || (rta_len >? len) then Some tb
        else
          type ← rd16 2 b;
          ifm_parse_rtattr fuel' (set_attr type (drop 4 b, rta_len - 4) tb)
            (drop (Z.to_nat (RTA_ALIGN rta_len)) b) (len - RTA_ALIGN rta_len)
  end.

Definition system_get_first_csm : M World (option ptr) :=
  y ← the_sys; mret (head (sys_csm_list y)).

(** On [struct nlmsghdr], followed by [struct ndmsg] and the attributes. *)
Definition do_one_neigh_request (n : buf) : M World Z :=
  type ← lift (rd16 4 n);
  if negb (type =? RTM_NEWNEIGH) && negb (type =? RTM_DELNEIGH) then mret 0
  else
    oc ← system_get_first_csm;
    if bool_decide (oc = None) then mret 0
    else
      nlmsg_len ← lift (rd32 0 n);
      let len := s32 nlmsg_len - 28 in
      if len <? 0 then mret MCLAG_ERROR
      else
        tb ← lift (ifm_parse_rtattr (S (length n)) (None, None) (drop 28 n) len);
        state ← lift (rd16 24 n);
        let is_del := (state =? NUD_FAILED) || (state =? NUD_INCOMPLETE) in
        if (state =? NUD_NOARP) || (state =? NUD_PERMANENT) || (state =? NUD_NONE) then mret 0
        else
          let msgtype := if is_del then RTM_DELNEIGH else type in
          ndm_type ← lift (rd8 27 n);
          if bool_decide (tb.1 = None) || negb (ndm_type =? RTN_UNICAST) then mret 0
          else
            family ← lift (rd8 16 n);
            ifindex ← lift (rd32 20 n);
            when (family =? AF_INET) (do_arp_learn_from_kernel (s32 ifindex) tb.1 tb.2 msgtype is_del);;
            when (family =? AF_INET6) (do_ndisc_learn_from_kernel (s32 ifindex) tb.1 tb.2 msgtype is_del);;
            mret 0.

(** ** The addresses of an interface, asked from the kernel *)

Definition RTM_NEWADDR : Z := 20.
Definition IFA_ADDRESS : Z := 1.
Definition IFA_LOCAL : Z := 2.

(** [while (rtl && RTA_OK(rth, rtl))] over the attributes of one address: is the
    wanted one among them?  For IPv4 the bytes of the kernel are swapped before
    the comparison. *)
Fixpoint addr_attrs (fuel : nat) (family ifa_family : Z) (addr b : buf) (rtl : Z) : option bool :=
  match fuel with
  | O => None
  | S fuel' =>
      if rtl <? 4 then Some false
      else
        rta_len ← rd16 0 b;
        if (rta_len <? 4) || (rta_len >? rtl) then Some false
        else
          type ← rd16 2 b;
          hit ← (if negb ((type =? IFA_ADDRESS) || (type =? IFA_LOCAL)) then Some false
                 else if (family =? AF_INET) && (ifa_family =? AF_INET)
                 then a ← rd32 4 b; w ← rd32 0 addr; Some (w =? ntohl a)
                 else if (family =? AF_INET6) && (ifa_family =? AF_INET6)
                 then a ← rd 4 16 b; Some (bool_decide (a = addr))
                 else Some false);
          if hit : bool then Some true
          else addr_attrs fuel' family ifa_family addr (drop (Z.to_nat (RTA_ALIGN rta_len)) b) (rtl - RTA_ALIGN rta_len)
  end.

(** [while (NLMSG_OK(n, msglen))]: [Some] when the function returns. *)
Fixpoint addr_msgs (fuel : nat) (family : Z) (addr : buf) (ifindex : Z) (b : buf) (msglen : Z)
    : option (option bool) :=
  match fuel with
  | O => None
  | S fuel' =>
      if msglen <? 16 then Some None
      else
        nlmsg_len ← rd32 0 b;
        if (nlmsg_len <? 16) || (nlmsg_len >? msglen) then Some None
        else
          type ← rd16 4 b;
          if negb (type =? RTM_NEWADDR) then Some (Some false)
          else
            index ← rd32 20 b;
            hit ← (if index =? u32 ifindex
                   then ifa_family ← rd8 16 b;
                        addr_attrs (S (length b)) family ifa_family addr (drop 24 b) (nlmsg_len - 24)
                   else Some false);
            if hit : bool then Some (Some true)
            else addr_msgs fuel' family addr ifindex (drop (Z.to_nat (RTA_ALIGN nlmsg_len)) b) (msglen - RTA_ALIGN nlmsg_len)
  end.

(** [dump]: the datagrams that [recvmsg] delivers until it fails, each in a buffer
    of 10000 bytes. *)
Fixpoint iccp_check_if_addr_from_netlink (dump : list buf) (family : Z) (addr : buf) (ifindex : Z) : option bool :=
  match dump with
  | [] => Some false
  | d :: dump' =>
      let buf := take 10000 d ++ zeros (10000 - Z.of_nat (length d)) in
      r ← addr_msgs (S (length buf)) family addr ifindex buf (Z.min (Z.of_nat (length d)) 10000);
      match r with
      | Some hit => Some hit
      | None => iccp_check_if_addr_from_netlink dump' family addr ifindex
      end
  end.

(** ** From packets *)

Section Packets.
Variable addr_dump : list buf.

(** A known entry is brought up to date; an unknown address is entered.  An ND
    packet without a MAC keeps the one that is known.  The struct that goes to
    the peer, unless the function has returned. *)
Definition learn_from_packet (k : NeighKind) (c : ptr) (mac_addr b : buf) : M World (option buf) :=
  csm ← get_csm c;
  ip ← lift (nk_get_ip k 0 b);
  e ← lift (neigh_find k ip (nk_table k (MLACP csm)));
  let no_mac := negb (nk_family k =? AF_INET) && bool_decide (mac_addr = null_mac) in
  match e with
  | Some msg =>
      b ← (if no_mac then mac ← lift (nk_get_mac k 0 (msg_buf msg)); lift (nk_set_mac k 0 mac b) else mret b);
      d ← lift (neigh_differs k b (msg_buf msg));
      when (d : bool) (on_entry k c ip (fun x => y ← neigh_rewrite k b x; Some [y]));;
      mret (Some b)
  | None => if no_mac then mret None else b ← neigh_new k c b; mret (Some b)
  end.

(** ND entries are entered in the kernel's table, too. *)
Definition packet_to_kernel (k : NeighKind) (b : buf) : M World bool :=
  if nk_family k =? AF_INET then mret true
  else
    ip ← lift (nk_get_ip k 0 b); mac ← lift (nk_get_mac k 0 b); nm ← lift (nk_get_ifname 0 b);
    err ← global (iccp_netlink_neighbor_request AF_INET6 ip true mac nm false);
    mret (negb ((err <? 0) && negb (err =? ICCP_NLE_SEQ_MISMATCH))).

(** An address of this switch.  For ARP on a port channel that is no VLAN the
    kernel is asked. *)
Definition packet_own_ip (k : NeighKind) (i : LocalInterface) (ov : option VLAN_ID) (ip : buf) : M World bool :=
  if (nk_family k =? AF_INET) && (default 0 (vlan_vid <$> ov) =? 0)
  then lift (iccp_check_if_addr_from_netlink addr_dump AF_INET ip (lif_ifindex i))
  else own_vlan_ip k ov ip.

Definition do_neigh_update_from_reply_packet (k : NeighKind) (ifindex : Z) (addr mac_addr : buf) : M World unit :=
  ol ← find_by_ifindex (s32 ifindex);
  match ol with
  | None => mret tt
  | Some l =>
      i ← w_get_lif l;
      b ← lift (b ← wr8 0 NEIGH_SYNC_LIF (zeros MAX_BUFSIZE);
                b ← sprintf_s 3 (lif_name i) b; b ← wr 24 addr b; nk_set_mac k 0 mac_addr b);
      if no_ip k i || bool_decide (mac_addr = bcast_mac) then mret tt
      else
        y ← the_sys;
        o ← neigh_owner (u16 (default 0 (scan_after VLAN_PREFIX (lif_name i)))) (s32 ifindex) (sys_csm_list y);
        match o with
        | None => mret tt
        | Some (c, ov) =>
            mine ← packet_own_ip k i ov addr;
            if mine : bool then mret tt
            else
              ob ← learn_from_packet k c mac_addr b;
              match ob with
              | None => mret tt
              | Some b =>
                  go ← packet_to_kernel k b;
                  when (go : bool) (neigh_tell k c NEIGH_SYNC_ADD b)
              end
        end
  end.

Definition do_arp_update_from_reply_packet := do_neigh_update_from_reply_packet ARP.
Definition do_ndisc_update_from_reply_packet := do_neigh_update_from_reply_packet ND.

(** *** ARP *)

(** The first [n] bytes of [buf] were received, on the interface [ifindex] with
    addresses of [halen] bytes.  [n < 0]: an error. *)
Definition iccp_receive_arp_packet_handler (buf : buf) (n ifindex halen : Z) : M World Z :=
  if n <? 0 then mret MCLAG_ERROR
  else
    let bad := mret 0 in
    if n <? 8 then bad
    else
      op ← lift (rd16 6 buf); pln ← lift (rd8 5 buf); pro ← lift (rd16 2 buf); hln ← lift (rd8 4 buf);
      if negb (op =? htons 2) || negb (pln =? 4) || negb (pro =? htons 0x0800) || negb (hln =? halen)
         || (8 + 2 * 4 + 2 * hln >? n) then bad
      else
        oc ← system_get_first_csm;
        if bool_decide (oc = None) then mret 0
        else
          mac ← lift (rd 8 ETHER_ADDR_LEN buf);
          addr ← lift (rd (8 + Z.to_nat hln) 4 buf);
          do_arp_update_from_reply_packet ifindex addr mac;;
          mret 0.

(** *** ND *)

Definition NDISC_NEIGHBOUR_ADVERTISEMENT : Z := 136.
Definition ND_OPT_TARGET_LL_ADDR : Z := 2.

(** [while (opt_len)]: [opt_len] is compared as an unsigned number, so that the loop
    goes on when an option is longer than what is left.  [inl]: the function
    returns.  The fuel is the size of the buffer: every pass takes eight bytes. *)
Fixpoint nd_options (fuel : nat) (opt : buf) (opt_len : Z) (mac_addr : buf) : option (unit + buf) :=
  if opt_len =? 0 then Some (inr mac_addr)
  else match fuel with
  | O => None
  | S fuel' =>
      if u64 opt_len <? 2 then Some (inl tt)
      else
        nd_opt_type ← rd8 0 opt;
        nd_opt_len ← rd8 1 opt;
        let l := Z.shiftl nd_opt_len 3 in
        if l =? 0 then Some (inl tt)
        else if nd_opt_type =? ND_OPT_TARGET_LL_ADDR then mac ← rd 2 ETHER_ADDR_LEN opt; Some (inr mac)
        else nd_options fuel' (drop (Z.to_nat l) opt) (opt_len - l) mac_addr
  end.

(** The first [len] of the 4096 bytes of [buf] were received; [ifindex] comes with
    the packet. *)
Definition iccp_receive_ndisc_packet_handler (buf : buf) (len ifindex : Z) : M World Z :=
  if len <? 0 then mret MCLAG_ERROR
  else
    oc ← system_get_first_csm;
    type ← lift (rd8 0 buf);
    if bool_decide (oc = None) || negb (type =? NDISC_NEIGHBOUR_ADVERTISEMENT) then mret 0
    else
      target ← lift (rd 8 16 buf);
      r ← lift (if len - 24 >? 0 then nd_options (length buf) (drop 24 buf) (len - 24) null_mac
                else Some (inr null_mac));
      match r with
      | inl _ => mret 0
      | inr mac => do_ndisc_update_from_reply_packet ifindex target mac;; mret 0
      end.
End Packets.
