(* ===== verification/LinkEvents.v ===== *)
(** Events of the kernel: interfaces and addresses come, change and go
    ([iccp_netlink.c], [iccp_ifm.c]).

    The objects that libnl hands to the callbacks are records of what its
    accessors return. *)

From Stdlib Require Import ZArith Lia.
From stdpp Require Import base list gmap numbers option strings.
From coqutil Require Import Byte Word.LittleEndianList.
From S2P Require Import Prelude CBuf State MsgFormat Wire CsmMsg Csm Port SyncPrepare Receive Syncd.
From S2P Require Import AppCsm MacTable Kernel Senders Neigh LinkMac Isolation LinkState SyncUpdate MlacpFsm Session.
From S2P Require Import Lifecycle SyncdRecv Config Learn.

Definition IF_OPER_UP : Z := 6.
Definition IFF_LOWER_UP : Z := 0x10000.

(** [struct rtnl_link]; [lk_llc]: its address, when [nl_addr_guess_family] takes it
    for one of [AF_LLC]. *)
Record rtnl_link := mkLink {
  lk_ifindex : Z;
  lk_operstate : Z;
  lk_name : buf;
  lk_llc : option buf;
  lk_flags : Z;
  lk_master : Z;
}.

(** [struct rtnl_addr] with its local address. *)
Record rtnl_addr := mkAddr {
  ad_ifindex : Z;
  ad_family : Z;
  ad_binary : buf;
  ad_prefixlen : Z;
}.

(** ** A port goes up or down *)

(** The port channels of the CSM with the name; whether there was one. *)
Fixpoint port_state_lifs (c : ptr) (ifname : buf) (po_is_active : Z) (hit : bool) (ls : list ptr) : M World bool :=
  match ls with
  | [] => mret hit
  | l :: ls' =>
      i ← w_get_lif l;
      if (lif_type i =? IF_T_PORT_CHANNEL)
         && streq (take MAX_L_PORT_NAME (lif_name i)) (take MAX_L_PORT_NAME ifname)
      then with_csm c (mlacp_portchannel_state_handler l po_is_active);;
           port_state_lifs c ifname po_is_active true ls'
      else port_state_lifs c ifname po_is_active hit ls'
  end.

(** [is_mclag_intf] is not reset from one CSM to the next. *)
Fixpoint port_state_csms (ifname : buf) (po_is_active : Z) (is_mclag_intf : bool) (cs : list ptr) : M World unit :=
  match cs with
  | [] => mret tt
  | c :: cs' =>
      csm ← get_csm c;
      if streq ifname (csm_peer_itf_name csm) then
        with_csm c (if po_is_active =? 0 then mlacp_peerlink_down_handler else mlacp_peerlink_up_handler)
      else
        hit ← port_state_lifs c ifname po_is_active is_mclag_intf (ml_lif_list (MLACP csm));
        when (negb hit)
          (ol ← find_by_name ifname;
           match ol with
           | None => mret tt
           | Some l => with_csm c (update_orphan_port_mac l po_is_active)
           end);;
        port_state_csms ifname po_is_active hit cs'
  end.

Definition iccp_from_netlink_port_state_handler (ifname : buf) (state : Z) : M World unit :=
  y ← the_sys; port_state_csms ifname (of_bool (state =? PORT_STATE_UP)) false (sys_csm_list y).

(** ** Interfaces *)

Section Team.
Variable team_ports : Z -> option (list (Z * bool)).

Definition link_state (link : rtnl_link) : Z :=
  if lk_operstate link =? IF_OPER_UP then PORT_STATE_UP else PORT_STATE_DOWN.

Definition if_whitelist : list (buf * Z) :=
  [(PORTCHANNEL_PREFIX, IF_T_PORT_CHANNEL); (VLAN_PREFIX, IF_T_VLAN);
   (FRONT_PANEL_PORT_PREFIX, IF_T_PORT); (VXLAN_TUNNEL_PREFIX, IF_T_VXLAN)].

(** [strchr(ifname, '-')], and what is in front of it. *)
Fixpoint before_dash (s : buf) : buf :=
  match s with
  | c :: s' => if byte.unsigned c =? 45 then [] else c :: before_dash s'
  | [] => []
  end.

(** [memcpy] of six bytes of the address, into the interface that was found or
    created; [NULL] when none was. *)
Definition take_mac (ol : option ptr) (llc : option buf) : M World unit :=
  match llc with
  | None => mret tt
  | Some a =>
      l ← lift ol;
      mac ← lift (rd 0 ETHER_ADDR_LEN a);
      w_set_lif l (fun i => i <| lif_mac_addr := mac |>)
  end.

(** A new interface, or one whose index has changed: the old one goes. *)
Definition link_create (ol : option ptr) (link : rtnl_link) : M World unit :=
  match find_first (fun e => starts_with e.1 (cstr (lk_name link))) if_whitelist with
  | None => mret tt
  | Some (_, type) =>
      match ol with
      | None => mret tt
      | Some l => i ← w_get_lif l; local_if_destroy (lif_name i)
      end;;
      ol ← local_if_create team_ports (s32 (lk_ifindex link)) (lk_name link) type (link_state link);
      take_mac ol (lk_llc link)
  end.

(** The carrier has changed. *)
Definition link_carrier (l : ptr) (up : bool) : M World unit :=
  let st := if up then PORT_STATE_UP else PORT_STATE_DOWN in
  w_set_lif l (fun i => i <| lif_state := st |>);;
  i ← w_get_lif l;
  when ((lif_type i =? IF_T_PORT_CHANNEL) && bool_decide (lif_csm i = None))
    (w_set_lif l (fun i => i <| lif_po_active := of_bool up |>));;
  iccp_from_netlink_port_state_handler (lif_name i) st.

(** The VRF has changed. *)
Definition link_master (l : ptr) (master_ifindex : Z) : M World unit :=
  if truth master_ifindex then
    w_set_lif l (fun i => i <| lif_master_ifindex := master_ifindex |> <| lif_l3_mode := 1 |>);;
    global (update_vlan_if_mac_on_standby l)
  else
    i ← w_get_lif l;
    when ((lif_ipv4_addr i =? 0) && bool_decide (ip6_bytes (lif_ipv6_addr i) = zeros 16))
      (when (negb (lif_is_l3_proto_enabled i)) (global (recover_vlan_if_mac_on_standby l 5 None));;
       w_set_lif l (fun i => i <| lif_l3_mode := 0 |> <| lif_l3_mac_addr := null_mac |>));;
    w_set_lif l (fun i => i <| lif_master_ifindex := 0 |>).

Definition link_update (l : ptr) (link : rtnl_link) : M World unit :=
  i ← w_get_lif l;
  let lower_up := truth (Z.land (lk_flags link) IFF_LOWER_UP) in
  (if (lif_state i =? PORT_STATE_DOWN) && lower_up then link_carrier l true
   else when ((lif_state i =? PORT_STATE_UP) && negb lower_up) (link_carrier l false));;
  match lk_llc link with
  | None => mret tt
  | Some a =>
      mac ← lift (rd 0 ETHER_ADDR_LEN a);
      i ← w_get_lif l;
      when (bool_decide (mac <> lif_mac_addr i))
        (w_set_lif l (fun i => i <| lif_mac_addr := mac |> <| lif_port_config_sync := 1 |>))
  end;;
  i ← w_get_lif l;
  when ((lif_type i =? IF_T_VLAN) && negb (lif_master_ifindex i =? lk_master link)) (link_master l (lk_master link)).

Definition iccp_event_handler_obj_input_newlink (link : rtnl_link) : M World unit :=
  if starts_with VXLAN_TUNNEL_PREFIX (cstr (lk_name link)) then
    let ifname := before_dash (cstr (lk_name link)) in
    ol ← find_by_name ifname;
    match ol with
    | Some _ => mret tt
    | None =>
        ol ← local_if_create team_ports (s32 (lk_ifindex link)) ifname IF_T_VXLAN (link_state link);
        l ← lift ol;
        w_set_lif l (fun i => i <| lif_state := PORT_STATE_UP |>)
    end
  else
    ol ← find_by_name (lk_name link);
    match ol with
    | None => link_create None link
    | Some l =>
        i ← w_get_lif l;
        if (lif_ifindex i =? -1) && (lif_type i =? IF_T_VLAN) then
          w_set_lif l (fun i => i <| lif_ifindex := s32 (lk_ifindex link) |> <| lif_state := link_state link |>);;
          take_mac (Some l) (lk_llc link)
        else if negb (u32 (lif_ifindex i) =? u32 (lk_ifindex link)) then link_create (Some l) link
        else link_update l link
    end.

Definition iccp_event_handler_obj_input_dellink (ifindex : Z) : M World unit :=
  ol ← find_by_ifindex (s32 ifindex);
  match ol with
  | None => mret tt
  | Some l => i ← w_get_lif l; local_if_destroy (lif_name i)
  end.

(** ** Addresses *)

(** The first CSM that knows the address as one of a neighbour forgets it. *)
Fixpoint del_self_ip (k : NeighKind) (ip : buf) (cs : list ptr) : M World unit :=
  match cs with
  | [] => mret tt
  | c :: cs' =>
      csm ← get_csm c;
      r ← lift (neigh_update k ip (fun _ => Some []) (nk_table k (MLACP csm)));
      if r.1 : bool then set_csm c (set_MLACP (nk_set_table k r.2)) else del_self_ip k ip cs'
  end.

Definition iccp_del_self_ip_from_neigh_table (l : ptr) (addr_family : Z) : M World unit :=
  i ← w_get_lif l; y ← the_sys;
  if addr_family =? AF_INET then del_self_ip ARP (ip4_bytes (lif_ipv4_addr i)) (sys_csm_list y)
  else when (addr_family =? AF_INET6) (del_self_ip ND (ip6_bytes (lif_ipv6_addr i)) (sys_csm_list y)).

(** Sixteen bytes as four words. *)
Definition ip6_words (b : buf) : option (list Z) :=
  x0 ← rd32 0 b; x1 ← rd32 4 b; x2 ← rd32 8 b; x3 ← rd32 12 b; Some [x0; x1; x2; x3].

Definition no_ip4 (i : LocalInterface) : bool := lif_ipv4_addr i =? 0.
Definition no_ip6 (i : LocalInterface) : bool := bool_decide (ip6_bytes (lif_ipv6_addr i) = zeros 16).

(** What follows a first address: [first] when the other family has none. *)
Definition addr_added (l : ptr) (family : Z) (first : bool) : M World unit :=
  when first (global (update_if_ipmac_on_standby l);; global (update_vlan_if_mac_on_standby l));;
  iccp_del_self_ip_from_neigh_table l family;;
  i ← w_get_lif l;
  when (lif_is_l3_proto_enabled i)
    (global (syn_local_neigh_mac_info_to_peer l true (family =? AF_INET) (family =? AF_INET6) first true false);; mret tt).

Definition iccp_event_handler_obj_input_newaddr (a : rtnl_addr) : M World unit :=
  ol ← find_by_ifindex (s32 (ad_ifindex a));
  match ol with
  | None => mret tt
  | Some l =>
      i ← w_get_lif l;
      if ad_family a =? AF_INET then
        if negb (no_ip4 i) then mret tt
        else
          ip ← lift (rd32 0 (ad_binary a));
          w_set_lif l (fun i => i <| lif_ipv4_addr := ip |> <| lif_prefixlen := u8 (ad_prefixlen a) |>
                                  <| lif_l3_mode := 1 |> <| lif_port_config_sync := 1 |>);;
          addr_added l AF_INET (no_ip6 i)
      else when (ad_family a =? AF_INET6)
        (ip ← lift (ip6_words (ad_binary a));
         if is_link_local (ad_binary a) then
           w_set_lif l (fun i => i <| lif_ipv6_ll_addr := ip |> <| lif_ll_prefixlen_v6 := u8 (ad_prefixlen a) |>)
         else if negb (no_ip6 i) then mret tt
         else
           w_set_lif l (fun i => i <| lif_ipv6_addr := ip |> <| lif_prefixlen_v6 := u8 (ad_prefixlen a) |>
                                   <| lif_l3_mode := 1 |> <| lif_port_config_sync := 1 |>);;
           addr_added l AF_INET6 (no_ip4 i))
  end.

(** What precedes the removal of an address: [last] when the other family has
    none. *)
Definition addr_removed (l : ptr) (family dir : Z) (last : bool) : M World unit :=
  i ← w_get_lif l;
  when (last && (lif_master_ifindex i =? 0)) (global (recover_vlan_if_mac_on_standby l dir None));;
  i ← w_get_lif l;
  when (lif_is_l3_proto_enabled i)
    (global (syn_local_neigh_mac_info_to_peer l false (family =? AF_INET) (family =? AF_INET6) last false false);; mret tt).

Definition l3_ends (l : ptr) : M World unit :=
  i ← w_get_lif l;
  when (no_ip4 i && (lif_master_ifindex i =? 0) && no_ip6 i)
    (w_set_lif l (fun i => i <| lif_l3_mode := 0 |> <| lif_l3_mac_addr := null_mac |>)).

Definition iccp_event_handler_obj_input_deladdr (a : rtnl_addr) : M World unit :=
  ol ← find_by_ifindex (s32 (ad_ifindex a));
  match ol with
  | None => mret tt
  | Some l =>
      i ← w_get_lif l;
      if ad_family a =? AF_INET then
        ip ← lift (rd32 0 (ad_binary a));
        if negb (lif_ipv4_addr i =? ip) then mret tt
        else
          addr_removed l AF_INET 2 (no_ip6 i);;
          w_set_lif l (fun i => i <| lif_ipv4_addr := 0 |> <| lif_prefixlen := 0 |>);;
          l3_ends l
      else if ad_family a =? AF_INET6 then
        ip ← lift (rd 0 16 (ad_binary a));
        if is_link_local (ad_binary a) then
          w_set_lif l (fun i => i <| lif_ipv6_ll_addr := [0; 0; 0; 0] |> <| lif_ll_prefixlen_v6 := 0 |>)
        else if bool_decide (ip6_bytes (lif_ipv6_addr i) <> ip) then mret tt
        else
          addr_removed l AF_INET6 3 (no_ip4 i);;
          w_set_lif l (fun i => i <| lif_ipv6_addr := [0; 0; 0; 0] |> <| lif_prefixlen_v6 := 0 |>);;
          l3_ends l
      else l3_ends l
  end.

(** ** The dispatcher *)

(** A route message, decoded by libnl where the code asks for it. *)
Inductive RouteMsg :=
  | Rt_newlink (link : rtnl_link)
  | Rt_dellink (ifindex : Z)
  | Rt_neigh (n : buf)
  | Rt_newaddr (a : rtnl_addr)
  | Rt_deladdr (a : rtnl_addr)
  | Rt_other.

Definition iccp_route_event_handler (m : RouteMsg) : M World unit :=
  match m with
  | Rt_newlink link => iccp_event_handler_obj_input_newlink link
  | Rt_dellink ifindex => iccp_event_handler_obj_input_dellink ifindex
  | Rt_neigh n => do_one_neigh_request n;; mret tt
  | Rt_newaddr a => iccp_event_handler_obj_input_newaddr a
  | Rt_deladdr a => iccp_event_handler_obj_input_deladdr a
  | Rt_other => mret tt
  end.
End Team.
