(* ===== verification/Connect.v ===== *)
(** The connection between the two switches: who connects to whom, the steps of a
    CSM with and without a socket, and one turn of the scheduler ([scheduler.c],
    [iccp_csm.c], the event loop of [iccp_netlink.c]). *)

From Stdlib Require Import ZArith Lia.
From stdpp Require Import base list gmap numbers option strings.
From coqutil Require Import Byte Word.LittleEndianList.
From S2P Require Import Prelude CBuf State MsgFormat Wire CsmMsg Csm Port SyncPrepare Receive Syncd.
From S2P Require Import AppCsm MacTable Kernel Senders Neigh LinkMac Isolation LinkState SyncUpdate MlacpFsm Session.
From S2P Require Import Lifecycle SyncdRecv Config Learn LinkEvents.

(** ** [inet_addr] *)

Definition hex_digit (c : byte) : option Z :=
  let n := byte.unsigned c in
  match digit c with
  | Some d => Some d
  | None => if (97 <=? n) && (n <=? 102) then Some (n - 87)
            else if (65 <=? n) && (n <=? 70) then Some (n - 55) else None
  end.

(** The digits below [base] at the front of [s], and what follows them. *)
Fixpoint number (base acc : Z) (s : buf) : Z * buf :=
  match s with
  | c :: s' =>
      match hex_digit c with
      | Some d => if d <? base then number base (base * acc + d) s' else (acc, s)
      | None => (acc, s)
      end
  | [] => (acc, [])
  end.

(** [strtoul(s, &end, 0)] of a text that starts with a digit. *)
Definition strtoul0 (s : buf) : Z * buf :=
  match s with
  | c :: x :: d :: s' =>
      if (byte.unsigned c =? 48) && ((byte.unsigned x =? 120) || (byte.unsigned x =? 88))
         && bool_decide (hex_digit d <> None) then number 16 0 (d :: s')
      else number (if byte.unsigned c =? 48 then 8 else 10) 0 s
  | c :: _ => number (if byte.unsigned c =? 48 then 8 else 10) 0 s
  | [] => (0, [])
  end.

Definition INADDR_NONE : Z := 2 ^ 32 - 1.

(** Up to four numbers; the last one fills the bytes that are left.  [parts]: the
    bytes so far, [fuel]: the parts that may follow. *)
Fixpoint inet_parts (fuel : nat) (parts : list Z) (s : buf) : option (list Z * Z * buf) :=
  match s with
  | [] => None
  | c :: _ =>
      if bool_decide (digit c = None) then None
      else
        let '(v, s') := strtoul0 s in
        if v >? 2 ^ 32 - 1 then None
        else match s', fuel with
        | d :: s'', S fuel' =>
            if byte.unsigned d =? 46 then
              if v >? 255 then None else inet_parts fuel' (parts ++ [v]) s''
            else Some (parts, v, s')
        | d :: _, O => if byte.unsigned d =? 46 then None else Some (parts, v, s')
        | [], _ => Some (parts, v, [])
        end
  end.

(** In network order, as the bytes lie in memory. *)
Definition inet_addr (str : buf) : Z :=
  match inet_parts 3 [] (cstr str) with
  | Some (parts, v, rest) =>
      let n := (4 - length parts)%nat in
      if match rest with [] => true | c :: _ => is_space c end && (v <? 256 ^ Z.of_nat n)
      then le_combine (byte.of_Z <$> parts ++ (rev (byte.unsigned <$> le_split n v)))
      else INADDR_NONE
  | None => INADDR_NONE
  end.

(** ** Roles *)

(** The addresses are compared as numbers in network order. *)
Definition iccp_csm_stp_role_count : M CS unit :=
  csm ← the_csm;
  when (bool_decide (csm_role_type csm = STP_ROLE_NONE))
    (if inet_addr (csm_sender_ip csm) <? inet_addr (csm_peer_ip csm) then
       on_csm (fun c => c <| csm_role_type := STP_ROLE_ACTIVE |>);;
       mlacp_link_set_iccp_role (csm_mlag_id csm) true (Some (ml_system_id (MLACP csm)));; mret tt
     else
       on_csm (fun c => c <| csm_role_type := STP_ROLE_STANDBY |>);;
       mlacp_link_set_iccp_role (csm_mlag_id csm) false None;;
       mlacp_fix_bridge_mac).

(** The configuration is complete, the peer link exists. *)
Definition scheduler_check_csm_config : M CS Z :=
  csm ← the_csm;
  let bad := (csm_mlag_id csm <=? 0) || (strlen (csm_peer_ip csm) <=? 0) || (strlen (csm_sender_ip csm) <=? 0) in
  missing ← (if bad || (strlen (csm_peer_itf_name csm) =? 0) then mret false
             else
               ol ← local_if_find_by_name (csm_peer_itf_name csm);
               match ol with
               | None => mret true
               | Some l =>
                   set_lif l (fun i => i <| lif_is_peer_link := 1 |>);;
                   on_csm (fun c => c <| csm_peer_link_if := Some l |>);;
                   set_peerlink_learn_kernel 0;;
                   mret false
               end);
  if missing : bool then mret MCLAG_ERROR
  else iccp_csm_stp_role_count;; mret (if bad then MCLAG_ERROR else 1).

(** ** The client *)

(** What [socket], [bind], [connect] and [epoll_ctl] return. *)
Record ConnRes := mkConnRes {
  cr_socket : Z;
  cr_bind : Z;
  cr_connect : Z;
  cr_epoll : Z;
}.

(** [FD_SET] and [readfd_count++] *)
Definition register_fd (fd : Z) : M CS unit :=
  modify (fun s => s <| cs_sys ::= fun y =>
    y <| sys_readfd ::= fun l => if bool_decide (fd ∈ l) then l else fd :: l |>
      <| sys_readfd_count ::= fun n => s32 (n + 1) |> |>).

Definition conn_fail (fd : Z) : M CS unit :=
  when (fd >=? 0) (on_csm (fun c => c <| csm_sock_fd := -1 |>);; act (Act_close fd)).

Definition session_client_conn_handler (r : ConnRes) : M CS unit :=
  let fd := cr_socket r in
  (if (fd =? -1) || (cr_bind r <? 0) || negb (cr_connect r =? 0) then conn_fail fd
   else
     act (Act_epoll_add fd);;
     if negb (cr_epoll r =? 0) then conn_fail fd
     else on_csm (fun c => c <| csm_sock_fd := fd |>);; register_fd fd);;
  t ← now;
  on_csm (fun c => c <| csm_connTimePrev := t |>).

(** At most once in [CONNECT_INTERVAL_SEC]; the side with the lower number is the
    client. *)
Definition scheduler_prepare_session (r : ConnRes) : M CS unit :=
  csm ← the_csm;
  t ← now;
  when (csm_connTimePrev csm =? 0) (on_csm (fun c => c <| csm_connTimePrev := t |>));;
  csm ← the_csm;
  when (negb (t - csm_connTimePrev csm <? CONNECT_INTERVAL_SEC))
    (when (negb (csm_sock_fd csm >? 0))
       (ok ← scheduler_check_csm_config;
        csm ← the_csm;
        when (negb (ok <? 0) && (inet_addr (csm_sender_ip csm) <? inet_addr (csm_peer_ip csm)))
          (session_client_conn_handler r));;
     t ← now;
     on_csm (fun c => c <| csm_connTimePrev := t |>)).

(** ** The steps of a CSM *)

(** The [switch] and the entry action.  [true]: the state has become
    [ICCP_NONEXISTENT], and the CSM is to be released. *)
Definition iccp_csm_transit_switch (r : ConnRes) : M CS bool :=
  csm ← the_csm;
  let prev_state := csm_current_state csm in
  om ← iccp_csm_dequeue_msg;
  (if bool_decide (prev_state = ICCP_NONEXISTENT) then
     scheduler_prepare_session r;;
     csm ← the_csm;
     when (csm_sock_fd csm >? 0) (ok ← scheduler_check_csm_config; when (ok >? 0) (set_state ICCP_INITIALIZED))
   else iccp_csm_transit_connected om);;
  csm ← the_csm;
  let st := csm_current_state csm in
  if bool_decide (prev_state <> st) || (bool_decide (st <> ICCP_NONEXISTENT) && bool_decide (om <> None)) then
    if bool_decide (st = ICCP_NONEXISTENT) then mret true else on_csm (iccp_csm_enter_state st);; mret false
  else mret false.

Definition iccp_csm_enter_state_nonexistent (c : ptr) : M World unit := iccp_csm_finalize c.

Definition iccp_csm_transit (r : ConnRes) (c : ptr) : M World unit :=
  csm ← get_csm c;
  if bool_decide (csm_current_state csm <> ICCP_NONEXISTENT) && (csm_sock_fd csm <=? 0) then
    set_csm c (fun x => x <| csm_current_state := ICCP_NONEXISTENT |>);;
    iccp_csm_enter_state_nonexistent c
  else
    gone ← with_csm c (iccp_csm_transit_switch r);
    when gone (iccp_csm_enter_state_nonexistent c).

(** [conn c]: the results of the system calls for the CSM at [c]. *)
Definition scheduler_transit_fsm (conn : ptr -> ConnRes) : M World Z :=
  y ← the_sys;
  foreach (fun c =>
    with_csm c heartbeat_update;;
    iccp_csm_transit (conn c) c;;
    with_csm c app_csm_transit;;
    with_csm c mlacp_fsm_transit) (sys_csm_list y);;
  local_if_purge_clear;;
  mret 1.

(** ** The server *)

(** [new_fd], [addr], [epoll]: what [accept], [inet_ntoa] and [epoll_ctl] return. *)
Definition scheduler_server_accept (new_fd : Z) (addr : buf) (epoll : Z) : M World Z :=
  y ← the_sys;
  if sys_server_fd y <=? 0 then mret MCLAG_ERROR
  else
    let reject := when (new_fd >=? 0) (global (act (Act_close new_fd)));; mret MCLAG_ERROR in
    if new_fd =? -1 then reject
    else
      oc ← system_get_csm_by_peer_ip addr;
      match oc with
      | None => reject
      | Some c =>
          csm ← get_csm c;
          if csm_sock_fd csm >? 0 then reject
          else
            ok ← with_csm c scheduler_check_csm_config;
            if ok <? 0 then reject
            else
              global (act (Act_epoll_add new_fd));;
              if negb (epoll =? 0) then reject
              else
                with_csm c (on_csm (fun x => x <| csm_sock_fd := new_fd |> <| csm_current_state := ICCP_NONEXISTENT |>);;
                            register_fd new_fd);;
                mret 0
      end.

(** ** Warm reboot *)

Definition mlacp_sync_send_warmboot_flag : M World unit :=
  y ← the_sys;
  foreach (fun c =>
    csm ← get_csm c;
    when (bool_decide (ml_current_state (MLACP csm) = MLACP_STATE_EXCHANGE))
      (with_csm c (send_prepared mlacp_prepare_for_warm_reboot);; mret tt)) (sys_csm_list y).

(** [ctrl]: the byte that is read from the pipe; [None]: an error. *)
Definition iccp_receive_signal_handler (ctrl : option Z) : M World Z :=
  match ctrl with
  | None => mret (-1)
  | Some b =>
      when (b =? 119)
        (mlacp_sync_send_warmboot_flag;; set_sys (fun y => y <| sys_warmboot_exit := WARM_REBOOT |>));;
      mret 0
  end.

(** ** Events *)

Section Events.
Variable team_ports : Z -> option (list (Z * bool)).
Variable rand : Z.

(** A ready descriptor, with what its handler finds there.  [Ev_team]: the members
    of a team device have changed; [Ev_peer]: a socket of [readfd]. *)
Inductive Event :=
  | Ev_accept (new_fd : Z) (addr : buf) (epoll : Z)
  | Ev_team (ifindex : Z) (ports : list (Z * bool))
  | Ev_route (m : RouteMsg)
  | Ev_arp (dump : list buf) (b : buf) (n ifindex halen : Z)
  | Ev_ndisc (dump : list buf) (b : buf) (len ifindex : Z)
  | Ev_syncd (rd : list RecvEv) (b : buf) (cnt : gmap (Z * Z) Z)
  | Ev_signal (ctrl : option Z)
  | Ev_peer (fd : Z).

(** Any message of the peer counts as a heartbeat. *)
Definition peer_event (fd : Z) : M World unit :=
  y ← the_sys;
  if negb (bool_decide (fd ∈ sys_readfd y)) then mret tt
  else
    oc ← find_csm (fun c => csm_sock_fd c =? fd);
    match oc with
    | None => mret tt
    | Some c =>
        rc ← with_csm c scheduler_csm_read_callback;
        when (negb (rc =? MCLAG_ERROR)) (with_csm c mlacp_fsm_update_heartbeat)
    end.

(** The handler of a ready descriptor.  The errors of libnl, the requests for the
    state of the kernel that follow them, and the show commands are left out. *)
Definition handle_event (e : Event) : M World unit :=
  match e with
  | Ev_accept new_fd addr epoll => scheduler_server_accept new_fd addr epoll;; mret tt
  | Ev_team ifindex ports => iccp_get_portchannel_member_list_handler ifindex ports
  | Ev_route m => iccp_route_event_handler team_ports m
  | Ev_arp dump b n ifindex halen => iccp_receive_arp_packet_handler dump b n ifindex halen;; mret tt
  | Ev_ndisc dump b len ifindex => iccp_receive_ndisc_packet_handler dump b len ifindex;; mret tt
  | Ev_syncd rd b cnt => fun w =>
      r ← iccp_mclagsyncd_msg_handler team_ports rand (mkRx w rd b cnt); Some (tt, rx_w r.2)
  | Ev_signal ctrl => iccp_receive_signal_handler ctrl;; mret tt
  | Ev_peer fd => peer_event fd
  end.

Definition iccp_handle_events (events : list Event) : M World Z := foreach handle_event events;; mret 0.

(** [sync]: what [socket] and [connect] return. *)
Definition iccp_connect_syncd (sync : Z * Z) : M World Z :=
  y ← the_sys;
  if sys_sync_fd y >=? 0 then mret 0
  else if sync.1 <? 0 then mret MCLAG_ERROR
  else if sync.2 <? 0 then global (act (Act_close sync.1));; mret MCLAG_ERROR
  else set_sys (fun y => y <| sys_sync_fd := sync.1 |>);; global (act (Act_epoll_add sync.1));; mret 0.

(** One turn of [while (1)]; [true]: the loop goes on. *)
Definition scheduler_turn (sync : Z * Z) (events : list Event) (conn : ptr -> ConnRes) : M World bool :=
  y ← the_sys;
  when (sys_sync_fd y <=? 0) (iccp_connect_syncd sync;; mret tt);;
  iccp_handle_events events;;
  scheduler_transit_fsm conn;;
  y ← the_sys;
  mret (negb (sys_warmboot_exit y =? WARM_REBOOT)).
End Events.
