(* ===== verification/Show.v ===== *)
(** The show commands: the dumps of the daemon's state ([iccp_cmd_show.c]) and the
    control socket that answers them ([mlacp_link_handler.c]).

    A dump copies records into a buffer that it enlarges on the way.  What fresh
    memory holds is not known: [malloc] is a parameter. *)

From Stdlib Require Import ZArith Lia.
From stdpp Require Import base list gmap numbers option strings.
From coqutil Require Import Byte Word.LittleEndianList.
From S2P Require Import Prelude CBuf State MsgFormat Wire CsmMsg Csm Port SyncPrepare Receive Syncd.
From S2P Require Import AppCsm MacTable Kernel Senders Neigh LinkMac Isolation LinkState SyncUpdate MlacpFsm Session.
From S2P Require Import Lifecycle.

(** ** Constants of [mclagdctl.h] *)

Definition MCLAGDCTL_PARA3_LEN : Z := 64.
Definition MCLAGDCTL_CMD_SIZE : nat := Z.to_nat 4096.
Definition MCLAGDCTL_PORT_MEMBER_BUF_LEN : Z := 512.
Definition ICCP_MAX_PORT_NAME : nat := 20.
Definition ICCP_MAX_IP_STR_LEN : nat := 16.
Definition INET6_ADDRSTRLEN : nat := 46.
Definition PORT_STATE_ADMIN_DOWN : Z := 2.
Definition PORT_STATE_TEST : Z := 3.

Definition INFO_TYPE_DUMP_STATE : Z := 1.
Definition INFO_TYPE_DUMP_ARP : Z := 2.
Definition INFO_TYPE_DUMP_NDISC : Z := 3.
Definition INFO_TYPE_DUMP_MAC : Z := 4.
Definition INFO_TYPE_DUMP_UNIQUE_IP : Z := 5.
Definition INFO_TYPE_DUMP_LOCAL_PORTLIST : Z := 6.
Definition INFO_TYPE_DUMP_PEER_PORTLIST : Z := 7.
Definition INFO_TYPE_DUMP_DBG_COUNTERS : Z := 8.
Definition INFO_TYPE_CONFIG_LOGLEVEL : Z := 9.

Definition EXEC_TYPE_SUCCESS : Z := -1.
Definition EXEC_TYPE_NO_EXIST_SYS : Z := -2.
Definition EXEC_TYPE_NO_EXIST_MCLAGID : Z := -3.
Definition EXEC_TYPE_FAILED : Z := -4.

(** Sizes of the structs, with their padding. *)
Definition mclagd_reply_hdr_size : nat := 12.
Definition mclagdctl_req_hdr_size : nat := 104.
Definition mclagd_state_size : nat := 656.
Definition mclagd_arp_msg_size : nat := 72.
Definition mclagd_ndisc_msg_size : nat := 104.
Definition mclagd_mac_msg_size : nat := 76.
Definition mclagd_local_if_size : nat := 712.
Definition mclagd_peer_if_size : nat := 84.
Definition mclagd_unique_ip_if_size : nat := 36.
Definition MCLAGD_REPLY_INFO_HDR : nat := 16.

(** ** Texts *)

Definition dot : byte := Byte.x2e.

(** [inet_ntop(AF_INET, ...)] *)
Definition ntop4 (ip : buf) : buf := joined_by dot ((fun c => dec (byte.unsigned c)) <$> ip).

(** ["%x"] of a 16-bit word *)
Definition hex_word (n : Z) : buf :=
  let ds := [n / 4096; n / 256 mod 16; n / 16 mod 16; n mod 16] in
  hex_digit <$> (if n <? 16 then drop 3 ds else if n <? 256 then drop 2 ds else if n <? 4096 then drop 1 ds else ds).

Fixpoint words_of (b : buf) : list Z :=
  match b with
  | x :: y :: b' => 256 * byte.unsigned x + byte.unsigned y :: words_of b'
  | _ => []
  end.

(** The zeros at the front. *)
Fixpoint zero_run (ws : list Z) : nat :=
  match ws with
  | 0 :: ws' => S (zero_run ws')
  | _ => O
  end.

(** The first longest run of zeros: start and length. *)
Fixpoint best_run (i : nat) (ws : list Z) (best : nat * nat) : nat * nat :=
  match ws with
  | [] => best
  | _ :: ws' => best_run (S i) ws' (let n := zero_run ws in if (best.2 <? n)%nat then (i, n) else best)
  end.

(** [inet_ntop(AF_INET6, ...)]: the run is replaced by ["::"], and an IPv4 address
    behind five or six zeros is written as one. *)
Definition ntop6 (ip : buf) : buf :=
  let ws := words_of ip in
  let '(base, len) := best_run 0 ws (0%nat, 1%nat) in
  if (len <? 2)%nat then joined_by colon (hex_word <$> ws)
  else
    let v4 := (base =? 0)%nat && ((len =? 6)%nat || ((len =? 5)%nat && (nth 5 ws 0 =? 0xffff))) in
    let tail := drop (base + len) ws in
    joined_by colon (hex_word <$> take base ws) ++ [colon; colon]
    ++ (if v4 then joined_by colon ((hex_word <$> take (6 - len) tail) ++ [ntop4 (drop 12 ip)])
        else joined_by colon (hex_word <$> tail)).

(** The static arrays behind [show_ip_str] and [show_ipv6_str]. *)
Definition show_ip_str (ipv4_addr : Z) : buf := carray INET_ADDRSTRLEN (ntop4 (le_split 4 ipv4_addr)).
Definition show_ipv6_str (ipv6_addr : buf) : buf := carray INET6_ADDRSTRLEN (ntop6 ipv6_addr).

(** [strlen(s)] characters of an array; an array without terminator is left. *)
Definition c_string (a : buf) : option buf := if has_nul a then Some (cstr a) else None.

(** [snprintf(b + off, size, "%s", s)] *)
Definition snprintf_s_at (off size : Z) (s b : buf) : option buf :=
  let n := u64 size in
  if n =? 0 then Some b
  else wr (Z.to_nat off) ((if n - 1 <? Z.of_nat (length s) then take (Z.to_nat (n - 1)) s else s) ++ [Byte.x00]) b.

(** A zeroed struct and the [memcpy]s into its members. *)
Definition fld (off : nat) (x : buf) : nat * buf := (off, x).
Fixpoint put_fields (fs : list (nat * buf)) (b : buf) : option buf :=
  match fs with
  | [] => Some b
  | (off, x) :: fs' => b ← wr off x b; put_fields fs' b
  end.
Definition struct_of (size : nat) (fs : list (nat * buf)) : option buf :=
  put_fields fs (replicate size Byte.x00).

Definition port_type_str (type : Z) (unknown : buf) : buf :=
  if type =? IF_T_UNKNOW then unknown
  else if type =? IF_T_PORT then str "Ethernet"
  else if type =? IF_T_PORT_CHANNEL then str "PortChannel" else [].

Definition port_state_str (state : Z) : buf :=
  if state =? PORT_STATE_UP then str "Up"
  else if state =? PORT_STATE_DOWN then str "Down"
  else if state =? PORT_STATE_ADMIN_DOWN then str "Admin-down"
  else if state =? PORT_STATE_TEST then str "Test" else [].

Definition mlacp_state_str (st : MLACP_APP_STATE) : buf :=
  match st with
  | MLACP_STATE_INIT => str "INIT"
  | MLACP_STATE_STAGE1 => str "STAGE1"
  | MLACP_STATE_STAGE2 => str "STAGE2"
  | MLACP_STATE_EXCHANGE => str "EXCHANGE"
  | MLACP_STATE_ERROR => str "ERROR"
  end.

Definition log_level_to_string (level : Z) : buf :=
  if level =? 0 then str "CRITICAL" else if level =? 1 then str "ERROR" else if level =? 2 then str "WARN"
  else if level =? 3 then str "NOTICE" else if level =? 4 then str "INFO" else if level =? 5 then str "DEBUG"
  else str "INFO".

(** ** VLAN lists *)

(** The array and the local variables of the loop; [vl_range] and
    [vl_to_be_printed] are set together. *)
Record VlanList := mkVL {
  vl_buf : buf;
  vl_len : Z;
  vl_prev : Z;
  vl_range : bool;
  vl_to_be_printed : bool;
}.

Definition vl_str_size : Z := MCLAGDCTL_PARA3_LEN - 1.

(** [len += snprintf(str_buf + len, str_size - len, ...)] *)
Definition vl_print (s : buf) (v : VlanList) : option VlanList :=
  b ← snprintf_s_at (vl_len v) (vl_str_size - vl_len v) s (vl_buf v);
  Some (mkVL b (vl_len v + Z.of_nat (length s)) (vl_prev v) (vl_range v) (vl_to_be_printed v)).

Fixpoint vlan_loop (vids : list Z) (v : VlanList) : option VlanList :=
  match vids with
  | [] => Some v
  | vid :: vids' =>
      let room := vl_str_size - vl_len v in
      if room <? 4 then Some v
      else if (vl_prev v =? 0) || negb (vid =? vl_prev v + 1) then
        if vl_range v && (room <? 12) then Some v
        else
          v ← (if vl_range v then vl_print (str "- " ++ dec (vl_prev v) ++ str " ") v else Some v);
          v ← vl_print (dec vid ++ str " ") v;
          vlan_loop vids' (mkVL (vl_buf v) (vl_len v) vid false false)
      else vlan_loop vids' (mkVL (vl_buf v) (vl_len v) vid true true)
  end.

(** The end of the last range. *)
Definition vlan_last (v : VlanList) : option VlanList :=
  if vl_to_be_printed v && (vl_str_size - vl_len v >? 4 + (if vl_range v then 8 else 0)) && negb (vl_prev v =? 0)
  then vl_print ((if vl_range v then str "- " else []) ++ dec (vl_prev v) ++ str " ") v
  else Some v.

Definition vlanlist (vids : list Z) : option buf :=
  v ← vlan_loop vids (mkVL (zeros MCLAGDCTL_PARA3_LEN) 0 0 false false);
  v ← vlan_last v;
  Some (vl_buf v).

(** ** Records *)

(** [struct mclagd_arp_msg] and [struct mclagd_ndisc_msg] of an entry. *)
Definition neigh_show (k : NeighKind) (e : buf) : option buf :=
  op ← nk_get_op 0 e; learn_flag ← rd8 2 e;
  ifname ← nk_get_ifname 0 e; name ← c_string ifname;
  ip ← nk_get_ip k 0 e; mac ← nk_get_mac k 0 e;
  if nk_family k =? AF_INET then
    struct_of mclagd_arp_msg_size
      [fld 0 (le_split 1 op); fld 71 (le_split 1 learn_flag); fld 1 name;
       fld 33 (show_ip_str (le_combine ip)); fld 65 mac]
  else
    struct_of mclagd_ndisc_msg_size
      [fld 0 (le_split 1 op); fld 103 (le_split 1 learn_flag); fld 1 name;
       fld 33 (show_ipv6_str ip); fld 97 mac].

Definition mac_record (m : MACMsg) : option buf :=
  name ← c_string (mac_ifname m); origin ← c_string (mac_origin_ifname m);
  addr ← rd 0 ETHER_ADDR_LEN (mac_addr m);
  struct_of mclagd_mac_msg_size
    [fld 0 (le_split 1 (mac_op_type m)); fld 1 (le_split 1 (mac_fdb_type m)); fld 2 addr;
     fld 8 (le_split 2 (mac_vid m)); fld 10 name; fld 42 origin; fld 74 (le_split 1 (mac_age_flag m))].

(** The type of an unknown interface loses its last letter in the list of the
    ports, not for the peer link. *)
Definition local_if_record (unknown : buf) (i : LocalInterface) : option buf :=
  name ← rd 0 MAX_L_PORT_NAME (lif_name i);
  mac ← rd 0 ETHER_ADDR_LEN (lif_mac_addr i);
  members ← rd 0 512 (lif_portchannel_member_buf i);
  vlans ← vlanlist (vlan_vid <$> lif_vlan_tree i);
  struct_of mclagd_local_if_size
    [fld 0 (le_split 4 (lif_ifindex i)); fld 4 (port_type_str (lif_type i) unknown); fld 20 name; fld 52 mac;
     fld 58 (port_state_str (lif_state i)); fld 74 (show_ip_str (lif_ipv4_addr i));
     fld 106 (le_split 1 (lif_prefixlen i)); fld 107 (le_split 1 (of_bool (local_if_is_l3_mode i)));
     fld 108 (le_split 1 (lif_is_peer_link i)); fld 109 members; fld 624 (le_split 4 (lif_po_id i));
     fld 628 (le_split 1 (lif_po_active i)); fld 629 (mlacp_state_str (lif_mlacp_state i));
     fld 645 (le_split 1 (lif_isolate_to_peer_link i)); fld 646 (le_split 1 (of_bool (lif_is_traffic_disable i)));
     fld 647 vlans].

Definition peer_if_record (p : PeerInterface) : option buf :=
  name ← rd 0 MAX_L_PORT_NAME (pif_name p);
  mac ← rd 0 ETHER_ADDR_LEN (pif_mac_addr p);
  struct_of mclagd_peer_if_size
    [fld 0 (le_split 4 (pif_ifindex p)); fld 4 (port_type_str (pif_type p) (str "Unknow")); fld 20 name; fld 52 mac;
     fld 58 (port_state_str (pif_state p)); fld 76 (le_split 4 (pif_po_id p)); fld 80 (le_split 1 (pif_po_active p))].

(** *** The state of a domain *)

(** The names of the port channels; [len] is what the previous domain left. *)
Fixpoint enabled_po_loop (ls : list ptr) (len : Z) (b : buf) : M World buf :=
  match ls with
  | [] => mret b
  | l :: ls' =>
      let size := MCLAGDCTL_PORT_MEMBER_BUF_LEN - len in
      if size <? Z.of_nat ICCP_MAX_PORT_NAME then mret b
      else
        i ← w_get_lif l;
        if lif_type i =? IF_T_PORT_CHANNEL then
          name ← lift (c_string (lif_name i));
          b ← lift (snprintf_s_at len size (name ++ str ",") b);
          enabled_po_loop ls' (len + Z.of_nat (length name) + 1) b
        else enabled_po_loop ls' len b
  end.

(** The list without its last comma, and the length before that. *)
Definition enabled_po (ls : list ptr) (len : Z) : M World (buf * Z) :=
  b ← enabled_po_loop ls len (zeros MCLAGDCTL_PORT_MEMBER_BUF_LEN);
  s ← lift (c_string b);
  let len := Z.of_nat (length s) in
  b ← lift (if len >? 0 then wr (Z.to_nat (len - 1)) [Byte.x00] b else Some b);
  mret (b, len).

Definition role_number (r : stp_role_type) : Z :=
  match r with STP_ROLE_NONE => 0 | STP_ROLE_ACTIVE => 1 | STP_ROLE_STANDBY => 2 end.

(** The name and the MAC of the peer link, when there is such an interface. *)
Definition peer_link_fields (ol : option ptr) : M World (list (nat * buf)) :=
  match ol with
  | None => mret [fld 76 (str "Unknown")]
  | Some l =>
      i ← w_get_lif l;
      name ← lift (rd 0 ICCP_MAX_PORT_NAME (lif_name i));
      mac ← lift (rd 0 ETHER_ADDR_LEN (lif_mac_addr i));
      mret [fld 76 name; fld 108 mac]
  end.

Definition state_record (log_level : Z) (csm : CSM) (len : Z) : M World (buf * Z) :=
  ol ← find_by_name (csm_peer_itf_name csm);
  link ← peer_link_fields ol;
  local_ip ← lift (rd 0 ICCP_MAX_IP_STR_LEN (csm_sender_ip csm));
  peer_ip ← lift (rd 0 ICCP_MAX_IP_STR_LEN (csm_peer_ip csm));
  po ← enabled_po (ml_lif_list (MLACP csm)) len;
  b ← lift (struct_of mclagd_state_size
    ([fld 0 (le_split 4 (if csm_mlag_id csm <=? 0 then -1 else csm_mlag_id csm));
      fld 4 (le_split 4 (of_bool (bool_decide (csm_current_state csm = ICCP_OPERATIONAL))));
      fld 8 (le_split 4 (of_bool (bool_decide (ml_current_state (MLACP csm) = MLACP_STATE_EXCHANGE))));
      fld 12 local_ip; fld 44 peer_ip] ++ link ++
     [fld 636 (le_split 4 (csm_keepalive_time csm)); fld 632 (le_split 4 (csm_session_timeout csm));
      fld 640 (log_level_to_string log_level); fld 116 (le_split 4 (role_number (csm_role_type csm)));
      fld 120 po.1]));
  mret (b, po.2).

(** ** Dumps *)

Section Memory.
Variable malloc : nat -> buf.

Definition realloc (b : buf) (n : nat) : buf := b ++ drop (length b) (malloc n).

(** The buffer and the number of records in it. *)
Record Dump := mkDump { du_buf : buf; du_num : nat }.

(** A record is copied behind the others; the buffer grows when the next one would
    not fit. *)
Definition append_record (size : nat) (r : buf) (d : Dump) : option Dump :=
  b ← wr (MCLAGD_REPLY_INFO_HDR + du_num d * size) r (du_buf d);
  let num := S (du_num d) in
  Some (mkDump (if (length b - MCLAGD_REPLY_INFO_HDR <? (num + 1) * size)%nat
                then realloc b (length b + MCLAGDCTL_CMD_SIZE) else b) num).

Definition new_dump : Dump := mkDump (malloc MCLAGDCTL_CMD_SIZE) 0.

Fixpoint append_all {A} (size : nat) (f : A -> option buf) (xs : list A) (d : Dump) : option Dump :=
  match xs with
  | [] => Some d
  | x :: xs' => r ← f x; d ← append_record size r d; append_all size f xs' d
  end.

(** [LIST_FOREACH] over the domains: all of them, or the one with the identifier. *)
Fixpoint dump_csms {A} (mclag_id : Z) (f : CSM -> A -> M World A) (cs : list ptr) (a : A) (id_exist : bool)
    : M World (A * bool) :=
  match cs with
  | [] => mret (a, id_exist)
  | c :: cs' =>
      csm ← get_csm c;
      if (mclag_id >? 0) && negb (csm_mlag_id csm =? mclag_id) then dump_csms mclag_id f cs' a id_exist
      else a ← f csm a; dump_csms mclag_id f cs' a (id_exist || (mclag_id >? 0))
  end.

Definition dump_result (mclag_id : Z) (id_exist : bool) : Z :=
  if (mclag_id >? 0) && negb id_exist then EXEC_TYPE_NO_EXIST_MCLAGID else EXEC_TYPE_SUCCESS.

(** The result, the buffer and the number of records. *)
Definition dump_of (mclag_id : Z) (f : CSM -> Dump -> M World Dump) : M World (Z * Dump) :=
  y ← the_sys;
  r ← dump_csms mclag_id f (sys_csm_list y) new_dump false;
  mret (dump_result mclag_id r.2, r.1).

Definition config_dump_one (log_level : Z) (csm : CSM) (dl : Dump * Z) : M World (Dump * Z) :=
  bl ← state_record log_level csm dl.2;
  d ← lift (append_record mclagd_state_size bl.1 dl.1);
  mret (d, bl.2).

Definition iccp_mclag_config_dump (log_level mclag_id : Z) : M World (Z * Dump) :=
  y ← the_sys;
  r ← dump_csms mclag_id (config_dump_one log_level) (sys_csm_list y) (new_dump, 0) false;
  mret (dump_result mclag_id r.2, r.1.1).

Definition neigh_dump (k : NeighKind) (size : nat) (mclag_id : Z) : M World (Z * Dump) :=
  dump_of mclag_id (fun csm d =>
    lift (append_all size (fun msg => neigh_show k (msg_buf msg)) (nk_table k (MLACP csm)) d)).
Definition iccp_arp_dump : Z -> M World (Z * Dump) := neigh_dump ARP mclagd_arp_msg_size.
Definition iccp_ndisc_dump : Z -> M World (Z * Dump) := neigh_dump ND mclagd_ndisc_msg_size.

Definition iccp_mac_dump (mclag_id : Z) : M World (Z * Dump) :=
  dump_of mclag_id (fun csm d =>
    lift (append_all mclagd_mac_msg_size (fun p => m ← ml_mac_heap (MLACP csm) !! p; mac_record m)
            (ml_mac_rb (MLACP csm)) d)).

Definition iccp_local_if_dump (mclag_id : Z) : M World (Z * Dump) :=
  dump_of mclag_id (fun csm d w =>
    d ← append_all mclagd_local_if_size (fun l => i ← w_lifs w !! l; local_if_record (str "Unknow") i)
          (ml_lif_list (MLACP csm)) d;
    d ← (match csm_peer_link_if csm with
         | None => Some d
         | Some l => i ← w_lifs w !! l; r ← local_if_record (str "Unknown") i; append_record mclagd_local_if_size r d
         end);
    Some (d, w)).

Definition iccp_peer_if_dump (mclag_id : Z) : M World (Z * Dump) :=
  dump_of mclag_id (fun csm d =>
    lift (append_all mclagd_peer_if_size peer_if_record (ml_pif_list (MLACP csm)) d)).

Fixpoint l3_proto_enabled (ifname : buf) (ls : list ptr) : M World Z :=
  match ls with
  | [] => mret 0
  | l :: ls' =>
      i ← w_get_lif l;
      if streq (lif_name i) ifname && lif_is_l3_proto_enabled i then mret 1 else l3_proto_enabled ifname ls'
  end.
Definition local_if_l3_proto_enabled (ifname : buf) : M World Z :=
  y ← the_sys; l3_proto_enabled ifname (sys_lif_list y).

Definition unique_ip_record (n : buf) : M World buf :=
  name ← lift (rd 0 MAX_L_PORT_NAME n);
  active ← local_if_l3_proto_enabled n;
  lift (struct_of mclagd_unique_ip_if_size [fld 4 name; fld 0 (le_split 4 active)]).

Fixpoint unique_ip_loop (names : list buf) (d : Dump) : M World Dump :=
  match names with
  | [] => mret d
  | n :: names' =>
      r ← unique_ip_record n;
      d ← lift (append_record mclagd_unique_ip_if_size r d);
      unique_ip_loop names' d
  end.
Definition iccp_unique_ip_if_dump (mclag_id : Z) : M World (Z * Dump) :=
  y ← the_sys;
  d ← unique_ip_loop (sys_unq_ip_if_list y) new_dump;
  mret (EXEC_TYPE_SUCCESS, d).

(** *** Counters *)

Definition system_dbg_size : nat := 440.
Definition mlacp_dbg_counter_info_size : nat := 928.
Definition mclagd_dbg_counter_info_size : nat := 448.
Definition iccp_dbg_counters_offset : nat := 441.

(** [iccp_counters[29][2][2]] *)
Definition dbg_counters_bytes (m : gmap (Z * Z * Z) Z) : buf :=
  msg ← (Z.of_nat <$> seq 0 29); dir ← [0; 1]; sts ← [0; 1]; le_split 8 (default 0 (m !! (msg, dir, sts))).

(** [system_dbg]: the bytes of [sys->dbg_counters].  [temp_ptr] stays at the first
    block until one is written. *)
Definition iccp_cmd_dbg_counter_dump (system_dbg : buf) (mclag_id : Z) : M World (Z * (buf * nat)) :=
  y ← the_sys;
  let num_csm := if mclag_id >? 0 then 1%nat else length (sys_csm_list y) in
  let size := (MCLAGD_REPLY_INFO_HDR + mclagd_dbg_counter_info_size + mlacp_dbg_counter_info_size * num_csm)%nat in
  b ← lift (put_fields [fld MCLAGD_REPLY_INFO_HDR system_dbg;
                        fld (MCLAGD_REPLY_INFO_HDR + system_dbg_size) (le_split 1 (Z.of_nat num_csm))]
              (replicate size Byte.x00));
  r ← dump_csms mclag_id
        (fun csm bn =>
           b ← lift (wr (MCLAGD_REPLY_INFO_HDR + iccp_dbg_counters_offset + bn.2 * mlacp_dbg_counter_info_size)
                       (dbg_counters_bytes (ml_dbg_counters (MLACP csm))) bn.1);
           mret (b, S bn.2))
        (sys_csm_list y) (b, 0%nat) false;
  if (mclag_id >? 0) && negb r.2 then mret (EXEC_TYPE_NO_EXIST_MCLAGID, ([], 0%nat))
  else mret (EXEC_TYPE_SUCCESS, (r.1.1, (size - MCLAGD_REPLY_INFO_HDR)%nat)).

(** ** The control socket *)

(** What [read] delivers: a chunk is received when [select] reports data, an empty
    one stands for the end or an error, none left for a timeout.  The bytes and what
    is left, or [None]: an error. *)
Fixpoint mclagd_ctl_sock_read (total_len : nat) (chunks : list buf) : option (buf * list buf) :=
  if (total_len =? 0)%nat then Some ([], chunks)
  else
    match chunks with
    | [] | [] :: _ => None
    | c :: cs =>
        if (length c <=? total_len)%nat
        then r ← mclagd_ctl_sock_read (total_len - length c) cs; Some (c ++ r.1, r.2)
        else Some (take total_len c, drop total_len c :: cs)
    end.

(** [write] takes between one and all the bytes that are left, or fails; [writes]:
    what the calls return, past the end they take everything.  The bytes that were
    written, and the result. *)
Fixpoint mclagd_ctl_sock_write (writes : list Z) (write_len : nat) (w_buf : buf) : buf * nat :=
  match w_buf, writes with
  | [], _ => ([], write_len)
  | _, [] => (w_buf, (write_len + length w_buf)%nat)
  | _, ret :: writes' =>
      if ret <=? 0 then ([], 0%nat)
      else
        let taken := take (Z.to_nat ret) w_buf in
        let r := mclagd_ctl_sock_write writes' (write_len + length taken) (drop (Z.to_nat ret) w_buf) in
        (taken ++ r.1, r.2)
  end.

(** Length, [struct mclagd_reply_hdr] and what follows it. *)
Definition reply_fields (info_type data_len exec_result : Z) : list (nat * buf) :=
  [fld 12 (le_split 4 exec_result); fld 4 (le_split 4 info_type); fld 8 (le_split 4 data_len);
   fld 0 (le_split 4 (data_len + Z.of_nat mclagd_reply_hdr_size))].

Definition ctl_error (info_type ret : Z) : option buf :=
  b ← put_fields (reply_fields info_type 0 ret) (replicate 512 Byte.x00); rd 0 MCLAGD_REPLY_INFO_HDR b.

(** [data_len] bytes of records are in the buffer [b]. *)
Definition ctl_reply (info_type ret : Z) (data_len : nat) (b : buf) : option buf :=
  if negb (ret =? EXEC_TYPE_SUCCESS) then ctl_error info_type ret
  else
    b ← put_fields (reply_fields info_type (Z.of_nat data_len) EXEC_TYPE_SUCCESS) b;
    rd 0 (MCLAGD_REPLY_INFO_HDR + data_len) b.

Definition handle_dump (info_type : Z) (size : nat) (dump : M World (Z * Dump)) : M World buf :=
  r ← dump; lift (ctl_reply info_type r.1 (du_num r.2 * size) (du_buf r.2)).

Definition mclagd_ctl_handle_dump_state (log_level mclag_id : Z) : M World buf :=
  handle_dump INFO_TYPE_DUMP_STATE mclagd_state_size (iccp_mclag_config_dump log_level mclag_id).
Definition mclagd_ctl_handle_dump_arp (mclag_id : Z) : M World buf :=
  handle_dump INFO_TYPE_DUMP_ARP mclagd_arp_msg_size (iccp_arp_dump mclag_id).
Definition mclagd_ctl_handle_dump_ndisc (mclag_id : Z) : M World buf :=
  handle_dump INFO_TYPE_DUMP_NDISC mclagd_ndisc_msg_size (iccp_ndisc_dump mclag_id).
Definition mclagd_ctl_handle_dump_mac (mclag_id : Z) : M World buf :=
  handle_dump INFO_TYPE_DUMP_MAC mclagd_mac_msg_size (iccp_mac_dump mclag_id).
Definition mclagd_ctl_handle_dump_local_portlist (mclag_id : Z) : M World buf :=
  handle_dump INFO_TYPE_DUMP_LOCAL_PORTLIST mclagd_local_if_size (iccp_local_if_dump mclag_id).
Definition mclagd_ctl_handle_dump_peer_portlist (mclag_id : Z) : M World buf :=
  handle_dump INFO_TYPE_DUMP_PEER_PORTLIST mclagd_peer_if_size (iccp_peer_if_dump mclag_id).
(** An error would be reported as one of the list of the local ports. *)
Definition mclagd_ctl_handle_dump_unique_ip (mclag_id : Z) : M World buf :=
  r ← iccp_unique_ip_if_dump mclag_id;
  lift (if negb (r.1 =? EXEC_TYPE_SUCCESS) then ctl_error INFO_TYPE_DUMP_LOCAL_PORTLIST r.1
        else ctl_reply INFO_TYPE_DUMP_UNIQUE_IP r.1 (du_num r.2 * mclagd_unique_ip_if_size) (du_buf r.2)).
Definition mclagd_ctl_handle_dump_dbg_counters (system_dbg : buf) (mclag_id : Z) : M World buf :=
  r ← iccp_cmd_dbg_counter_dump system_dbg mclag_id;
  lift (ctl_reply INFO_TYPE_DUMP_DBG_COUNTERS r.1 r.2.2 r.2.1).

(** The new level and the reply; the 16 bytes on the stack are all written. *)
Definition logger_set_configuration (log_level : Z) : Z := u8 log_level.
Definition mclagd_ctl_handle_config_loglevel (log_level : Z) : option (Z * buf) :=
  b ← put_fields (reply_fields INFO_TYPE_CONFIG_LOGLEVEL 0 EXEC_TYPE_SUCCESS) (malloc MCLAGD_REPLY_INFO_HDR);
  Some (logger_set_configuration log_level, b).

(** One request: the reply, and the log level behind it.  [None]: an error, nothing
    is sent. *)
Definition mclagd_ctl_interactive_process (system_dbg : buf) (log_level : Z) (chunks : list buf)
    : M World (option (buf * Z)) :=
  match mclagd_ctl_sock_read mclagdctl_req_hdr_size chunks with
  | None => mret None
  | Some (req, _) =>
      info_type ← lift (rd32 0 req);
      id ← lift (rd32 4 req);
      let mclag_id := s32 id in
      let answer (m : M World buf) : M World (option (buf * Z)) := b ← m; mret (Some (b, log_level)) in
      if info_type =? INFO_TYPE_DUMP_STATE then answer (mclagd_ctl_handle_dump_state log_level mclag_id)
      else if info_type =? INFO_TYPE_DUMP_ARP then answer (mclagd_ctl_handle_dump_arp mclag_id)
      else if info_type =? INFO_TYPE_DUMP_NDISC then answer (mclagd_ctl_handle_dump_ndisc mclag_id)
      else if info_type =? INFO_TYPE_DUMP_MAC then answer (mclagd_ctl_handle_dump_mac mclag_id)
      else if info_type =? INFO_TYPE_DUMP_LOCAL_PORTLIST then answer (mclagd_ctl_handle_dump_local_portlist mclag_id)
      else if info_type =? INFO_TYPE_DUMP_PEER_PORTLIST then answer (mclagd_ctl_handle_dump_peer_portlist mclag_id)
      else if info_type =? INFO_TYPE_DUMP_DBG_COUNTERS then answer (mclagd_ctl_handle_dump_dbg_counters system_dbg mclag_id)
      else if info_type =? INFO_TYPE_DUMP_UNIQUE_IP then answer (mclagd_ctl_handle_dump_unique_ip mclag_id)
      else if info_type =? INFO_TYPE_CONFIG_LOGLEVEL then
        r ← lift (mclagd_ctl_handle_config_loglevel mclag_id); mret (Some (r.2, r.1))
      else mret None
  end.
End Memory.
