(* ===== verification/Mclagdctl.v ===== *)
(** The command line client [mclagdctl] ([mclagdctl/mclagdctl.c]): it looks up the
    command, sends a request to the control socket of the daemon and prints the
    reply.  What it prints on [stdout] is a text; [stderr] and the
    messages of a failed [select] are left out. *)

From Stdlib Require Import ZArith Lia.
From stdpp Require Import base list gmap numbers option strings.
From coqutil Require Import Byte Word.LittleEndianList.
From S2P Require Import Prelude CBuf State MsgFormat Wire CsmMsg Csm Port SyncPrepare Receive Syncd.
From S2P Require Import AppCsm MacTable Kernel Senders Neigh LinkMac Isolation LinkState SyncUpdate MlacpFsm Session.
From S2P Require Import Lifecycle SyncdRecv Config Learn LinkEvents Connect Show.

Definition EXIT_SUCCESS : Z := 0.
Definition EXIT_FAILURE : Z := 1.

(** ** Printing *)

Definition newline : buf := [Byte.x0a].

(** ["%-<n>s"] *)
Definition padded (n : nat) (s : buf) : buf := s ++ replicate (n - length s) Byte.x20.

(** ["%s: %s\n"] *)
Definition field_line (name : string) (value : buf) : buf := str name ++ str ": " ++ value ++ newline.

Definition rule : buf := replicate 60 Byte.x2d ++ newline.

(** The string at an offset; it may run on into the next member. *)
Definition str_at (off : nat) (msg : buf) : option buf := c_string (drop off msg).

Definition mac_addr_to_str (mac_addr : buf) : buf := joined_by colon (hex2 <$> mac_addr).
Definition mac_at (off : nat) (msg : buf) : option buf := mac_addr_to_str <$> rd off ETHER_ADDR_LEN msg.

Definition int_at (off : nat) (msg : buf) : option Z := s32 <$> rd32 off msg.
Definition u64_at (off : nat) (msg : buf) : option Z := le_combine <$> rd off 8 msg.

Definition yes_no (x : Z) : buf := if truth x then str "Yes" else str "No".

(** [for (; data_len >= len; data_len -= len, count++)] over the records at
    [msg + len * count]. *)
Definition for_rows (row : nat -> buf -> option buf) (len : nat) (msg : buf) (data_len : Z) : option buf :=
  @concat byte <$> mapM (fun count => row count (drop (len * count) msg)) (seq 0 (Z.to_nat data_len / len)).

(** ** Replies *)

Definition state_row (_ : nat) (p : buf) : option buf :=
  mclag_id ← int_at 0 p; keepalive ← rd32 4 p; sync_done ← rd32 8 p;
  local_ip ← str_at 12 p; peer_ip ← str_at 44 p; link ← str_at 76 p; mac ← mac_at 108 p;
  keepalive_time ← int_at 636 p; session_timeout ← int_at 632 p;
  pos ← str_at 120 p; loglevel ← str_at 640 p;
  Some (field_line "The MCLAG's keepalive is" (if truth keepalive then str "OK" else str "ERROR")
        ++ field_line "MCLAG info sync is" (if truth sync_done then str "completed" else str "incomplete")
        ++ field_line "Domain id" (if mclag_id <=? 0 then str "Unknown" else dec mclag_id)
        ++ field_line "Local Ip" local_ip ++ field_line "Peer Ip" peer_ip ++ field_line "Peer Link Interface" link
        ++ field_line "Keepalive time" (dec keepalive_time) ++ field_line "sesssion Timeout " (dec session_timeout)
        ++ field_line "Peer Link Mac" (mac ++ str " ")
        ++ field_line "Role" (if inet_addr local_ip <? inet_addr peer_ip then str "Active" else str "Standby")
        ++ field_line "MCLAG Interface" pos ++ field_line "Loglevel" loglevel).
Definition mclagdctl_parse_dump_state (msg : buf) (data_len : Z) : option buf :=
  for_rows state_row mclagd_state_size msg data_len.

Definition flag_str (learn_flag : Z) : buf :=
  if learn_flag =? 2 then str "R" else if learn_flag =? 1 then str "L" else str "-".

(** Of both kinds of neighbours: the width of the address, the offsets of MAC and
    flag. *)
Definition neigh_row (width mac_off flag_off count : nat) (p : buf) : option buf :=
  ip ← str_at 33 p; mac ← mac_at mac_off p; dev ← str_at 1 p; learn_flag ← rd8 flag_off p;
  Some (padded 6 (dec (Z.of_nat count + 1)) ++ padded width ip ++ mac ++ str "   " ++ padded 20 dev
        ++ flag_str learn_flag ++ newline).

Definition neigh_title (ip : string) (width : nat) : buf :=
  padded 6 (str "No.") ++ padded width (str ip) ++ padded 20 (str "MAC") ++ padded 20 (str "DEV") ++ str "Flag" ++ newline.

Definition mclagdctl_parse_dump_arp (msg : buf) (data_len : Z) : option buf :=
  rows ← for_rows (neigh_row 20 65 71) mclagd_arp_msg_size msg data_len;
  Some (neigh_title "IP" 20 ++ rows).
Definition mclagdctl_parse_dump_ndisc (msg : buf) (data_len : Z) : option buf :=
  rows ← for_rows (neigh_row 52 97 103) mclagd_ndisc_msg_size msg data_len;
  Some (neigh_title "IPv6" 52 ++ rows).

Definition age_str (age_flag : Z) : buf :=
  let own := truth (Z.land age_flag 1) in let peer := truth (Z.land age_flag 2) in
  if own && peer then str "LP" else if own then str "L" else if peer then str "P" else str " ".

Definition mac_row (count : nat) (p : buf) : option buf :=
  fdb_type ← rd8 1 p; mac ← mac_at 2 p; vid ← rd16 8 p;
  dev ← str_at 10 p; origin ← str_at 42 p; age_flag ← rd8 74 p;
  Some (padded 6 (dec (Z.of_nat count + 1)) ++ padded 5 (if fdb_type =? 1 then str "S" else str "D") ++ padded 20 mac
        ++ padded 5 (dec vid) ++ padded 20 dev ++ padded 20 origin ++ padded 5 (age_str age_flag) ++ newline).

Definition mac_title : buf :=
  padded 60 (str "TYPE: S-STATIC, D-DYNAMIC; AGE: L-Local age, P-Peer age") ++ newline
  ++ padded 6 (str "No.") ++ padded 5 (str "TYPE") ++ padded 20 (str "MAC") ++ padded 5 (str "VID") ++ padded 20 (str "DEV")
  ++ padded 20 (str "ORIGIN-DEV") ++ padded 5 (str "AGE") ++ newline.

Definition mclagdctl_parse_dump_mac (msg : buf) (data_len : Z) : option buf :=
  rows ← for_rows mac_row mclagd_mac_msg_size msg data_len; Some (mac_title ++ rows).

Definition local_if_row (_ : nat) (p : buf) : option buf :=
  ty ← rd 4 11 p;
  ifindex ← int_at 0 p; type ← str_at 4 p; name ← str_at 20 p; state ← str_at 58 p; vlans ← str_at 647 p;
  body ←
    (if bool_decide (ty = str "PortChannel") then
       mac ← mac_at 52 p; ip ← str_at 74 p; prefixlen ← rd8 106 p; l3 ← rd8 107 p; members ← str_at 109 p;
       up ← rd8 628 p; isolate ← rd8 645 p; disable ← rd8 646 p;
       Some (field_line "Ifindex" (dec ifindex) ++ field_line "Type" type ++ field_line "PortName" name ++ field_line "MAC" (mac ++ str " ")
             ++ field_line "IPv4Address" ip ++ field_line "Prefixlen" (dec prefixlen) ++ field_line "State" state
             ++ field_line "IsL3Interface" (yes_no l3) ++ field_line "MemberPorts" members
             ++ field_line "PortchannelIsUp" (dec up) ++ field_line "IsIsolateWithPeerlink" (yes_no isolate)
             ++ field_line "IsTrafficDisable" (yes_no disable) ++ field_line "VlanList" vlans)
     else
       Some (field_line "Ifindex" (dec ifindex) ++ field_line "Type" type ++ field_line "PortName" name ++ field_line "State" state
             ++ field_line "VlanList" vlans));
  Some (rule ++ body ++ rule ++ newline).
Definition mclagdctl_parse_dump_local_portlist (msg : buf) (data_len : Z) : option buf :=
  for_rows local_if_row mclagd_local_if_size msg data_len.

Definition peer_if_row (_ : nat) (p : buf) : option buf :=
  ifindex ← int_at 0 p; type ← str_at 4 p; name ← str_at 20 p; mac ← mac_at 52 p; state ← str_at 58 p;
  Some (rule ++ field_line "Ifindex" (dec ifindex) ++ field_line "Type" type ++ field_line "PortName" name
        ++ field_line "MAC" (mac ++ str " ") ++ field_line "State" state ++ rule ++ newline).
Definition mclagdctl_parse_dump_peer_portlist (msg : buf) (data_len : Z) : option buf :=
  for_rows peer_if_row mclagd_peer_if_size msg data_len.

Definition unique_ip_row (_ : nat) (p : buf) : option buf :=
  name ← str_at 4 p; active ← rd32 0 p;
  Some (padded 20 name ++ str "  " ++ padded 5 (yes_no active) ++ newline).
Definition mclagdctl_parse_dump_unique_ip (msg : buf) (data_len : Z) : option buf :=
  rows ← for_rows unique_ip_row mclagd_unique_ip_if_size msg data_len;
  Some (rule ++ padded 20 (str "Ifname") ++ padded 5 (str "Active") ++ newline ++ rule ++ rows
        ++ (if (Z.to_nat data_len / mclagd_unique_ip_if_size =? 0)%nat
            then str "Unique IP configuration not enabled on any interface" ++ newline else [])
        ++ rule ++ newline).

(** *** Counters *)

Definition mclagdctl_dbg_counter_iccpid2str (id : nat) : buf :=
  nth id (str <$> ["SysConfig"; "AggrConfig"; "AggrState"; "MacInfo"; "ArpInfo"; "Unknown"; "PoInfo"; "PeerLinkInfo";
                   "Heartbeat"; "Nak"; "SyncData"; "SyncReq"; "Warmboot"; "IfUpAck"]%string) (str "Unknown").
Definition mclagdctl_dbg_counter_syncdtx2str (id : nat) : buf :=
  nth id (str <$> ["PortIsolation"; "MacLearnMode"; "FlushFdb"; "SetIfMac"; "SetFdb"; "TrafficDistEnable";
                   "TrafficDistDisable"; "SetIccpState"; "SetIccpRole"; "SetSystemId"; "DelIccpInfo";
                   "SetRemoteIntfSts"; "DelRemoteIntf"; "PeerLinkIsolation"; "SetPeerSystemId"]%string) (str "Unknown").
Definition mclagdctl_dbg_counter_syncdrx2str (id : nat) : buf :=
  nth id (str <$> ["FdbChange"; "CfgMclag"; "CfgMclagIface"; "CfgMclagUniqueIp"; "vlanMbrshipChange"]%string)
    (str "Unknown").

(** A line: a title and numbers, each in twenty columns. *)
Definition counter_line (title : buf) (offs : list nat) (msg : buf) : option buf :=
  ns ← mapM (fun off => u64_at off msg) offs; Some (padded 20 title ++ concat (padded 20 ∘ dec <$> ns) ++ newline).

(** ["%-20s%u\n"] *)
Definition single_counter (t : string * nat) (msg : buf) : option buf :=
  n ← rd32 t.2 msg; Some (padded 20 (str t.1) ++ dec n ++ newline).

Definition pair_counter (title : string) (off off' : nat) (msg : buf) : option buf :=
  n ← rd32 off msg; n' ← rd32 off' msg; Some (str title ++ dec n ++ str "/" ++ dec n' ++ newline).

Definition columns (ss : list string) : buf := concat (padded 20 ∘ str <$> ss) ++ newline.

Definition session_counters : list (string * nat) :=
  [("ICCP session down:", 44); ("Peer link down:", 48); ("Rx invalid msg:", 56); ("Rx sock error(hdr):", 60);
   ("Rx zero len(hdr):", 64); ("Rx sock error(tlv):", 68); ("Rx zero len(tlv):", 72); ("Rx retry max:", 84);
   ("Rx retry total:", 88); ("Rx retry fail:", 92); ("Socket close err:", 76); ("Socket cleanup:", 80)]%string%nat.

Definition mclagdctl_parse_dump_dbg_counters (msg : buf) (data_len : Z) : option buf :=
  single ← mapM (fun t => single_counter t msg) session_counters;
  warmboot ← single_counter ("Warmboot:"%string, 52%nat) msg;
  tx ← mapM (fun i => counter_line (mclagdctl_dbg_counter_syncdtx2str i) [120 + 16 * i; 128 + 16 * i]%nat msg) (seq 0 15);
  rx ← mapM (fun i => counter_line (mclagdctl_dbg_counter_syncdrx2str i) [360 + 16 * i; 368 + 16 * i]%nat msg) (seq 0 5);
  blocks ← rd8 system_dbg_size msg;
  peers ← mapM (fun i =>
    rows ← mapM (fun j =>
      let p := (iccp_dbg_counters_offset + mlacp_dbg_counter_info_size * i + 32 * j)%nat in
      counter_line (mclagdctl_dbg_counter_iccpid2str j) [p; p + 16; p + 8; p + 24]%nat msg) (seq 0 29);
    Some (concat rows ++ newline)) (seq 0 (Z.to_nat blocks));
  link ← pair_counter "Link add/del: " 0 4 msg;
  unknown ← rd32 32 msg;
  nbr ← pair_counter "Neighbor(ARP) add/del: " 8 12 msg;
  mac ← pair_counter "  MAC entry add/del: " 36 40 msg;
  addr ← pair_counter "Address add/del: " 16 20 msg;
  unexpected ← rd32 24 msg;
  errors ← rd32 28 msg;
  Some (concat single ++ newline ++ warmboot ++ newline
        ++ columns ["ICCP to MclagSyncd"; "TX_OK"; "TX_ERROR"]%string
        ++ columns ["------------------"; "-----"; "--------"]%string ++ concat tx
        ++ newline ++ columns ["MclagSyncd to ICCP"; "RX_OK"; "RX_ERROR"]%string
        ++ columns ["------------------"; "-----"; "--------"]%string ++ concat rx
        ++ newline ++ columns ["ICCP to Peer"; "TX_OK"; "RX_OK"; "TX_ERROR"; "RX_ERROR"]%string
        ++ columns ["------------"; "-----"; "-----"; "--------"; "--------"]%string ++ concat peers
        ++ newline ++ str "Netlink Counters" ++ newline ++ str "-----------------" ++ newline
        ++ link ++ field_line "  Unknown if_name" (dec unknown) ++ nbr ++ mac ++ addr
        ++ field_line "Unexpected message type" (dec unexpected) ++ field_line "Receive error" (dec errors) ++ newline).

Definition mclagdctl_parse_config_loglevel (msg : buf) (_ : Z) : option buf :=
  ret ← rd32 0 msg;
  Some ((if ret =? 0 then str "Config loglevel success!" else str "Config loglevel failed!") ++ newline).

(** ** Requests *)

Definition enca (info_type mclag_id : Z) : option buf :=
  struct_of mclagdctl_req_hdr_size [fld 0 (le_split 4 info_type); fld 4 (le_split 4 mclag_id)].

(** Most of the requests are for one domain.  [None]: an error. *)
Definition enca_with_id (info_type mclag_id : Z) : option buf :=
  if mclag_id <=? 0 then None else enca info_type mclag_id.

Definition mclagdctl_enca_dump_state := enca INFO_TYPE_DUMP_STATE.
Definition mclagdctl_enca_dump_arp := enca_with_id INFO_TYPE_DUMP_ARP.
Definition mclagdctl_enca_dump_ndisc := enca_with_id INFO_TYPE_DUMP_NDISC.
Definition mclagdctl_enca_dump_mac := enca_with_id INFO_TYPE_DUMP_MAC.
Definition mclagdctl_enca_dump_local_portlist := enca_with_id INFO_TYPE_DUMP_LOCAL_PORTLIST.
Definition mclagdctl_enca_dump_peer_portlist := enca_with_id INFO_TYPE_DUMP_PEER_PORTLIST.
Definition mclagdctl_enca_dump_unique_ip := enca_with_id INFO_TYPE_DUMP_UNIQUE_IP.
Definition mclagdctl_enca_dump_dbg_counters := enca INFO_TYPE_DUMP_DBG_COUNTERS.
Definition mclagdctl_enca_config_loglevel := enca INFO_TYPE_CONFIG_LOGLEVEL.

(** ** Commands *)

Inductive id_command_type :=
  | ID_CMDTYPE_NONE | ID_CMDTYPE_D | ID_CMDTYPE_D_S | ID_CMDTYPE_D_A | ID_CMDTYPE_D_P | ID_CMDTYPE_D_P_L
  | ID_CMDTYPE_D_P_P | ID_CMDTYPE_D_D | ID_CMDTYPE_D_D_C | ID_CMDTYPE_C | ID_CMDTYPE_C_L.

#[export] Instance id_command_type_eq_dec : EqDecision id_command_type.
Proof. solve_decision. Defined.

(** [cmd_run]: the functions [enca_msg] and [parse_msg]; no command of the table has
    parameters. *)
Record command_type := mkCmd {
  cmd_id : id_command_type;
  cmd_parent_id : id_command_type;
  cmd_info_type : Z;
  cmd_name : buf;
  cmd_run : option ((Z -> option buf) * (buf -> Z -> option buf));
}.

Definition group (id parent : id_command_type) (name : string) : command_type := mkCmd id parent 0 (str name) None.

Definition command_types : list command_type :=
  [group ID_CMDTYPE_D ID_CMDTYPE_NONE "dump";
   mkCmd ID_CMDTYPE_D_S ID_CMDTYPE_D INFO_TYPE_DUMP_STATE (str "state")
     (Some (mclagdctl_enca_dump_state, mclagdctl_parse_dump_state));
   mkCmd ID_CMDTYPE_D_A ID_CMDTYPE_D INFO_TYPE_DUMP_ARP (str "arp")
     (Some (mclagdctl_enca_dump_arp, mclagdctl_parse_dump_arp));
   mkCmd ID_CMDTYPE_D_A ID_CMDTYPE_D INFO_TYPE_DUMP_NDISC (str "nd")
     (Some (mclagdctl_enca_dump_ndisc, mclagdctl_parse_dump_ndisc));
   mkCmd ID_CMDTYPE_D_A ID_CMDTYPE_D INFO_TYPE_DUMP_MAC (str "mac")
     (Some (mclagdctl_enca_dump_mac, mclagdctl_parse_dump_mac));
   mkCmd ID_CMDTYPE_D_A ID_CMDTYPE_D INFO_TYPE_DUMP_UNIQUE_IP (str "unique_ip")
     (Some (mclagdctl_enca_dump_unique_ip, mclagdctl_parse_dump_unique_ip));
   group ID_CMDTYPE_D_P ID_CMDTYPE_D "portlist";
   mkCmd ID_CMDTYPE_D_P_L ID_CMDTYPE_D_P INFO_TYPE_DUMP_LOCAL_PORTLIST (str "local")
     (Some (mclagdctl_enca_dump_local_portlist, mclagdctl_parse_dump_local_portlist));
   mkCmd ID_CMDTYPE_D_P_P ID_CMDTYPE_D_P INFO_TYPE_DUMP_PEER_PORTLIST (str "peer")
     (Some (mclagdctl_enca_dump_peer_portlist, mclagdctl_parse_dump_peer_portlist));
   group ID_CMDTYPE_D_D ID_CMDTYPE_D "debug";
   mkCmd ID_CMDTYPE_D_D_C ID_CMDTYPE_D_D INFO_TYPE_DUMP_DBG_COUNTERS (str "counters")
     (Some (mclagdctl_enca_dump_dbg_counters, mclagdctl_parse_dump_dbg_counters));
   group ID_CMDTYPE_C ID_CMDTYPE_NONE "config";
   mkCmd ID_CMDTYPE_C_L ID_CMDTYPE_C INFO_TYPE_CONFIG_LOGLEVEL (str "loglevel")
     (Some (mclagdctl_enca_config_loglevel, mclagdctl_parse_config_loglevel))].

Definition mclagdctl_cmd_executable (c : command_type) : bool :=
  match cmd_run c with Some _ => true | None => false end.

(** The first command below [parent_id] whose name starts with the word. *)
Definition mclagdctl_get_cmd_by_parent (cmd : buf) (parent_id : id_command_type) : option command_type :=
  find_first (fun c => starts_with cmd (cmd_name c) && bool_decide (cmd_parent_id c = parent_id)) command_types.

Definition mclagdctl_get_cmd_by_id (id : id_command_type) : option command_type :=
  find_first (fun c => bool_decide (cmd_id c = id)) command_types.

(** [None]: the command is unknown or incomplete. *)
Fixpoint mclagdctl_find_cmd (parent_id : id_command_type) (argv : list buf) : option command_type :=
  match argv with
  | [] => None
  | w :: argv' =>
      match mclagdctl_get_cmd_by_parent w parent_id with
      | None => None
      | Some c =>
          if mclagdctl_cmd_executable c && bool_decide (argv' = []) then Some c
          else mclagdctl_find_cmd (cmd_id c) argv'
      end
  end.

(** *** Help *)

(** A command behind its parents; there are at most two. *)
Fixpoint mclagdctl_print_cmd (fuel : nat) (c : command_type) : option buf :=
  if bool_decide (cmd_parent_id c = ID_CMDTYPE_NONE) then Some (cmd_name c)
  else match fuel with
  | O => None
  | S fuel' =>
      p ← mclagdctl_get_cmd_by_id (cmd_parent_id c);
      s ← mclagdctl_print_cmd fuel' p;
      Some (s ++ str " " ++ cmd_name c)
  end.

Definition mclagdctl_print_help (argv0 : buf) : option buf :=
  rows ← mapM (fun c => s ← mclagdctl_print_cmd 2 c; Some (str "    " ++ s ++ newline))
           (filter (fun c => mclagdctl_cmd_executable c = true) command_types);
  Some (argv0 ++ str " [options] command [command args]" ++ newline
        ++ str "    -h --help                Show this help" ++ newline
        ++ str "    -i --mclag-id            Specify one mclag id" ++ newline
        ++ str "    -l --level               Specify log level     critical,err,warn,notice,info,debug" ++ newline
        ++ str "Commands:" ++ newline ++ concat rows).

(** ** The program *)

(** What [getopt_long] finds: the option letter and its argument. *)
Inductive Opt := Opt_h | Opt_i (arg : buf) | Opt_l (arg : buf) | Opt_bad.

Definition tolower (c : byte) : byte :=
  let n := byte.unsigned c in if (65 <=? n) && (n <=? 90) then byte.of_Z (n + 32) else c.

Definition level_letters : list (buf * Z) :=
  [(str "c", 0); (str "e", 1); (str "w", 2); (str "n", 3); (str "i", 4); (str "d", 5)].

(** [para_int]; or the program ends, with help. *)
Fixpoint mclagdctl_options (opts : list Opt) (para_int : Z) : Z + Z :=
  match opts with
  | [] => inr para_int
  | Opt_h :: _ => inl EXIT_SUCCESS
  | Opt_i arg :: opts' => mclagdctl_options opts' (u32 (atoi arg))
  | Opt_l arg :: opts' =>
      match find_first (fun x => bool_decide ([tolower (default Byte.x00 (head arg))] = x.1)) level_letters with
      | Some x => mclagdctl_options opts' x.2
      | None => inl EXIT_FAILURE
      end
  | Opt_bad :: _ => inl EXIT_FAILURE
  end.

Definition mclagdctl_sock_read := mclagd_ctl_sock_read.
Definition mclagdctl_sock_write := mclagd_ctl_sock_write.

(** The reply: its length, its header, the records. *)
Definition mclagdctl_receive (info_type : Z) (parse_msg : buf -> Z -> option buf) (chunks : list buf)
    : option (Z * buf) :=
  match mclagdctl_sock_read 4 chunks with
  | None => Some (EXIT_FAILURE, [])
  | Some (hd, chunks) =>
      n ← rd32 0 hd;
      let len := s32 n in
      if len <=? 0 then Some (EXIT_FAILURE, [])
      else
        match mclagdctl_sock_read (Z.to_nat len) chunks with
        | None => Some (EXIT_FAILURE, [])
        | Some (rcv_buf, _) =>
            type ← int_at 0 rcv_buf;
            exec_result ← int_at 8 rcv_buf;
            if negb (type =? info_type) then Some (EXIT_FAILURE, [])
            else if (exec_result =? EXEC_TYPE_NO_EXIST_SYS) || (exec_result =? EXEC_TYPE_NO_EXIST_MCLAGID)
                    || (exec_result =? EXEC_TYPE_FAILED) then Some (EXIT_FAILURE, [])
            else
              text ← parse_msg (drop mclagd_reply_hdr_size rcv_buf) (s32 (len - Z.of_nat mclagd_reply_hdr_size));
              Some (EXIT_SUCCESS, text)
        end
  end.

(** [connected]: the control socket accepts; [writes]: what [write] returns;
    [answer]: what arrives behind the bytes of the request.  The exit status and the
    output. *)
Definition mclagdctl_main (argv0 : buf) (opts : list Opt) (argv : list buf) (connected : bool) (writes : list Z)
    (answer : buf -> list buf) : option (Z * buf) :=
  let help status := text ← mclagdctl_print_help argv0; Some (status, text) in
  match mclagdctl_options opts 0 with
  | inl status => help status
  | inr para_int =>
      match mclagdctl_find_cmd ID_CMDTYPE_NONE argv with
      | None => help EXIT_FAILURE
      | Some c =>
          match cmd_run c with
          | None => None
          | Some (enca_msg, parse_msg) =>
              if negb connected then Some (EXIT_FAILURE, [])
              else match enca_msg (s32 para_int) with
              | None => Some (EXIT_FAILURE, [])
              | Some req =>
                  let w := mclagdctl_sock_write writes 0 req in
                  if (w.2 <=? 0)%nat then Some (EXIT_FAILURE, [])
                  else mclagdctl_receive (cmd_info_type c) parse_msg (answer w.1)
              end
          end
      end
  end.
