(* ===== verification/ShowSpec.v ===== *)
(** What the show commands promise: the client prints the daemon's tables, however
    the sockets cut the bytes and whatever fresh memory holds. *)

From Stdlib Require Import ZArith Lia.
From stdpp Require Import base list gmap numbers option strings.
From coqutil Require Import Byte Word.LittleEndianList.
From S2P Require Import Prelude CBuf State MsgFormat Wire CsmMsg Csm Port SyncPrepare Receive Syncd.
From S2P Require Import AppCsm MacTable Kernel Senders Neigh LinkMac Isolation LinkState SyncUpdate MlacpFsm Session.
From S2P Require Import Lifecycle SyncdRecv Config Learn LinkEvents Connect Show Mclagdctl.

(** ** Structs *)

Lemma put_fields_length fs b b' : put_fields fs b = Some b' -> length b' = length b.
Proof.
  revert b. induction fs as [|[off x] fs IH]; intros b; cbn [put_fields]; [by intros [= ->]|].
  destruct (wr off x b) as [b1|] eqn:E; [|done]. cbn [mbind option_bind]. intros H. by rewrite (IH _ H), (wr_length _ _ _ _ E).
Qed.

Lemma struct_length size fs b : struct_of size fs = Some b -> length b = size.
Proof. intros H. by rewrite (put_fields_length _ _ _ H), length_replicate. Qed.

(** ** The growing buffer *)

Section Memory.
Variable malloc : nat -> buf.
Hypothesis malloc_size : forall n, length (malloc n) = n.

(** The records lie behind the header, and there is room for one more. *)
Definition dump_holds (size : nat) (recs : list buf) (d : Dump) : Prop :=
  exists h rest, du_buf d = h ++ concat recs ++ rest /\ length h = MCLAGD_REPLY_INFO_HDR
    /\ (size <= length rest)%nat /\ du_num d = length recs /\ Forall (fun r => length r = size) recs.

Lemma concat_size size recs : Forall (fun r : buf => length r = size) recs -> length (concat recs) = (length recs * size)%nat.
Proof. induction 1 as [|r recs Hr _ IH]; [done|]. cbn [concat length]. rewrite length_app, IH, Hr. lia. Qed.

Lemma new_dump_holds size : (size + MCLAGD_REPLY_INFO_HDR <= MCLAGDCTL_CMD_SIZE)%nat -> dump_holds size [] (new_dump malloc).
Proof.
  intros Hs. exists (take MCLAGD_REPLY_INFO_HDR (malloc MCLAGDCTL_CMD_SIZE)), (drop MCLAGD_REPLY_INFO_HDR (malloc MCLAGDCTL_CMD_SIZE)).
  unfold new_dump. cbn [du_buf du_num concat app length]. rewrite take_drop, length_take, length_drop, malloc_size.
  split_and!; [done|lia|lia|done|constructor].
Qed.

Lemma append_holds size recs r d : (size <= MCLAGDCTL_CMD_SIZE)%nat -> dump_holds size recs d -> length r = size ->
  exists d', append_record malloc size r d = Some d' /\ dump_holds size (recs ++ [r]) d'.
Proof.
  intros Hs (h & rest & Hb & Hh & Hr & Hn & Hf) Hl. unfold append_record.
  assert (Hc := concat_size _ _ Hf).
  assert (Ew : wr (MCLAGD_REPLY_INFO_HDR + du_num d * size) r (du_buf d) = Some (h ++ concat recs ++ r ++ drop size rest)).
  { rewrite Hb, Hn, (wr_shift h _ _ _ _ Hh), (wr_shift0 (concat recs) _ _ _ Hc). unfold wr. rewrite Hl.
    by rewrite (proj2 (Nat.leb_le _ _)) by lia. }
  rewrite Ew. cbn [mbind option_bind]. eexists. split; [done|].
  set (b := h ++ concat recs ++ r ++ drop size rest).
  assert (Hlen : length b = (MCLAGD_REPLY_INFO_HDR + length recs * size + length rest)%nat)
    by (unfold b; rewrite !length_app, length_drop; lia).
  set (grown := if (length b - MCLAGD_REPLY_INFO_HDR <? (S (du_num d) + 1) * size)%nat then drop (length b) (malloc (length b + MCLAGDCTL_CMD_SIZE)) else []).
  exists h, (drop size rest ++ grown). cbn [du_buf du_num]. split_and!.
  - unfold grown, realloc, b. rewrite concat_app. cbn [concat]. rewrite app_nil_r.
    case_match; rewrite ?app_nil_r, <- !(assoc_L (++)); done.
  - done.
  - unfold grown. destruct (Nat.ltb_spec (length b - MCLAGD_REPLY_INFO_HDR) ((S (du_num d) + 1) * size)) as [Hlt|Hge];
      rewrite length_app, ?length_drop, ?malloc_size; cbn [length]; lia.
  - rewrite length_app. cbn [length]. lia.
  - apply Forall_app. split; [done|by constructor].
Qed.

Lemma append_all_holds {A} size (f : A -> option buf) xs rs recs d :
  (size <= MCLAGDCTL_CMD_SIZE)%nat -> dump_holds size recs d -> mapM f xs = Some rs -> Forall (fun r => length r = size) rs ->
  exists d', append_all malloc size f xs d = Some d' /\ dump_holds size (recs ++ rs) d'.
Proof.
  intros Hs. revert rs recs d. induction xs as [|x xs IH]; intros rs recs d Hd; cbn [mapM].
  - intros [= <-] _. exists d. by rewrite app_nil_r.
  - destruct (f x) as [r|] eqn:Ef; [|done]. cbn [mbind option_bind]. destruct (mapM f xs) as [rs'|] eqn:Em; [|done].
    intros [= <-] [Hr Hrs]%Forall_cons. destruct (append_holds _ _ _ _ Hs Hd Hr) as (d1 & E1 & H1).
    destruct (IH _ _ _ H1 eq_refl Hrs) as (d2 & E2 & H2). exists d2. cbn [append_all]. rewrite Ef. cbn [mbind option_bind].
    rewrite E1. cbn [mbind option_bind]. split; [done|]. by rewrite <- (assoc_L (++)) in H2.
Qed.
End Memory.

(** ** Dumps *)

(** Code that only reads. *)
Definition reads {A} (m : M World A) : Prop := forall w a w', m w = Some (a, w') -> w' = w.

Lemma reads_ret {A} (a : A) : reads (mret a).
Proof. by intros w x w' [= <- <-]. Qed.
Lemma reads_lift {A} (o : option A) : reads (lift o).
Proof. intros w x w'. unfold lift. destruct o; [by intros [= <- <-]|done]. Qed.
Lemma reads_bind {A B} (m : M World A) (k : A -> M World B) : reads m -> (forall a, reads (k a)) -> reads (m ≫= k).
Proof.
  intros Hm Hk w b w' E. apply bind_inv in E as (a & w1 & E1 & E2).
  rewrite (Hk _ _ _ _ E2). by apply (Hm _ _ _ E1).
Qed.
Lemma reads_lif l : reads (w_get_lif l).
Proof. intros w x w'. unfold w_get_lif. destruct (w_lifs w !! l); [by intros [= <- <-]|done]. Qed.
Lemma reads_sys : reads the_sys.
Proof. by intros w x w' [= <- <-]. Qed.

Lemma lif_by_name_reads n ls s r s' : lif_by_name n ls s = Some (r, s') -> s' = s.
Proof.
  revert s. induction ls as [|l ls IH]; intros s; cbn [lif_by_name]; [by intros [= <- <-]|].
  intros (i & s1 & E & E')%bind_inv. unfold get_lif in E. destruct (cs_lifs s !! l); [|done]. injection E as <- <-.
  case_match; [by injection E' as <- <-|by apply IH].
Qed.

Lemma reads_find n : reads (find_by_name n).
Proof.
  intros w r w'. unfold find_by_name, global.
  destruct (local_if_find_by_name n _) as [[x s]|] eqn:E; [|done]. intros [= <- <-].
  apply bind_inv in E as (ls & s1 & [= <- <-] & E). apply lif_by_name_reads in E as ->. by destruct w.
Qed.

Create HintDb reads.
#[export] Hint Resolve reads_ret reads_lift reads_lif reads_sys reads_find : reads.
Ltac reading := repeat first [apply reads_bind; [|intros ?] | solve [auto with reads] | case_match].

Lemma reads_enabled ls len b : reads (enabled_po_loop ls len b).
Proof. revert len b. induction ls as [|l ls IH]; intros len b; cbn [enabled_po_loop]; reading; apply IH. Qed.
Lemma reads_state lv c len : reads (state_record lv c len).
Proof. unfold state_record, peer_link_fields, enabled_po. reading. apply reads_enabled. Qed.
Lemma reads_l3 n ls : reads (l3_proto_enabled n ls).
Proof. induction ls as [|l ls IH]; cbn [l3_proto_enabled]; reading. Qed.
Lemma reads_unique n : reads (unique_ip_record n).
Proof. unfold unique_ip_record, local_if_l3_proto_enabled. reading. apply reads_l3. Qed.

(** The result of code that only reads. *)
Definition value {A} (m : M World A) (w : World) : option A := fst <$> m w.

Lemma value_run {A} (m : M World A) w a : reads m -> value m w = Some a -> m w = Some (a, w).
Proof. intros Hm. unfold value. destruct (m w) as [[x w1]|] eqn:E; [|done]. intros [= <-]. by rewrite (Hm _ _ _ E). Qed.

(** The domains of the process, and those that a command is about. *)
Definition domains (w : World) : option (list CSM) := mapM (fun c => w_csms w !! c) (sys_csm_list (w_sys w)).

Definition wanted (id : Z) (c : CSM) : bool := negb ((id >? 0) && negb (csm_mlag_id c =? id)).
Definition selected (id : Z) (cs : list CSM) : list CSM := filter (fun c => wanted id c = true) cs.
Definition known (id : Z) (cs : list CSM) : bool := negb (id >? 0) || negb (bool_decide (selected id cs = [])).

Lemma selected_cons id c cs :
  selected id (c :: cs) = if (id >? 0) && negb (csm_mlag_id c =? id) then selected id cs else c :: selected id cs.
Proof. unfold selected, wanted. rewrite filter_cons. by destruct (_ && _). Qed.

Lemma dump_csms_run {A} (P : list CSM -> A -> Prop) id (f : CSM -> A -> M World A) w cs csms done a e :
  (forall c pre post a, done ++ selected id csms = pre ++ c :: post -> P pre a ->
     exists a', f c a w = Some (a', w) /\ P (pre ++ [c]) a') ->
  mapM (fun c => w_csms w !! c) cs = Some csms -> P done a ->
  exists a', dump_csms id f cs a e w = Some ((a', e || (id >? 0) && negb (bool_decide (selected id csms = []))), w)
    /\ P (done ++ selected id csms) a'.
Proof.
  revert csms done a e. induction cs as [|c cs IH]; intros csms done a e Hf; cbn [mapM].
  - intros [= <-] Ha. exists a. cbn. by rewrite andb_false_r, orb_false_r, app_nil_r.
  - destruct (w_csms w !! c) as [x|] eqn:Ex; [|done]. cbn [mbind option_bind].
    destruct (mapM _ cs) as [xs|] eqn:Em; [|done]. intros [= <-] Ha. cbn [dump_csms].
    rewrite (bind_Some _ _ _ x w) by (unfold get_csm; by rewrite Ex).
    rewrite selected_cons in *. destruct ((id >? 0) && negb (csm_mlag_id x =? id)); [by apply IH|].
    destruct (Hf x done (selected id xs) a eq_refl Ha) as (a1 & E1 & H1). rewrite (bind_Some _ _ _ _ _ E1).
    edestruct (IH xs (done ++ [x]) a1 (e || (id >? 0))) as (a2 & E2 & H2); [|done|done|].
    { intros c' pre post a' Hc. apply (Hf c' pre post a'). by rewrite <- Hc, <- (assoc_L (++)). }
    exists a2. rewrite E2, <- (assoc_L (++)) in *. split; [|done].
    rewrite (bool_decide_eq_false_2 (x :: _ = [])) by done. by destruct e, (id >? 0).
Qed.

Section Dumps.
Variable malloc : nat -> buf.
Hypothesis malloc_size : forall n, length (malloc n) = n.

Definition result_of (id : Z) (cs : list CSM) : Z :=
  if known id cs then EXEC_TYPE_SUCCESS else EXEC_TYPE_NO_EXIST_MCLAGID.

Lemma dump_result_known id cs :
  dump_result id (false || (id >? 0) && negb (bool_decide (selected id cs = []))) = result_of id cs.
Proof. unfold dump_result, result_of, known. by destruct (id >? 0), (bool_decide _). Qed.

(** What a dump leaves in its buffer, for a reader [recs] of the process. *)
Definition dumps (size : nat) (m : M World (Z * Dump)) (w : World) (ret : Z) (recs : list buf) : Prop :=
  exists d, m w = Some ((ret, d), w) /\ dump_holds size recs d.

Lemma dump_of_dumps size (rows : CSM -> option (list buf)) f w id csms recss :
  (size + MCLAGD_REPLY_INFO_HDR <= MCLAGDCTL_CMD_SIZE)%nat ->
  (forall c d rs recs, rows c = Some rs -> dump_holds size recs d ->
     exists d', f c d w = Some (d', w) /\ dump_holds size (recs ++ rs) d') ->
  domains w = Some csms -> mapM rows (selected id csms) = Some recss ->
  dumps size (dump_of malloc id f) w (result_of id csms) (concat recss).
Proof.
  intros Hs Hf Hd Hr. unfold dumps, dump_of.
  edestruct (dump_csms_run (fun done d => exists rs, mapM rows done = Some rs /\ dump_holds size (concat rs) d) id f w
    (sys_csm_list (w_sys w)) csms [] (new_dump malloc) false) as (d & E & rs & Ers & H).
  - intros c pre post d Hc (rs & Ers & H). cbn [app] in Hc. rewrite Hc in Hr. apply mapM_Some in Hr. apply Forall2_app_inv_l in Hr as (k1 & k2 & _ & Hr & _).
    inversion Hr as [|? r ? k2' Hr1 _]; subst.
    destruct (Hf c d r _ Hr1 H) as (d' & E & H'). exists d'. split; [done|]. exists (rs ++ [r]).
    rewrite concat_app. cbn [concat]. rewrite app_nil_r. split; [|done].
    apply mapM_Some. apply mapM_Some in Ers. apply Forall2_app; [done|by constructor].
  - done.
  - exists []. split; [done|]. by apply new_dump_holds.
  - exists d. cbn [app] in *. rewrite Hr in Ers. injection Ers as <-. split; [|done].
    erewrite bind_Some by reflexivity. rewrite (bind_Some _ _ _ _ _ E). cbn [fst snd]. by rewrite dump_result_known.
Qed.

(** *** The kinds of records *)

Lemma mapM_sizes {A} size (f : A -> option buf) xs rs :
  (forall x r, f x = Some r -> length r = size) -> mapM f xs = Some rs -> Forall (fun r => length r = size) rs.
Proof.
  intros Hf. revert rs. induction xs as [|x xs IH]; intros rs; cbn [mapM]; [by intros [= <-]|].
  destruct (f x) as [r|] eqn:E; [|done]. cbn [mbind option_bind]. destruct (mapM f xs); [|done].
  intros [= <-]. constructor; [by eapply Hf|by apply IH].
Qed.

Ltac unbind := repeat match goal with |- (?o ≫= _) = Some _ -> _ => destruct o; cbn [mbind option_bind]; [|done] end.
Ltac sized := unbind; repeat case_match; apply struct_length.

Lemma neigh_show_size k e r : k = ARP \/ k = ND -> neigh_show k e = Some r ->
  length r = if nk_family k =? AF_INET then mclagd_arp_msg_size else mclagd_ndisc_msg_size.
Proof. intros Hk. unfold neigh_show. sized. Qed.
Lemma mac_record_size m r : mac_record m = Some r -> length r = mclagd_mac_msg_size.
Proof. unfold mac_record. sized. Qed.
Lemma local_if_record_size u i r : local_if_record u i = Some r -> length r = mclagd_local_if_size.
Proof. unfold local_if_record. sized. Qed.
Lemma peer_if_record_size p r : peer_if_record p = Some r -> length r = mclagd_peer_if_size.
Proof. unfold peer_if_record. sized. Qed.

Lemma value_inv {A} (m : M World A) w a : value m w = Some a -> exists w', m w = Some (a, w').
Proof. unfold value. destruct (m w) as [[x w']|]; [|done]. intros [= <-]. by exists w'. Qed.

Lemma lift_inv {A} (o : option A) (w : World) a w' : lift o w = Some (a, w') -> o = Some a.
Proof. unfold lift. by destruct o; [intros [= <- _]|]. Qed.

Lemma unique_ip_record_size n w r : value (unique_ip_record n) w = Some r -> length r = mclagd_unique_ip_if_size.
Proof.
  intros [w' H]%value_inv. unfold unique_ip_record in H.
  apply bind_inv in H as (? & ? & _ & H). apply bind_inv in H as (? & ? & _ & H). by eapply struct_length, lift_inv.
Qed.

Lemma state_record_size lv c len w r : value (state_record lv c len) w = Some r -> length r.1 = mclagd_state_size.
Proof.
  intros [w' H]%value_inv. unfold state_record in H.
  do 5 apply bind_inv in H as (? & ? & _ & H). apply bind_inv in H as (? & ? & Hs & H). injection H as <- _.
  by eapply struct_length, lift_inv.
Qed.

Definition neigh_rows (k : NeighKind) (c : CSM) : option (list buf) :=
  mapM (fun m => neigh_show k (msg_buf m)) (nk_table k (MLACP c)).
Definition mac_rows (c : CSM) : option (list buf) :=
  mapM (fun p => m ← ml_mac_heap (MLACP c) !! p; mac_record m) (ml_mac_rb (MLACP c)).
Definition local_rows (w : World) (c : CSM) : option (list buf) :=
  rs ← mapM (fun l => i ← w_lifs w !! l; local_if_record (str "Unknow") i) (ml_lif_list (MLACP c));
  link ← match csm_peer_link_if c with
         | None => Some []
         | Some l => i ← w_lifs w !! l; r ← local_if_record (str "Unknown") i; Some [r]
         end;
  Some (rs ++ link).
Definition peer_rows (c : CSM) : option (list buf) := mapM peer_if_record (ml_pif_list (MLACP c)).
Definition unique_rows (w : World) : option (list buf) :=
  mapM (fun n => value (unique_ip_record n) w) (sys_unq_ip_if_list (w_sys w)).

(** The records of the domains, with the length that goes from one to the next. *)
Fixpoint state_rows (lv : Z) (w : World) (cs : list CSM) (len : Z) : option (list buf * Z) :=
  match cs with
  | [] => Some ([], len)
  | c :: cs' => r ← value (state_record lv c len) w; rs ← state_rows lv w cs' r.2; Some (r.1 :: rs.1, rs.2)
  end.

Lemma state_rows_app lv w cs cs' len rs :
  state_rows lv w (cs ++ cs') len = Some rs ->
  exists r1 r2, state_rows lv w cs len = Some r1 /\ state_rows lv w cs' r1.2 = Some r2 /\ rs = (r1.1 ++ r2.1, r2.2).
Proof.
  revert len rs. induction cs as [|c cs IH]; intros len rs; cbn [app state_rows].
  - intros H. exists ([], len), rs. by destruct rs.
  - destruct (value _ w) as [r|]; [|done]. cbn [mbind option_bind].
    destruct (state_rows lv w (cs ++ cs') r.2) as [t|] eqn:E; [|done]. intros [= <-].
    destruct (IH _ _ E) as (r1 & r2 & E1 & E2 & ->). exists (r.1 :: r1.1, r1.2), r2. by rewrite E1.
Qed.

Lemma state_rows_snoc lv w cs c len rs r :
  state_rows lv w cs len = Some rs -> value (state_record lv c rs.2) w = Some r ->
  state_rows lv w (cs ++ [c]) len = Some (rs.1 ++ [r.1], r.2).
Proof.
  revert len rs. induction cs as [|x cs IH]; intros len rs; cbn [app state_rows].
  - intros [= <-] H. cbn [snd fst] in *. by rewrite H.
  - destruct (value _ w) as [q|]; [|done]. cbn [mbind option_bind].
    destruct (state_rows lv w cs q.2) as [t|] eqn:E; [|done]. intros [= <-] H. by rewrite (IH _ _ E H).
Qed.

(** *** What the dumps leave *)

Ltac small := apply Nat.leb_le; vm_compute; reflexivity.

Lemma rows_step {A} size (f : A -> option buf) xs d rs recs (w : World) :
  (size + MCLAGD_REPLY_INFO_HDR <= MCLAGDCTL_CMD_SIZE)%nat ->
  (forall x r, f x = Some r -> length r = size) -> mapM f xs = Some rs -> dump_holds size recs d ->
  exists d', append_all malloc size f xs d = Some d' /\ dump_holds size (recs ++ rs) d'.
Proof. intros Hs Hf Hr Hd. apply append_all_holds; [done|lia|done|done|]. by eapply mapM_sizes. Qed.

Lemma neigh_dumps k size w id csms recss :
  (k = ARP /\ size = mclagd_arp_msg_size) \/ (k = ND /\ size = mclagd_ndisc_msg_size) ->
  domains w = Some csms -> mapM (neigh_rows k) (selected id csms) = Some recss ->
  dumps size (neigh_dump malloc k size id) w (result_of id csms) (concat recss).
Proof.
  intros Hk Hd Hr. assert (Hs : (size + MCLAGD_REPLY_INFO_HDR <= MCLAGDCTL_CMD_SIZE)%nat) by (destruct Hk as [[_ ->] | [_ ->]]; small).
  apply (dump_of_dumps size (neigh_rows k)); [done| |done|done]. intros c d rs recs H Hh.
  edestruct (rows_step size (fun m => neigh_show k (msg_buf m))) as (d' & E & H'); [exact w|done| |exact H|exact Hh|].
  { intros x r Er. cbv beta in Er.
    assert (Hk' : k = ARP \/ k = ND) by tauto. rewrite (neigh_show_size k (msg_buf x) r Hk' Er).
    destruct Hk as [[-> ->] | [-> ->]]; reflexivity. }
  exists d'. unfold lift. by rewrite E.
Qed.

Lemma mac_dumps w id csms recss : domains w = Some csms -> mapM mac_rows (selected id csms) = Some recss ->
  dumps mclagd_mac_msg_size (iccp_mac_dump malloc id) w (result_of id csms) (concat recss).
Proof.
  intros Hd Hr. apply (dump_of_dumps _ mac_rows); [small| |done|done]. intros c d rs recs H Hh.
  edestruct (rows_step mclagd_mac_msg_size (fun p => m ← ml_mac_heap (MLACP c) !! p; mac_record m)) as (d' & E & H');
    [exact w|small| |exact H|exact Hh|].
  { intros x r. destruct (ml_mac_heap (MLACP c) !! x); [|done]. apply mac_record_size. }
  exists d'. unfold lift. by rewrite E.
Qed.

Lemma peer_dumps w id csms recss : domains w = Some csms -> mapM peer_rows (selected id csms) = Some recss ->
  dumps mclagd_peer_if_size (iccp_peer_if_dump malloc id) w (result_of id csms) (concat recss).
Proof.
  intros Hd Hr. apply (dump_of_dumps _ peer_rows); [small| |done|done]. intros c d rs recs H Hh.
  edestruct (rows_step mclagd_peer_if_size peer_if_record) as (d' & E & H'); [exact w|small| |exact H|exact Hh|].
  { apply peer_if_record_size. }
  exists d'. unfold lift. by rewrite E.
Qed.

Lemma local_dumps w id csms recss : domains w = Some csms -> mapM (local_rows w) (selected id csms) = Some recss ->
  dumps mclagd_local_if_size (iccp_local_if_dump malloc id) w (result_of id csms) (concat recss).
Proof.
  intros Hd Hr. apply (dump_of_dumps _ (local_rows w)); [small| |done|done]. intros c d rs recs H Hh.
  clear Hr. unfold local_rows in H. destruct (mapM _ _) as [rs1|] eqn:E1; [|done]. cbn [mbind option_bind] in H.
  edestruct (rows_step mclagd_local_if_size (fun l => i ← w_lifs w !! l; local_if_record (str "Unknow") i)) as (d1 & F1 & H1);
    [exact w|small| |exact E1|exact Hh|].
  { intros x r. destruct (w_lifs w !! x); [|done]. apply local_if_record_size. }
  rewrite F1. cbn [mbind option_bind]. destruct (csm_peer_link_if c) as [l|].
  - destruct (w_lifs w !! l) as [i|]; [|done]. cbn [mbind option_bind] in *.
    destruct (local_if_record (str "Unknown") i) as [r|] eqn:Er; [|done]. injection H as <-. cbn [mbind option_bind].
    edestruct (append_holds malloc malloc_size mclagd_local_if_size) as (d2 & F2 & H2); [small|exact H1|by eapply local_if_record_size|].
    exists d2. rewrite F2. split; [done|]. by rewrite <- (assoc_L (++)) in H2.
  - injection H as <-. exists d1. by rewrite app_nil_r.
Qed.

Lemma unique_dumps w recs id : unique_rows w = Some recs ->
  dumps mclagd_unique_ip_if_size (iccp_unique_ip_if_dump malloc id) w EXEC_TYPE_SUCCESS recs.
Proof.
  intros Hr.
  assert (H : forall names rs pre d, mapM (fun n => value (unique_ip_record n) w) names = Some rs ->
    dump_holds mclagd_unique_ip_if_size pre d ->
    exists d', unique_ip_loop malloc names d w = Some (d', w) /\ dump_holds mclagd_unique_ip_if_size (pre ++ rs) d').
  { induction names as [|n names IH]; intros rs pre d; cbn [mapM unique_ip_loop].
    - intros [= <-] H. exists d. by rewrite app_nil_r.
    - destruct (value _ w) as [r|] eqn:E; [|done]. cbn [mbind option_bind]. destruct (mapM _ names) as [rs'|] eqn:Em; [|done].
      intros [= <-] H. rewrite (bind_Some _ _ _ _ _ (value_run _ _ _ (reads_unique n) E)).
      edestruct (append_holds malloc malloc_size mclagd_unique_ip_if_size) as (d1 & F1 & H1); [small|exact H|by eapply unique_ip_record_size|].
      rewrite (bind_Some _ _ _ _ _ (lift_Some _ _ _ F1)). destruct (IH _ _ _ eq_refl H1) as (d2 & F2 & H2).
      exists d2. by rewrite <- (assoc_L (++)) in H2. }
  destruct (H _ _ [] (new_dump malloc) Hr) as (d & E & Hd); [apply new_dump_holds; [done|small]|].
  exists d. unfold iccp_unique_ip_if_dump. erewrite bind_Some by reflexivity. by rewrite (bind_Some _ _ _ _ _ E).
Qed.

Lemma state_dumps lv w id csms recs len : domains w = Some csms -> state_rows lv w (selected id csms) 0 = Some (recs, len) ->
  dumps mclagd_state_size (iccp_mclag_config_dump malloc lv id) w (result_of id csms) recs.
Proof.
  intros Hd Hr. unfold dumps, iccp_mclag_config_dump. erewrite bind_Some by reflexivity.
  edestruct (dump_csms_run (fun done dl => exists rs, state_rows lv w done 0 = Some (rs, dl.2)
    /\ dump_holds mclagd_state_size rs dl.1) id (config_dump_one malloc lv) w (sys_csm_list (w_sys w)) csms [] (new_dump malloc, 0) false)
    as (dl & E & rs & Ers & H); [|exact Hd| |].
  3: { rewrite (bind_Some _ _ _ _ _ E). cbn [app] in Ers. rewrite Hr in Ers. injection Ers as <- _.
       exists dl.1. cbn [fst snd]. by rewrite dump_result_known. }
  - intros c pre post [d n] Hc (rs & Ers & H). unfold config_dump_one. cbn [app fst snd] in *. rewrite Hc in Hr.
    apply state_rows_app in Hr as (r1 & r2 & E1 & E2 & _). rewrite Ers in E1. injection E1 as <-. cbn [state_rows snd] in E2.
    destruct (value (state_record lv c n) w) as [r|] eqn:Er; [|done].
    rewrite (bind_Some _ _ _ _ _ (value_run _ _ _ (reads_state lv c n) Er)).
    edestruct (append_holds malloc malloc_size mclagd_state_size) as (d1 & F1 & H1); [small|exact H|by eapply state_record_size|].
    rewrite (bind_Some _ _ _ _ _ (lift_Some _ _ _ F1)). eexists. split; [done|]. exists (rs ++ [r.1]).
    split; [|done]. by apply (state_rows_snoc lv w pre c 0 (rs, n) r).
  - exists []. split; [done|]. apply new_dump_holds; [done|small].
Qed.

(** ** Replies *)

Definition reply_bytes (info ret : Z) (data : buf) : buf :=
  le_split 4 (Z.of_nat (length data) + 12) ++ le_split 4 info ++ le_split 4 (Z.of_nat (length data)) ++ le_split 4 ret ++ data.

Lemma put_reply info n ret h x : length h = MCLAGD_REPLY_INFO_HDR ->
  put_fields (reply_fields info n ret) (h ++ x)
  = Some (le_split 4 (n + 12) ++ le_split 4 info ++ le_split 4 n ++ le_split 4 ret ++ x).
Proof.
  intros Hh. do 16 (destruct h as [|? h]; [done|]). destruct h; [|done].
  unfold reply_fields, fld, put_fields, wr. cbn [le_split length app Nat.add Nat.leb mbind option_bind take drop].
  done.
Qed.

Lemma ctl_reply_run info h data rest : length h = MCLAGD_REPLY_INFO_HDR ->
  ctl_reply info EXEC_TYPE_SUCCESS (length data) (h ++ data ++ rest) = Some (reply_bytes info EXEC_TYPE_SUCCESS data).
Proof.
  intros Hh. unfold ctl_reply. rewrite Z.eqb_refl. cbn [negb]. rewrite (put_reply _ _ _ _ _ Hh). cbn [mbind option_bind].
  unfold reply_bytes. set (p := le_split 4 (_ + 12)). set (q := le_split 4 info).
  assert (E : forall a b c d e f : buf, a ++ b ++ c ++ d ++ e ++ f = (a ++ b ++ c ++ d ++ e) ++ f) by (intros; by rewrite <- !(assoc_L (++))).
  rewrite E, rd_app_l, rd_full; [done|..]; rewrite !length_app; unfold p, q; rewrite !length_le_split; unfold MCLAGD_REPLY_INFO_HDR; lia.
Qed.

Lemma ctl_error_run info ret : ctl_error info ret = Some (reply_bytes info ret []).
Proof.
  unfold ctl_error. change (replicate 512 Byte.x00) with (replicate 16 Byte.x00 ++ replicate 496 Byte.x00).
  rewrite put_reply by done. cbn [mbind option_bind]. unfold reply_bytes. cbn [length].
  set (x := replicate 496 _). unfold rd. rewrite !length_app, !length_le_split. reflexivity.
Qed.

Lemma handle_dump_run info size m w ret recs : dumps size m w ret recs ->
  handle_dump info size m w = Some (reply_bytes info ret (if ret =? EXEC_TYPE_SUCCESS then concat recs else []), w).
Proof.
  intros (d & E & h & rest & Hb & Hh & _ & Hn & Hf). unfold handle_dump. rewrite (bind_Some _ _ _ _ _ E). cbn [fst snd].
  apply lift_Some. destruct (Z.eqb_spec ret EXEC_TYPE_SUCCESS) as [->|Hr].
  - rewrite Hn, <- (concat_size _ _ Hf), Hb. by apply ctl_reply_run.
  - unfold ctl_reply. rewrite (proj2 (Z.eqb_neq _ _) Hr). apply ctl_error_run.
Qed.

(** ** The tables that the commands show *)

Inductive Table := T_state | T_arp | T_nd | T_mac | T_unique | T_local | T_peer.

Definition table_info (t : Table) : Z :=
  match t with
  | T_state => INFO_TYPE_DUMP_STATE | T_arp => INFO_TYPE_DUMP_ARP | T_nd => INFO_TYPE_DUMP_NDISC
  | T_mac => INFO_TYPE_DUMP_MAC | T_unique => INFO_TYPE_DUMP_UNIQUE_IP
  | T_local => INFO_TYPE_DUMP_LOCAL_PORTLIST | T_peer => INFO_TYPE_DUMP_PEER_PORTLIST
  end.

Definition table_size (t : Table) : nat :=
  match t with
  | T_state => mclagd_state_size | T_arp => mclagd_arp_msg_size | T_nd => mclagd_ndisc_msg_size
  | T_mac => mclagd_mac_msg_size | T_unique => mclagd_unique_ip_if_size
  | T_local => mclagd_local_if_size | T_peer => mclagd_peer_if_size
  end.

(** The records of the domains [cs]. *)
Definition table_records (t : Table) (lv : Z) (w : World) (cs : list CSM) : option (list buf) :=
  let per_domain rows := @concat buf <$> mapM rows cs in
  match t with
  | T_state => fst <$> state_rows lv w cs 0
  | T_arp => per_domain (neigh_rows ARP)
  | T_nd => per_domain (neigh_rows ND)
  | T_mac => per_domain mac_rows
  | T_unique => unique_rows w
  | T_local => per_domain (local_rows w)
  | T_peer => per_domain peer_rows
  end.

(** The configuration of unique addresses does not belong to a domain. *)
Definition table_result (t : Table) (id : Z) (cs : list CSM) : Z :=
  match t with T_unique => EXEC_TYPE_SUCCESS | _ => result_of id cs end.

Lemma fmap_inv {A B} (f : A -> B) o b : f <$> o = Some b -> exists a, o = Some a /\ b = f a.
Proof. destruct o as [a|]; [|done]. intros [= <-]. by exists a. Qed.

Definition table_handler (t : Table) (lv id : Z) : M World buf :=
  match t with
  | T_state => mclagd_ctl_handle_dump_state malloc lv id
  | T_arp => mclagd_ctl_handle_dump_arp malloc id
  | T_nd => mclagd_ctl_handle_dump_ndisc malloc id
  | T_mac => mclagd_ctl_handle_dump_mac malloc id
  | T_unique => mclagd_ctl_handle_dump_unique_ip malloc id
  | T_local => mclagd_ctl_handle_dump_local_portlist malloc id
  | T_peer => mclagd_ctl_handle_dump_peer_portlist malloc id
  end.

Lemma unique_handler id w recs : dumps mclagd_unique_ip_if_size (iccp_unique_ip_if_dump malloc id) w EXEC_TYPE_SUCCESS recs ->
  mclagd_ctl_handle_dump_unique_ip malloc id w
  = handle_dump INFO_TYPE_DUMP_UNIQUE_IP mclagd_unique_ip_if_size (iccp_unique_ip_if_dump malloc id) w.
Proof.
  intros (d & E & _). unfold mclagd_ctl_handle_dump_unique_ip, handle_dump. by rewrite !(bind_Some _ _ _ _ _ E).
Qed.

Lemma table_handler_run t lv id w csms recs :
  domains w = Some csms -> table_records t lv w (selected id csms) = Some recs ->
  let ret := table_result t id csms in
  table_handler t lv id w
  = Some (reply_bytes (table_info t) ret (if ret =? EXEC_TYPE_SUCCESS then concat recs else []), w).
Proof.
  intros Hd Hr ret. destruct t; cbn [table_records] in Hr; cbn [table_handler];
    try (rewrite (unique_handler id w recs) by (by apply unique_dumps)); apply handle_dump_run.
  - apply fmap_inv in Hr as ([rs len] & Hr & ->). by eapply state_dumps.
  - apply fmap_inv in Hr as (rs & Hr & ->). apply neigh_dumps; [by left|done..].
  - apply fmap_inv in Hr as (rs & Hr & ->). apply neigh_dumps; [by right|done..].
  - apply fmap_inv in Hr as (rs & Hr & ->). by apply mac_dumps.
  - by apply unique_dumps.
  - apply fmap_inv in Hr as (rs & Hr & ->). by apply local_dumps.
  - apply fmap_inv in Hr as (rs & Hr & ->). by apply peer_dumps.
Qed.

(** ** Sockets *)

(** The bytes arrive in pieces. *)
Definition pieces (chunks : list buf) (b : buf) : Prop := concat chunks = b /\ Forall (fun c => c <> []) chunks.

Lemma sock_read_run n chunks b : pieces chunks b -> (n <= length b)%nat ->
  exists cs, mclagd_ctl_sock_read n chunks = Some (take n b, cs) /\ pieces cs (drop n b).
Proof.
  intros [<- Hc]. revert n. induction Hc as [|c cs Hc Hcs IH]; intros n Hn.
  - cbn in Hn. assert (n = 0%nat) as -> by lia. by exists [].
  - cbn [mclagd_ctl_sock_read]. destruct (Nat.eqb_spec n 0) as [->|Hz]; [exists (c :: cs); by repeat constructor|].
    destruct c as [|x c]; [done|]. set (y := x :: c) in *. cbn [concat] in *. rewrite length_app in Hn.
    destruct (Nat.leb_spec (length y) n) as [Hle|Hlt].
    + destruct (IH (n - length y)%nat) as (cs' & E & H); [lia|]. exists cs'. rewrite E. cbn [mbind option_bind fst snd].
      rewrite take_app_ge, drop_app_ge by lia. done.
    + exists (drop n y :: cs). rewrite take_app_le, drop_app_le by lia. split; [done|]. split; [done|].
      constructor; [|done]. intros E. apply (f_equal length) in E. rewrite length_drop in E. cbn [length] in E. lia.
Qed.

Lemma sock_write_run writes n b : Forall (fun k => 0 < k) writes -> mclagd_ctl_sock_write writes n b = (b, (n + length b)%nat).
Proof.
  intros H. revert n b. induction H as [|k writes Hk _ IH]; intros n b.
  - destruct b; cbn; [|done]. by rewrite Nat.add_0_r.
  - destruct b as [|x b]; cbn [mclagd_ctl_sock_write]; [by rewrite Nat.add_0_r|].
    rewrite (proj2 (Z.leb_gt _ _)), IH by lia. cbn [fst snd]. set (y := x :: b). rewrite take_drop. f_equal.
    rewrite length_take, length_drop. lia.
Qed.

(** ** The daemon *)

Definition request_bytes (info id : Z) : buf := le_split 4 info ++ le_split 4 id ++ replicate 96 Byte.x00.

Lemma enca_run info id : enca info id = Some (request_bytes info id).
Proof. reflexivity. Qed.

Lemma s32_le_split x : - 2 ^ 31 <= x < 2 ^ 31 -> s32 (le_combine (le_split 4 x)) = x.
Proof. intros Hx. rewrite le_combine_split. unfold s32. cbn. rewrite Zplus_mod_idemp_l, Z.mod_small by lia. lia. Qed.

Lemma process_run t dbg lv id chunks w csms recs :
  - 2 ^ 31 <= id < 2 ^ 31 -> pieces chunks (request_bytes (table_info t) id) ->
  domains w = Some csms -> table_records t lv w (selected id csms) = Some recs ->
  let ret := table_result t id csms in
  mclagd_ctl_interactive_process malloc dbg lv chunks w
  = Some (Some (reply_bytes (table_info t) ret (if ret =? EXEC_TYPE_SUCCESS then concat recs else []), lv), w).
Proof.
  intros Hid Hp Hd Hr ret. unfold mclagd_ctl_interactive_process.
  destruct (sock_read_run mclagdctl_req_hdr_size _ _ Hp) as (cs & -> & _); [done|].
  assert (E0 : rd32 0 (take mclagdctl_req_hdr_size (request_bytes (table_info t) id)) = Some (table_info t)) by (destruct t; reflexivity).
  assert (E4 : rd32 4 (take mclagdctl_req_hdr_size (request_bytes (table_info t) id)) = Some (le_combine (le_split 4 id))) by (destruct t; reflexivity).
  rewrite (bind_Some _ _ _ _ _ (lift_Some _ _ _ E0)), (bind_Some _ _ _ _ _ (lift_Some _ _ _ E4)).
  rewrite (s32_le_split id Hid). cbv zeta. pose proof (table_handler_run t lv id w csms recs Hd Hr) as H.
  destruct t; exact (eq_trans (bind_Some _ (fun b => mret (Some (b, lv))) w _ w H) eq_refl).
Qed.
End Dumps.

(** ** The client *)

(** Reading a record does not look at what follows it. *)
Definition stable {A} (f : buf -> option A) : Prop := forall r x rest, f r = Some x -> f (r ++ rest) = Some x.

Lemma stable_some {A} (a : A) : stable (fun _ => Some a).
Proof. by intros r x rest. Qed.
Lemma stable_bind {A B} (f : buf -> option A) (g : A -> buf -> option B) :
  stable f -> (forall a, stable (g a)) -> stable (fun p => a ← f p; g a p).
Proof.
  intros Hf Hg r x rest. destruct (f r) as [a|] eqn:E; [|done]. rewrite (Hf _ _ rest E). apply Hg.
Qed.
Lemma stable_fmap {A B} (h : A -> B) (f : buf -> option A) : stable f -> stable (fun p => h <$> f p).
Proof. intros Hf r x rest. destruct (f r) as [a|] eqn:E; [|done]. by rewrite (Hf _ _ rest E). Qed.
Lemma stable_rd off n : stable (rd off n).
Proof. intros r x rest E. rewrite rd_app_l; [done|]. by apply rd_inv in E as [? _]. Qed.
Lemma stable_c_string : stable c_string.
Proof.
  intros r x rest. unfold c_string, has_nul. rewrite existsb_app. destruct (existsb is_nul r) eqn:E; [|done].
  cbn [orb]. intros [= <-]. f_equal. induction r as [|c r IH]; [done|]. cbn in E |- *.
  destruct (is_nul c); [done|]. f_equal. by apply IH.
Qed.
Lemma stable_str_at off : stable (str_at off).
Proof.
  intros r x rest E. unfold str_at in *. destruct (decide (off <= length r)%nat) as [Hle|Hgt].
  - rewrite drop_app_le by done. by apply stable_c_string.
  - by rewrite drop_ge in E by lia.
Qed.
Lemma stable_if {A} (b : bool) (f g : buf -> option A) : stable f -> stable g -> stable (fun p => if b then f p else g p).
Proof. by destruct b. Qed.

Create HintDb stable.
#[export] Hint Resolve stable_some stable_rd stable_str_at : stable.
#[export] Hint Extern 1 (stable (rd8 _)) => apply stable_fmap : stable.
#[export] Hint Extern 1 (stable (rd16 _)) => apply stable_fmap : stable.
#[export] Hint Extern 1 (stable (rd32 _)) => apply stable_fmap : stable.
#[export] Hint Extern 1 (stable (int_at _)) => apply stable_fmap : stable.
#[export] Hint Extern 1 (stable (mac_at _)) => apply stable_fmap : stable.
Ltac settle := repeat first [solve [eauto with stable] | apply stable_bind; [|intros ?] | apply stable_if].

Definition table_row (t : Table) : nat -> buf -> option buf :=
  match t with
  | T_state => state_row | T_arp => neigh_row 20 65 71 | T_nd => neigh_row 52 97 103 | T_mac => mac_row
  | T_unique => unique_ip_row | T_local => local_if_row | T_peer => peer_if_row
  end.

Lemma table_row_stable t n : stable (table_row t n).
Proof.
  destruct t; cbn [table_row]; unfold state_row, neigh_row, mac_row, unique_ip_row, local_if_row, peer_if_row; settle.
Qed.

(** The rows of the records, numbered from [k]. *)
Fixpoint rows_from (row : nat -> buf -> option buf) (k : nat) (recs : list buf) : option buf :=
  match recs with
  | [] => Some []
  | r :: recs' => t ← row k r; ts ← rows_from row (S k) recs'; Some (t ++ ts)
  end.

Lemma rows_from_run row size recs text k p : (forall n, stable (row n)) ->
  Forall (fun r => length r = size) recs -> length p = (size * k)%nat -> rows_from row k recs = Some text ->
  exists ts, mapM (fun n => row n (drop (size * n) (p ++ concat recs))) (seq k (length recs)) = Some ts /\ concat ts = text.
Proof.
  intros Hrow Hf. revert text k p. induction Hf as [|r recs Hr Hf IH]; intros text k p Hp; cbn [rows_from].
  - intros [= <-]. by exists [].
  - destruct (row k r) as [t|] eqn:Et; [|done]. cbn [mbind option_bind].
    destruct (rows_from row (S k) recs) as [rest|] eqn:Er; [|done]. intros [= <-].
    destruct (IH rest (S k) (p ++ r)) as (ts & E & <-); [rewrite length_app; lia|done|].
    exists (t :: ts). split; [|done]. cbn [length seq mapM concat]. rewrite <- Hp, drop_app_length, (Hrow _ _ _ _ Et).
    cbn [mbind option_bind]. rewrite <- (assoc_L (++)) in E. by rewrite E.
Qed.

Lemma for_rows_run row size recs text : (forall n, stable (row n)) -> (0 < size)%nat ->
  Forall (fun r => length r = size) recs -> rows_from row 0 recs = Some text ->
  for_rows row size (concat recs) (Z.of_nat (length (concat recs))) = Some text.
Proof.
  intros Hrow Hs Hf Ht. destruct (rows_from_run row size recs text 0 [] Hrow Hf ltac:(cbn; lia) Ht) as (ts & E & <-).
  unfold for_rows. rewrite Nat2Z.id, (concat_size _ _ Hf), Nat.div_mul by lia. cbn [app] in E. by rewrite E.
Qed.

(** What the user sees of the records. *)
Definition table_text (t : Table) (recs : list buf) : option buf :=
  rows ← rows_from (table_row t) 0 recs;
  Some match t with
       | T_arp => neigh_title "IP" 20 ++ rows
       | T_nd => neigh_title "IPv6" 52 ++ rows
       | T_mac => mac_title ++ rows
       | T_unique =>
           rule ++ padded 20 (str "Ifname") ++ padded 5 (str "Active") ++ newline ++ rule ++ rows
           ++ (if bool_decide (recs = []) then str "Unique IP configuration not enabled on any interface" ++ newline else [])
           ++ rule ++ newline
       | T_state | T_local | T_peer => rows
       end.

Definition table_parse (t : Table) : buf -> Z -> option buf :=
  match t with
  | T_state => mclagdctl_parse_dump_state | T_arp => mclagdctl_parse_dump_arp | T_nd => mclagdctl_parse_dump_ndisc
  | T_mac => mclagdctl_parse_dump_mac | T_unique => mclagdctl_parse_dump_unique_ip
  | T_local => mclagdctl_parse_dump_local_portlist | T_peer => mclagdctl_parse_dump_peer_portlist
  end.

Lemma table_parse_run t recs text : Forall (fun r => length r = table_size t) recs -> table_text t recs = Some text ->
  table_parse t (concat recs) (Z.of_nat (length (concat recs))) = Some text.
Proof.
  intros Hf. unfold table_text. destruct (rows_from _ _ _) as [rows|] eqn:E; [|done]. intros [= <-].
  assert (Hp : (0 < table_size t)%nat) by (destruct t; cbn [table_size]; apply Nat.ltb_lt; reflexivity).
  pose proof (for_rows_run (table_row t) (table_size t) recs rows (table_row_stable t) Hp Hf E) as H.
  assert (Hz : (Z.to_nat (Z.of_nat (length (concat recs))) / table_size t =? 0)%nat = bool_decide (recs = [])).
  { rewrite Nat2Z.id, (concat_size _ _ Hf), Nat.div_mul by lia. by destruct recs. }
  destruct t; cbn [table_parse table_row table_size] in *;
    unfold mclagdctl_parse_dump_state, mclagdctl_parse_dump_arp, mclagdctl_parse_dump_ndisc, mclagdctl_parse_dump_mac,
      mclagdctl_parse_dump_unique_ip, mclagdctl_parse_dump_local_portlist, mclagdctl_parse_dump_peer_portlist;
    rewrite H; cbn [mbind option_bind]; rewrite ?Hz; done.
Qed.

(** *** The reply arrives *)

Lemma reply_fields_read info ret data : - 2 ^ 31 <= info < 2 ^ 31 -> - 2 ^ 31 <= ret < 2 ^ 31 ->
  let b := le_split 4 info ++ le_split 4 (Z.of_nat (length data)) ++ le_split 4 ret ++ data in
  int_at 0 b = Some info /\ int_at 8 b = Some ret /\ drop mclagd_reply_hdr_size b = data.
Proof.
  intros Hi Hr b. unfold int_at. split_and!.
  - transitivity (s32 <$> Some (le_combine (le_split 4 info))); [done|]. cbn [fmap option_fmap option_map]. by rewrite s32_le_split.
  - transitivity (s32 <$> Some (le_combine (le_split 4 ret))); [done|]. cbn [fmap option_fmap option_map]. by rewrite s32_le_split.
  - done.
Qed.

Lemma receive_run info ret data parse chunks :
  - 2 ^ 31 <= info < 2 ^ 31 -> ret = EXEC_TYPE_SUCCESS \/ ret = EXEC_TYPE_NO_EXIST_MCLAGID ->
  Z.of_nat (length data) < 2 ^ 31 - 12 -> pieces chunks (reply_bytes info ret data) ->
  mclagdctl_receive info parse chunks
  = if ret =? EXEC_TYPE_SUCCESS then text ← parse data (Z.of_nat (length data)); Some (EXIT_SUCCESS, text)
    else Some (EXIT_FAILURE, []).
Proof.
  intros Hi Hr Hl Hp. unfold mclagdctl_receive, mclagdctl_sock_read.
  destruct (sock_read_run 4 _ _ Hp) as (cs & -> & Hp1). { unfold reply_bytes. rewrite length_app, length_le_split. lia. }
  change (take 4 (reply_bytes info ret data)) with (le_split 4 (Z.of_nat (length data) + 12)).
  change (rd32 0 (le_split 4 (Z.of_nat (length data) + 12))) with (Some (le_combine (le_split 4 (Z.of_nat (length data) + 12)))).
  cbn [mbind option_bind]. rewrite s32_le_split by lia. rewrite (proj2 (Z.leb_gt _ 0)) by lia.
  change (drop 4 (reply_bytes info ret data))
    with (le_split 4 info ++ le_split 4 (Z.of_nat (length data)) ++ le_split 4 ret ++ data) in Hp1.
  assert (Hlen : length (le_split 4 info ++ le_split 4 (Z.of_nat (length data)) ++ le_split 4 ret ++ data) = Z.to_nat (Z.of_nat (length data) + 12))
    by (rewrite !length_app, !length_le_split; lia).
  destruct (sock_read_run (Z.to_nat (Z.of_nat (length data) + 12)) _ _ Hp1) as (cs2 & -> & _); [lia|].
  rewrite take_ge by lia.
  destruct (reply_fields_read info ret data Hi) as (-> & -> & ->); [destruct Hr as [-> | ->]; done|].
  cbn [mbind option_bind]. rewrite Z.eqb_refl. cbn [negb].
  assert (Hs : s32 (Z.of_nat (length data) + 12 - Z.of_nat mclagd_reply_hdr_size) = Z.of_nat (length data)).
  { change (Z.of_nat mclagd_reply_hdr_size) with 12. unfold s32. rewrite Z.mod_small by lia. lia. }
  rewrite Hs. by destruct Hr as [-> | ->].
Qed.

(** *** Commands *)

(** A word of the command line: a part of the command's word, from its start. *)
Definition abbreviates (a w : buf) : Prop := a <> [] /\ exists rest, w = a ++ rest.

Definition prefixes (w : buf) : list buf := (fun n => take n w) <$> seq 1 (length w).

Lemma abbreviates_prefix a w : abbreviates a w -> a ∈ prefixes w.
Proof.
  intros [Ha [rest ->]]. apply list_elem_of_fmap. exists (length a). rewrite take_app_length. split; [done|].
  apply elem_of_seq. rewrite length_app. destruct a; [done|]. cbn [length]. lia.
Qed.

(** The command for a kind of request, and the words that name it. *)
Definition command_of (info : Z) : option command_type :=
  find_first (fun c => mclagdctl_cmd_executable c && (cmd_info_type c =? info)) command_types.

Fixpoint command_words (fuel : nat) (c : command_type) : option (list buf) :=
  if bool_decide (cmd_parent_id c = ID_CMDTYPE_NONE) then Some [cmd_name c]
  else match fuel with
  | O => None
  | S fuel' => p ← mclagdctl_get_cmd_by_id (cmd_parent_id c); ws ← command_words fuel' p; Some (ws ++ [cmd_name c])
  end.

(** Every choice of parts of the words. *)
Fixpoint choices (ws : list buf) : list (list buf) :=
  match ws with
  | [] => [[]]
  | w :: ws' => a ← prefixes w; (fun l => a :: l) <$> choices ws'
  end.

Lemma choices_elem argv ws : Forall2 abbreviates argv ws -> argv ∈ choices ws.
Proof.
  induction 1 as [|a w argv ws Ha _ IH]; [by left|]. cbn [choices]. apply list_elem_of_bind. exists a.
  split; [|by apply abbreviates_prefix]. apply list_elem_of_fmap. by exists argv.
Qed.

(** The kinds of requests that the commands send. *)
Definition requests : list Z := Z.of_nat <$> seq 1 9.

Lemma find_cmd_in parent argv c : mclagdctl_find_cmd parent argv = Some c ->
  c ∈ command_types /\ mclagdctl_cmd_executable c = true.
Proof.
  revert parent. induction argv as [|w argv IH]; intros parent; cbn [mclagdctl_find_cmd]; [done|].
  destruct (mclagdctl_get_cmd_by_parent w parent) as [x|] eqn:E; [|done]. destruct (_ && _) eqn:Ex; [|by apply IH].
  intros [= <-]. apply andb_true_iff in Ex as [Ex _]. split; [|done]. by apply find_first_Some in E as [? _].
Qed.

Lemma command_of_info c : c ∈ command_types -> mclagdctl_cmd_executable c = true -> command_of (cmd_info_type c) = Some c.
Proof.
  intros Hc Hx. unfold command_types in Hc.
  repeat (apply elem_of_cons in Hc as [-> | Hc]; [first [reflexivity | discriminate Hx]|]). by apply not_elem_of_nil in Hc.
Qed.

Definition found_by_words (info : Z) : bool :=
  match command_of info with
  | None => false
  | Some c =>
      match command_words 2 c with
      | None => false
      | Some ws => forallb (fun argv => bool_decide (cmd_info_type <$> mclagdctl_find_cmd ID_CMDTYPE_NONE argv = Some info)) (choices ws)
      end
  end.

Lemma all_found : forallb found_by_words requests = true.
Proof. vm_compute. reflexivity. Qed.

Lemma command_found info c ws argv : info ∈ requests -> command_of info = Some c -> command_words 2 c = Some ws ->
  Forall2 abbreviates argv ws -> mclagdctl_find_cmd ID_CMDTYPE_NONE argv = Some c.
Proof.
  intros Hi Hc Hw Ha. pose proof all_found as H. rewrite forallb_forall in H.
  specialize (H info (proj1 (list_elem_of_In _ _) Hi)). unfold found_by_words in H. rewrite Hc, Hw, forallb_forall in H.
  specialize (H argv (proj1 (list_elem_of_In _ _) (choices_elem _ _ Ha))).
  apply bool_decide_eq_true in H. apply fmap_inv in H as (c' & E & ->).
  destruct (find_cmd_in _ _ _ E) as [H1 H2]. rewrite (command_of_info c' H1 H2) in Hc. by injection Hc as <-.
Qed.

(** ** The whole command *)

Definition table_words (t : Table) : list buf :=
  str "dump" :: match t with
                | T_state => [str "state"] | T_arp => [str "arp"] | T_nd => [str "nd"] | T_mac => [str "mac"]
                | T_unique => [str "unique_ip"] | T_local => [str "portlist"; str "local"]
                | T_peer => [str "portlist"; str "peer"]
                end.

Definition table_enca (t : Table) : Z -> option buf :=
  match t with T_state => enca INFO_TYPE_DUMP_STATE | _ => enca_with_id (table_info t) end.

Lemma table_command t argv : Forall2 abbreviates argv (table_words t) ->
  exists c, mclagdctl_find_cmd ID_CMDTYPE_NONE argv = Some c /\ cmd_info_type c = table_info t
    /\ cmd_run c = Some (table_enca t, table_parse t).
Proof.
  intros Ha.
  assert (H : exists c, command_of (table_info t) = Some c /\ command_words 2 c = Some (table_words t)
    /\ cmd_info_type c = table_info t /\ cmd_run c = Some (table_enca t, table_parse t)).
  { destruct t; (eexists; split_and!; [reflexivity|vm_compute; reflexivity|reflexivity|reflexivity]). }
  destruct H as (c & H1 & H2 & H3 & H4). exists c. split_and!; [|done|done].
  eapply command_found; [|exact H1|exact H2|exact Ha]. apply list_elem_of_In.
  destruct t; vm_compute; tauto.
Qed.

(** The daemon at the other end of the sockets: [cut] says in which pieces the
    request and the reply arrive, [writes] what its [write]s return. *)
Definition answers (malloc : nat -> buf) (dbg : buf) (lv : Z) (w : World) (cut : buf -> list buf) (writes : list Z)
    (req : buf) : list buf :=
  match mclagd_ctl_interactive_process malloc dbg lv (cut req) w with
  | Some (Some (reply, _), _) => cut (mclagd_ctl_sock_write writes 0 reply).1
  | _ => []
  end.

Lemma table_sizes (malloc : nat -> buf) (Hm : forall n, length (malloc n) = n) t lv id w csms recs :
  domains w = Some csms -> table_records t lv w (selected id csms) = Some recs ->
  Forall (fun r => length r = table_size t) recs.
Proof.
  intros Hd Hr. destruct t; cbn [table_records table_size] in *.
  - apply fmap_inv in Hr as ([rs len] & Hr & ->). destruct (state_dumps malloc Hm _ _ _ _ _ _ Hd Hr) as (d & _ & h & rest & H). tauto.
  - apply fmap_inv in Hr as (rs & Hr & ->). destruct (neigh_dumps malloc Hm ARP _ _ _ _ _ ltac:(left; split; reflexivity) Hd Hr) as (d & _ & h & rest & H). tauto.
  - apply fmap_inv in Hr as (rs & Hr & ->). destruct (neigh_dumps malloc Hm ND _ _ _ _ _ ltac:(right; split; reflexivity) Hd Hr) as (d & _ & h & rest & H). tauto.
  - apply fmap_inv in Hr as (rs & Hr & ->). destruct (mac_dumps malloc Hm _ _ _ _ Hd Hr) as (d & _ & h & rest & H). tauto.
  - destruct (unique_dumps malloc Hm _ _ id Hr) as (d & _ & h & rest & H). tauto.
  - apply fmap_inv in Hr as (rs & Hr & ->). destruct (local_dumps malloc Hm _ _ _ _ Hd Hr) as (d & _ & h & rest & H). tauto.
  - apply fmap_inv in Hr as (rs & Hr & ->). destruct (peer_dumps malloc Hm _ _ _ _ Hd Hr) as (d & _ & h & rest & H). tauto.
Qed.

Lemma show_run (malloc : nat -> buf) dbg lv w t id arg argv0 argv cut writes writes' csms recs text :
  (forall n, length (malloc n) = n) -> (forall b, pieces (cut b) b) ->
  Forall (fun k => 0 < k) writes -> Forall (fun k => 0 < k) writes' ->
  0 < id < 2 ^ 31 -> atoi arg = id -> Forall2 abbreviates argv (table_words t) ->
  domains w = Some csms -> table_records t lv w (selected id csms) = Some recs -> table_text t recs = Some text ->
  Z.of_nat (length (concat recs)) < 2 ^ 31 - 12 ->
  mclagdctl_main argv0 [Opt_i arg] argv true writes (answers malloc dbg lv w cut writes')
  = Some (if table_result t id csms =? EXEC_TYPE_SUCCESS then (EXIT_SUCCESS, text) else (EXIT_FAILURE, [])).
Proof.
  intros Hm Hcut Hw Hw' Hid Harg Ha Hd Hr Ht Hl.
  pose proof (process_run malloc Hm t dbg lv id (cut (request_bytes (table_info t) id)) w csms recs ltac:(lia) (Hcut _) Hd Hr) as Hp.
  unfold mclagdctl_main. cbn [mclagdctl_options]. rewrite Harg.
  destruct (table_command t argv Ha) as (c & -> & Hi & ->). cbn [negb].
  assert (s32 (u32 id) = id) as -> by (unfold s32, u32; rewrite (Z.mod_small id), Z.mod_small; lia).
  assert (table_enca t id = Some (request_bytes (table_info t) id)) as ->.
  { destruct t; cbn [table_enca]; unfold enca_with_id; rewrite ?(proj2 (Z.leb_gt id 0)) by lia; apply enca_run. }
  unfold mclagdctl_sock_write. rewrite sock_write_run by done. cbn [fst snd]. rewrite (proj2 (Nat.leb_gt _ 0)) by (unfold request_bytes; rewrite length_app, length_le_split; lia).
  unfold answers. rewrite Hp, Hi. rewrite sock_write_run by done. cbn [fst].
  assert (Hret : table_result t id csms = EXEC_TYPE_SUCCESS \/ table_result t id csms = EXEC_TYPE_NO_EXIST_MCLAGID)
    by (unfold table_result, result_of; destruct t, (known id csms); auto).
  set (data := if table_result t id csms =? EXEC_TYPE_SUCCESS then concat recs else []).
  rewrite (receive_run (table_info t) (table_result t id csms) data _ _ ltac:(by destruct t) Hret); [..|apply Hcut]; unfold data.
  - destruct (table_result t id csms =? EXEC_TYPE_SUCCESS); [|done].
    by rewrite (table_parse_run t recs text (table_sizes malloc Hm _ _ _ _ _ _ Hd Hr) Ht).
  - destruct (_ =? _); [done|]. by cbn.
Qed.

(** C32. A show command for a domain, with its words written out or cut short, prints the
    rows of the records that the daemon has of that domain, and fails when there is
    no such domain: however the sockets cut the bytes, and whatever the memory holds
    that the daemon allocates.  The daemon's writes stay inside its buffers, and its
    state is as it was. *)
Theorem show_command_prints (malloc : nat -> buf) dbg lv w t id arg argv0 argv cut writes writes' csms recs text :
  (forall n, length (malloc n) = n) -> (forall b, pieces (cut b) b) ->
  Forall (fun k => 0 < k) writes -> Forall (fun k => 0 < k) writes' ->
  0 < id < 2 ^ 31 -> atoi arg = id -> Forall2 abbreviates argv (table_words t) ->
  domains w = Some csms -> table_records t lv w (selected id csms) = Some recs -> table_text t recs = Some text ->
  Z.of_nat (length (concat recs)) < 2 ^ 31 - 12 ->
  mclagdctl_main argv0 [Opt_i arg] argv true writes (answers malloc dbg lv w cut writes')
  = Some (if table_result t id csms =? EXEC_TYPE_SUCCESS then (EXIT_SUCCESS, text) else (EXIT_FAILURE, []))
  /\ exists reply, mclagd_ctl_interactive_process malloc dbg lv (cut (request_bytes (table_info t) id)) w = Some (Some (reply, lv), w).
Proof.
  intros Hm Hcut Hw Hw' Hid Harg Ha Hd Hr Ht Hl. split; [by eapply show_run|]. eexists.
  by apply (process_run malloc Hm t dbg lv id _ w csms recs ltac:(lia) (Hcut _) Hd Hr).
Qed.
