(* ===== verification/StageFrame.v ===== *)
(** What the application leaves alone: everything it does on a message or an
    event, except its stage handlers, keeps the stage, the expectation of data,
    the role, the socket, the state of the connection and the queue of messages
    of every CSM, and the addresses of every interface. *)

From Stdlib Require Import ZArith Lia.
From stdpp Require Import base list gmap numbers option strings.
From coqutil Require Import Byte Word.LittleEndianList.
From S2P Require Import Prelude CBuf State MsgFormat Wire CsmMsg Csm Port SyncPrepare Receive Syncd.
From S2P Require Import AppCsm MacTable Kernel Senders Neigh LinkMac Isolation LinkState SyncUpdate MlacpFsm.

(** ** The stage of a CSM *)

Record Stage := mkStage {
  sg_role : stp_role_type;
  sg_fd : Z;
  sg_conn : ICCP_CONNECTION_STATE;
  sg_app : APP_CONNECTION_STATE;
  sg_state : MLACP_APP_STATE;
  sg_wait : Z;
  sg_queue : list Msg;
}.

#[export] Instance eta_stage : Eta Stage := fun r =>
  mkStage (sg_role r) (sg_fd r) (sg_conn r) (sg_app r) (sg_state r) (sg_wait r) (sg_queue r).

Definition stage (c : CSM) : Stage :=
  mkStage (csm_role_type c) (csm_sock_fd c) (csm_current_state c) (app_current_state (csm_app_csm c))
    (ml_current_state (MLACP c)) (ml_wait_for_sync_data (MLACP c)) (ml_mlacp_msg_list (MLACP c)).

(** A view of all CSMs, whichever one has the focus. *)
Definition views {V} (view : CSM -> V) (s : CS) : gmap ptr V :=
  <[cs_self s := view (cs_csm s)]> (view <$> cs_csms s).

(** What makes an interface one of layer 3, and the flag for it. *)
Definition layer3 (i : LocalInterface) : Z * list Z * Z * Z :=
  (lif_ipv4_addr i, lif_ipv6_addr i, lif_master_ifindex i, lif_l3_mode i).

(** [m] changes nothing that the view shows, and leaves the addresses of all
    interfaces alone; the other CSMs stay other CSMs. *)
Definition keepsv {V} (view : CSM -> V) {A} (m : M CS A) : Prop := forall s a s',
  m s = Some (a, s') ->
  cs_self s' = cs_self s /\ views view s' = views view s /\ layer3 <$> cs_lifs s' = layer3 <$> cs_lifs s
  /\ (cs_csms s !! cs_self s = None -> cs_csms s' !! cs_self s = None).

Notation keeps := (keepsv stage).

Create HintDb keeps discriminated.
#[export] Hint Constants Opaque : keeps.
#[export] Hint Variables Opaque : keeps.

Section Rules.
Context {V : Type} (view : CSM -> V) {A B : Type}.

Lemma keeps_ret (a : A) : keepsv view (mret a).
Proof. by intros s a' s' [= <- <-]. Qed.
Lemma keeps_ub : keepsv view (@ub CS A).
Proof. by intros s a s'. Qed.
Lemma keeps_gets (f : CS -> A) : keepsv view (gets f).
Proof. by intros s a s' [= <- <-]. Qed.
Lemma keeps_lift (o : option A) : keepsv view (lift o).
Proof. intros s a s'. unfold lift. destruct o; [|done]. by intros [= <- <-]. Qed.
Lemma keeps_bind (m : M CS A) (f : A -> M CS B) : keepsv view m -> (forall a, keepsv view (f a)) -> keepsv view (m ≫= f).
Proof.
  intros Hm Hf s b s'' (a & s' & E1 & E2)%bind_inv.
  destruct (Hm _ _ _ E1) as (H1 & <- & <- & H3), (Hf _ _ _ _ E2) as (H2 & -> & -> & H4).
  rewrite H1 in *. split_and!; auto.
Qed.
Lemma keeps_when b (m : M CS unit) : keepsv view m -> keepsv view (when b m).
Proof. destruct b; [done|]. intros _ s a s' [= <- <-]. done. Qed.
Lemma keeps_foreach (f : A -> M CS unit) l : (forall a, keepsv view (f a)) -> keepsv view (foreach f l).
Proof.
  intros Hf. induction l as [|x l IH]; cbn [foreach].
  - intros s a s' [= <- <-]. done.
  - intros s b s'' (a & s' & E1 & E2)%bind_inv.
    destruct (Hf _ _ _ _ E1) as (H1 & <- & <- & H3), (IH _ _ _ E2) as (H2 & -> & -> & H4).
    rewrite H1 in *. split_and!; auto.
Qed.

(** Changes of the state that the view does not show. *)
Lemma keeps_modify f :
  (forall s, cs_self (f s) = cs_self s /\ view (cs_csm (f s)) = view (cs_csm s) /\ cs_csms (f s) = cs_csms s
             /\ cs_lifs (f s) = cs_lifs s) ->
  keepsv view (modify f).
Proof.
  intros H s a s' [= <- <-]. destruct (H s) as (E1 & E2 & E3 & E4). split; [done|].
  unfold views. by rewrite E1, E2, E3, E4.
Qed.

(** The focus moves to another CSM and back. *)
Lemma keeps_focus c (m : M CS A) : keepsv view m -> keepsv view (focus c m).
Proof.
  intros Hm s a s'. unfold focus. case_bool_decide as Hc; [apply Hm|].
  destruct (cs_csms s !! c) as [o|] eqn:Ho; [|done]. cbn [mbind option_bind].
  set (s0 := mkCS _ _ _ _ _ _). destruct (m s0) as [[a0 s1]|] eqn:E; [|done].
  cbn [mbind option_bind fst snd]. destruct (cs_csms s1 !! cs_self s) as [c1|] eqn:E1; [|done].
  intros [= <- <-]. split; [done|]. destruct (Hm _ _ _ E) as (H1 & H2 & H3 & _).
  split; [clear H3|split; [exact H3|]]; cycle 1.
  { intros _. cbn. rewrite lookup_insert_ne, lookup_delete_eq by auto. done. }
  change (cs_self s0) with c in H1. unfold views in *. cbn in *. rewrite H1 in H2. clear E Hm.
  apply map_eq. intros p. apply (f_equal (lookup p)) in H2.
  rewrite ?lookup_insert, ?lookup_fmap, ?lookup_insert, ?lookup_delete in *.
  destruct (decide (cs_self s = p)) as [E2|E2], (decide (c = p)) as [E3|E3]; try done; subst; cbn in *.
  - by destruct Hc.
  - rewrite E1 in H2. exact H2.
  - by rewrite Ho.
Qed.
Lemma keeps_on_csm f : (forall c, view (f c) = view c) -> keepsv view (on_csm f).
Proof. intros H. apply keeps_modify. intros s. split_and!; [done|apply H|done..]. Qed.
Lemma keeps_on_g f : keepsv view (on_g f).
Proof. by apply keeps_modify. Qed.
Lemma keeps_act a : keepsv view (act a).
Proof. by apply keeps_modify. Qed.
Lemma keeps_get_lif l : keepsv view (get_lif l).
Proof. intros s a s'. unfold get_lif. destruct (cs_lifs s !! l); [|done]. by intros [= <- <-]. Qed.
Lemma keeps_set_lif l f : (forall i, layer3 (f i) = layer3 i) -> keepsv view (set_lif l f).
Proof.
  intros Hf s a s'. unfold set_lif. destruct (cs_lifs s !! l) as [i|] eqn:E; [|done]. intros [= <- <-].
  split_and!; [done..| |done]. cbn. rewrite fmap_insert, Hf. apply insert_id. by rewrite lookup_fmap, E.
Qed.
Lemma keeps_csm_at c : keepsv view (csm_at c).
Proof.
  intros s a s'. unfold csm_at. destruct (bool_decide _); [by intros [= <- <-]|].
  destruct (cs_csms s !! c); [|done]. by intros [= <- <-].
Qed.
Lemma keeps_on_buf f : keepsv view (on_buf f).
Proof. intros s a s'. unfold on_buf. destruct (f _); [|done]. by intros [= <- <-]. Qed.
Lemma keeps_get_mac p : keepsv view (get_mac p).
Proof. intros s a s'. unfold get_mac. destruct (_ !! p); [|done]. by intros [= <- <-]. Qed.
End Rules.

Lemma keeps_on_mlacp f :
  (forall m, ml_current_state (f m) = ml_current_state m
     /\ ml_wait_for_sync_data (f m) = ml_wait_for_sync_data m
     /\ ml_mlacp_msg_list (f m) = ml_mlacp_msg_list m) -> keeps (on_mlacp f).
Proof.
  intros H. apply keeps_on_csm. intros c. destruct (H (MLACP c)) as (E1 & E2 & E3).
  unfold stage. change (MLACP (set_MLACP f c)) with (f (MLACP c)). cbn. by rewrite E1, E2, E3.
Qed.
#[export] Hint Resolve keeps_ret keeps_ub keeps_gets keeps_lift keeps_on_g keeps_act keeps_get_lif
  keeps_csm_at keeps_on_buf keeps_get_mac : keeps.

(** Go through a body: binds, loops and branches; the leaves are known functions. *)
Ltac keep_step :=
  match goal with
  | |- keepsv _ (_ ≫= _) => apply keeps_bind; [|intros ?]
  | |- keepsv _ (when _ _) => apply keeps_when
  | |- keepsv _ (foreach _ _) => apply keeps_foreach; intros ?
  | |- keepsv _ (let _ := _ in _) => cbn zeta
  | |- keepsv _ (match ?x with _ => _ end) => destruct x
  | |- keepsv _ (if ?x then _ else _) => destruct x
  | |- keepsv _ ((if ?x then _ else _) _) => destruct x
  | |- keepsv _ _ => solve [auto with keeps nocore]
  | |- keepsv stage (on_mlacp _) => apply keeps_on_mlacp; intros ?; by split_and!
  | |- keepsv _ (set_lif _ _) => apply keeps_set_lif; intros ?; by repeat case_match
  | |- keepsv _ (on_csm _) => apply keeps_on_csm; intros ?; by repeat case_match
  end.
Ltac keep := intros; repeat keep_step.

Lemma keeps_the_csm {V} (v : CSM -> V) : keepsv v the_csm. Proof. apply keeps_gets. Qed.
Lemma keeps_the_buf {V} (v : CSM -> V) : keepsv v the_buf. Proof. apply keeps_gets. Qed.
Lemma keeps_the_state {V} (v : CSM -> V) : keepsv v the_state. Proof. apply keeps_gets. Qed.
Lemma keeps_now {V} (v : CSM -> V) : keepsv v now. Proof. apply keeps_gets. Qed.
Lemma keeps_memset {V} (v : CSM -> V) : keepsv v memset_buf. Proof. apply keeps_on_g. Qed.
Lemma keeps_incr {V} (v : CSM -> V) k : keepsv v (SYSTEM_INCR k). Proof. apply keeps_on_g. Qed.
Lemma keeps_tx {V} (v : CSM -> V) ty st : keepsv v (SYSTEM_SET_SYNCD_TX_DBG_COUNTER ty st). Proof. apply keeps_on_g. Qed.
Lemma keeps_usleep {V} (v : CSM -> V) x : keepsv v (usleep x). Proof. unfold usleep. keep. Qed.
#[export] Hint Resolve keeps_the_csm keeps_the_buf keeps_the_state keeps_now keeps_memset keeps_incr
  keeps_tx keeps_usleep : keeps.

(** ** Messages *)

Lemma keeps_counter d ty st c : stage (bump_counter d ty st c) = stage c.
Proof. unfold bump_counter. by case_match. Qed.
Lemma keeps_msg_id {V} (v : CSM -> V) : keepsv v next_msg_id. Proof. unfold next_msg_id. keep. Qed.
Lemma keeps_icc_header {V} (v : CSM -> V) n : keepsv v (mlacp_fill_icc_header n).
Proof. unfold mlacp_fill_icc_header. pose proof (keeps_msg_id v). keep. Qed.
#[export] Hint Resolve keeps_msg_id keeps_icc_header : keeps.
Lemma keeps_csm_send b n : keeps (iccp_csm_send b n).
Proof.
  unfold iccp_csm_send, sock_write. keep.
  apply keeps_on_csm. intros ?. apply keeps_counter.
Qed.
#[export] Hint Resolve keeps_csm_send : keeps.
Lemma keeps_send_buf n : keeps (send_buf n). Proof. unfold send_buf. keep. Qed.
#[export] Hint Resolve keeps_send_buf : keeps.
Lemma keeps_send_prepared p : keeps p -> keeps (send_prepared p). Proof. unfold send_prepared. keep. Qed.
Lemma keeps_send_positive p : keeps p -> keeps (send_positive p). Proof. unfold send_positive. keep. Qed.
#[export] Hint Resolve keeps_send_prepared keeps_send_positive : keeps.
Lemma keeps_sync_request : keeps mlacp_prepare_for_sync_request_tlv.
Proof. unfold mlacp_prepare_for_sync_request_tlv. keep. Qed.
Lemma keeps_sync_data e : keeps (mlacp_prepare_for_sync_data_tlv e).
Proof. unfold mlacp_prepare_for_sync_data_tlv. keep. Qed.
Lemma keeps_sys_config : keeps mlacp_prepare_for_sys_config.
Proof. unfold mlacp_prepare_for_sys_config. keep. Qed.
Lemma keeps_agg_state i : keeps (mlacp_prepare_for_Aggport_state i).
Proof. unfold mlacp_prepare_for_Aggport_state. keep. Qed.
Lemma keeps_agg_config i p : keeps (mlacp_prepare_for_Aggport_config i p).
Proof. unfold mlacp_prepare_for_Aggport_config. keep. Qed.
Lemma keeps_mac_info m n : keeps (mlacp_prepare_for_mac_info_to_peer m n).
Proof. unfold mlacp_prepare_for_mac_info_to_peer. keep. Qed.
Lemma keeps_arp_info m n : keeps (mlacp_prepare_for_arp_info m n).
Proof. unfold mlacp_prepare_for_arp_info. keep. Qed.
Lemma keeps_nd_info m n : keeps (mlacp_prepare_for_ndisc_info m n).
Proof. unfold mlacp_prepare_for_ndisc_info. keep. Qed.
Lemma keeps_po_info i : keeps (mlacp_prepare_for_port_channel_info i).
Proof. unfold mlacp_prepare_for_port_channel_info. keep. Qed.
Lemma keeps_pl_info i : keeps (mlacp_prepare_for_port_peerlink_info i).
Proof. unfold mlacp_prepare_for_port_peerlink_info. keep. Qed.
Lemma keeps_heartbeat : keeps mlacp_prepare_for_heartbeat.
Proof. unfold mlacp_prepare_for_heartbeat. keep. Qed.
Lemma keeps_if_up_ack t i p : keeps (mlacp_prepare_for_if_up_ack t i p).
Proof. unfold mlacp_prepare_for_if_up_ack. keep. Qed.
Lemma keeps_app_nak : keeps app_csm_prepare_nak_msg.
Proof. unfold app_csm_prepare_nak_msg. keep. Qed.
#[export] Hint Resolve keeps_sync_request keeps_sync_data keeps_sys_config keeps_agg_state keeps_agg_config
  keeps_mac_info keeps_arp_info keeps_nd_info keeps_po_info keeps_pl_info keeps_heartbeat
  keeps_if_up_ack keeps_app_nak : keeps.

(** ** mclagsyncd and the kernel *)

Lemma kp_syncd_write {V} (v0 : CSM -> V) bs : keepsv v0 (syncd_write bs).
Proof. unfold syncd_write. keep. Qed.
#[export] Hint Resolve kp_syncd_write : keeps.
Lemma kp_syncd_loop {V} (v0 : CSM -> V) n ty bs pos r : keepsv v0 (syncd_loop n ty bs pos r).
Proof. revert bs pos r; induction n as [|n IH]; intros; cbn [syncd_loop]; keep; auto. Qed.
#[export] Hint Resolve kp_syncd_loop : keeps.
Lemma kp_iccp_send_to_mclagsyncd {V} (v0 : CSM -> V) ty bs : keepsv v0 (iccp_send_to_mclagsyncd ty bs).
Proof. unfold iccp_send_to_mclagsyncd. keep. Qed.
#[export] Hint Resolve kp_iccp_send_to_mclagsyncd : keeps.
Lemma kp_syncd_write_once {V} (v0 : CSM -> V) ty bs : keepsv v0 (syncd_write_once ty bs).
Proof. unfold syncd_write_once. keep. Qed.
#[export] Hint Resolve kp_syncd_write_once : keeps.
Lemma kp_syncd_request {V} (v0 : CSM -> V) ty subs c : keepsv v0 (syncd_request ty subs c).
Proof. unfold syncd_request. keep. Qed.
#[export] Hint Resolve kp_syncd_request : keeps.
Lemma kp_set_peerlink_mlag_port_learn {V} (v0 : CSM -> V) i e : keepsv v0 (set_peerlink_mlag_port_learn i e).
Proof. unfold set_peerlink_mlag_port_learn. keep. Qed.
#[export] Hint Resolve kp_set_peerlink_mlag_port_learn : keeps.
Lemma kp_mlacp_link_set_traffic_dist_mode {V} (v0 : CSM -> V) n b : keepsv v0 (mlacp_link_set_traffic_dist_mode n b).
Proof. unfold mlacp_link_set_traffic_dist_mode. keep. Qed.
#[export] Hint Resolve kp_mlacp_link_set_traffic_dist_mode : keeps.
Lemma kp_mlacp_link_set_iccp_state {V} (v0 : CSM -> V) i b : keepsv v0 (mlacp_link_set_iccp_state i b).
Proof. unfold mlacp_link_set_iccp_state. keep. Qed.
#[export] Hint Resolve kp_mlacp_link_set_iccp_state : keeps.
Lemma kp_mlacp_link_set_iccp_system_id {V} (v0 : CSM -> V) i b : keepsv v0 (mlacp_link_set_iccp_system_id i b).
Proof. unfold mlacp_link_set_iccp_system_id. keep. Qed.
#[export] Hint Resolve kp_mlacp_link_set_iccp_system_id : keeps.
Lemma kp_mlacp_link_set_remote_if_state {V} (v0 : CSM -> V) i n b : keepsv v0 (mlacp_link_set_remote_if_state i n b).
Proof. unfold mlacp_link_set_remote_if_state. keep. Qed.
#[export] Hint Resolve kp_mlacp_link_set_remote_if_state : keeps.
Lemma kp_mlacp_link_del_remote_if_info {V} (v0 : CSM -> V) i n : keepsv v0 (mlacp_link_del_remote_if_info i n).
Proof. unfold mlacp_link_del_remote_if_info. keep. Qed.
#[export] Hint Resolve kp_mlacp_link_del_remote_if_info : keeps.
Lemma kp_mlacp_link_set_peerlink_port_isolation {V} (v0 : CSM -> V) i n b : keepsv v0 (mlacp_link_set_peerlink_port_isolation i n b).
Proof. unfold mlacp_link_set_peerlink_port_isolation. keep. Qed.
#[export] Hint Resolve kp_mlacp_link_set_peerlink_port_isolation : keeps.
Lemma kp_syncd_send_fdb {V} (v0 : CSM -> V) v n m t o : keepsv v0 (syncd_send_fdb v n m t o).
Proof. unfold syncd_send_fdb. keep. Qed.
#[export] Hint Resolve kp_syncd_send_fdb : keeps.
Lemma kp_kernel {V} (v : CSM -> V) a : keepsv v (kernel a).
Proof. unfold kernel. keep. Qed.
#[export] Hint Resolve kp_kernel : keeps.
Lemma kp_lif_by_name {V} (v : CSM -> V) n ls : keepsv v (lif_by_name n ls).
Proof. induction ls; cbn [lif_by_name]; keep. Qed.
#[export] Hint Resolve kp_lif_by_name : keeps.
Lemma kp_local_if_find_by_name {V} (v : CSM -> V) n : keepsv v (local_if_find_by_name n).
Proof. unfold local_if_find_by_name. keep. Qed.
#[export] Hint Resolve kp_local_if_find_by_name : keeps.
Lemma kp_iccp_netlink_neighbor_request {V} (v : CSM -> V) f a b m n p : keepsv v (iccp_netlink_neighbor_request f a b m n p).
Proof. unfold iccp_netlink_neighbor_request. keep. Qed.
#[export] Hint Resolve kp_iccp_netlink_neighbor_request : keeps.
Lemma kp_iccp_set_interface_ipadd_mac i m : keeps (iccp_set_interface_ipadd_mac i m).
Proof. unfold iccp_set_interface_ipadd_mac. keep. Qed.
#[export] Hint Resolve kp_iccp_set_interface_ipadd_mac : keeps.
Lemma kp_set_peer_mac_in_kernel m v a : keeps (set_peer_mac_in_kernel m v a).
Proof. unfold set_peer_mac_in_kernel. keep. Qed.
#[export] Hint Resolve kp_set_peer_mac_in_kernel : keeps.
Lemma kp_set_peerlink_learn_kernel e : keeps (set_peerlink_learn_kernel e).
Proof. unfold set_peerlink_learn_kernel. keep. Qed.
#[export] Hint Resolve kp_set_peerlink_learn_kernel : keeps.
Lemma kp_restart_with_mac i m : keeps (restart_with_mac i m).
Proof. unfold restart_with_mac, iccp_netlink_if_hwaddr_set, iccp_netlink_if_shutdown_set, iccp_netlink_if_startup_set. keep. Qed.
#[export] Hint Resolve kp_restart_with_mac : keeps.
Lemma kp_set_l3_mac l i m : keeps (set_l3_mac l i m).
Proof. unfold set_l3_mac. keep. Qed.
#[export] Hint Resolve kp_set_l3_mac : keeps.
Lemma kp_move_itf l i m : keeps (move_itf l i m).
Proof. unfold move_itf. keep. Qed.
#[export] Hint Resolve kp_move_itf : keeps.
Lemma kp_update_if_ipmac_on_standby l : keeps (update_if_ipmac_on_standby l).
Proof. unfold update_if_ipmac_on_standby, foreach_vlan_itf. keep. Qed.
#[export] Hint Resolve kp_update_if_ipmac_on_standby : keeps.
Lemma kp_recover_if_ipmac_on_standby l : keeps (recover_if_ipmac_on_standby l).
Proof. unfold recover_if_ipmac_on_standby, foreach_vlan_itf. keep. Qed.
#[export] Hint Resolve kp_recover_if_ipmac_on_standby : keeps.
Lemma kp_vlan_port_channel v ls : keeps (vlan_port_channel v ls).
Proof. induction ls; cbn [vlan_port_channel]; keep. Qed.
#[export] Hint Resolve kp_vlan_port_channel : keeps.
Lemma kp_vlan_csm v cs : keeps (vlan_csm v cs).
Proof. induction cs; cbn [vlan_csm]; keep. Qed.
#[export] Hint Resolve kp_vlan_csm : keeps.
Lemma kp_update_vlan_if_mac_on_standby l : keeps (update_vlan_if_mac_on_standby l).
Proof. unfold update_vlan_if_mac_on_standby. keep. Qed.
#[export] Hint Resolve kp_update_vlan_if_mac_on_standby : keeps.
Lemma kp_peer_link_csm cs : keeps (peer_link_csm cs).
Proof. induction cs; cbn [peer_link_csm]; keep. Qed.
#[export] Hint Resolve kp_peer_link_csm : keeps.
Lemma kp_recover_vlan_if_mac_on_standby l d m : keeps (recover_vlan_if_mac_on_standby l d m).
Proof. unfold recover_vlan_if_mac_on_standby. keep. Qed.
#[export] Hint Resolve kp_recover_vlan_if_mac_on_standby : keeps.
Lemma kp_update_vlan_if_mac_on_iccp_up l u m : keeps (update_vlan_if_mac_on_iccp_up l u m).
Proof. unfold update_vlan_if_mac_on_iccp_up. keep. Qed.
#[export] Hint Resolve kp_update_vlan_if_mac_on_iccp_up : keeps.

(** ** The MAC table *)

Lemma kp_set_mac p f : keeps (set_mac p f).
Proof. unfold set_mac. keep. Qed.
#[export] Hint Resolve kp_set_mac : keeps.
Lemma kp_free_mac p : keeps (free_mac p).
Proof. unfold free_mac. keep. Qed.
#[export] Hint Resolve kp_free_mac : keeps.
Lemma kp_iccp_csm_init_mac_msg d : keeps (iccp_csm_init_mac_msg d).
Proof. unfold iccp_csm_init_mac_msg. keep. Qed.
#[export] Hint Resolve kp_iccp_csm_init_mac_msg : keeps.
Lemma kp_rb_find k t : keeps (rb_find k t).
Proof. induction t; cbn [rb_find]; keep. Qed.
#[export] Hint Resolve kp_rb_find : keeps.
Lemma kp_mac_rb_find k : keeps (mac_rb_find k).
Proof. unfold mac_rb_find. keep. Qed.
#[export] Hint Resolve kp_mac_rb_find : keeps.
Lemma kp_rb_insert p k t : keeps (rb_insert p k t).
Proof. induction t; cbn [rb_insert]; keep. Qed.
#[export] Hint Resolve kp_rb_insert : keeps.
Lemma kp_mac_rb_insert p : keeps (mac_rb_insert p).
Proof. unfold mac_rb_insert. keep. Qed.
#[export] Hint Resolve kp_mac_rb_insert : keeps.
Lemma kp_MAC_RB_REMOVE p : keeps (MAC_RB_REMOVE p).
Proof. unfold MAC_RB_REMOVE. keep. Qed.
#[export] Hint Resolve kp_MAC_RB_REMOVE : keeps.
Lemma kp_MAC_IN_MSG_LIST p : keeps (MAC_IN_MSG_LIST p).
Proof. unfold MAC_IN_MSG_LIST. keep. Qed.
#[export] Hint Resolve kp_MAC_IN_MSG_LIST : keeps.
Lemma kp_mac_enqueue p : keeps (mac_enqueue p).
Proof. unfold mac_enqueue. keep. Qed.
#[export] Hint Resolve kp_mac_enqueue : keeps.
Lemma kp_mac_free_unqueued p : keeps (mac_free_unqueued p).
Proof. unfold mac_free_unqueued. keep. Qed.
#[export] Hint Resolve kp_mac_free_unqueued : keeps.
Lemma kp_iccp_send_fdb_entry_to_syncd m t o : keeps (iccp_send_fdb_entry_to_syncd m t o).
Proof. unfold iccp_send_fdb_entry_to_syncd. keep. Qed.
#[export] Hint Resolve kp_iccp_send_fdb_entry_to_syncd : keeps.
Lemma kp_add_mac_to_chip p t : keeps (add_mac_to_chip p t).
Proof. unfold add_mac_to_chip. keep. Qed.
#[export] Hint Resolve kp_add_mac_to_chip : keeps.
Lemma kp_del_mac_from_chip p : keeps (del_mac_from_chip p).
Proof. unfold del_mac_from_chip. keep. Qed.
#[export] Hint Resolve kp_del_mac_from_chip : keeps.
Lemma kp_set_mac_local_age_flag p a u : keeps (set_mac_local_age_flag p a u).
Proof. unfold set_mac_local_age_flag. keep. Qed.
#[export] Hint Resolve kp_set_mac_local_age_flag : keeps.
Lemma kp_mlacp_sync_mac : keeps mlacp_sync_mac.
Proof. unfold mlacp_sync_mac. keep. Qed.
#[export] Hint Resolve kp_mlacp_sync_mac : keeps.
Lemma kp_clear_pending_one n p : keeps (clear_pending_one n p).
Proof. unfold clear_pending_one. keep. Qed.
#[export] Hint Resolve kp_clear_pending_one : keeps.
Lemma kp_mlacp_local_lif_clear_pending_mac l : keeps (mlacp_local_lif_clear_pending_mac l).
Proof. unfold mlacp_local_lif_clear_pending_mac. keep. Qed.
#[export] Hint Resolve kp_mlacp_local_lif_clear_pending_mac : keeps.
Lemma kp_convert_one n p : keeps (convert_one n p).
Proof. unfold convert_one. keep. Qed.
#[export] Hint Resolve kp_convert_one : keeps.
Lemma kp_mlacp_convert_remote_mac_to_local n : keeps (mlacp_convert_remote_mac_to_local n).
Proof. unfold mlacp_convert_remote_mac_to_local. keep. Qed.
#[export] Hint Resolve kp_mlacp_convert_remote_mac_to_local : keeps.
Lemma kp_mclag_if n ls : keeps (mclag_if n ls).
Proof. induction ls; cbn [mclag_if]; keep. Qed.
#[export] Hint Resolve kp_mclag_if : keeps.
Lemma kp_peer_link_up : keeps peer_link_up.
Proof. unfold peer_link_up. keep. Qed.
#[export] Hint Resolve kp_peer_link_up : keeps.
Lemma kp_unreachable_here o : keeps (unreachable_here o).
Proof. unfold unreachable_here. keep. Qed.
#[export] Hint Resolve kp_unreachable_here : keeps.
Lemma kp_mac_redirect p : keeps (mac_redirect p).
Proof. unfold mac_redirect. keep. Qed.
#[export] Hint Resolve kp_mac_redirect : keeps.
Lemma kp_mac_follow_peer p o d : keeps (mac_follow_peer p o d).
Proof. unfold mac_follow_peer. keep. Qed.
#[export] Hint Resolve kp_mac_follow_peer : keeps.
Lemma kp_mac_add_existing p o d : keeps (mac_add_existing p o d).
Proof. unfold mac_add_existing. keep. Qed.
#[export] Hint Resolve kp_mac_add_existing : keeps.
Lemma kp_mac_del_existing p : keeps (mac_del_existing p).
Proof. unfold mac_del_existing. keep. Qed.
#[export] Hint Resolve kp_mac_del_existing : keeps.
Lemma kp_mac_tell_new o d : keeps (mac_tell_new o d).
Proof. unfold mac_tell_new. keep. Qed.
#[export] Hint Resolve kp_mac_tell_new : keeps.
Lemma kp_mac_add_new o d : keeps (mac_add_new o d).
Proof. unfold mac_add_new. keep. Qed.
#[export] Hint Resolve kp_mac_add_new : keeps.
Lemma kp_mlacp_fsm_update_mac_entry_from_peer d : keeps (mlacp_fsm_update_mac_entry_from_peer d).
Proof. unfold mlacp_fsm_update_mac_entry_from_peer. keep. Qed.
#[export] Hint Resolve kp_mlacp_fsm_update_mac_entry_from_peer : keeps.
Lemma kp_mlacp_fsm_update_mac_info_from_peer m : keeps (mlacp_fsm_update_mac_info_from_peer m).
Proof. unfold mlacp_fsm_update_mac_info_from_peer. keep. Qed.
#[export] Hint Resolve kp_mlacp_fsm_update_mac_info_from_peer : keeps.
Lemma kp_mac_age p a : keeps (mac_age p a).
Proof. unfold mac_age. keep. Qed.
#[export] Hint Resolve kp_mac_age : keeps.
Lemma kp_mac_drop p : keeps (mac_drop p).
Proof. unfold mac_drop. keep. Qed.
#[export] Hint Resolve kp_mac_drop : keeps.
Lemma kp_mac_to_peer_link p : keeps (mac_to_peer_link p).
Proof. unfold mac_to_peer_link. keep. Qed.
#[export] Hint Resolve kp_mac_to_peer_link : keeps.
Lemma kp_readd_mac p : keeps (readd_mac p).
Proof. unfold readd_mac. keep. Qed.
#[export] Hint Resolve kp_readd_mac : keeps.
Lemma kp_redirect_or_del p : keeps (redirect_or_del p).
Proof. unfold redirect_or_del. keep. Qed.
#[export] Hint Resolve kp_redirect_or_del : keeps.
Lemma kp_l2_down_one n b p : keeps (l2_down_one n b p).
Proof. unfold l2_down_one. keep. Qed.
#[export] Hint Resolve kp_l2_down_one : keeps.
Lemma kp_l2_up_one n p : keeps (l2_up_one n p).
Proof. unfold l2_up_one. keep. Qed.
#[export] Hint Resolve kp_l2_up_one : keeps.
Lemma kp_update_l2_mac_state l st : keeps (update_l2_mac_state l st).
Proof. unfold update_l2_mac_state. keep. Qed.
#[export] Hint Resolve kp_update_l2_mac_state : keeps.
Lemma kp_to_peerlink_one n p : keeps (to_peerlink_one n p).
Proof. unfold to_peerlink_one. keep. Qed.
#[export] Hint Resolve kp_to_peerlink_one : keeps.
Lemma kp_update_remote_macs_to_peerlink l : keeps (update_remote_macs_to_peerlink l).
Proof. unfold update_remote_macs_to_peerlink. keep. Qed.
#[export] Hint Resolve kp_update_remote_macs_to_peerlink : keeps.
Lemma kp_disconn_one p : keeps (disconn_one p).
Proof. unfold disconn_one. keep. Qed.
#[export] Hint Resolve kp_disconn_one : keeps.
Lemma kp_mlacp_peer_disconn_fdb_handler : keeps mlacp_peer_disconn_fdb_handler.
Proof. unfold mlacp_peer_disconn_fdb_handler. keep. Qed.
#[export] Hint Resolve kp_mlacp_peer_disconn_fdb_handler : keeps.

(** ** The senders *)

Lemma kp_mac_step p n : keeps (mac_step p n).
Proof. unfold mac_step. keep. Qed.
#[export] Hint Resolve kp_mac_step : keeps.
Lemma kp_arp_step m n : keeps (arp_step m n).
Proof. unfold arp_step. keep. Qed.
#[export] Hint Resolve kp_arp_step : keeps.
Lemma kp_ndisc_step m n : keeps (ndisc_step m n).
Proof. unfold ndisc_step. keep. Qed.
#[export] Hint Resolve kp_ndisc_step : keeps.
Lemma kp_mlacp_sync_send_sysConf : keeps mlacp_sync_send_sysConf.
Proof. unfold mlacp_sync_send_sysConf. keep. Qed.
#[export] Hint Resolve kp_mlacp_sync_send_sysConf : keeps.
Lemma kp_mlacp_sync_send_aggConf : keeps mlacp_sync_send_aggConf.
Proof. unfold mlacp_sync_send_aggConf, for_port_channels. keep. Qed.
#[export] Hint Resolve kp_mlacp_sync_send_aggConf : keeps.
Lemma kp_mlacp_sync_send_aggState : keeps mlacp_sync_send_aggState.
Proof. unfold mlacp_sync_send_aggState, for_port_channels. keep. Qed.
#[export] Hint Resolve kp_mlacp_sync_send_aggState : keeps.
Lemma kp_mlacp_sync_send_syncPortChannelInfo : keeps mlacp_sync_send_syncPortChannelInfo.
Proof. unfold mlacp_sync_send_syncPortChannelInfo, for_port_channels. keep. Qed.
#[export] Hint Resolve kp_mlacp_sync_send_syncPortChannelInfo : keeps.
Lemma kp_mlacp_sync_send_syncPeerLinkInfo : keeps mlacp_sync_send_syncPeerLinkInfo.
Proof. unfold mlacp_sync_send_syncPeerLinkInfo. keep. Qed.
#[export] Hint Resolve kp_mlacp_sync_send_syncPeerLinkInfo : keeps.
Lemma kp_mlacp_sync_send_heartbeat : keeps mlacp_sync_send_heartbeat.
Proof. unfold mlacp_sync_send_heartbeat. keep. Qed.
#[export] Hint Resolve kp_mlacp_sync_send_heartbeat : keeps.
Lemma kp_mlacp_fsm_send_if_up_ack t i p : keeps (mlacp_fsm_send_if_up_ack t i p).
Proof. unfold mlacp_fsm_send_if_up_ack. keep. Qed.
#[export] Hint Resolve kp_mlacp_fsm_send_if_up_ack : keeps.

Lemma keeps_batches {X} mx (step : X -> Z -> M CS Z) q :
  (forall x n, keeps (step x n)) -> keeps (send_batches mx step q).
Proof.
  intros Hs. assert (H : forall n len, keeps (batch_loop mx step q n len)).
  { induction q as [|x q IH]; intros; cbn [batch_loop]; keep; auto. }
  unfold send_batches. keep; auto.
Qed.
#[export] Hint Resolve keeps_batches : keeps.

(** ** Neighbours *)

Lemma kp_mlacp_sync_send_syncMacInfo : keeps mlacp_sync_send_syncMacInfo.
Proof. unfold mlacp_sync_send_syncMacInfo. keep; apply keeps_batches; keep. Qed.
#[export] Hint Resolve kp_mlacp_sync_send_syncMacInfo : keeps.
Lemma kp_mlacp_sync_send_syncArpInfo : keeps mlacp_sync_send_syncArpInfo.
Proof. unfold mlacp_sync_send_syncArpInfo. keep; apply keeps_batches; keep. Qed.
#[export] Hint Resolve kp_mlacp_sync_send_syncArpInfo : keeps.
Lemma kp_mlacp_sync_send_syncNdiscInfo : keeps mlacp_sync_send_syncNdiscInfo.
Proof. unfold mlacp_sync_send_syncNdiscInfo. keep; apply keeps_batches; keep. Qed.
#[export] Hint Resolve kp_mlacp_sync_send_syncNdiscInfo : keeps.
Lemma kp_neigh_set_one k n b m : keeps (neigh_set_one k n b m).
Proof. unfold neigh_set_one. keep. Qed.
#[export] Hint Resolve kp_neigh_set_one : keeps.
Lemma kp_arp_set_handler i b : keeps (arp_set_handler i b).
Proof. unfold arp_set_handler. keep. Qed.
#[export] Hint Resolve kp_arp_set_handler : keeps.
Lemma kp_ndisc_set_handler i b : keeps (ndisc_set_handler i b).
Proof. unfold ndisc_set_handler. keep. Qed.
#[export] Hint Resolve kp_ndisc_set_handler : keeps.
Lemma kp_syn_local_mac_info_to_peer i a b : keeps (syn_local_mac_info_to_peer i a b).
Proof. unfold syn_local_mac_info_to_peer. keep. Qed.
#[export] Hint Resolve kp_syn_local_mac_info_to_peer : keeps.
Lemma kp_syn_local_arp_info_to_peer i a b : keeps (syn_local_arp_info_to_peer i a b).
Proof. unfold syn_local_arp_info_to_peer. keep. Qed.
#[export] Hint Resolve kp_syn_local_arp_info_to_peer : keeps.
Lemma kp_syn_local_nd_info_to_peer i a b c : keeps (syn_local_nd_info_to_peer i a b c).
Proof. unfold syn_local_nd_info_to_peer. keep. Qed.
#[export] Hint Resolve kp_syn_local_nd_info_to_peer : keeps.
Lemma kp_syn_local_neigh_mac_info_to_peer l a b c d e f : keeps (syn_local_neigh_mac_info_to_peer l a b c d e f).
Proof. unfold syn_local_neigh_mac_info_to_peer. keep. apply keeps_focus. keep. Qed.
#[export] Hint Resolve kp_syn_local_neigh_mac_info_to_peer : keeps.
Lemma kp_syn_ack_local_neigh_mac_info_to_peer n b : keeps (syn_ack_local_neigh_mac_info_to_peer n b).
Proof. unfold syn_ack_local_neigh_mac_info_to_peer. keep. Qed.
#[export] Hint Resolve kp_syn_ack_local_neigh_mac_info_to_peer : keeps.
Lemma kp_sync_unique_ip : keeps sync_unique_ip.
Proof. unfold sync_unique_ip. keep. Qed.
#[export] Hint Resolve kp_sync_unique_ip : keeps.

(** The two lists of a kind of neighbours are not shown. *)
Definition kind_ok (k : NeighKind) : Prop :=
  (forall l m, ml_current_state (nk_set_queue k l m) = ml_current_state m
     /\ ml_wait_for_sync_data (nk_set_queue k l m) = ml_wait_for_sync_data m
     /\ ml_mlacp_msg_list (nk_set_queue k l m) = ml_mlacp_msg_list m)
  /\ (forall l m, ml_current_state (nk_set_table k l m) = ml_current_state m
     /\ ml_wait_for_sync_data (nk_set_table k l m) = ml_wait_for_sync_data m
     /\ ml_mlacp_msg_list (nk_set_table k l m) = ml_mlacp_msg_list m).

Lemma ARP_ok : kind_ok ARP. Proof. done. Qed.
Lemma ND_ok : kind_ok ND. Proof. done. Qed.
#[export] Hint Resolve ARP_ok ND_ok : keeps.

Lemma kp_neigh_resend k pick : kind_ok k -> keeps (neigh_resend k pick).
Proof.
  intros [Hq Ht]. unfold neigh_resend. keep. apply keeps_on_mlacp. intros m.
  destruct (Hq (nk_queue k m ++ a0.2) (nk_set_table k a0.1 m)) as (-> & -> & ->). apply Ht.
Qed.
#[export] Hint Resolve kp_neigh_resend : keeps.

(** ** Port channels and the session *)

Lemma kp_syn_arp_info_to_peer i : keeps (syn_arp_info_to_peer i).
Proof. unfold syn_arp_info_to_peer. keep. Qed.
#[export] Hint Resolve kp_syn_arp_info_to_peer : keeps.
Lemma kp_syn_ndisc_info_to_peer i : keeps (syn_ndisc_info_to_peer i).
Proof. unfold syn_ndisc_info_to_peer. keep. Qed.
#[export] Hint Resolve kp_syn_ndisc_info_to_peer : keeps.
Lemma kp_mlacp_resync_arp : keeps mlacp_resync_arp.
Proof. unfold mlacp_resync_arp. keep. Qed.
#[export] Hint Resolve kp_mlacp_resync_arp : keeps.
Lemma kp_mlacp_resync_ndisc : keeps mlacp_resync_ndisc.
Proof. unfold mlacp_resync_ndisc. keep. Qed.
#[export] Hint Resolve kp_mlacp_resync_ndisc : keeps.
Lemma kp_get_lifs ls : keeps (get_lifs ls).
Proof. induction ls; cbn [get_lifs]; keep. Qed.
#[export] Hint Resolve kp_get_lifs : keeps.
Lemma kp_update_peerlink_isolate_from_all_csm_lif : keeps update_peerlink_isolate_from_all_csm_lif.
Proof. unfold update_peerlink_isolate_from_all_csm_lif. keep. Qed.
#[export] Hint Resolve kp_update_peerlink_isolate_from_all_csm_lif : keeps.
Lemma kp_set_peerlink_mlag_port_kernel_forward l e : keeps (set_peerlink_mlag_port_kernel_forward l e).
Proof. unfold set_peerlink_mlag_port_kernel_forward. keep. Qed.
#[export] Hint Resolve kp_set_peerlink_mlag_port_kernel_forward : keeps.
Lemma kp_set_peerlink_mlag_port_isolate l e b : keeps (set_peerlink_mlag_port_isolate l e b).
Proof. unfold set_peerlink_mlag_port_isolate. keep. Qed.
#[export] Hint Resolve kp_set_peerlink_mlag_port_isolate : keeps.
Lemma kp_peerlink_port_isolate_cleanup : keeps peerlink_port_isolate_cleanup.
Proof. unfold peerlink_port_isolate_cleanup. keep. Qed.
#[export] Hint Resolve kp_peerlink_port_isolate_cleanup : keeps.
Lemma kp_mlacp_lif_by_name n ls : keeps (mlacp_lif_by_name n ls).
Proof. induction ls; cbn [mlacp_lif_by_name]; keep. Qed.
#[export] Hint Resolve kp_mlacp_lif_by_name : keeps.
Lemma kp_update_peerlink_isolate_from_pif p a b : keeps (update_peerlink_isolate_from_pif p a b).
Proof. unfold update_peerlink_isolate_from_pif. keep. Qed.
#[export] Hint Resolve kp_update_peerlink_isolate_from_pif : keeps.
Lemma kp_update_peerlink_isolate_from_lif l a : keeps (update_peerlink_isolate_from_lif l a).
Proof. unfold update_peerlink_isolate_from_lif. keep. Qed.
#[export] Hint Resolve kp_update_peerlink_isolate_from_lif : keeps.
Lemma kp_update_po_if_info l a : keeps (update_po_if_info l a).
Proof. unfold update_po_if_info. keep. Qed.
#[export] Hint Resolve kp_update_po_if_info : keeps.
Lemma kp_set_l3_itf_state l r : keeps (set_l3_itf_state l r).
Proof. unfold set_l3_itf_state. keep. Qed.
#[export] Hint Resolve kp_set_l3_itf_state : keeps.
Lemma kp_update_l2_po_vlan l a v : keeps (update_l2_po_vlan l a v).
Proof. unfold update_l2_po_vlan, update_vlan_if_info, update_l3_if_info. keep. Qed.
#[export] Hint Resolve kp_update_l2_po_vlan : keeps.
Lemma kp_update_l2_po_state l a : keeps (update_l2_po_state l a).
Proof. unfold update_l2_po_state. keep. Qed.
#[export] Hint Resolve kp_update_l2_po_state : keeps.
Lemma kp_update_l3_po_state l a : keeps (update_l3_po_state l a).
Proof. unfold update_l3_po_state, update_l3_if_info. keep. Qed.
#[export] Hint Resolve kp_update_l3_po_state : keeps.
Lemma kp_stp_peer_itf a b l : keeps (stp_peer_itf a b l).
Proof. unfold stp_peer_itf. keep. Qed.
#[export] Hint Resolve kp_stp_peer_itf : keeps.
Lemma kp_update_stp_peer_link p a b : keeps (update_stp_peer_link p a b).
Proof. unfold update_stp_peer_link. keep. Qed.
#[export] Hint Resolve kp_update_stp_peer_link : keeps.
Lemma kp_mlacp_link_disable_traffic_distribution l : keeps (mlacp_link_disable_traffic_distribution l).
Proof. unfold mlacp_link_disable_traffic_distribution. keep. Qed.
#[export] Hint Resolve kp_mlacp_link_disable_traffic_distribution : keeps.
Lemma kp_mlacp_link_enable_traffic_distribution l : keeps (mlacp_link_enable_traffic_distribution l).
Proof. unfold mlacp_link_enable_traffic_distribution. keep. Qed.
#[export] Hint Resolve kp_mlacp_link_enable_traffic_distribution : keeps.
Lemma kp_update_po_routes l a : keeps (update_po_routes l a).
Proof. unfold update_po_routes. keep. Qed.
#[export] Hint Resolve kp_update_po_routes : keeps.
Lemma kp_mlacp_portchannel_state_handler l a : keeps (mlacp_portchannel_state_handler l a).
Proof. unfold mlacp_portchannel_state_handler. keep. Qed.
#[export] Hint Resolve kp_mlacp_portchannel_state_handler : keeps.
Lemma kp_mlacp_peer_mlag_intf_delete_handler n : keeps (mlacp_peer_mlag_intf_delete_handler n).
Proof. unfold mlacp_peer_mlag_intf_delete_handler. keep. Qed.
#[export] Hint Resolve kp_mlacp_peer_mlag_intf_delete_handler : keeps.
Lemma kp_mlacp_fix_bridge_mac : keeps mlacp_fix_bridge_mac.
Proof. unfold mlacp_fix_bridge_mac. keep. Qed.
#[export] Hint Resolve kp_mlacp_fix_bridge_mac : keeps.
Lemma kp_mlacp_peer_conn_handler : keeps mlacp_peer_conn_handler.
Proof. unfold mlacp_peer_conn_handler, mlacp_conn_handler_fdb. keep. Qed.
#[export] Hint Resolve kp_mlacp_peer_conn_handler : keeps.
Lemma kp_mlacp_peer_disconn_handler : keeps mlacp_peer_disconn_handler.
Proof. unfold mlacp_peer_disconn_handler. keep. Qed.
#[export] Hint Resolve kp_mlacp_peer_disconn_handler : keeps.

(** ** The messages of the peer *)

Lemma kp_mlacp_fsm_update_system_conf m : keeps (mlacp_fsm_update_system_conf m).
Proof. unfold mlacp_fsm_update_system_conf. keep. Qed.
#[export] Hint Resolve kp_mlacp_fsm_update_system_conf : keeps.
Lemma kp_on_pif b n f : keeps (on_pif b n f).
Proof. unfold on_pif. keep. Qed.
#[export] Hint Resolve kp_on_pif : keeps.
Lemma kp_peer_if_create n t : keeps (peer_if_create n t).
Proof. unfold peer_if_create. keep. Qed.
#[export] Hint Resolve kp_peer_if_create : keeps.
Lemma kp_mlacp_fsm_update_Agg_conf m : keeps (mlacp_fsm_update_Agg_conf m).
Proof. unfold mlacp_fsm_update_Agg_conf. keep. Qed.
#[export] Hint Resolve kp_mlacp_fsm_update_Agg_conf : keeps.
Lemma kp_mlacp_fsm_update_Aggport_state m : keeps (mlacp_fsm_update_Aggport_state m).
Proof. unfold mlacp_fsm_update_Aggport_state. keep. Qed.
#[export] Hint Resolve kp_mlacp_fsm_update_Aggport_state : keeps.
Lemma kp_reach_peer_link k v n : keeps (reach_peer_link k v n).
Proof. unfold reach_peer_link. keep. Qed.
#[export] Hint Resolve kp_reach_peer_link : keeps.
Lemma kp_reach_port_channel k v n b ls : keeps (reach_port_channel k v n b ls).
Proof. revert b; induction ls as [|l ls IH]; intros; cbn [reach_port_channel]; keep; auto. Qed.
#[export] Hint Resolve kp_reach_port_channel : keeps.
Lemma kp_neigh_to_kernel k n : keeps (neigh_to_kernel k n).
Proof. unfold neigh_to_kernel. keep. Qed.
#[export] Hint Resolve kp_neigh_to_kernel : keeps.

Lemma kp_neigh_record k n : kind_ok k -> keeps (neigh_record k n).
Proof.
  intros [Hq Ht]. unfold neigh_record. keep; apply keeps_on_mlacp; intros m; auto.
Qed.
#[export] Hint Resolve kp_neigh_record : keeps.
Lemma kp_neigh_update_entry k n : kind_ok k -> keeps (neigh_update_entry k n).
Proof. intros Hk. unfold neigh_update_entry. keep. Qed.
#[export] Hint Resolve kp_neigh_update_entry : keeps.
Lemma kp_neigh_update_info k m : kind_ok k -> keeps (neigh_update_info k m).
Proof. intros Hk. unfold neigh_update_info. keep. Qed.
#[export] Hint Resolve kp_neigh_update_info : keeps.

(** ** The receivers *)

Lemma kp_mlacp_fsm_update_port_channel_info m : keeps (mlacp_fsm_update_port_channel_info m).
Proof. unfold mlacp_fsm_update_port_channel_info. keep. Qed.
#[export] Hint Resolve kp_mlacp_fsm_update_port_channel_info : keeps.
Lemma kp_mlacp_fsm_update_peerlink_info m : keeps (mlacp_fsm_update_peerlink_info m).
Proof. unfold mlacp_fsm_update_peerlink_info. keep. Qed.
#[export] Hint Resolve kp_mlacp_fsm_update_peerlink_info : keeps.
Lemma kp_mlacp_fsm_update_heartbeat : keeps mlacp_fsm_update_heartbeat.
Proof. unfold mlacp_fsm_update_heartbeat. keep. Qed.
#[export] Hint Resolve kp_mlacp_fsm_update_heartbeat : keeps.
Lemma kp_mlacp_fsm_update_warmboot : keeps mlacp_fsm_update_warmboot.
Proof. unfold mlacp_fsm_update_warmboot. keep. Qed.
#[export] Hint Resolve kp_mlacp_fsm_update_warmboot : keeps.
Lemma kp_mlacp_sync_send_nak_handler m : keeps (mlacp_sync_send_nak_handler m).
Proof. unfold mlacp_sync_send_nak_handler. keep. Qed.
#[export] Hint Resolve kp_mlacp_sync_send_nak_handler : keeps.
Lemma kp_mlacp_sync_recv_nak_handler m : keeps (mlacp_sync_recv_nak_handler m).
Proof. unfold mlacp_sync_recv_nak_handler. keep. Qed.
#[export] Hint Resolve kp_mlacp_sync_recv_nak_handler : keeps.
Lemma kp_count_rx m st : keeps (count_rx m st).
Proof. unfold count_rx, msg_tlv. keep. apply keeps_on_csm. intros. apply keeps_counter. Qed.
#[export] Hint Resolve kp_count_rx : keeps.

Lemma kp_recv_checked u m : keeps (u m) -> keeps (recv_checked u m).
Proof. unfold recv_checked. keep. Qed.
#[export] Hint Resolve kp_recv_checked : keeps.

(** ** Other parts of a turn *)

Lemma kp_mlacp_sync_recv_sysConf m : keeps (mlacp_sync_recv_sysConf m).
Proof. unfold mlacp_sync_recv_sysConf. keep. Qed.
#[export] Hint Resolve kp_mlacp_sync_recv_sysConf : keeps.
Lemma kp_mlacp_sync_recv_aggConf m : keeps (mlacp_sync_recv_aggConf m).
Proof. unfold mlacp_sync_recv_aggConf. keep. Qed.
#[export] Hint Resolve kp_mlacp_sync_recv_aggConf : keeps.
Lemma kp_mlacp_sync_recv_portChanInfo m : keeps (mlacp_sync_recv_portChanInfo m).
Proof. unfold mlacp_sync_recv_portChanInfo. keep. Qed.
#[export] Hint Resolve kp_mlacp_sync_recv_portChanInfo : keeps.
Lemma kp_mlacp_sync_recv_aggState m : keeps (mlacp_sync_recv_aggState m).
Proof. unfold mlacp_sync_recv_aggState. keep. Qed.
#[export] Hint Resolve kp_mlacp_sync_recv_aggState : keeps.
Lemma kp_mlacp_sync_recv_peerLlinkInfo m : keeps (mlacp_sync_recv_peerLlinkInfo m).
Proof. unfold mlacp_sync_recv_peerLlinkInfo. keep. Qed.
#[export] Hint Resolve kp_mlacp_sync_recv_peerLlinkInfo : keeps.
Lemma kp_mlacp_sync_recv_macInfo m : keeps (mlacp_sync_recv_macInfo m).
Proof. unfold mlacp_sync_recv_macInfo. keep. Qed.
#[export] Hint Resolve kp_mlacp_sync_recv_macInfo : keeps.
Lemma kp_mlacp_sync_recv_arpInfo m : keeps (mlacp_sync_recv_arpInfo m).
Proof. unfold mlacp_sync_recv_arpInfo, mlacp_fsm_update_arp_info. keep. Qed.
#[export] Hint Resolve kp_mlacp_sync_recv_arpInfo : keeps.
Lemma kp_mlacp_sync_recv_ndiscInfo m : keeps (mlacp_sync_recv_ndiscInfo m).
Proof. unfold mlacp_sync_recv_ndiscInfo, mlacp_fsm_update_ndisc_info. keep. Qed.
#[export] Hint Resolve kp_mlacp_sync_recv_ndiscInfo : keeps.
Lemma kp_mlacp_sync_recv_heartbeat m : keeps (mlacp_sync_recv_heartbeat m).
Proof. unfold mlacp_sync_recv_heartbeat. keep. Qed.
#[export] Hint Resolve kp_mlacp_sync_recv_heartbeat : keeps.
Lemma kp_mlacp_sync_recv_warmboot m : keeps (mlacp_sync_recv_warmboot m).
Proof. unfold mlacp_sync_recv_warmboot. keep. Qed.
#[export] Hint Resolve kp_mlacp_sync_recv_warmboot : keeps.
Lemma kp_lif_by_po_id i ls : keeps (lif_by_po_id i ls).
Proof. induction ls; cbn [lif_by_po_id]; keep. Qed.
#[export] Hint Resolve kp_lif_by_po_id : keeps.
Lemma kp_mlacp_fsm_recv_if_up_ack m : keeps (mlacp_fsm_recv_if_up_ack m).
Proof. unfold mlacp_fsm_recv_if_up_ack. keep. Qed.
#[export] Hint Resolve kp_mlacp_fsm_recv_if_up_ack : keeps.
Lemma kp_send_config_changes : keeps send_config_changes.
Proof. unfold send_config_changes. keep. Qed.
#[export] Hint Resolve kp_send_config_changes : keeps.
Lemma kp_purge_one l : keeps (purge_one l).
Proof. unfold purge_one. keep. Qed.
#[export] Hint Resolve kp_purge_one : keeps.
Lemma kp_send_lif_changes l : keeps (send_lif_changes l).
Proof. unfold send_lif_changes. keep. Qed.
#[export] Hint Resolve kp_send_lif_changes : keeps.
Lemma kp_warm_reboot_timeout : keeps warm_reboot_timeout.
Proof. unfold warm_reboot_timeout. keep. Qed.
#[export] Hint Resolve kp_warm_reboot_timeout : keeps.
Lemma kp_mlacp_local_lif_state_mac_handler : keeps mlacp_local_lif_state_mac_handler.
Proof. unfold mlacp_local_lif_state_mac_handler. keep. Qed.
#[export] Hint Resolve kp_mlacp_local_lif_state_mac_handler : keeps.
Lemma kp_mlacp_peer_link_learning_handler : keeps mlacp_peer_link_learning_handler.
Proof. unfold mlacp_peer_link_learning_handler. keep. Qed.
#[export] Hint Resolve kp_mlacp_peer_link_learning_handler : keeps.
Lemma kp_note_state : keeps note_state.
Proof. unfold note_state. keep. Qed.
#[export] Hint Resolve kp_note_state : keeps.

(** Less can be shown. *)
Lemma keeps_less {V W} (view : CSM -> V) (f : V -> W) {A} (m : M CS A) : keepsv view m -> keepsv (fun c => f (view c)) m.
Proof.
  intros H s a s' E. destruct (H s a s' E) as (H1 & H2 & H3 & H4). split_and!; [done| |done|done].
  apply (f_equal (fmap f)) in H2. unfold views in *. by rewrite !fmap_insert, <- !map_fmap_compose in H2.
Qed.

(** The view of the CSM itself. *)
Lemma keeps_view {V} (view : CSM -> V) {A} (m : M CS A) s a s' :
  keepsv view m -> m s = Some (a, s') -> view (cs_csm s') = view (cs_csm s).
Proof.
  intros Hk E. destruct (Hk _ _ _ E) as (H1 & H2 & _ & _). unfold views in H2.
  apply (f_equal (lookup (cs_self s))) in H2. rewrite H1, !lookup_insert_eq in H2. by apply (inj Some).
Qed.

Lemma keeps_stage {A} (m : M CS A) s a s' :
  keeps m -> m s = Some (a, s') -> stage (cs_csm s') = stage (cs_csm s).
Proof. apply keeps_view. Qed.
