(* ===== verification/ProcInv.v ===== *)
(** The invariant of the process.

    Whatever happens, in any order:

    - the layer-3 flag of an interface, which the peer and the consistency check
      see, agrees with its addresses and its VRF ([local_if_is_l3_mode]);
    - a CSM whose connection has a state has a socket, and its application has left
      the initial state only while it is operational.

    The second part makes the release of a CSM in [iccp_csm_transit] unreachable:
    the scheduler goes on with the CSM after that call. *)

From Stdlib Require Import ZArith Lia.
From stdpp Require Import base list gmap numbers option strings relations.
From coqutil Require Import Byte Word.LittleEndianList.
From S2P Require Import Prelude CBuf State MsgFormat Wire CsmMsg Csm Port SyncPrepare Receive Syncd.
From S2P Require Import AppCsm MacTable Kernel Senders Neigh LinkMac Isolation LinkState SyncUpdate MlacpFsm Session.
From S2P Require Import SyncdRecv Lifecycle Config Learn LinkEvents Connect StageFrame.

(** ** The invariant *)

Definition layer3_ok (x : Z * list Z * Z * Z) : Prop :=
  let '(ip4, ip6, master, flag) := x in
  length ip6 = 4%nat /\ Forall (fun v => 0 <= v < 2 ^ 32) ip6
  /\ flag = of_bool (negb (ip4 =? 0) || negb (bool_decide (ip6 = [0; 0; 0; 0])) || negb (master =? 0)).

(** Socket, and states of the connection and the application of a CSM. *)
Definition Core : Type := Z * ICCP_CONNECTION_STATE * APP_CONNECTION_STATE * MLACP_APP_STATE.
Definition core (c : CSM) : Core :=
  (csm_sock_fd c, csm_current_state c, app_current_state (csm_app_csm c), ml_current_state (MLACP c)).

(** The application works on a connection. *)
Definition linked (x : Core) : Prop := let '(fd, _, app, _) := x in 0 < fd /\ app = APP_OPERATIONAL.

Definition core_ok (x : Core) : Prop :=
  let '(fd, conn, app, ml) := x in
  (conn <> ICCP_NONEXISTENT -> 0 < fd) /\ (ml <> MLACP_STATE_INIT -> linked x).

Definition flags_ok (lifs : gmap ptr LocalInterface) : Prop := map_Forall (fun _ => layer3_ok) (layer3 <$> lifs).
Definition cores_ok (csms : gmap ptr CSM) : Prop := map_Forall (fun _ => core_ok) (core <$> csms).

Definition proc_ok (w : World) : Prop := flags_ok (w_lifs w) /\ cores_ok (w_csms w) /\ w_csms w !! no_csm = None.

Lemma flags_lookup h l i : flags_ok h -> h !! l = Some i -> layer3_ok (layer3 i).
Proof. intros H E. apply (H l). by rewrite lookup_fmap, E. Qed.
Lemma cores_lookup h c x : cores_ok h -> h !! c = Some x -> core_ok (core x).
Proof. intros H E. apply (H c). by rewrite lookup_fmap, E. Qed.

(** ** Code on one CSM

    [runs P m Q]: when the CSM satisfies [P] before, it satisfies [Q] after; all
    else that the invariant speaks of is as it was. *)

Notation keepc := (keepsv core).

Lemma keepc_by {A} (m : M CS A) : keeps m -> keepc m.
Proof. apply (keeps_less stage (fun g => (sg_fd g, sg_conn g, sg_app g, sg_state g))). Qed.

Definition aside (s s' : CS) : Prop :=
  cs_self s' = cs_self s /\ core <$> delete (cs_self s) (cs_csms s') = core <$> delete (cs_self s) (cs_csms s)
  /\ layer3 <$> cs_lifs s' = layer3 <$> cs_lifs s
  /\ (cs_csms s !! cs_self s = None -> cs_csms s' !! cs_self s = None).

Definition runs {A} (P : Core -> Prop) (m : M CS A) (Q : A -> Core -> Prop) : Prop := forall s a s',
  m s = Some (a, s') -> P (core (cs_csm s)) -> Q a (core (cs_csm s')) /\ aside s s'.
Notation keeping P m := (runs P m (fun _ => P)).

Section Runs.
Context {A B : Type} (P : Core -> Prop).

Lemma aside_refl s : aside s s.
Proof. done. Qed.
Lemma aside_trans s1 s2 s3 : aside s1 s2 -> aside s2 s3 -> aside s1 s3.
Proof. intros (E1 & E2 & E3 & E4) (F1 & F2 & F3 & F4). unfold aside. rewrite E1 in *. rewrite F1, F2, E2, F3, E3. split_and!; auto. Qed.

Lemma runs_ret (a : A) (Q : A -> Core -> Prop) : (forall x, P x -> Q a x) -> runs P (mret a) Q.
Proof. intros H s b s' [= <- <-] HP. split; [by apply H|apply aside_refl]. Qed.
Lemma runs_bind (m : M CS A) (f : A -> M CS B) R Q :
  runs P m R -> (forall a, runs (R a) (f a) Q) -> runs P (m ≫= f) Q.
Proof.
  intros Hm Hf s b s'' (a & s' & E1 & E2)%bind_inv HP. destruct (Hm _ _ _ E1 HP) as [HR H1].
  destruct (Hf _ _ _ _ E2 HR) as [HQ H2]. split; [done|]. by eapply aside_trans.
Qed.
Lemma runs_the_csm (f : CSM -> M CS B) Q :
  (forall c, P (core c) -> runs (fun x => x = core c /\ P x) (f c) Q) -> runs P (the_csm ≫= f) Q.
Proof. intros H s b s' E HP. rewrite bind_the_csm in E. by apply (H _ HP _ _ _ E). Qed.
Lemma runs_mono (m : M CS A) (P' : Core -> Prop) (Q' Q : A -> Core -> Prop) :
  (forall x, P x -> P' x) -> (forall a x, Q' a x -> Q a x) -> runs P' m Q' -> runs P m Q.
Proof. intros HP HQ Hm s a s' E Hs. destruct (Hm _ _ _ E (HP _ Hs)) as [H1 H2]. auto. Qed.
Lemma runs_keepc (m : M CS A) : keepc m -> keeping P m.
Proof.
  intros Hm s a s' E HP. destruct (Hm _ _ _ E) as (H1 & H2 & H3 & H4). split.
  { by rewrite (keeps_view core m s a s' Hm E). }
  split_and!; [done| |done|done]. apply (f_equal (delete (cs_self s))) in H2. unfold views in H2.
  rewrite H1 in H2. rewrite !delete_insert_eq, <- !fmap_delete in H2. done.
Qed.
Lemma runs_on_csm f Q : (forall c, P (core c) -> Q tt (core (f c))) -> runs P (on_csm f) Q.
Proof. intros H s [] s' [= <-] HP. split; [by apply H|done]. Qed.
Lemma keeping_when b (m : M CS unit) : keeping P m -> keeping P (when b m).
Proof. destruct b; [done|]. intros _ s a s' [= <- <-] H. split; [done|apply aside_refl]. Qed.
Lemma keeping_foreach (f : A -> M CS unit) l : (forall a, keeping P (f a)) -> keeping P (foreach f l).
Proof.
  intros Hf. induction l as [|x l IH]; cbn [foreach]; [intros s a s' [= <- <-] H; split; [done|apply aside_refl]|].
  intros s b s'' (a & s' & E1 & E2)%bind_inv HP. destruct (Hf _ _ _ _ E1 HP) as [HR H1].
  destruct (IH _ _ _ E2 HR) as [HQ H2]. split; [done|]. by eapply aside_trans.
Qed.
End Runs.

Create HintDb runs discriminated.
#[export] Hint Constants Opaque : runs.
#[export] Hint Variables Opaque : runs.

(** Code that leaves all cores alone: functions of [StageFrame], and what is made
    of them. *)
Ltac keepc :=
  intros; repeat first [solve [apply keepc_by; auto with keeps nocore]
    |match goal with
     | |- keepsv _ (on_csm _) => apply keeps_on_csm; by intros ?
     | |- keepsv _ (on_mlacp _) => apply keeps_on_csm; by intros ?
     | |- keepsv _ (modify _) => apply keeps_modify; by intros ?
     end
    |keep_step].

(** Code that keeps a property of the core. *)
Ltac run_step :=
  match goal with
  | |- runs _ (_ ≫= _) _ => eapply runs_bind; [|intros ?]
  | |- runs _ (when _ _) _ => apply keeping_when
  | |- runs _ (foreach _ _) _ => apply keeping_foreach; intros ?
  | |- runs _ (let _ := _ in _) _ => cbn zeta
  | |- runs _ (match ?x with _ => _ end) _ => destruct x
  | |- runs _ (if ?x then _ else _) _ => destruct x
  | |- runs _ _ _ => solve [auto with runs nocore]
  | |- runs _ (mret _) _ => apply runs_ret; by intros ?
  | |- runs ?P _ _ => apply (runs_keepc P); solve [keepc]
  | |- runs ?P (on_csm _) _ => apply (runs_on_csm P _ (fun _ => P)); solve [intros ? ?; assumption]
  | |- runs ?P (on_mlacp _) _ => apply (runs_on_csm P _ (fun _ => P)); solve [intros ? ?; assumption]
  end.
Ltac run := intros; repeat run_step.

(** ** Code on the process *)

(** [m] keeps the invariant. *)
Definition wkeeps {A} (m : M World A) : Prop := forall w a w', m w = Some (a, w') -> proc_ok w -> proc_ok w'.

Create HintDb wkeeps discriminated.
#[export] Hint Constants Opaque : wkeeps.
#[export] Hint Variables Opaque : wkeeps.

Section Rules.
Context {A B : Type}.

Lemma wk_ret (a : A) : wkeeps (mret a).
Proof. by intros w a' w' [= <- <-]. Qed.
Lemma wk_gets (f : World -> A) : wkeeps (gets f).
Proof. by intros w a w' [= <- <-]. Qed.
Lemma wk_lift (o : option A) : wkeeps (lift o).
Proof. intros w a w'. unfold lift. destruct o; [|done]. by intros [= <- <-]. Qed.
Lemma wk_ub : wkeeps (@ub World A).
Proof. by intros w a w'. Qed.
Lemma wk_bind (m : M World A) (f : A -> M World B) : wkeeps m -> (forall a, wkeeps (f a)) -> wkeeps (m ≫= f).
Proof. intros Hm Hf w b w'' (a & w' & E1 & E2)%bind_inv H. eapply Hf, Hm; eauto. Qed.
Lemma wk_lift_bind (o : option A) (f : A -> M World B) : (forall a, o = Some a -> wkeeps (f a)) -> wkeeps (lift o ≫= f).
Proof. intros Hf w b w' (a & w1 & E1 & E2)%bind_inv. unfold lift in E1. destruct o; [|done]. injection E1 as <- <-. eapply Hf; eauto. Qed.
Lemma wk_when b (m : M World unit) : wkeeps m -> wkeeps (when b m).
Proof. destruct b; [done|]. intros _ w a w' [= <- <-]. done. Qed.
Lemma wk_foreach (f : A -> M World unit) l : (forall a, wkeeps (f a)) -> wkeeps (foreach f l).
Proof. intros Hf. induction l as [|x l IH]; cbn [foreach]; [by intros w a w' [= <- <-]|]. intros w b w'' (a & w' & E1 & E2)%bind_inv H. eapply IH, Hf; eauto. Qed.
Lemma wk_modify f : (forall w, w_lifs (f w) = w_lifs w /\ w_csms (f w) = w_csms w) -> wkeeps (modify f).
Proof. intros H w a w' [= <- <-]. unfold proc_ok. by destruct (H w) as [-> ->]. Qed.
Lemma wk_get_csm c : wkeeps (get_csm c).
Proof. intros w a w'. unfold get_csm. destruct (_ !! _); [|done]. by intros [= <- <-]. Qed.
Lemma wk_get_lif l : wkeeps (w_get_lif l).
Proof. intros w a w'. unfold w_get_lif. destruct (_ !! _); [|done]. by intros [= <- <-]. Qed.
Lemma wk_set_sys f : wkeeps (set_sys f).
Proof. by apply wk_modify. Qed.

(** Code on one CSM or on none. *)
Lemma wk_with_csm c (m : M CS A) : keeping core_ok m -> wkeeps (with_csm c m).
Proof.
  intros Hm w a w' E (H1 & H2 & H3). unfold with_csm in E. destruct (w_csms w !! c) as [x|] eqn:Ex; [|done].
  cbn [mbind option_bind] in E. destruct (m _) as [[a' s]|] eqn:Em; [|done]. injection E as <- <-.
  destruct (Hm _ _ _ Em (cores_lookup _ _ _ H2 Ex)) as (Hx & E1 & E2 & E3 & E4). cbn in *.
  rewrite delete_delete_eq in E2. unfold proc_ok, flags_ok, cores_ok in *. cbn. rewrite E3. split_and!; [done| |].
  - rewrite fmap_insert. apply map_Forall_insert_2; [done|]. intros p y Hp.
    destruct (decide (p = c)) as [->|Hn].
    { rewrite lookup_fmap, E4 in Hp by apply lookup_delete_eq. done. }
    apply (H2 p). apply (f_equal (lookup p)) in E2. rewrite lookup_fmap in Hp.
    rewrite !lookup_fmap, !lookup_delete_ne in E2 by done. by rewrite lookup_fmap, <- E2.
  - destruct (decide (no_csm = c)) as [<-|Hn]; [by rewrite H3 in Ex|]. rewrite lookup_insert_ne by done.
    apply (f_equal (lookup no_csm)) in E2. rewrite !lookup_fmap, !lookup_delete_ne, H3 in E2 by done.
    by destruct (cs_csms s !! no_csm).
Qed.
Lemma wk_global (m : M CS A) : keeping core_ok m -> wkeeps (global m).
Proof.
  intros Hm w a w' E (H1 & H2 & H3). unfold global in E. destruct (m _) as [[a' s]|] eqn:Em; [|done].
  injection E as <- <-. destruct (Hm _ _ _ Em) as (_ & E1 & E2 & E3 & E4); [done|]. cbn in *. specialize (E4 H3).
  unfold proc_ok, flags_ok, cores_ok in *. cbn. rewrite E3. rewrite !delete_id in E2 by done. by rewrite E2.
Qed.
End Rules.

(** Interfaces and CSMs change, come and go. *)
Lemma wk_set_csm c f : (forall x, core_ok (core x) -> core_ok (core (f x))) -> wkeeps (set_csm c f).
Proof.
  intros Hf w a w' E (H1 & H2 & H3). unfold set_csm in E. destruct (w_csms w !! c) as [x|] eqn:Ex; [|done]. injection E as <- <-.
  split_and!; [done| |]; cbn.
  - unfold cores_ok. rewrite fmap_insert. apply map_Forall_insert_2; [|done]. eapply Hf, cores_lookup; eauto.
  - rewrite lookup_insert_ne; [done|]. intros ->. by rewrite H3 in Ex.
Qed.
Lemma wk_free_csm c : wkeeps (free_csm c).
Proof.
  intros w a w' E (H1 & H2 & H3). unfold free_csm in E. destruct (_ !! _); [|done]. injection E as <- <-.
  split_and!; [done| |]; cbn.
  - unfold cores_ok. rewrite fmap_delete. by apply map_Forall_delete.
  - by rewrite lookup_delete_None; auto.
Qed.
Lemma wk_set_lif l f : (forall i, layer3_ok (layer3 i) -> layer3_ok (layer3 (f i))) -> wkeeps (w_set_lif l f).
Proof.
  intros Hf w a w' E (H1 & H2). unfold w_set_lif in E. destruct (w_lifs w !! l) as [i|] eqn:Ei; [|done].
  injection E as <- <-. split; [|done]. unfold flags_ok. cbn. rewrite fmap_insert. apply map_Forall_insert_2; [|done].
  eapply Hf, flags_lookup; eauto.
Qed.
Lemma wk_new l i : layer3_ok (layer3 i) -> wkeeps (modify (fun w => w <| w_lifs ::= <[l := i]> |>)).
Proof.
  intros Hi w a w' [= <- <-] (H1 & H2). split; [|done]. unfold flags_ok. cbn. rewrite fmap_insert. by apply map_Forall_insert_2.
Qed.
Lemma wk_free_lif l : wkeeps (free_lif l).
Proof.
  intros w a w' E (H1 & H2). unfold free_lif in E. destruct (_ !! _); [|done]. injection E as <- <-.
  split; [|done]. unfold flags_ok. cbn. rewrite fmap_delete. by apply map_Forall_delete.
Qed.
#[export] Hint Resolve wk_ret wk_ub wk_gets wk_lift wk_get_csm wk_free_csm wk_get_lif wk_set_sys wk_free_lif : wkeeps.

Lemma layer3_all_vlan i : layer3 (local_if_del_all_vlan i) = layer3 i.
Proof. unfold local_if_del_all_vlan. generalize (lif_vlan_tree i). intros vs. revert i. induction vs as [|v vs IH]; intros i; [done|]. cbn [foldl]. by rewrite IH. Qed.

(** Through a body, as [keep]. *)
Ltac wkeep_step :=
  match goal with
  | |- wkeeps (_ ≫= _) => apply wk_bind; [|intros ?]
  | |- wkeeps (when _ _) => apply wk_when
  | |- wkeeps (foreach _ _) => apply wk_foreach; intros ?
  | |- wkeeps (let _ := _ in _) => cbn zeta
  | |- wkeeps (match ?x with _ => _ end) => destruct x
  | |- wkeeps (if ?x then _ else _) => destruct x
  | |- wkeeps ((if ?x then _ else _) _) => destruct x
  | |- wkeeps _ => solve [auto with wkeeps nocore]
  | |- wkeeps (global _) => apply wk_global; run
  | |- wkeeps (with_csm _ _) => apply wk_with_csm; run
  | |- wkeeps (set_csm _ _) => apply wk_set_csm; solve [intros ? ?; first [assumption|by repeat case_match]]
  | |- wkeeps (w_set_lif _ _) => apply wk_set_lif; solve [intros ? ?; rewrite ?layer3_all_vlan; unfold lif_add_vlan, local_if_del_vlan; by repeat case_match]
  end.
Ltac wkeep := intros; repeat wkeep_step.

Lemma wk_the_sys : wkeeps the_sys. Proof. apply wk_gets. Qed.
Lemma wk_find_by_name n : wkeeps (find_by_name n).
Proof. unfold find_by_name. wkeep. Qed.
Lemma wk_find_by_ifindex n : wkeeps (find_by_ifindex n).
Proof.
  apply wk_global, runs_keepc, keepc_by. unfold local_if_find_by_ifindex. keep.
  match goal with |- keepsv _ (lif_by_ifindex _ ?l) => induction l end; cbn [lif_by_ifindex]; keep.
Qed.
#[export] Hint Resolve wk_the_sys wk_find_by_name wk_find_by_ifindex : wkeeps.

(** ** Interfaces and CSMs *)

Lemma wk_csm_by P cs : wkeeps (csm_by P cs). Proof. induction cs; cbn [csm_by]; wkeep. Qed.
#[export] Hint Resolve wk_csm_by : wkeeps.
Lemma wk_find_csm P : wkeeps (find_csm P). Proof. unfold find_csm. wkeep. Qed.
#[export] Hint Resolve wk_find_csm : wkeeps.

Lemma wk_add_vlan l v : wkeeps (local_if_add_vlan l v).
Proof. unfold local_if_add_vlan. wkeep. Qed.
#[export] Hint Resolve wk_add_vlan : wkeeps.
Lemma wk_move_pending l : wkeeps (move_pending_vlan_mbr_to_lif l).
Proof. unfold move_pending_vlan_mbr_to_lif, find_pending_vlan_mbr_if, on_pending. wkeep. Qed.
Lemma wk_update_pending n v b : wkeeps (update_pending_vlan_mbr n v b).
Proof. unfold update_pending_vlan_mbr, find_pending_vlan_mbr_if, on_pending. wkeep. Qed.
Lemma wk_unbind l : wkeeps (mlacp_unbind_local_if l).
Proof. unfold mlacp_unbind_local_if. wkeep. Qed.
Lemma wk_find_po n ls : wkeeps (find_po n ls).
Proof. induction ls; cbn [find_po]; wkeep. Qed.
#[export] Hint Resolve wk_move_pending wk_update_pending wk_unbind wk_find_po : wkeeps.
Lemma wk_by_po_id n : wkeeps (local_if_find_by_po_id n).
Proof. unfold local_if_find_by_po_id. wkeep. Qed.
#[export] Hint Resolve wk_by_po_id : wkeeps.
Lemma wk_bind_local_if c l : wkeeps (bind_local_if c l).
Proof. unfold bind_local_if, mlacp_bind_local_if. wkeep. Qed.
Lemma wk_member_names ls n st : wkeeps (member_names ls n st).
Proof. revert st. induction ls; intros; cbn [member_names]; wkeep. Qed.
#[export] Hint Resolve wk_bind_local_if wk_member_names : wkeeps.
Lemma wk_update_member_buf l ls n : wkeeps (update_member_buf l ls n).
Proof. unfold update_member_buf. wkeep. Qed.
Lemma wk_mclag_member c n p : wkeeps (mclag_member c n p).
Proof. unfold mclag_member. wkeep. Qed.
Lemma wk_peer_link_member c l n p : wkeeps (peer_link_member c l n p).
Proof. unfold peer_link_member. wkeep. Qed.
#[export] Hint Resolve wk_update_member_buf wk_mclag_member wk_peer_link_member : wkeeps.
Lemma wk_member_list n ps : wkeeps (iccp_get_portchannel_member_list_handler n ps).
Proof. unfold iccp_get_portchannel_member_list_handler. wkeep. Qed.
#[export] Hint Resolve wk_member_list : wkeeps.

(** A CSM is reset. *)
Lemma kc_reinit q : keepc (reinit_queue q).
Proof. induction q; cbn [reinit_queue]; keepc. Qed.
#[export] Hint Resolve kc_reinit : keeps.
Lemma kc_clear_queues : keepc clear_queues.
Proof. unfold clear_queues, mlacp_mac_msg_queue_reinit. keepc. Qed.
#[export] Hint Resolve kc_clear_queues : keeps.
Lemma runs_reset P : runs P (iccp_csm_status_reset;; t ← now; on_csm (fun c => c <| csm_connTimePrev := t |>)) (fun _ => core_ok).
Proof. intros s [] s' [h ->]%status_reset_shape _. split; [by split|done]. Qed.
Lemma runs_disconnect P : runs P scheduler_session_disconnect_handler (fun _ => core_ok).
Proof.
  apply (runs_mono P _ (fun _ => True) (fun _ => core_ok)); [done..|]. unfold scheduler_session_disconnect_handler.
  eapply runs_bind; [|intros ?; eapply runs_bind; [|intros ?; eapply runs_bind; [|intros ?; eapply runs_bind; [|intros ?; apply runs_reset]]]].
  all: unfold scheduler_unregister_sock_read_event_callback, scheduler_csm_socket_cleanup; run.
Qed.
#[export] Hint Resolve runs_disconnect : runs.

Lemma wk_disconnect c : wkeeps (with_csm c scheduler_session_disconnect_handler).
Proof. apply wk_with_csm, runs_disconnect. Qed.
#[export] Hint Resolve wk_disconnect : wkeeps.
Lemma kc_detach l : keepc (mlacp_mlag_intf_detach_handler l).
Proof. unfold mlacp_mlag_intf_detach_handler, mlacp_mlag_link_del_handler. keepc. Qed.
Lemma kc_add l : keepc (mlacp_mlag_link_add_handler l).
Proof. unfold mlacp_mlag_link_add_handler. keepc. Qed.
#[export] Hint Resolve kc_detach kc_add : keeps.

Lemma new_lif_ok n name ty st i : new_lif n name ty st = Some i -> layer3_ok (layer3 i).
Proof. unfold new_lif. repeat case_match; intros [= <-]; by repeat constructor. Qed.

Lemma wk_vlan_remove l : wkeeps (local_if_vlan_remove l).
Proof. unfold local_if_vlan_remove. wkeep. Qed.
Lemma wk_po_remove l : wkeeps (local_if_po_remove l).
Proof. unfold local_if_po_remove. wkeep. Qed.
Lemma wk_remove l : wkeeps (local_if_remove l).
Proof. unfold local_if_remove. wkeep. Qed.
Lemma wk_on_lif_list c f : wkeeps (on_lif_list c f).
Proof. unfold on_lif_list. wkeep. Qed.
#[export] Hint Resolve wk_vlan_remove wk_po_remove wk_remove wk_on_lif_list : wkeeps.
Lemma wk_destroy n : wkeeps (local_if_destroy n).
Proof. unfold local_if_destroy, system_get_csm_by_peer_ifname. wkeep. Qed.
Lemma wk_purge_clear : wkeeps local_if_purge_clear.
Proof. unfold local_if_purge_clear, purge_one_lif, local_if_mlacp_purge_del, local_if_finalize. wkeep. Qed.
Lemma wk_detach n : wkeeps (iccp_cli_detach_mclag_domain_to_port_channel n).
Proof. unfold iccp_cli_detach_mclag_domain_to_port_channel. wkeep. Qed.
#[export] Hint Resolve wk_destroy wk_purge_clear wk_detach : wkeeps.
Lemma wk_csm_finalize c : wkeeps (iccp_csm_finalize c).
Proof.
  unfold iccp_csm_finalize, app_csm_finalize, mlacp_finalize. wkeep.
Qed.
#[export] Hint Resolve wk_csm_finalize : wkeeps.

Section Team.
Variable team_ports : Z -> option (list (Z * bool)).

Lemma wk_port_members l : wkeeps (iccp_get_port_member_list team_ports l).
Proof using Type. unfold iccp_get_port_member_list. wkeep. Qed.
#[local] Hint Resolve wk_port_members : wkeeps.
Lemma wk_bind_port_channel c n : wkeeps (mlacp_bind_port_channel_to_csm team_ports c n).
Proof using Type. unfold mlacp_bind_port_channel_to_csm. wkeep. Qed.
#[local] Hint Resolve wk_bind_port_channel : wkeeps.
Lemma wk_claim l n cs : wkeeps (claim_lif team_ports l n cs).
Proof using Type. induction cs; cbn [claim_lif]; wkeep. Qed.
#[local] Hint Resolve wk_claim : wkeeps.
Lemma wk_create n name ty st : wkeeps (local_if_create team_ports n name ty st).
Proof using Type.
  unfold local_if_create. destruct (new_lif n name ty st) as [i|] eqn:E; wkeep; try by intros ? ? ? [= <- <-].
  all: apply wk_new; first [by repeat constructor|case_match; exact (new_lif_ok _ _ _ _ _ E)].
Qed.
#[local] Hint Resolve wk_create : wkeeps.
Lemma wk_membership v n b : wkeeps (vlan_mbrship_change_handler team_ports v n b).
Proof using Type. unfold vlan_mbrship_change_handler. wkeep. Qed.
#[local] Hint Resolve wk_membership : wkeeps.

(** ** Configuration *)

Lemma wk_with_domain mid (f : ptr -> M World Z) : (forall c, wkeeps (f c)) -> wkeeps (with_domain mid f).
Proof using Type. intros Hf. unfold with_domain, system_get_csm_by_mlacp_id. wkeep. Qed.
Lemma wk_set_mc_lag_id c n : wkeeps (set_mc_lag_id c n).
Proof using Type. unfold set_mc_lag_id. wkeep. Qed.
#[local] Hint Resolve wk_set_mc_lag_id : wkeeps.
Lemma wk_create_csm r : wkeeps (system_create_csm r).
Proof using Type.
  intros w c w' [= <- <-] (H1 & H2 & H3). split_and!; [done| |]; cbn.
  - unfold cores_ok. rewrite fmap_insert. apply map_Forall_insert_2; [by split|done].
  - destruct (malloc_new (dom (w_csms w))) as [_ Hn]. by rewrite lookup_insert_ne.
Qed.
#[local] Hint Resolve wk_create_csm : wkeeps.
Lemma wk_set_mc_lag r n : wkeeps (set_mc_lag_by_id r n).
Proof using Type.
  unfold set_mc_lag_by_id, system_get_csm_by_mlacp_id. wkeep.
Qed.
Lemma wk_unset_mc_lag n : wkeeps (unset_mc_lag_by_id n).
Proof using Type. unfold unset_mc_lag_by_id, unset_mc_lag_id, system_get_csm_by_mlacp_id, mlacp_link_del_iccp_info. wkeep. Qed.
Lemma wk_set_local_address n a : wkeeps (set_local_address n a).
Proof using Type. apply wk_with_domain. wkeep. Qed.
Lemma wk_unset_local_address n : wkeeps (unset_local_address n).
Proof using Type. apply wk_with_domain. wkeep. Qed.
Lemma wk_set_peer_address n a : wkeeps (set_peer_address n a).
Proof using Type. apply wk_with_domain. wkeep. Qed.
Lemma wk_unset_peer_address n : wkeeps (unset_peer_address n).
Proof using Type. apply wk_with_domain. wkeep. Qed.
Lemma wk_set_keepalive n t : wkeeps (set_keepalive_time n t).
Proof using Type. apply wk_with_domain. wkeep. Qed.
Lemma wk_set_session n t : wkeeps (set_session_timeout n t).
Proof using Type. apply wk_with_domain. wkeep. Qed.
Lemma wk_drop_peer_link c : wkeeps (drop_peer_link c).
Proof using Type. unfold drop_peer_link. wkeep. Qed.
#[local] Hint Resolve wk_drop_peer_link : wkeeps.
Lemma wk_set_peer_link n a : wkeeps (set_peer_link team_ports n a).
Proof using Type. unfold set_peer_link. wkeep. apply wk_with_domain. wkeep. Qed.
Lemma wk_unset_peer_link n : wkeeps (unset_peer_link n).
Proof using Type. apply wk_with_domain. wkeep. Qed.
Lemma wk_attach n a : wkeeps (iccp_cli_attach_mclag_domain_to_port_channel team_ports n a).
Proof using Type. unfold iccp_cli_attach_mclag_domain_to_port_channel. wkeep. apply wk_with_domain. wkeep. Qed.
#[local] Hint Resolve wk_set_mc_lag wk_unset_mc_lag wk_set_local_address wk_unset_local_address wk_set_peer_address
  wk_unset_peer_address wk_set_keepalive wk_set_session wk_set_peer_link wk_unset_peer_link wk_attach : wkeeps.

(** *** Messages of mclagsyncd *)

Lemma wk_records {A} fuel i n size (f : buf -> A -> M World A) b a :
  (forall b a, wkeeps (f b a)) -> wkeeps (records fuel i n size f b a).
Proof using Type. intros Hf. revert i b a. induction fuel as [|k IH]; intros; cbn [records]; wkeep; auto. Qed.
Lemma wk_for_records {A} size (f : buf -> A -> M World A) msg a :
  (forall b a, wkeeps (f b a)) -> wkeeps (for_records size f msg a).
Proof using Type. intros Hf. unfold for_records. wkeep. by apply wk_records. Qed.

Variable rand : Z.

Lemma wk_system_id a : wkeeps (set_local_system_id a).
Proof using Type. unfold set_local_system_id. wkeep. Qed.
#[local] Hint Resolve wk_system_id : wkeeps.
Lemma wk_domain_update d : wkeeps (domain_update team_ports rand d).
Proof using Type. unfold domain_update. wkeep. Qed.
Lemma wk_domain_attr_del d : wkeeps (domain_attr_del d).
Proof using Type. unfold domain_attr_del. wkeep. Qed.
#[local] Hint Resolve wk_domain_update wk_domain_attr_del : wkeeps.
Lemma wk_domain_cfg d : wkeeps (domain_cfg team_ports rand d).
Proof using Type. unfold domain_cfg, unset_local_system_id. wkeep. Qed.
Lemma wk_unique_ip op n fl : wkeeps (unique_ip_cfg op n fl).
Proof using Type. unfold unique_ip_cfg. wkeep. Qed.
Lemma wk_find_lif_po n cs : wkeeps (find_lif_po n cs).
Proof using Type. induction cs; cbn [find_lif_po]; wkeep. Qed.
#[local] Hint Resolve wk_domain_cfg wk_unique_ip wk_find_lif_po : wkeeps.
Lemma kc_fdb l e : keepc (mac_update_from_syncd l e).
Proof using Type.
  unfold mac_update_from_syncd, syncd_add_existing, syncd_add_new, syncd_del_existing, syncd_forget, chip_stack, lif_up. keepc.
Qed.
#[local] Hint Resolve kc_fdb : keeps.
Lemma wk_fdb e : wkeeps (do_mac_update_from_syncd e).
Proof using Type. unfold do_mac_update_from_syncd. wkeep. Qed.
#[local] Hint Resolve wk_fdb : wkeeps.

Lemma wk_syncd ty f msg : syncd_dispatch team_ports rand ty = Some f -> wkeeps (f msg).
Proof using Type.
  unfold syncd_dispatch. repeat case_match; intros [= <-]; apply wk_for_records; intros; unfold iface_cfg, vlan_mbr_update; wkeep.
Qed.

(** ** Neighbours *)

Lemma wk_vlan_matches v n i : wkeeps (vlan_matches v n i).
Proof using Type. unfold vlan_matches. wkeep. Qed.
#[local] Hint Resolve wk_vlan_matches : wkeeps.
Lemma wk_owner_port v n ls : wkeeps (owner_port v n ls).
Proof using Type. induction ls; cbn [owner_port]; wkeep. Qed.
Lemma wk_owner_link v n x : wkeeps (owner_link v n x).
Proof using Type. unfold owner_link. wkeep. Qed.
#[local] Hint Resolve wk_owner_port wk_owner_link ARP_ok ND_ok : wkeeps.
Lemma wk_owner v n cs : wkeeps (neigh_owner v n cs).
Proof using Type. induction cs; cbn [neigh_owner]; wkeep. Qed.
Lemma wk_own_vlan k o ip : wkeeps (own_vlan_ip k o ip).
Proof using Type. unfold own_vlan_ip. wkeep. Qed.
#[local] Hint Resolve wk_owner wk_own_vlan : wkeeps.

(** The lists of a kind of neighbours. *)
Lemma wk_set_lists k c f : kind_ok k ->
  (forall m, (exists l, f m = nk_set_table k l m) \/ (exists l, f m = nk_set_queue k l m)) -> wkeeps (set_csm c (set_MLACP f)).
Proof using Type.
  intros [Hq Ht] Hf. apply wk_set_csm. intros x. unfold core, core_ok, linked.
  change (MLACP (set_MLACP f x)) with (f (MLACP x)).
  destruct (Hf (MLACP x)) as [[l ->]|[l ->]]; [destruct (Ht l (MLACP x)) as (-> & _)|destruct (Hq l (MLACP x)) as (-> & _)]; done.
Qed.
Lemma wk_on_table k c f : kind_ok k -> wkeeps (on_table k c f).
Proof using Type. intros Hk. unfold on_table. wkeep. apply (wk_set_lists k); [done|]. eauto. Qed.
#[local] Hint Resolve wk_on_table : wkeeps.
Lemma wk_on_entry k c ip f : kind_ok k -> wkeeps (on_entry k c ip f).
Proof using Type. intros Hk. unfold on_entry. wkeep. Qed.
Lemma wk_neigh_new k c b : kind_ok k -> wkeeps (neigh_new k c b).
Proof using Type. intros Hk. unfold neigh_new. wkeep. Qed.
Lemma wk_neigh_tell k c op b : kind_ok k -> wkeeps (neigh_tell k c op b).
Proof using Type. intros Hk. unfold neigh_tell. wkeep. apply (wk_set_lists k); [done|]. eauto. Qed.
#[local] Hint Resolve wk_on_entry wk_neigh_new wk_neigh_tell : wkeeps.
Lemma wk_learn_kernel k c d b : kind_ok k -> wkeeps (learn_from_kernel k c d b).
Proof using Type. intros Hk. unfold learn_from_kernel. wkeep. Qed.
#[local] Hint Resolve wk_learn_kernel : wkeeps.
Lemma wk_do_learn k n t tb ty d : kind_ok k -> wkeeps (do_neigh_learn_from_kernel k n t tb ty d).
Proof using Type. intros Hk. unfold do_neigh_learn_from_kernel. wkeep. Qed.
#[local] Hint Resolve wk_do_learn : wkeeps.
Lemma wk_neigh_request n : wkeeps (do_one_neigh_request n).
Proof using Type.
  unfold do_one_neigh_request, do_arp_learn_from_kernel, do_ndisc_learn_from_kernel, system_get_first_csm. wkeep.
Qed.
#[local] Hint Resolve wk_neigh_request : wkeeps.
Lemma wk_learn_packet k c m b : kind_ok k -> wkeeps (learn_from_packet k c m b).
Proof using Type. intros Hk. unfold learn_from_packet. wkeep. Qed.
Lemma wk_packet_to_kernel k b : wkeeps (packet_to_kernel k b).
Proof using Type. unfold packet_to_kernel. wkeep. Qed.
#[local] Hint Resolve wk_learn_packet wk_packet_to_kernel : wkeeps.
Lemma wk_reply dump k n a m : kind_ok k -> wkeeps (do_neigh_update_from_reply_packet dump k n a m).
Proof using Type. intros Hk. unfold do_neigh_update_from_reply_packet, packet_own_ip. wkeep. Qed.
#[local] Hint Resolve wk_reply : wkeeps.
Lemma wk_arp dump b n i h : wkeeps (iccp_receive_arp_packet_handler dump b n i h).
Proof using Type. unfold iccp_receive_arp_packet_handler, do_arp_update_from_reply_packet, system_get_first_csm. wkeep. Qed.
Lemma wk_nd dump b n i : wkeeps (iccp_receive_ndisc_packet_handler dump b n i).
Proof using Type. unfold iccp_receive_ndisc_packet_handler, do_ndisc_update_from_reply_packet, system_get_first_csm. wkeep. Qed.

(** ** Links *)

Lemma kc_peer_link_down : keepc mlacp_peerlink_down_handler.
Proof using Type. unfold mlacp_peerlink_down_handler, peerlink_down_one. keepc. Qed.
Lemma kc_peer_link_goes_up : keepc mlacp_peerlink_up_handler.
Proof using Type. unfold mlacp_peerlink_up_handler, peerlink_up_one. keepc. Qed.
Lemma kc_orphan l st : keepc (update_orphan_port_mac l st).
Proof using Type. unfold update_orphan_port_mac, orphan_one. keepc. Qed.
#[local] Hint Resolve kc_peer_link_down kc_peer_link_goes_up kc_orphan : keeps.
Lemma wk_port_lifs c n st h ls : wkeeps (port_state_lifs c n st h ls).
Proof using Type. revert h. induction ls; intros; cbn [port_state_lifs]; wkeep. Qed.
#[local] Hint Resolve wk_port_lifs : wkeeps.
Lemma wk_port_csms n st h cs : wkeeps (port_state_csms n st h cs).
Proof using Type. revert h. induction cs; intros; cbn [port_state_csms]; wkeep. Qed.
#[local] Hint Resolve wk_port_csms : wkeeps.
Lemma wk_carrier l up : wkeeps (link_carrier l up).
Proof using Type. unfold link_carrier, iccp_from_netlink_port_state_handler. wkeep. Qed.
Lemma wk_take_mac ol a : wkeeps (take_mac ol a).
Proof using Type. unfold take_mac. wkeep. Qed.
#[local] Hint Resolve wk_carrier wk_take_mac : wkeeps.
Lemma wk_link_create ol link : wkeeps (link_create team_ports ol link).
Proof using Type. unfold link_create. wkeep. Qed.
#[local] Hint Resolve wk_link_create : wkeeps.

(** *** The writes of the flag *)

Lemma zero_ip6 x : length x = 4%nat -> Forall (fun v => 0 <= v < 2 ^ 32) x ->
  bool_decide (ip6_bytes x = zeros 16) = bool_decide (x = [0; 0; 0; 0]).
Proof using Type.
  intros Hl Hx. apply bool_decide_ext. split; [|by intros ->]. intros E. unfold ip6_bytes in E.
  destruct x as [|a [|b [|c [|d [|? ?]]]]]; try done. decompose_Forall_hyps.
  change (le_split 4 a ++ le_split 4 b ++ le_split 4 c ++ le_split 4 d ++ []
    = le_split 4 0 ++ le_split 4 0 ++ le_split 4 0 ++ le_split 4 0 ++ []) in E.
  repeat (apply app_inj_1 in E as [? E]; [|by rewrite !length_le_split]).
  assert (inj0 : forall v, 0 <= v < 2 ^ 32 -> le_split 4 v = le_split 4 0 -> v = 0).
  { intros v Hv Ev. apply (f_equal le_combine) in Ev. rewrite !le_combine_split in Ev.
    rewrite !Z.mod_small in Ev by (cbn in *; lia). done. }
  repeat f_equal; apply inj0; (lia || done).
Qed.

(** The flag is cleared when the last reason for it has gone. *)
Lemma l3_ends_ok l f : (forall i, layer3_ok (layer3 i) -> let j := f i in
    length (lif_ipv6_addr j) = 4%nat /\ Forall (fun v => 0 <= v < 2 ^ 32) (lif_ipv6_addr j)
    /\ (local_if_is_l3_mode j = true -> lif_l3_mode j = 1)) ->
  wkeeps (w_set_lif l f;; l3_ends l).
Proof using Type.
  intros Hf w a w' (? & w1 & E1 & E2)%bind_inv [H Hw]. unfold w_set_lif in E1.
  destruct (w_lifs w !! l) as [i|] eqn:Ei; [|done]. injection E1 as _ <-. unfold l3_ends in E2.
  destruct (Hf i (flags_lookup _ _ _ H Ei)) as (H1 & H2 & H3). set (j := f i) in *. clearbody j.
  apply bind_inv in E2 as (j' & w2 & E2 & E3). unfold w_get_lif in E2. cbn in E2. rewrite lookup_insert_eq in E2.
  injection E2 as <- <-. unfold no_ip4, no_ip6 in E3. rewrite zero_ip6 in E3 by done.
  assert (Hm : local_if_is_l3_mode j = negb ((lif_ipv4_addr j =? 0) && (lif_master_ifindex j =? 0)
                                              && bool_decide (lif_ipv6_addr j = [0; 0; 0; 0]))).
  { unfold local_if_is_l3_mode. by destruct (_ =? _), (_ =? _), (bool_decide _). }
  destruct ((lif_ipv4_addr j =? 0) && _ && _) eqn:Ec; cbn [when] in E3.
  - unfold w_set_lif in E3. cbn in E3. rewrite lookup_insert_eq in E3. injection E3 as _ <-.
    split; [|done]. unfold flags_ok. cbn. rewrite insert_insert_eq, fmap_insert. apply map_Forall_insert_2; [|done].
    split_and!; [done..|]. change (0 = of_bool (local_if_is_l3_mode j)). by rewrite Hm.
  - injection E3 as _ <-. split; [|done]. unfold flags_ok. cbn. rewrite fmap_insert. apply map_Forall_insert_2; [|done].
    split_and!; [done..|]. change (lif_l3_mode j = of_bool (local_if_is_l3_mode j)). rewrite Hm in *. by apply H3.
Qed.

Lemma global_layer3 {A} (m : M CS A) w a w' : keepc m -> global m w = Some (a, w') -> layer3 <$> w_lifs w' = layer3 <$> w_lifs w.
Proof using Type.
  intros Hm. unfold global. destruct (m _) as [[a' s]|] eqn:E; [|done]. intros [= <- <-].
  by destruct (Hm _ _ _ E) as (_ & _ & H3 & _).
Qed.

Lemma wk_master l n : wkeeps (link_master l n).
Proof using Type.
  unfold link_master. unfold truth. destruct (Z.eqb_spec n 0) as [->|Hn]; cbn [negb].
  2: { wkeep. apply wk_set_lif. intros i (H1 & H2 & _). split_and!; [done..|]. cbn.
       rewrite (proj2 (Z.eqb_neq n 0)) by done. by rewrite orb_true_r. }
  intros w a w' (i & w1 & E1 & (? & w2 & E2 & E3)%bind_inv)%bind_inv Hw. unfold w_get_lif in E1.
  destruct (w_lifs w !! l) as [i'|] eqn:Ei; [|done]. injection E1 as -> <-. unfold w_set_lif in E3.
  destruct (flags_lookup _ _ _ (proj1 Hw) Ei) as (H1 & H2 & H3). rewrite zero_ip6 in E2 by done.
  destruct ((lif_ipv4_addr i =? 0) && _) eqn:Ec; cbn [when] in E2.
  - apply bind_inv in E2 as (? & w3 & E2 & E4). unfold w_set_lif in E4.
    assert (Hk : keepc (recover_vlan_if_mac_on_standby l 5 None)) by (apply keepc_by; auto with keeps).
    assert (layer3 <$> w_lifs w3 = layer3 <$> w_lifs w /\ proc_ok w3) as [Hs [Hf3 Hw3]].
    { destruct (lif_is_l3_proto_enabled i); cbn [negb when] in E2; [by injection E2 as _ <-|].
      split; [exact (global_layer3 _ _ _ _ Hk E2)|]. refine (wk_global _ _ _ _ _ E2 Hw). by apply runs_keepc. }
    destruct (w_lifs w3 !! l) as [j|] eqn:Ej; [|done]. injection E4 as _ <-. cbn in E3. rewrite lookup_insert_eq in E3.
    injection E3 as _ <-. split; [|exact Hw3]. unfold flags_ok in *. cbn. rewrite insert_insert_eq, fmap_insert.
    apply map_Forall_insert_2; [|done]. apply (f_equal (lookup l)) in Hs. rewrite !lookup_fmap, Ei, Ej in Hs.
    injection Hs as F1 F2 F3 F4. unfold layer3_ok, layer3. cbn. rewrite F1, F2. split_and!; [done..|].
    apply andb_true_iff in Ec as [E5 E6]. by rewrite E5, E6.
  - injection E2 as _ <-. rewrite Ei in E3. injection E3 as _ <-. destruct Hw as [Hf Hw]. split; [|exact Hw].
    unfold flags_ok in *. cbn. rewrite fmap_insert. apply map_Forall_insert_2; [|done]. split_and!; [done..|]. cbn. rewrite H3.
    by destruct (_ =? _), (bool_decide _).
Qed.
#[local] Hint Resolve wk_master : wkeeps.
Lemma wk_update l link : wkeeps (link_update l link).
Proof using Type. unfold link_update. wkeep. Qed.
#[local] Hint Resolve wk_update : wkeeps.
Lemma wk_newlink link : wkeeps (iccp_event_handler_obj_input_newlink team_ports link).
Proof using Type. unfold iccp_event_handler_obj_input_newlink. wkeep. Qed.
Lemma wk_dellink n : wkeeps (iccp_event_handler_obj_input_dellink n).
Proof using Type. unfold iccp_event_handler_obj_input_dellink. wkeep. Qed.

(** *** Addresses *)

Lemma wk_del_self k ip cs : kind_ok k -> wkeeps (del_self_ip k ip cs).
Proof using Type. intros Hk. induction cs; cbn [del_self_ip]; wkeep. apply (wk_set_lists k); [done|]. eauto. Qed.
#[local] Hint Resolve wk_del_self : wkeeps.
Lemma wk_added l f b : wkeeps (addr_added l f b).
Proof using Type. unfold addr_added, iccp_del_self_ip_from_neigh_table. wkeep. Qed.
Lemma wk_removed l f d b : wkeeps (addr_removed l f d b).
Proof using Type. unfold addr_removed. wkeep. Qed.
#[local] Hint Resolve wk_added wk_removed : wkeeps.

(** An address that is not zero. *)
Definition addr_ok (a : rtnl_addr) : Prop :=
  if ad_family a =? AF_INET then rd32 0 (ad_binary a) <> Some 0 else ip6_words (ad_binary a) <> Some [0; 0; 0; 0].

Lemma rd32_bound o b x : rd32 o b = Some x -> 0 <= x < 2 ^ 32.
Proof using Type.
  unfold rd32. destruct (rd o 4 b) as [v|] eqn:E; [|done]. intros [= <-].
  assert (H := le_combine_bound v). apply rd_inv in E as [_ E]. rewrite E in H. exact H.
Qed.
Lemma ip6_words_ok b x : ip6_words b = Some x -> length x = 4%nat /\ Forall (fun v => 0 <= v < 2 ^ 32) x.
Proof using Type.
  unfold ip6_words. intros E. repeat match type of E with context [rd32 ?o b] => destruct (rd32 o b) eqn:?; [|done] end.
  injection E as <-. split; [done|]. repeat constructor; by eapply rd32_bound.
Qed.

Lemma wk_newaddr a : addr_ok a -> wkeeps (iccp_event_handler_obj_input_newaddr a).
Proof using Type.
  intros Ha. unfold iccp_event_handler_obj_input_newaddr, addr_ok in *. apply wk_bind; [auto with wkeeps|]. intros [l|]; [|wkeep].
  apply wk_bind; [auto with wkeeps|]. intros i. destruct (ad_family a =? AF_INET).
  - destruct (negb _); [wkeep|]. apply wk_lift_bind. intros ip Eip. wkeep. apply wk_set_lif. intros j (H1 & H2 & _).
    split_and!; [done..|]. cbn. rewrite (proj2 (Z.eqb_neq ip 0)) by congruence. done.
  - apply wk_when, wk_lift_bind. intros ip Eip. destruct (ip6_words_ok _ _ Eip) as [L1 L2]. wkeep.
    apply wk_set_lif. intros j (H1 & H2 & _). split_and!; [done..|]. cbn.
    rewrite (bool_decide_eq_false_2 (ip = _)) by congruence. cbn. by rewrite orb_true_r.
Qed.

Lemma wk_l3_ends l : wkeeps (l3_ends l).
Proof using Type.
  intros w a w' E. refine (l3_ends_ok l (fun i => i) _ w a w' _).
  - intros i (H1 & H2 & H3). split_and!; [done..|]. unfold local_if_is_l3_mode. cbn. intros H. by rewrite H in H3.
  - assert (E' := E). apply bind_inv in E as (i & w1 & E1 & _). unfold w_get_lif in E1.
    destruct (w_lifs w !! l) as [i'|] eqn:Ei; [|done]. rewrite (bind_Some _ _ _ tt w); [done|].
    unfold w_set_lif. rewrite Ei. cbn [mbind option_bind]. do 2 f_equal. destruct w. unfold set. cbn in *. f_equal. by apply insert_id.
Qed.
#[local] Hint Resolve wk_l3_ends : wkeeps.

Lemma wk_deladdr a : wkeeps (iccp_event_handler_obj_input_deladdr a).
Proof using Type.
  unfold iccp_event_handler_obj_input_deladdr. apply wk_bind; [auto with wkeeps|]. intros [l|]; [|wkeep].
  apply wk_bind; [auto with wkeeps|]. intros i. destruct (ad_family a =? AF_INET); [|destruct (ad_family a =? AF_INET6); [|wkeep]].
  all: apply wk_lift_bind; intros ip Eip; repeat (case_match; [wkeep|]); apply wk_bind; [auto with wkeeps|intros _].
  all: apply l3_ends_ok; intros j (H1 & H2 & H3); split_and!; [done || by repeat constructor..|].
  all: unfold local_if_is_l3_mode; cbn; intros Hm; rewrite H3; clear -Hm.
  all: rewrite ?(bool_decide_eq_true_2 ([0; 0; 0; 0] = [0; 0; 0; 0])) in Hm by done.
  all: revert Hm; by destruct (_ =? _), (bool_decide _), (_ =? _).
Qed.

(** ** The steps of a CSM *)

Lemma kc_prepare : keepc iccp_csm_prepare_iccp_msg.
Proof using Type.
  unfold iccp_csm_prepare_iccp_msg, iccp_csm_prepare_capability_msg, iccp_csm_prepare_nak_msg,
    iccp_csm_prepare_rg_connect_msg, iccp_csm_prepare_rg_disconnect_msg. keepc.
Qed.
Lemma kc_correspond m : keepc (iccp_csm_correspond_from_msg m).
Proof using Type.
  unfold iccp_csm_correspond_from_msg, iccp_csm_check_id_from_msg, iccp_csm_correspond_from_capability_msg,
    iccp_csm_correspond_from_rg_connect_msg, iccp_csm_correspond_from_rg_disconnect_msg. keepc.
Qed.
#[local] Hint Resolve kc_prepare kc_correspond : keeps.

(** A connection, whatever its state. *)
Definition hooked (x : Core) : Prop :=
  let '(fd, conn, app, ml) := x in
  0 < fd /\ (ml <> MLACP_STATE_INIT -> app = APP_OPERATIONAL) /\ conn <> ICCP_NONEXISTENT.

Lemma hooked_ok x : hooked x -> core_ok x.
Proof using Type. destruct x as [[[fd conn] app] ml]. intros (H1 & H2 & H3). by split; [|split; auto]. Qed.
Lemma linked_ok x : linked x -> core_ok x.
Proof using Type. destruct x as [[[fd conn] app] ml]. intros [H1 H2]. by split. Qed.

Lemma runs_connected om : keeping hooked (iccp_csm_transit_connected om).
Proof using Type. unfold iccp_csm_transit_connected, correspond_opt, prepare_and_send, set_state. run; apply runs_on_csm; intros c (H1 & H2 & _); by split_and!. Qed.
#[local] Hint Resolve runs_connected : runs.

(** *** Connecting *)

Lemma kc_fix_bridge : keepc mlacp_fix_bridge_mac.
Proof using Type. keepc. Qed.
Lemma kc_role : keepc iccp_csm_stp_role_count.
Proof using Type. unfold iccp_csm_stp_role_count, mlacp_link_set_iccp_role. keepc. Qed.
#[local] Hint Resolve kc_role : keeps.
Lemma kc_check : keepc scheduler_check_csm_config.
Proof using Type. unfold scheduler_check_csm_config. keepc. Qed.
#[local] Hint Resolve kc_check : keeps.

(** Before a connection: nothing has a state. *)
Definition unconnected (x : Core) : Prop := let '(_, conn, _, ml) := x in conn = ICCP_NONEXISTENT /\ ml = MLACP_STATE_INIT.
Definition nonexistent (x : Core) : Prop := let '(_, conn, _, _) := x in conn = ICCP_NONEXISTENT /\ core_ok x.

Lemma unconnected_ok x : unconnected x -> nonexistent x.
Proof using Type. destruct x as [[[fd conn] app] ml]. by intros [-> ->]. Qed.

Lemma runs_client r : keeping unconnected (session_client_conn_handler r).
Proof using Type. unfold session_client_conn_handler, conn_fail, register_fd. run. Qed.

Lemma no_socket c : nonexistent (core c) -> csm_sock_fd c >? 0 = false -> unconnected (core c).
Proof using Type.
  intros (H1 & _ & H2) Hf. split; [done|]. destruct (decide (ml_current_state (MLACP c) = MLACP_STATE_INIT)) as [|Hn]; [done|].
  destruct (H2 Hn) as [H3 _]. apply Z.gtb_ltb in H3 || rewrite Z.gtb_ltb, Z.ltb_ge in Hf. lia.
Qed.

Lemma runs_session r : keeping nonexistent (scheduler_prepare_session r).
Proof using Type.
  unfold scheduler_prepare_session.
  eapply runs_bind; [apply runs_keepc; keepc|intros c0]. eapply runs_bind; [apply runs_keepc; keepc|intros t].
  eapply runs_bind; [run|intros ?]. apply runs_the_csm. intros c Hc.
  destruct (negb (_ <? _)); [|by apply runs_ret; intros x [_ Hx]]. cbn [when].
  apply (runs_bind _ _ _ (fun _ => nonexistent)).
  - destruct (csm_sock_fd c >? 0) eqn:Hf; [by apply runs_ret; intros x [_ Hx]|]. cbn [negb when].
    apply (runs_mono _ _ unconnected (fun _ => unconnected)).
    + intros x [-> _]. by apply no_socket.
    + intros _. apply unconnected_ok.
    + pose proof (runs_client r). run.
  - run.
Qed.

Lemma runs_switch r : runs core_ok (iccp_csm_transit_switch r) (fun gone x => core_ok x /\ gone = false).
Proof using Type.
  unfold iccp_csm_transit_switch. apply runs_the_csm. intros c Hc.
  eapply runs_bind; [apply runs_keepc; unfold iccp_csm_dequeue_msg; keepc|intros om].
  apply (runs_bind _ _ _ (fun _ x => core_ok x /\ (csm_current_state c <> ICCP_NONEXISTENT -> hooked x))).
  - case_bool_decide as E.
    + apply (runs_bind _ _ _ (fun _ => nonexistent)).
      { apply (runs_mono _ _ nonexistent (fun _ => nonexistent)); [by intros x [-> Hx]|done|apply runs_session]. }
      intros ?. apply runs_the_csm. intros d Hd. destruct (csm_sock_fd d >? 0) eqn:Hf; cbn [when].
      2: { apply runs_ret. intros x [_ Hx]. split; [|done]. destruct x as [[[? ?] ?] ?]. apply Hx. }
      eapply runs_bind; [apply runs_keepc; keepc|intros ok]. destruct (ok >? 0); cbn [when].
      2: { apply runs_ret. intros x [_ Hx]. split; [|done]. destruct x as [[[? ?] ?] ?]. apply Hx. }
      apply runs_on_csm. intros y [Ey (_ & _ & Hy)]. split; [|done]. split; [|exact Hy]. intros _. cbn.
      injection Ey as -> _ _ _. rewrite Z.gtb_ltb in Hf. by apply Z.ltb_lt.
    + apply (runs_mono _ _ hooked (fun _ => hooked)); [|intros _ x Hx; split; [by apply hooked_ok|done]|apply runs_connected].
      intros x [-> [H1 H2]]. split_and!; [by apply H1|by intros [_ H]%H2|done].
  - intros ?. apply runs_the_csm. intros d [Hd Hn]. cbn zeta.
    destruct (_ || _) eqn:E; [|apply runs_ret; by intros x (_ & Hx & _)].
    destruct (bool_decide (csm_current_state d = ICCP_NONEXISTENT)) eqn:Es; [apply bool_decide_eq_true in Es|].
    + exfalso. rewrite Es, (bool_decide_eq_false_2 (ICCP_NONEXISTENT <> ICCP_NONEXISTENT)), orb_false_r in E by auto. apply bool_decide_eq_true in E.
      apply Hn in E. unfold hooked, core in E. rewrite Es in E. by destruct E as (_ & _ & H).
    + eapply runs_bind; [apply (runs_on_csm _ _ (fun _ => core_ok)); intros y (_ & Hy & _)|intros ?; by apply runs_ret].
      unfold iccp_csm_enter_state. by case_match.
Qed.

(** *** The application *)

Lemma runs_app : keeping core_ok app_csm_transit.
Proof using Type.
  unfold app_csm_transit. apply runs_the_csm. intros c Hc. cbn zeta. destruct (_ && (csm_sock_fd c <=? 0)) eqn:E.
  - apply andb_true_iff in E as [_ E%Z.leb_le]. apply runs_on_csm. intros d [Ed [H1 H2]]. split; [exact H1|].
    intros H%H2. destruct H as [H _]. injection Ed as Ed _ _ _. cbn in H. lia.
  - match goal with |- runs _ (when ?b _) _ => destruct b end; cbn [when]; [|apply runs_ret; by intros x [_ Hx]].
    apply runs_on_csm. intros d [_ [H1 H2]].
    split; [exact H1|]. intros [H _]%H2. done.
Qed.

(** While the application works, its stages change nothing of the connection. *)
Lemma runs_stage_incr : keeping linked stage_incr.
Proof using Type. unfold stage_incr. run. Qed.
#[local] Hint Resolve runs_stage_incr : runs.
Lemma kc_sender : keepc mlacp_sync_sender_handler.
Proof using Type. unfold mlacp_sync_sender_handler, mlacp_sync_send_syncDoneData. keepc. Qed.
#[local] Hint Resolve kc_sender : keeps.
Lemma runs_send_all_loop n : keeping linked (send_all_loop n).
Proof using Type. induction n; cbn [send_all_loop]; run. Qed.
#[local] Hint Resolve runs_send_all_loop : runs.
Lemma runs_send_all : keeping linked mlacp_sync_send_all_info_handler.
Proof using Type. unfold mlacp_sync_send_all_info_handler. run. Qed.
#[local] Hint Resolve runs_send_all : runs.
Lemma kc_by_po_id n ls : keepc (lif_by_po_id n ls).
Proof using Type. induction ls; cbn [lif_by_po_id]; keepc. Qed.
#[local] Hint Resolve kc_by_po_id : keeps.
Lemma runs_receiver om : keeping linked (mlacp_sync_receiver_handler om).
Proof using Type.
  unfold mlacp_sync_receiver_handler, mlacp_sync_recv_syncData, mlacp_sync_recv_syncReq, mlacp_fsm_recv_if_up_ack, msg_tlv. run.
Qed.
#[local] Hint Resolve runs_receiver : runs.
Lemma runs_stage om : keeping linked (mlacp_stage_handler om).
Proof using Type.
  unfold mlacp_stage_handler, mlacp_stage_sync_request_handler, mlacp_stage_sync_send_handler. run.
Qed.
Lemma runs_exchange om : keeping linked (mlacp_exchange_handler om).
Proof using Type.
  unfold mlacp_exchange_handler, send_config_changes, purge_one, send_lif_changes, warm_reboot_timeout. run.
Qed.
#[local] Hint Resolve runs_stage runs_exchange : runs.
Lemma runs_turn : keeping linked transit_turn.
Proof using Type. unfold transit_turn, begin_stages, state_handler, mlacp_dequeue_msg. run. Qed.
#[local] Hint Resolve runs_turn : runs.
Lemma runs_loop n : keeping linked (transit_loop n).
Proof using Type. induction n; cbn [transit_loop]; run. Qed.
#[local] Hint Resolve runs_loop : runs.

Lemma runs_fsm : keeping core_ok mlacp_fsm_transit.
Proof using Type.
  unfold mlacp_fsm_transit. apply runs_the_csm. intros c Hc. destruct (_ || _) eqn:E.
  - unfold tear_down. apply runs_the_csm. intros d [Ed Hd].
    destruct (bool_decide (ml_current_state (MLACP d) <> MLACP_STATE_INIT)) eqn:Hi; cbn [when].
    + apply bool_decide_eq_true in Hi. injection Ed as E1 _ E3 E4. destruct Hd as [_ H2]. destruct (H2 Hi) as [H3 H4]. cbn in *.
      apply orb_true_iff in E as [E%Z.leb_le|E%bool_decide_eq_true]; [lia|congruence].
    + apply runs_ret. by intros x (_ & _ & Hx).
  - apply (runs_mono _ _ linked (fun _ => linked)).
    + intros x [-> _]. apply orb_false_iff in E as [E%Z.leb_gt E2]. apply bool_decide_eq_false in E2.
      split; [done|]. by destruct (app_current_state _) eqn:?; try (by destruct E2).
    + intros _. apply linked_ok.
    + run.
Qed.

(** *** The socket *)

Lemma kc_enqueue m : keepc (iccp_csm_enqueue_msg m).
Proof using Type. unfold iccp_csm_enqueue_msg, app_csm_enqueue_msg. keepc. Qed.
Lemma kc_read_data n p d r : keepc (read_data n p d r).
Proof using Type. revert p d r. induction n as [|n IH]; intros; cbn [read_data]; unfold recv; keepc; auto. Qed.
Lemma kc_read_header n p : keepc (read_header n p).
Proof using Type. revert p. induction n as [|n IH]; intros; cbn [read_header]; unfold recv; keepc; auto. Qed.
#[local] Hint Resolve kc_enqueue kc_read_data kc_read_header : keeps.
Lemma runs_read : keeping core_ok scheduler_csm_read_callback.
Proof using Type. unfold scheduler_csm_read_callback, csm_read_message, csm_read_data, SYSTEM_SET_RETRY_COUNTER. run. Qed.
Lemma runs_heartbeat : keeping core_ok heartbeat_update.
Proof using Type. unfold heartbeat_update, heartbeat_check. run. Qed.
#[local] Hint Resolve runs_app runs_fsm runs_read runs_heartbeat : runs.

(** ** The scheduler *)

Lemma wk_transit r c : wkeeps (iccp_csm_transit r c).
Proof using Type.
  unfold iccp_csm_transit, iccp_csm_enter_state_nonexistent. wkeep.
  - apply wk_set_csm. intros x [_ H]. split; [by intros []|exact H].
  - apply (runs_mono _ _ core_ok (fun gone x => core_ok x /\ gone = false)); [done| |apply runs_switch]. by intros ? ? [H _].
Qed.
#[local] Hint Resolve wk_transit wk_purge_clear : wkeeps.
Lemma wk_transit_fsm conn : wkeeps (scheduler_transit_fsm conn).
Proof using Type. unfold scheduler_transit_fsm. wkeep. Qed.

Lemma with_csm_cores {A} c (m : M CS A) w a w' : keepc m -> with_csm c m w = Some (a, w') -> core <$> w_csms w' = core <$> w_csms w.
Proof using Type.
  intros Hm. unfold with_csm. destruct (w_csms w !! c) as [x|] eqn:Ex; [|done]. cbn [mbind option_bind].
  destruct (m _) as [[a' s]|] eqn:E; [|done]. intros [= <- <-]. destruct (Hm _ _ _ E) as (H1 & H2 & _).
  unfold views in H2. cbn in *. rewrite H1 in H2. rewrite fmap_insert, H2, fmap_delete, insert_delete_eq.
  apply insert_id. by rewrite lookup_fmap, Ex.
Qed.

(** A socket for a CSM without one. *)
Lemma wk_adopt c fd e (reject : M World Z) : wkeeps reject ->
  wkeeps (csm ← get_csm c;
          if csm_sock_fd csm >? 0 then reject
          else
            ok ← with_csm c scheduler_check_csm_config;
            if ok <? 0 then reject
            else
              global (act (Act_epoll_add fd));;
              if negb (e =? 0) then reject
              else
                with_csm c (on_csm (fun x => x <| csm_sock_fd := fd |> <| csm_current_state := ICCP_NONEXISTENT |>);;
                            register_fd fd);;
                mret 0).
Proof using Type.
  intros HR w a w' (x & w1 & E1 & E)%bind_inv Hw. unfold get_csm in E1. destruct (w_csms w !! c) as [x'|] eqn:Ex; [|done].
  injection E1 as -> <-. destruct (csm_sock_fd x >? 0) eqn:Hf; [by eapply HR|].
  apply bind_inv in E as (ok & w2 & E2 & E). assert (Hc2 := with_csm_cores _ _ _ _ _ kc_check E2).
  assert (Hw2 : proc_ok w2) by exact (wk_with_csm c _ (runs_keepc core_ok _ kc_check) _ _ _ E2 Hw). destruct (ok <? 0); [by eapply HR|].
  apply bind_inv in E as (? & w3 & E3 & E). assert (w_csms w3 = w_csms w2) as Hc3 by (by injection E3 as _ <-).
  assert (Hw3 : proc_ok w3) by (injection E3 as _ <-; exact Hw2). destruct (negb (e =? 0)); [by eapply HR|].
  apply bind_inv in E as (? & w4 & E4 & E). injection E as <- <-. revert E4. unfold with_csm.
  destruct (w_csms w3 !! c) as [y|] eqn:Ey; [|done]. cbn [mbind option_bind fst snd]. intros [= _ <-].
  destruct Hw3 as (F1 & F2 & F3). unfold proc_ok. cbn. split_and!; [done| |].
  - unfold cores_ok. rewrite fmap_insert, fmap_delete, insert_delete_eq. apply map_Forall_insert_2; [|done].
    split; [by intros []|]. intros Hm. exfalso. apply Hm. change (ml_current_state (MLACP y) = MLACP_STATE_INIT).
    apply (f_equal (lookup c)) in Hc2. rewrite <- Hc3, !lookup_fmap, Ey, Ex in Hc2. injection Hc2 as _ _ _ ->.
    destruct (decide (ml_current_state (MLACP x) = MLACP_STATE_INIT)) as [|Hn]; [done|].
    destruct Hw as (_ & H2 & _). destruct (cores_lookup _ _ _ H2 Ex) as [_ H]. destruct (H Hn) as [H3 _].
    rewrite Z.gtb_ltb in Hf. apply Z.ltb_ge in Hf. lia.
  - rewrite lookup_insert_ne, lookup_delete_ne; [done|..]; intros ->; by rewrite F3 in Ey.
Qed.
Lemma wk_accept fd a e : wkeeps (scheduler_server_accept fd a e).
Proof using Type.
  unfold scheduler_server_accept, system_get_csm_by_peer_ip. apply wk_bind; [auto with wkeeps|intros y].
  destruct (_ <=? _); [wkeep|]. cbn zeta. set (reject := when _ _;; _).
  assert (HR : wkeeps reject) by (unfold reject; wkeep). clearbody reject. destruct (fd =? -1); [done|].
  apply wk_bind; [auto with wkeeps|]. intros [c|]; [|done]. by apply wk_adopt.
Qed.
Lemma wk_signal ctrl : wkeeps (iccp_receive_signal_handler ctrl).
Proof using Type.
  unfold iccp_receive_signal_handler, mlacp_sync_send_warmboot_flag. wkeep.
  unfold send_prepared, mlacp_prepare_for_warm_reboot. run.
Qed.
Lemma wk_peer fd : wkeeps (peer_event fd).
Proof using Type. unfold peer_event. wkeep. Qed.
#[local] Hint Resolve wk_accept wk_signal wk_peer wk_newlink wk_dellink wk_newaddr wk_deladdr wk_arp wk_nd wk_transit_fsm : wkeeps.

(** *** The stream of mclagsyncd *)

Definition rkeeps {A} (m : M Rx A) : Prop := forall r a r', m r = Some (a, r') -> proc_ok (rx_w r) -> proc_ok (rx_w r').

Section Stream.
Context {A B : Type}.
Lemma rk_ret (a : A) : rkeeps (mret a).
Proof using Type. by intros r a' r' [= <- <-]. Qed.
Lemma rk_ub : rkeeps (@ub Rx A).
Proof using Type. by intros r a r'. Qed.
Lemma rk_lift (o : option A) : rkeeps (lift o).
Proof using Type. intros r a r'. unfold lift. destruct o; [|done]. by intros [= <- <-]. Qed.
Lemma rk_bind (m : M Rx A) (f : A -> M Rx B) : rkeeps m -> (forall a, rkeeps (f a)) -> rkeeps (m ≫= f).
Proof using Type. intros Hm Hf r b r'' (a & r' & E1 & E2)%bind_inv H. eapply Hf, Hm; eauto. Qed.
Lemma rk_modify f : (forall r, rx_w (f r) = rx_w r) -> rkeeps (modify f).
Proof using Type. intros H r a r' [= <- <-]. by rewrite H. Qed.
Lemma rk_world (m : M World A) : wkeeps m -> rkeeps (rx_world m).
Proof using Type.
  intros Hm r a r'. unfold rx_world. destruct (m (rx_w r)) as [[x w]|] eqn:E; [|done]. intros [= <- <-] H. by eapply Hm.
Qed.
End Stream.

Ltac rkeep_step :=
  match goal with
  | |- rkeeps (_ ≫= _) => apply rk_bind; [|intros ?]
  | |- rkeeps (match ?x with _ => _ end) => destruct x
  | |- rkeeps (if ?x then _ else _) => destruct x
  | |- rkeeps (let _ := _ in _) => cbn zeta
  | |- rkeeps (when ?b _) => destruct b; cbn [when]
  | |- rkeeps (mret _) => apply rk_ret
  | |- rkeeps ub => apply rk_ub
  | |- rkeeps (lift _) => apply rk_lift
  | |- rkeeps (modify _) => apply rk_modify; by intros ?
  | |- rkeeps (rx_world (modify _)) => apply rk_world, wk_modify; by intros ?
  | |- rkeeps _ => by intros ? ? ? [= <- <-]
  | |- rkeeps _ => solve [auto]
  end.
Ltac rkeep := intros; repeat rkeep_step.

Lemma rk_recv o n : rkeeps (rx_recv o n).
Proof using Type. unfold rx_recv. rkeep. Qed.
Lemma rk_retry k n : rkeeps (first_retry k n).
Proof using Type. pose proof rk_recv. revert n. induction k as [|k IH]; intros; cbn [first_retry]; unfold rx_sleep, rx_on_g; rkeep. Qed.
Lemma rk_first : rkeeps first_recv.
Proof using Type. pose proof rk_recv. pose proof rk_retry. unfold first_recv. rkeep. Qed.
Lemma rk_pending k n r p c z e : rkeeps (pending_loop k n r p c z e).
Proof using Type. pose proof rk_recv. revert r c. induction k as [|k IH]; intros; cbn [pending_loop]; unfold rx_sleep, rx_on_g; rkeep. Qed.
Lemma rk_msg p n c : rkeeps (syncd_msg (syncd_dispatch team_ports rand) p n c).
Proof using Type.
  pose proof rk_pending. unfold syncd_msg, pending, SYSTEM_SET_SYNCD_RX_DBG_COUNTER.
  repeat (destruct (syncd_dispatch _ _ _) eqn:?; [apply rk_bind; [by eapply rk_world, wk_syncd|intros ?]|] || rkeep_step).
Qed.
Lemma rk_handler : rkeeps (iccp_mclagsyncd_msg_handler team_ports rand).
Proof using Type.
  pose proof rk_first. pose proof rk_msg. pose proof rk_pending.
  assert (Hl : forall k p n c, rkeeps (syncd_loop_rx (syncd_dispatch team_ports rand) k p n c)).
  { induction k as [|k IH]; intros; cbn [syncd_loop_rx]; unfold pending, rx_incr, rx_on_g; rkeep. }
  unfold iccp_mclagsyncd_msg_handler, syncd_msg_handler, rx_incr, rx_on_g. rkeep.
Qed.

(** *** A turn *)

(** The kernel reports no address that is zero. *)
Definition event_ok (e : Event) : Prop :=
  match e with Ev_route (Rt_newaddr a) => addr_ok a | _ => True end.

Lemma wk_event e : event_ok e -> wkeeps (handle_event team_ports rand e).
Proof using Type.
  intros He. destruct e; cbn [handle_event]; try by wkeep.
  - destruct m; cbn [iccp_route_event_handler]; wkeep.
  - intros w a w' E Hw. destruct (iccp_mclagsyncd_msg_handler _ _ _) as [[x r]|] eqn:Er; [|done]. injection E as <- <-.
    exact (rk_handler _ _ _ Er Hw).
Qed.

Lemma wk_events es : Forall event_ok es -> wkeeps (foreach (handle_event team_ports rand) es).
Proof using Type.
  induction 1 as [|e es He Hes IH]; cbn [foreach]; [by intros w a w' [= <- <-]|].
  apply wk_bind; [by apply wk_event|by intros ?].
Qed.

Lemma wk_scheduler sync es conn : Forall event_ok es -> wkeeps (scheduler_turn team_ports rand sync es conn).
Proof using Type.
  intros Hes. unfold scheduler_turn, iccp_connect_syncd, iccp_handle_events. pose proof (wk_events es Hes) as H.
  set (m := foreach _ es) in *. clearbody m. wkeep.
Qed.
End Team.

(** A turn of the scheduler, whatever the kernel, mclagsyncd and the peer do. *)
Definition turn_to (w w' : World) : Prop := exists team_ports rand sync es conn go,
  Forall event_ok es /\ scheduler_turn team_ports rand sync es conn w = Some (go, w').

Lemma turns_ok w w' : rtc turn_to w w' -> proc_ok w -> proc_ok w'.
Proof.
  induction 1 as [|w w1 w' (tp & rand & sync & es & conn & go & He & E) Hr IH]; [done|]. intros Hw.
  apply IH. by eapply wk_scheduler.
Qed.

(** C12. The flag that goes to the peer says of every interface what its addresses and
    its VRF say, after any number of turns of the scheduler. *)
Theorem layer3_flags w w' : proc_ok w -> rtc turn_to w w' ->
  forall l i, w_lifs w' !! l = Some i -> lif_l3_mode i = of_bool (local_if_is_l3_mode i).
Proof.
  intros Hw Hr l i Hl. destruct (turns_ok _ _ Hr Hw) as [H _]. by destruct (flags_lookup _ _ _ H Hl) as (_ & _ & H3).
Qed.

