(* ===== verification/ConnectSpec.v ===== *)
(** Who connects to whom: of two switches that name each other as peers exactly one
    opens the connection, and it becomes the active one. *)

From Stdlib Require Import ZArith Lia.
From stdpp Require Import base list gmap numbers option strings.
From coqutil Require Import Byte Word.LittleEndianList.
From S2P Require Import Prelude CBuf State MsgFormat Wire CsmMsg Csm Port SyncPrepare Receive Syncd.
From S2P Require Import AppCsm MacTable Kernel Senders Neigh LinkMac Isolation LinkState SyncUpdate MlacpFsm Session.
From S2P Require Import Lifecycle SyncdRecv Config Learn LinkEvents Connect StageFrame.

(** ** The decision *)

Definition conf (c : CSM) := (csm_sender_ip c, csm_peer_ip c, csm_sock_fd c).
Definition conf_role (c : CSM) := (conf c, csm_role_type c).

(** Active is the switch whose address is the lower number in network order. *)
Definition is_client (c : CSM) : bool := inet_addr (csm_sender_ip c) <? inet_addr (csm_peer_ip c).
Definition role_of (c : CSM) : stp_role_type := if is_client c then STP_ROLE_ACTIVE else STP_ROLE_STANDBY.

Lemma is_client_conf c d : conf c = conf d -> is_client c = is_client d.
Proof. intros [= H1 H2 _]. unfold is_client. by rewrite H1, H2. Qed.

Lemma decide_role a s s' : csm_role_type (cs_csm s) = STP_ROLE_NONE -> iccp_csm_stp_role_count s = Some (a, s') ->
  conf_role (cs_csm s') = (conf (cs_csm s), role_of (cs_csm s)).
Proof.
  intros Hr E. unfold iccp_csm_stp_role_count in E. rewrite bind_the_csm, bool_decide_eq_true_2 in E by done. cbn [when] in E.
  unfold role_of, is_client. destruct (_ <? _); apply bind_inv in E as (? & s1 & [= _ <-] & E).
  all: apply (keeps_view conf_role) in E; [by rewrite E|]. all: unfold mlacp_link_set_iccp_role, mlacp_fix_bridge_mac; keep.
Qed.

(** ** The attempt *)

(** The configuration is complete, the peer link exists, no role has been decided,
    and the last attempt was long enough ago. *)
Record may_connect (s : CS) : Prop := mk_may_connect {
  mc_id : 0 < csm_mlag_id (cs_csm s);
  mc_addrs : 0 < strlen (csm_peer_ip (cs_csm s)) /\ 0 < strlen (csm_sender_ip (cs_csm s));
  mc_link : strlen (csm_peer_itf_name (cs_csm s)) = 0
    \/ exists l, local_if_find_by_name (csm_peer_itf_name (cs_csm s)) s = Some (Some l, s);
  mc_role : csm_role_type (cs_csm s) = STP_ROLE_NONE;
  mc_fd : csm_sock_fd (cs_csm s) <= 0;
  mc_time : csm_connTimePrev (cs_csm s) <> 0 /\ g_now (cs_g s) - csm_connTimePrev (cs_csm s) >= CONNECT_INTERVAL_SEC;
}.

Lemma check_done s ok s' : may_connect s -> scheduler_check_csm_config s = Some (ok, s') ->
  ok = 1 /\ conf_role (cs_csm s') = (conf (cs_csm s), role_of (cs_csm s)).
Proof.
  intros [H1 [H2 H3] H4 H5 _ _] E. unfold scheduler_check_csm_config in E. rewrite bind_the_csm in E.
  rewrite (proj2 (Z.leb_gt _ _) H1), (proj2 (Z.leb_gt _ _) H2), (proj2 (Z.leb_gt _ _) H3) in E. cbn [orb] in E.
  apply bind_inv in E as (miss & s1 & E1 & E).
  assert (miss = false /\ conf_role (cs_csm s1) = conf_role (cs_csm s)) as [-> Hs].
  { destruct (strlen (csm_peer_itf_name (cs_csm s)) =? 0) eqn:El; [by injection E1 as <- <-|].
    apply Z.eqb_neq in El. destruct H4 as [H4|[l Hl]]; [done|]. rewrite (bind_Some _ _ _ _ _ Hl) in E1.
    split.
    - repeat (apply bind_inv in E1 as (? & ? & _ & E1)). by injection E1 as <- _.
    - apply (keeps_view conf_role) in E1; [done|]. unfold set_peerlink_learn_kernel. keep. }
  apply bind_inv in E as (? & s2 & E2 & E). injection E as <- <-. split; [done|].
  injection Hs as F1 F2 F3 F4. apply decide_role in E2; [|congruence]. rewrite E2. unfold role_of.
  rewrite (is_client_conf (cs_csm s1) (cs_csm s)) by (unfold conf; congruence). unfold conf. congruence.
Qed.

(** Every system call succeeds. *)
Definition reachable_peer (r : ConnRes) : Prop :=
  0 < cr_socket r /\ 0 <= cr_bind r /\ cr_connect r = 0 /\ cr_epoll r = 0.

Lemma attempt r s s' a : may_connect s -> reachable_peer r -> scheduler_prepare_session r s = Some (a, s') ->
  csm_role_type (cs_csm s') = role_of (cs_csm s)
  /\ csm_sock_fd (cs_csm s') = if is_client (cs_csm s) then cr_socket r else csm_sock_fd (cs_csm s).
Proof.
  intros Hs (R1 & R2 & R3 & R4) E. assert (Hs' := Hs). destruct Hs' as [_ _ _ _ Hf [T1 T2]].
  unfold scheduler_prepare_session in E. rewrite bind_the_csm in E. apply bind_inv in E as (t & s1 & [= <- <-] & E).
  rewrite (proj2 (Z.eqb_neq _ _) T1) in E. cbn [when] in E. apply bind_inv in E as (? & s1 & [= _ <-] & E).
  rewrite bind_the_csm, (proj2 (Z.ltb_ge _ _)) in E by lia. cbn [negb when] in E.
  rewrite Z.gtb_ltb, (proj2 (Z.ltb_ge _ _) Hf) in E. cbn [negb when] in E.
  apply bind_inv in E as (? & s3 & E & E4). apply bind_inv in E as (ok & s2 & E2 & E).
  destruct (check_done _ _ _ Hs E2) as [-> H2]. injection H2 as F1 F2 F3 F4. rewrite bind_the_csm in E.
  change (inet_addr (csm_sender_ip (cs_csm s2)) <? inet_addr (csm_peer_ip (cs_csm s2))) with (is_client (cs_csm s2)) in E.
  rewrite (is_client_conf _ (cs_csm s)) in E by (unfold conf; congruence). change (negb (1 <? 0)) with true in E. cbn [andb] in E.
  apply bind_inv in E4 as (t & s4 & [= <- <-] & [= _ <-]). cbn.
  destruct (is_client (cs_csm s)); cbn [when] in E; [|injection E as _ <-; auto].
  unfold session_client_conn_handler in E. cbn zeta in E.
  rewrite (proj2 (Z.eqb_neq _ _)), (proj2 (Z.ltb_ge _ _)), R3, R4 in E by lia. cbn [orb negb Z.eqb] in E.
  repeat (apply bind_inv in E as (? & ? & E0 & E); repeat (apply bind_inv in E0 as (? & ? & [= _ <-] & E0)); injection E0 as _ <-).
  injection E as _ <-. done.
Qed.

Definition connected (c : CSM) : Prop := 0 < csm_sock_fd c.

