(* ===== verification/NeighSpec.v ===== *)
(** The neighbour tables as finite maps: what an update of the peer does to
    the ARP and ND entries that this switch knows. *)

From Stdlib Require Import ZArith Lia.
From stdpp Require Import base list gmap numbers option strings.
From coqutil Require Import Byte Word.LittleEndianList.
From S2P Require Import Prelude CBuf State MsgFormat Wire CsmMsg Csm Port SyncPrepare MacTable MacInv.
From S2P Require Import Kernel Senders Neigh LinkState SyncUpdate StageFrame.

(** Addresses are keys. *)
#[export] Program Instance byte_countable : Countable Byte.byte :=
  inj_countable Corelib.Init.Byte.to_bits (fun b => Some (Corelib.Init.Byte.of_bits b)) _.
Next Obligation. intros b. cbn. by rewrite Corelib.Init.Byte.of_bits_to_bits. Qed.

(** ** Entries *)

Section Kind.
Context (k : NeighKind).

Definition sized (m : Msg) : Prop := length (msg_buf m) = nk_size k.

Definition e_ip (m : Msg) : buf := take (nk_ip_len k) (drop 24 (msg_buf m)).
Definition e_name (m : Msg) : buf := take MAX_L_PORT_NAME (drop 3 (msg_buf m)).
Definition e_mac (m : Msg) : buf := take ETHER_ADDR_LEN (drop (24 + nk_ip_len k) (msg_buf m)).

(** The map from addresses to interface and MAC that a list stands for. *)
Definition binding (m : Msg) : buf * (buf * buf) := (e_ip m, (cstr (e_name m), e_mac m)).
Definition nmap (l : list Msg) : gmap buf (buf * buf) := list_to_map (binding <$> l).

Definition nlist_ok (l : list Msg) : Prop := Forall sized l /\ NoDup (e_ip <$> l).

(** The entry read from a message: its arrays have their sizes. *)
Definition neigh_ok (n : Neigh) : Prop :=
  length (n_ip n) = nk_ip_len k /\ length (n_mac n) = ETHER_ADDR_LEN /\ length (n_ifname n) = MAX_L_PORT_NAME.

(** The update as an operation on the map. *)
Definition upd (n : Neigh) (t : gmap buf (buf * buf)) : gmap buf (buf * buf) :=
  let v := (cstr (n_ifname n), n_mac n) in
  if n_op n =? NEIGH_SYNC_DEL then delete (n_ip n) t
  else if n_op n =? NEIGH_SYNC_ADD then <[n_ip n := v]> t
  else alter (fun _ => v) (n_ip n) t.

Hypothesis Hsize : (24 + nk_ip_len k + ETHER_ADDR_LEN <= nk_size k)%nat.

Lemma has_ip_run ip m : sized m -> has_ip k ip m = Some (bool_decide (e_ip m = ip)).
Proof.
  unfold sized, has_ip, nk_get_ip. intros H. unfold rd, ETHER_ADDR_LEN in *.
  rewrite (proj2 (Nat.leb_le _ _)) by lia. done.
Qed.

(** The search stops at the entry, or passes through. *)
Lemma neigh_update_run ip f l : Forall sized l ->
  (exists l1 m l2, l = l1 ++ m :: l2 /\ (ip ∉ e_ip <$> l1) /\ e_ip m = ip
    /\ neigh_update k ip f l = (ms ← f m; Some (true, l1 ++ ms ++ l2)))
  \/ (ip ∉ e_ip <$> l) /\ neigh_update k ip f l = Some (false, l).
Proof.
  induction 1 as [|m l Hm Hl IH]; [right; split; [apply not_elem_of_nil|done]|].
  cbn [neigh_update]. rewrite has_ip_run by done. cbn [mbind option_bind].
  case_bool_decide as Hip.
  { left. exists [], m, l. split_and!; [done|apply not_elem_of_nil|done|done]. }
  destruct IH as [(l1 & m' & l2 & -> & Hn & He & E)|[Hn E]].
  - left. exists (m :: l1), m', l2. split; [done|]. split; [|split; [done|]].
    + rewrite fmap_cons, not_elem_of_cons. auto.
    + rewrite E. by destruct (f m').
  - right. rewrite fmap_cons, not_elem_of_cons, E. auto.
Qed.

Lemma neigh_purge_run ip l : Forall sized l ->
  neigh_purge k ip l = Some (filter (fun m => e_ip m <> ip) l).
Proof.
  induction 1 as [|m l Hm Hl IH]; [done|]. cbn [neigh_purge]. rewrite has_ip_run, IH by done.
  cbn [mbind option_bind]. rewrite filter_cons. by repeat case_decide; case_bool_decide.
Qed.

(** ** Writing an entry *)

Lemma rd_slice off n (b : buf) : (off + n <= length b)%nat -> rd off n b = Some (take n (drop off b)).
Proof using. intros H. unfold rd. by rewrite (proj2 (Nat.leb_le _ _) H). Qed.

Lemma cstr_snoc (a r : buf) : cstr (cstr a ++ [Byte.x00] ++ r) = cstr a.
Proof using.
  induction a as [|c a IH]; [done|]. cbn [cstr]. destruct (is_nul c) eqn:E; [done|].
  cbn [app cstr] in *. by rewrite E, IH.
Qed.

(** The name is written, and nothing behind it. *)
Lemma name_written nm b b1 : sprintf_s 3 nm b = Some b1 -> length nm = MAX_L_PORT_NAME ->
  length b = nk_size k ->
  length b1 = nk_size k /\ cstr (take MAX_L_PORT_NAME (drop 3 b1)) = cstr nm
  /\ forall off n, (24 <= off)%nat -> rd off n b1 = rd off n b.
Proof using Hsize.
  unfold sprintf_s, MAX_L_PORT_NAME, ETHER_ADDR_LEN in *. intros E1 Hn Hb.
  destruct (has_nul nm) eqn:Hz; [|done]. apply cstr_nul_length in Hz.
  pose proof (wr_length _ _ _ _ E1) as L1.
  assert (Lc : length (cstr nm ++ [Byte.x00]) = S (length (cstr nm))) by (rewrite length_app; cbn; lia).
  split; [congruence|]. split.
  - unfold wr in E1. rewrite (proj2 (Nat.leb_le _ _)) in E1 by lia. injection E1 as <-.
    rewrite drop_app_length' by (rewrite length_take; lia). rewrite take_app_ge by lia.
    rewrite <- app_assoc. apply cstr_snoc.
  - intros off n Ho. apply (rd_wr_after _ _ _ _ _ _ E1). lia.
Qed.

(** What the written members make of an entry. *)
Lemma binding_of b len ip nm mac :
  length b = nk_size k -> rd 24 (nk_ip_len k) b = Some ip ->
  cstr (take MAX_L_PORT_NAME (drop 3 b)) = nm -> rd (24 + nk_ip_len k) ETHER_ADDR_LEN b = Some mac ->
  sized (mkMsg b len) /\ binding (mkMsg b len) = (ip, (nm, mac)).
Proof using Hsize.
  unfold sized, binding, e_ip, e_name, e_mac, ETHER_ADDR_LEN in *. cbn [msg_buf].
  intros Hb E1 <- E2. rewrite rd_slice in E1, E2 by lia. split; [done|]. congruence.
Qed.

(** The interface name and the MAC are replaced, the address stays. *)
Lemma refresh_entry n m m' : sized m -> neigh_ok n ->
  neigh_refresh k n m = Some m' -> m' = [] /\ n_op n = NEIGH_SYNC_DEL
    \/ exists x, m' = [x] /\ n_op n <> NEIGH_SYNC_DEL /\ sized x
         /\ binding x = (e_ip m, (cstr (n_ifname n), n_mac n)).
Proof using Hsize.
  unfold sized. intros Hb (_ & Hm & Hn). unfold neigh_refresh, nk_set_mac.
  intros (b1 & E1 & E)%obind_Some. apply obind_Some in E as (b2 & E2 & E).
  destruct (name_written _ _ _ E1 Hn Hb) as (L1 & Hc & Ha).
  pose proof (wr_length _ _ _ _ E2) as L2. injection E as <-.
  destruct (Z.eqb_spec (n_op n) NEIGH_SYNC_DEL) as [Hd|Hd]; [by left|right].
  exists (m <| msg_buf := b2 |>). split; [done|]. split; [done|].
  destruct m as [b len]. cbn [msg_buf] in *. unfold e_ip. cbn [msg_buf].
  unfold ETHER_ADDR_LEN, MAX_L_PORT_NAME in *. apply binding_of; [congruence| | |].
  - rewrite (rd_wr_before _ _ _ _ _ _ E2), Ha by lia. apply rd_slice. lia.
  - rewrite <- Hc. f_equal. apply (inj Some). rewrite <- !rd_slice by (unfold MAX_L_PORT_NAME; lia).
    apply (rd_wr_before _ _ _ _ _ _ E2). unfold MAX_L_PORT_NAME. lia.
  - pose proof (rd_wr_eq _ _ _ _ E2) as E. rewrite Hm in E. exact E.
Qed.

(** A new entry. *)
Lemma new_entry n b b1 m op fl le : neigh_ok n ->
  neigh_struct k op fl le [] (n_ip n) (n_mac n) = Some b -> sprintf_s 3 (n_ifname n) b = Some b1 ->
  iccp_csm_init_msg b1 (Z.of_nat (nk_size k)) = Some (inr m) ->
  sized m /\ binding m = (n_ip n, (cstr (n_ifname n), n_mac n)) /\ nk_get_op 0 (msg_buf m) = Some (u8 op).
Proof using Hsize.
  intros (Hi & Hm & Hn) E E1 E2. unfold neigh_struct, nk_set_mac in E.
  apply obind_Some in E as (x1 & F1 & E). apply obind_Some in E as (x2 & F2 & E).
  apply obind_Some in E as (x3 & F3 & E). apply obind_Some in E as (x4 & F4 & E).
  apply obind_Some in E as (x5 & F5 & E).
  assert (Hop : nk_get_op 0 b1 = Some (u8 op)).
  { unfold nk_get_op, rd8. unfold sprintf_s in E1. destruct (has_nul _); [|done].
    rewrite (rd_wr_before _ _ _ _ _ _ E1), (rd_wr_before _ _ _ _ _ _ E), (rd_wr_before _ _ _ _ _ _ F5),
      (rd_wr_before _ _ _ _ _ _ F4), (rd_wr_before _ _ _ _ _ _ F3), (rd_wr_before _ _ _ _ _ _ F2) by lia.
    apply rd_wr_eq in F1. rewrite length_le_split in F1. rewrite F1. cbn [fmap option_fmap option_map].
    by rewrite le_combine_split. }
  apply wr_length in F1, F2, F3, F4. pose proof (wr_length _ _ _ _ F5) as L5.
  pose proof (wr_length _ _ _ _ E) as L6.
  assert (Hz : length (zeros (Z.of_nat (nk_size k))) = nk_size k)
    by (unfold zeros; rewrite length_replicate; lia).
  destruct (name_written _ _ _ E1 Hn) as (L1 & Hc & Ha); [congruence|].
  unfold iccp_csm_init_msg in E2. destruct (_ <=? 0); [done|]. rewrite Nat2Z.id, rd_full in E2 by done.
  injection E2 as <-.
  enough (H : sized (mkMsg b1 (Z.of_nat (nk_size k))) /\ binding (mkMsg b1 (Z.of_nat (nk_size k)))
    = (n_ip n, (cstr (n_ifname n), n_mac n))) by (by destruct H).
  apply binding_of; [done| |done|].
  - rewrite Ha, (rd_wr_before _ _ _ _ _ _ E) by lia. rewrite <- Hi. apply (rd_wr_eq _ _ _ _ F5).
  - rewrite Ha by lia. rewrite <- Hm. apply (rd_wr_eq _ _ _ _ E).
Qed.

(** ** The map *)

Lemma ip_fst l : e_ip <$> l = (binding <$> l).*1.
Proof using. by rewrite <- list_fmap_compose. Qed.

Lemma nmap_fresh l ip : (ip ∉ e_ip <$> l) -> nmap l !! ip = None.
Proof using. rewrite ip_fst. apply not_elem_of_list_to_map_1. Qed.

Lemma nmap_app l1 l2 : nmap (l1 ++ l2) = nmap l1 ∪ nmap l2.
Proof using. unfold nmap. by rewrite fmap_app, list_to_map_app. Qed.

Lemma nmap_cons m l : nmap (m :: l) = <[e_ip m := (cstr (e_name m), e_mac m)]> (nmap l).
Proof using. done. Qed.

(** A unique entry is replaced or removed. *)
Lemma nmap_replace l1 m m' l2 v : nlist_ok (l1 ++ m :: l2) -> sized m' -> binding m' = (e_ip m, v) ->
  nlist_ok (l1 ++ m' :: l2) /\ nmap (l1 ++ m' :: l2) = <[e_ip m := v]> (nmap (l1 ++ m :: l2)).
Proof using.
  intros [Hs Hn] Hm' Hb. assert (He : e_ip m' = e_ip m) by (by injection Hb).
  rewrite fmap_app, fmap_cons in Hn. split.
  - split; [|by rewrite fmap_app, fmap_cons, He]. apply Forall_app in Hs as [H1 [H2 H3]%Forall_cons].
    by apply Forall_app_2; [|apply Forall_cons_2].
  - apply NoDup_app in Hn as (_ & Hd & _). rewrite !nmap_app, !nmap_cons, He.
    assert (Hf : nmap l1 !! e_ip m = None) by (apply nmap_fresh; intros H; apply (Hd _ H); by left).
    injection Hb as _ <-. rewrite insert_union_r, insert_insert_eq by done.
    by rewrite <- insert_union_r by done.
Qed.

Lemma nmap_remove l1 m l2 : nlist_ok (l1 ++ m :: l2) ->
  nlist_ok (l1 ++ l2) /\ nmap (l1 ++ l2) = delete (e_ip m) (nmap (l1 ++ m :: l2)).
Proof using.
  intros [Hs Hn]. rewrite fmap_app, fmap_cons in Hn.
  apply Forall_app in Hs as [H1 [_ H3]%Forall_cons].
  apply NoDup_app in Hn as (N1 & Hd & [N2 N3]%NoDup_cons). split.
  - split; [by apply Forall_app_2|]. rewrite fmap_app. apply NoDup_app. split_and!; [done| |done].
    intros x Hx Hx2. apply (Hd x Hx). by right.
  - rewrite !nmap_app, nmap_cons, delete_union, delete_insert_eq.
    rewrite !delete_id; [done|by apply nmap_fresh|apply nmap_fresh; intros H; apply (Hd _ H); by left].
Qed.

Lemma nmap_snoc l m v : nlist_ok l -> sized m -> binding m = (e_ip m, v) -> (e_ip m ∉ e_ip <$> l) ->
  nlist_ok (l ++ [m]) /\ nmap (l ++ [m]) = <[e_ip m := v]> (nmap l).
Proof using.
  intros [Hs Hn] Hm Hb Hf. split.
  - split; [by apply Forall_app_2; [|apply Forall_cons_2]|]. rewrite fmap_app. apply NoDup_app.
    split_and!; [done| |apply NoDup_singleton]. intros x Hx ->%list_elem_of_singleton. done.
  - rewrite nmap_app, nmap_cons. injection Hb as <-. rewrite <- insert_union_r by (by apply nmap_fresh).
    f_equal. apply (right_id_L ∅ (∪)).
Qed.

Lemma table_mem l1 m l2 : nlist_ok (l1 ++ m :: l2) -> sized m.
Proof using. intros [Hs _]. by apply Forall_app in Hs as [_ [Hm _]%Forall_cons]. Qed.

Lemma nmap_has l1 m l2 : nlist_ok (l1 ++ m :: l2) -> is_Some (nmap (l1 ++ m :: l2) !! e_ip m).
Proof using.
  intros Ht. pose proof (table_mem _ _ _ Ht) as Hm.
  destruct (nmap_replace l1 m m l2 _ Ht Hm eq_refl) as [_ ->]. rewrite lookup_insert_eq. eauto.
Qed.

Lemma alter_present (t : gmap buf (buf * buf)) i v : is_Some (t !! i) -> alter (fun _ => v) i t = <[i := v]> t.
Proof using.
  intros [y Hy]. apply map_eq. intros j. destruct (decide (i = j)) as [->|Hj].
  - by rewrite lookup_alter_eq, lookup_insert_eq, Hy.
  - by rewrite lookup_alter_ne, lookup_insert_ne.
Qed.

(** An update of the table is an update of the map. *)
Lemma neigh_table_ok n l l' : nlist_ok l -> neigh_ok n -> neigh_table k n l = Some l' ->
  nlist_ok l' /\ nmap l' = upd n (nmap l).
Proof using Hsize.
  intros Ht Hok. unfold neigh_table, upd.
  destruct (neigh_update_run (n_ip n) (neigh_refresh k n) l (proj1 Ht))
    as [(l1 & m & l2 & -> & Hf & He & ->)|[Hf ->]].
  - destruct (neigh_refresh k n m) as [ms|] eqn:Er; [|done]. cbn [mbind option_bind fst snd negb andb].
    intros [= <-]. pose proof (table_mem _ _ _ Ht) as Hm.
    apply refresh_entry in Er as [(-> & Hd)|(x & -> & Hd & Hx & Hb)]; [| |done|done].
    + rewrite Hd, Z.eqb_refl, <- He. by apply nmap_remove.
    + apply Z.eqb_neq in Hd. rewrite Hd. cbn [app].
      destruct (nmap_replace l1 m x l2 _ Ht Hx Hb) as [H1 H2]. split; [done|]. rewrite H2, He.
      rewrite alter_present by (rewrite <- He; by apply nmap_has). by destruct (n_op n =? NEIGH_SYNC_ADD).
  - cbn [mbind option_bind fst snd negb andb]. pose proof (nmap_fresh _ _ Hf) as Hn.
    destruct (Z.eqb_spec (n_op n) NEIGH_SYNC_ADD) as [Ha|Ha].
    2:{ intros [= <-]. split; [done|]. destruct (n_op n =? NEIGH_SYNC_DEL); [by rewrite delete_id|].
        by rewrite alter_id by (intros ? E; by rewrite Hn in E). }
    rewrite Ha. change (NEIGH_SYNC_ADD =? NEIGH_SYNC_DEL) with false. cbn iota.
    intros (b & E1 & E)%obind_Some. apply obind_Some in E as (b1 & E2 & E).
    apply obind_Some in E as ([e|m] & E3 & E).
    { unfold iccp_csm_init_msg in E3. destruct (Z.leb_spec (Z.of_nat (nk_size k)) 0); [lia|].
      by destruct (rd _ _ _). }
    destruct (new_entry n b b1 m _ _ _ Hok E1 E2 E3) as (Hm & Hb & Ho).
    assert (He : e_ip m = n_ip n) by (by injection Hb).
    assert (El : l' = l ++ [m]).
    { unfold neigh_enqueue in E. apply obind_Some in E as (op & Eo & [= <-]).
      rewrite Ho in Eo. by injection Eo as <-. }
    subst l'. rewrite <- He in *. by apply nmap_snoc.
Qed.

Lemma wr_fits off bs b : length b = nk_size k -> (off + length bs <= nk_size k)%nat ->
  exists b', wr off bs b = Some b' /\ length b' = nk_size k.
Proof using Hsize.
  intros Hb Hl. destruct (wr_total off bs b) as [b' E]; [lia|]. exists b'.
  split; [done|]. by rewrite (wr_length _ _ _ _ E).
Qed.

Lemma neigh_struct_total op fl le ip mac : length ip = nk_ip_len k -> length mac = ETHER_ADDR_LEN ->
  exists b, neigh_struct k op fl le [] ip mac = Some b /\ length b = nk_size k.
Proof using Hsize.
  intros Hi Hm. unfold neigh_struct, wr8, nk_set_mac.
  destruct (wr_fits 0 (le_split 1 op) (zeros (Z.of_nat (nk_size k)))) as (b1 & -> & L1);
    [unfold zeros; rewrite length_replicate; lia|rewrite length_le_split; lia|cbn [mbind option_bind]].
  destruct (wr_fits 1 (le_split 1 fl) b1) as (b2 & -> & L2);
    [done|rewrite length_le_split; lia|cbn [mbind option_bind]].
  destruct (wr_fits 2 (le_split 1 le) b2) as (b3 & -> & L3);
    [done|rewrite length_le_split; lia|cbn [mbind option_bind]].
  destruct (wr_fits 3 [] b3) as (b4 & -> & L4); [done|cbn; lia|cbn [mbind option_bind]].
  destruct (wr_fits 24 ip b4) as (b5 & -> & L5); [done|lia|cbn [mbind option_bind]].
  apply wr_fits; [done|lia].
Qed.

(** A string that ends makes every step defined. *)
Lemma neigh_table_total n l : nlist_ok l -> neigh_ok n -> has_nul (n_ifname n) = true ->
  is_Some (neigh_table k n l).
Proof using Hsize.
  intros Ht (Hi & Hm & Hn) Hz. pose proof (cstr_nul_length _ Hz) as Hc.
  assert (Hs : forall b, length b = nk_size k -> is_Some (sprintf_s 3 (n_ifname n) b)).
  { intros b Hb. unfold sprintf_s. rewrite Hz. apply wr_total. rewrite length_app. cbn.
    unfold MAX_L_PORT_NAME, ETHER_ADDR_LEN in *. lia. }
  assert (Hw : forall b, length b = nk_size k -> is_Some (nk_set_mac k 0 (n_mac n) b)).
  { intros b Hb. apply wr_total. lia. }
  unfold neigh_table.
  destruct (neigh_update_run (n_ip n) (neigh_refresh k n) l (proj1 Ht))
    as [(l1 & m & l2 & -> & _ & _ & ->)|[_ ->]].
  - pose proof (table_mem _ _ _ Ht) as Hsm. unfold neigh_refresh.
    destruct (Hs (msg_buf m) Hsm) as [b1 E1]. rewrite E1. cbn [mbind option_bind].
    destruct (name_written _ _ _ E1 Hn Hsm) as (L1 & _ & _).
    destruct (Hw b1 L1) as [b2 ->]. by eexists.
  - cbn [mbind option_bind fst snd negb andb]. destruct (_ =? _); [|by eexists].
    destruct (neigh_struct_total (n_op n) 0 NEIGH_REMOTE (n_ip n) (n_mac n) Hi Hm) as (b & -> & Lb).
    cbn [mbind option_bind].
    destruct (Hs b Lb) as [b1 E1]. rewrite E1. cbn [mbind option_bind].
    destruct (name_written _ _ _ E1 Hn Lb) as (L1 & _ & _).
    unfold iccp_csm_init_msg. destruct (Z.leb_spec (Z.of_nat (nk_size k)) 0); [by eexists|].
    rewrite Nat2Z.id, rd_full by done. cbn [mbind option_bind]. unfold neigh_enqueue, nk_get_op, rd8.
    cbn [msg_buf]. destruct (rd_total 0 1 b1) as [x ->]; [lia|]. by eexists.
Qed.
End Kind.

(** ** What leaves the neighbours alone *)

Definition neighbours (c : CSM) : (list Msg * list Msg) * (list Msg * list Msg) :=
  ((ml_arp_list (MLACP c), ml_arp_msg_list (MLACP c)), (ml_ndisc_list (MLACP c), ml_ndisc_msg_list (MLACP c))).

Notation still := (keepsv neighbours).

(** Field updates that the view does not show. *)
Lemma still_counter d ty st c : neighbours (bump_counter d ty st c) = neighbours c.
Proof. unfold bump_counter. by case_match. Qed.
Lemma still_csm f : (forall c, neighbours (f c) = neighbours c) -> still (on_csm f).
Proof. apply keeps_on_csm. Qed.

Ltac stay := keep; try (apply still_csm; intros ?; first [done|apply still_counter]).

Lemma still_send b n : still (iccp_csm_send b n).
Proof. unfold iccp_csm_send, sock_write. stay. Qed.
#[export] Hint Resolve still_send : keeps.
Lemma still_send_buf n : still (send_buf n).
Proof. unfold send_buf. stay. Qed.
#[export] Hint Resolve still_send_buf : keeps.
Lemma still_send_positive p : still p -> still (send_positive p).
Proof. unfold send_positive. stay. Qed.
Lemma still_mac_info m n : still (mlacp_prepare_for_mac_info_to_peer m n).
Proof. unfold mlacp_prepare_for_mac_info_to_peer. stay. Qed.
Lemma still_arp_info m n : still (mlacp_prepare_for_arp_info m n).
Proof. unfold mlacp_prepare_for_arp_info. stay. Qed.
Lemma still_ndisc_info m n : still (mlacp_prepare_for_ndisc_info m n).
Proof. unfold mlacp_prepare_for_ndisc_info. stay. Qed.
Lemma still_peerlink_learn e : still (set_peerlink_learn_kernel e).
Proof. unfold set_peerlink_learn_kernel. stay. Qed.
#[export] Hint Resolve still_send_positive still_mac_info still_arp_info still_ndisc_info
  still_peerlink_learn : keeps.
Lemma still_local_neigh l a b c d e f : still (syn_local_neigh_mac_info_to_peer l a b c d e f).
Proof.
  unfold syn_local_neigh_mac_info_to_peer, syn_local_mac_info_to_peer, syn_local_arp_info_to_peer,
    syn_local_nd_info_to_peer. keep. apply keeps_focus. stay.
Qed.
#[export] Hint Resolve still_local_neigh : keeps.
Lemma still_ack n b : still (syn_ack_local_neigh_mac_info_to_peer n b).
Proof. unfold syn_ack_local_neigh_mac_info_to_peer. stay. Qed.
#[export] Hint Resolve still_ack : keeps.
Lemma still_to_kernel k n : still (neigh_to_kernel k n).
Proof. unfold neigh_to_kernel. stay. Qed.
Lemma still_reach k v n : still (reach_peer_link k v n).
Proof. unfold reach_peer_link. stay. Qed.
Lemma still_reach_pc k v n b ls : still (reach_port_channel k v n b ls).
Proof. revert b. induction ls; intros b; cbn [reach_port_channel]; stay. Qed.
#[export] Hint Resolve still_to_kernel still_reach still_reach_pc : keeps.

(** ** Updates of the state *)

Definition lists_ok (k : NeighKind) (c : CSM) : Prop :=
  nlist_ok k (nk_table k (MLACP c)) /\ Forall (sized k) (nk_queue k (MLACP c)).

Definition known (k : NeighKind) (c : CSM) : gmap buf (buf * buf) := nmap k (nk_table k (MLACP c)).

Section State.
Context (k : NeighKind).
Hypothesis Hk : k = ARP \/ k = ND.

Lemma kind_size : (24 + nk_ip_len k + ETHER_ADDR_LEN <= nk_size k)%nat.
Proof using Hk. destruct Hk as [->| ->]; vm_compute; lia. Qed.

Lemma still_lists (s s' : CS) : neighbours (cs_csm s') = neighbours (cs_csm s) ->
  nk_table k (MLACP (cs_csm s')) = nk_table k (MLACP (cs_csm s))
  /\ nk_queue k (MLACP (cs_csm s')) = nk_queue k (MLACP (cs_csm s)).
Proof using Hk. unfold neighbours. intros E. injection E as E1 E2 E3 E4. destruct Hk as [->| ->]; split; assumption. Qed.

Lemma set_lists t q (s : CS) :
  let s' := s <| cs_csm ::= set_MLACP (nk_set_table k t) |> <| cs_csm ::= set_MLACP (nk_set_queue k q) |> in
  nk_table k (MLACP (cs_csm s')) = t /\ nk_queue k (MLACP (cs_csm s')) = q.
Proof using Hk. by destruct Hk as [->| ->]. Qed.

Lemma record_shape n a s s' : neigh_record k n s = Some (a, s') ->
  exists t q, neigh_table k n (nk_table k (MLACP (cs_csm s))) = Some t
    /\ neigh_purge k (n_ip n) (nk_queue k (MLACP (cs_csm s))) = Some q
    /\ s' = s <| cs_csm ::= set_MLACP (nk_set_table k t) |> <| cs_csm ::= set_MLACP (nk_set_queue k q) |>.
Proof using.
  unfold neigh_record. rewrite bind_the_csm. intros (t & s1 & E1 & E)%bind_inv.
  unfold lift in E1. destruct (neigh_table _ _ _) as [t'|]; [|done]. injection E1 as -> <-.
  apply bind_inv in E as ([] & s2 & E2 & E). unfold on_mlacp, on_csm, modify in E2. injection E2 as <-.
  apply bind_inv in E as (q & s3 & E3 & E). unfold lift in E3.
  destruct (neigh_purge _ _ _) as [q'|]; [|done]. injection E3 as -> <-. injection E as _ <-.
  by exists t, q.
Qed.

(** What was recorded. *)
Definition recorded (n : Neigh) (c c' : CSM) : Prop :=
  lists_ok k c' /\ known k c' = upd n (known k c)
  /\ nk_queue k (MLACP c') = filter (fun m => e_ip k m <> n_ip n) (nk_queue k (MLACP c)).

Lemma record_map n a s s' : lists_ok k (cs_csm s) -> neigh_ok k n ->
  neigh_record k n s = Some (a, s') -> recorded n (cs_csm s) (cs_csm s').
Proof using Hk.
  intros [Ht Hq] Hn (t & q & E1 & E2 & ->)%record_shape.
  destruct (set_lists t q s) as [F1 F2]. cbn zeta in F1, F2.
  rewrite neigh_purge_run in E2 by (apply kind_size || done). injection E2 as <-.
  destruct (neigh_table_ok k kind_size n _ _ Ht Hn E1) as [H1 H2].
  unfold recorded, lists_ok, known. rewrite F1, F2. split_and!; [done| |done|done].
  rewrite list.Forall_forall in Hq |- *. intros m [_ Hm]%list_elem_of_filter. by apply Hq.
Qed.

(** One entry: left alone (own address, or refused by the kernel), or recorded. *)
Lemma entry_map n r s s' : lists_ok k (cs_csm s) -> neigh_ok k n ->
  neigh_update_entry k n s = Some (r, s') ->
  neighbours (cs_csm s') = neighbours (cs_csm s) \/ recorded n (cs_csm s) (cs_csm s').
Proof using Hk.
  intros Hl Hn. unfold neigh_update_entry. cbn zeta. intros (r0 & s1 & E1 & E)%bind_inv.
  assert (H1 : neighbours (cs_csm s1) = neighbours (cs_csm s)) by (eapply keeps_view, E1; auto with keeps nocore).
  destruct (r_my_ip r0); [injection E as _ <-; by left|].
  rewrite bind_the_csm in E. apply bind_inv in E as (r1 & s2 & E2 & E).
  assert (H2 : neighbours (cs_csm s2) = neighbours (cs_csm s))
    by (rewrite <- H1; eapply keeps_view, E2; stay). clear E1 E2 H1.
  assert (Hrec : forall s3 a s4, neighbours (cs_csm s3) = neighbours (cs_csm s) ->
    (neigh_record k n;; mret 0) s3 = Some (a, s4) -> recorded n (cs_csm s) (cs_csm s4)).
  { intros s3 a s4 H3 (b & s5 & E5 & E6)%bind_inv. injection E6 as _ <-.
    apply still_lists in H3 as [F1 F2]. apply record_map in E5; [|unfold lists_ok; by rewrite F1, F2|done].
    unfold recorded, known in *. by rewrite F1, F2 in E5. }
  destruct (r_my_ip r1); [injection E as _ <-; by left|]. destruct (r_set r1).
  - apply bind_inv in E as (ok & s3 & E3 & E).
    assert (H3 : neighbours (cs_csm s3) = neighbours (cs_csm s))
      by (rewrite <- H2; eapply keeps_view, E3; auto with keeps nocore).
    destruct ok; [right; by eapply Hrec|]. injection E as _ <-. by left.
  - apply bind_inv in E as (ol & s3 & E3 & E). apply bind_inv in E as (mine & s4 & E4 & E).
    assert (H4 : neighbours (cs_csm s4) = neighbours (cs_csm s)).
    { rewrite <- H2. transitivity (neighbours (cs_csm s3)); eapply keeps_view; [|exact E4| |exact E3]; stay. }
    destruct mine; [injection E as _ <-; by left|]. right. by eapply Hrec.
Qed.

(** The entries of a message. *)
Lemma read_neigh_ok e b n : read_neigh k e b = Some n -> neigh_ok k n.
Proof using.
  unfold read_neigh. intros (op & _ & E)%obind_Some. apply obind_Some in E as (fl & _ & E).
  apply obind_Some in E as (nm & [_ H1]%rd_inv & E). apply obind_Some in E as (ip & [_ H2]%rd_inv & E).
  apply obind_Some in E as (mac & [_ H3]%rd_inv & [= <-]). by split_and!.
Qed.

Lemma info_lists msg s s' : lists_ok k (cs_csm s) ->
  neigh_update_info k msg s = Some (tt, s') -> lists_ok k (cs_csm s').
Proof using Hk.
  intros Hl (num & s1 & E1 & E)%bind_inv. unfold lift in E1.
  destruct (mLACPListTLV.get_num_of_entry _); [|done]. injection E1 as _ <-.
  revert s Hl E. induction (seq 0 _) as [|i js IH]; intros s Hl E; cbn [foreach] in E; [by injection E as <-|].
  apply bind_inv in E as ([] & s2 & E2 & E). apply (IH s2); [|done]. clear E IH.
  apply bind_inv in E2 as (n & s3 & E3 & E2). unfold lift in E3.
  destruct (read_neigh _ _ _) as [n'|] eqn:En; [|done]. injection E3 as -> <-.
  apply bind_inv in E2 as (r & s4 & E4 & E2). injection E2 as <-.
  apply entry_map in E4 as [H|(H & _)]; [|done|done|by eapply read_neigh_ok].
  apply still_lists in H as [F1 F2]. unfold lists_ok. by rewrite F1, F2.
Qed.
End State.

(** ** Properties *)

(** C13. The table of known neighbours is a finite map from addresses, and the peer's
    entries are operations on it: an addition sets interface and MAC, a deletion removes
    the address, and what waits for the peer under the address is dropped; every write
    stays in the entry.  An entry of a message is recorded so or changes neither
    list (an address of this switch, a refusal of the kernel), and no message makes
    two entries for an address. *)
Theorem neighbour_tables_are_maps k s :
  k = ARP \/ k = ND -> lists_ok k (cs_csm s) ->
  (forall n, neigh_ok k n -> has_nul (n_ifname n) = true ->
     exists s', neigh_record k n s = Some (tt, s') /\ recorded k n (cs_csm s) (cs_csm s'))
  /\ (forall n r s', neigh_ok k n -> neigh_update_entry k n s = Some (r, s') ->
       neighbours (cs_csm s') = neighbours (cs_csm s) \/ recorded k n (cs_csm s) (cs_csm s'))
  /\ forall msg s', neigh_update_info k msg s = Some (tt, s') -> lists_ok k (cs_csm s').
Proof.
  intros Hk Hl. split; [|split].
  - intros n Hn Hz. destruct (neigh_table_total k (kind_size k Hk) n _ (proj1 Hl) Hn Hz) as [t Et].
    pose proof (neigh_purge_run k (kind_size k Hk) (n_ip n) _ (proj2 Hl)) as Eq.
    assert (E : exists s', neigh_record k n s = Some (tt, s')).
    { unfold neigh_record. rewrite bind_the_csm, (bind_Some _ _ _ _ _ (lift_Some _ _ _ Et)).
      rewrite (bind_Some (on_mlacp _) _ s tt _ eq_refl), (bind_Some _ _ _ _ _ (lift_Some _ _ _ Eq)). by eexists. }
    destruct E as [s' E]. exists s'. split; [done|]. by eapply record_map.
  - intros n r s' Hn. by apply entry_map.
  - intros msg s'. by apply info_lists.
Qed.
