(* ===== verification/LearnSpec.v ===== *)
(** What this switch learns about its neighbours: the reports of the kernel and
    the packets as operations on the tables of [NeighSpec], and what the peer is
    told. *)

From Stdlib Require Import ZArith Lia.
From stdpp Require Import base list gmap numbers option strings.
From coqutil Require Import Byte Word.LittleEndianList.
From S2P Require Import Prelude CBuf State MsgFormat Wire CsmMsg Csm Port SyncPrepare MacTable MacInv.
From S2P Require Import Kernel Senders Neigh LinkState SyncUpdate StageFrame NeighSpec Lifecycle LifecycleSpec.
From S2P Require Import SyncdRecv Config ConfigSpec Learn.

(** ** The members of a struct *)

Section Struct.
Context (k : NeighKind).
Hypothesis Hk : k = ARP \/ k = ND.

(** The struct at the start of [b]. *)
Record shows (b : buf) (op fl : Z) (nm ip mac : buf) : Prop := mk_shows {
  sh_len : (nk_size k <= length b)%nat;
  sh_op : nk_get_op 0 b = Some op;
  sh_flag : nk_get_flag 0 b = Some fl;
  sh_name : exists raw, nk_get_ifname 0 b = Some raw /\ has_nul raw = true /\ cstr raw = nm;
  sh_ip : nk_get_ip k 0 b = Some ip;
  sh_mac : nk_get_mac k 0 b = Some mac;
}.

Ltac getters := unfold nk_get_op, nk_get_flag, nk_get_ifname, nk_get_ip, nk_get_mac, rd8, MAX_L_PORT_NAME, ETHER_ADDR_LEN in *;
  cbn [Nat.add] in *.

Lemma rd8_written off x b b' : 0 <= x < 256 -> wr8 off x b = Some b' -> rd8 off b' = Some x.
Proof using.
  intros Hx E. unfold wr8, rd8 in *. pose proof (rd_wr_eq _ _ _ _ E) as R. rewrite length_le_split in R. rewrite R.
  cbn [fmap option_fmap option_map]. rewrite le_combine_split. f_equal. by apply Z.mod_small.
Qed.

(** A write of one byte into one of the first three members. *)
Lemma shows_wr8 off x b op fl nm ip mac : shows b op fl nm ip mac -> (off < 3)%nat -> 0 <= x < 256 ->
  exists b', wr8 off x b = Some b' /\ length b' = length b
    /\ shows b' (if Nat.eqb off 0 then x else op) (if Nat.eqb off 1 then x else fl) nm ip mac.
Proof using Hk.
  intros [Hl Ho Hf Hn Hi Hm] Hoff Hx. pose proof (kind_size k Hk) as Hs. unfold ETHER_ADDR_LEN in Hs.
  destruct (wr_total off (le_split 1 x) b) as [b' E]; [rewrite length_le_split; lia|].
  pose proof (wr_length _ _ _ _ E) as Hlen. exists b'. split; [done|]. split; [done|].
  assert (Ha : forall o n, (3 <= o)%nat -> rd o n b' = rd o n b)
    by (intros o n Hon; apply (rd_wr_after _ _ _ _ _ _ E); rewrite length_le_split; lia).
  assert (Hx8 := rd8_written off x b b' Hx E).
  split; [lia| | | | |]; getters; rewrite ?Ha by lia; try done.
  - destruct (Nat.eqb_spec off 0) as [->|]; [done|]. by rewrite (rd_wr_before _ _ _ _ _ _ E) by lia.
  - destruct (Nat.eqb_spec off 1) as [->|]; [done|]. destruct off as [|off].
    + rewrite (rd_wr_after _ _ _ _ _ _ E) by (rewrite length_le_split; lia). done.
    + by rewrite (rd_wr_before _ _ _ _ _ _ E) by lia.
Qed.

(** The copy of the struct that is queued. *)
Lemma shows_copy b op fl nm ip mac : shows b op fl nm ip mac ->
  exists m, iccp_csm_init_msg b (Z.of_nat (nk_size k)) = Some (inr m) /\ sized k m
    /\ shows (msg_buf m) op fl nm ip mac.
Proof using Hk.
  intros [Hl Ho Hf Hn Hi Hm]. pose proof (kind_size k Hk) as Hs. unfold ETHER_ADDR_LEN in Hs.
  unfold iccp_csm_init_msg. destruct (Z.leb_spec (Z.of_nat (nk_size k)) 0); [lia|]. rewrite Nat2Z.id.
  rewrite rd_slice by lia. rewrite drop_0. cbn [mbind option_bind]. eexists. split; [done|].
  assert (Ht : length (take (nk_size k) b) = nk_size k) by (rewrite length_take; lia).
  split; [done|]. cbn [msg_buf]. split; [lia| | | | |]; getters; rewrite rd_take by lia; done.
Qed.

(** An entry of the list, read as a map binding. *)
Lemma shows_binding m op fl nm ip mac : sized k m -> shows (msg_buf m) op fl nm ip mac ->
  binding k m = (ip, (nm, mac)) /\ nk_get_op 0 (msg_buf m) = Some op.
Proof using Hk.
  intros Hm [Hl Ho Hf (raw & Er & _ & Hc) Hi Ha]. split; [|done]. pose proof (kind_size k Hk) as Hs.
  destruct m as [b len]. unfold sized in Hm. cbn [msg_buf] in *. getters.
  eapply binding_of; [exact Hs|exact Hm|exact Hi| |exact Ha].
  rewrite rd_slice in Er by lia. injection Er as <-. exact Hc.
Qed.

(** Name and address are written; the MAC is what was there. *)
Lemma shows_name op name ip mac b0 : nk_get_op 0 b0 = Some op -> nk_get_flag 0 b0 = Some 0 ->
  nk_get_mac k 0 b0 = Some mac ->
  (nk_size k <= length b0)%nat -> length name = MAX_L_PORT_NAME -> has_nul name = true -> length ip = nk_ip_len k ->
  exists b1 b, sprintf_s 3 name b0 = Some b1 /\ wr 24 ip b1 = Some b /\ length b = length b0
    /\ shows b op 0 (cstr name) ip mac.
Proof using Hk.
  intros Ho Hf Ha Hb Hn Hz Hi. pose proof (kind_size k Hk) as Hs. pose proof (cstr_nul_length _ Hz) as Hc.
  unfold sprintf_s. rewrite Hz. getters.
  destruct (wr_total 3 (cstr name ++ [Byte.x00]) b0) as [b1 E1]; [rewrite length_app; cbn; lia|].
  pose proof (wr_length _ _ _ _ E1) as L1. assert (L1' : length (cstr name ++ [Byte.x00]) = S (length (cstr name))) by (rewrite length_app; cbn; lia).
  destruct (wr_total 24 ip b1) as [b2 E2]; [lia|]. pose proof (wr_length _ _ _ _ E2) as L2.
  exists b1, b2. split; [done|]. split; [done|]. split; [lia|]. split; getters; [lia| | | | |].
  - by rewrite (rd_wr_before _ _ _ _ _ _ E2), (rd_wr_before _ _ _ _ _ _ E1) by lia.
  - by rewrite (rd_wr_before _ _ _ _ _ _ E2), (rd_wr_before _ _ _ _ _ _ E1) by lia.
  - rewrite (rd_wr_before _ _ _ _ _ _ E2) by lia. rewrite rd_slice by lia.
    eexists. split; [done|]. unfold wr in E1. rewrite (proj2 (Nat.leb_le _ _)) in E1 by lia.
    injection E1 as <-. rewrite drop_app_length' by (rewrite length_take; lia). rewrite take_app_ge by lia.
    rewrite <- app_assoc. split; [|apply cstr_snoc]. unfold has_nul. rewrite existsb_app. cbn. apply orb_true_r.
  - rewrite <- Hi. apply (rd_wr_eq _ _ _ _ E2).
  - by rewrite (rd_wr_after _ _ _ _ _ _ E2), (rd_wr_after _ _ _ _ _ _ E1) by lia.
Qed.

Lemma shows_set_mac b op fl nm ip mac mac' : shows b op fl nm ip mac -> length mac' = ETHER_ADDR_LEN ->
  exists b', nk_set_mac k 0 mac' b = Some b' /\ shows b' op fl nm ip mac'.
Proof using Hk.
  intros [Hl Ho Hf Hn Hi Hm] Hm'. pose proof (kind_size k Hk) as Hs. unfold nk_set_mac. getters.
  destruct (wr_total (24 + nk_ip_len k) mac' b) as [b' E]; [lia|]. exists b'. split; [exact E|].
  pose proof (wr_length _ _ _ _ E) as L. cbn [Nat.add] in *.
  split; getters; [lia| | | | |]; try (by rewrite (rd_wr_before _ _ _ _ _ _ E) by lia).
  pose proof (rd_wr_eq _ _ _ _ E) as R. by rewrite Hm' in R.
Qed.

(** The struct of a report, on a cleared buffer. *)
Lemma fresh_struct name ip : length name = MAX_L_PORT_NAME -> has_nul name = true -> length ip = nk_ip_len k ->
  exists b0 b1 b, wr8 0 NEIGH_SYNC_LIF (zeros MAX_BUFSIZE) = Some b0 /\ sprintf_s 3 name b0 = Some b1
    /\ wr 24 ip b1 = Some b /\ shows b NEIGH_SYNC_LIF 0 (cstr name) ip null_mac.
Proof using Hk.
  intros Hn Hz Hi. assert (Hsz : (nk_size k <= 4096)%nat) by (destruct Hk as [->| ->]; vm_compute; lia).
  assert (exists b0, wr8 0 NEIGH_SYNC_LIF (zeros MAX_BUFSIZE) = Some b0 /\ length b0 = 4096%nat
    /\ nk_get_op 0 b0 = Some NEIGH_SYNC_LIF /\ nk_get_flag 0 b0 = Some 0 /\ nk_get_mac k 0 b0 = Some null_mac)
    as (b0 & E0 & L0 & O0 & F0 & M0).
  { eexists. split; [vm_compute; reflexivity|]. destruct Hk as [->| ->]; by vm_compute. }
  destruct (shows_name NEIGH_SYNC_LIF name ip null_mac b0 O0 F0 M0) as (b1 & b & E1 & E2 & _ & H); [lia|done..|].
  exists b0, b1, b. done.
Qed.
End Struct.

(** ** One address in the table *)

Section Table.
Context (k : NeighKind).
Hypothesis Hk : k = ARP \/ k = ND.

Definition entry_at (ip : buf) (l : list Msg) : option Msg := find_first (fun m => bool_decide (e_ip k m = ip)) l.

Lemma neigh_find_run ip l : Forall (sized k) l -> neigh_find k ip l = Some (entry_at ip l).
Proof using Hk.
  unfold entry_at. induction 1 as [|m l Hm Hl IH]; [done|]. cbn [neigh_find find_first].
  rewrite (has_ip_run k (kind_size k Hk)) by done. cbn [mbind option_bind]. by case_bool_decide.
Qed.

(** The entry is the one that a change of the table reaches. *)
Lemma entry_at_Some ip l msg : Forall (sized k) l -> entry_at ip l = Some msg ->
  exists l1 l2, l = l1 ++ msg :: l2 /\ e_ip k msg = ip
    /\ forall f, neigh_update k ip f l = (ms ← f msg; Some (true, l1 ++ ms ++ l2)).
Proof using Hk.
  unfold entry_at. induction 1 as [|m l Hm Hl IH]; [done|]. cbn [find_first].
  case_bool_decide as Hip.
  - intros [= ->]. exists [], l. split_and!; [done|done|]. intros f. cbn [neigh_update].
    rewrite (has_ip_run k (kind_size k Hk)) by done. cbn [mbind option_bind]. by rewrite bool_decide_eq_true_2.
  - intros (l1 & l2 & -> & He & E)%IH. exists (m :: l1), l2. split_and!; [done|done|]. intros f. cbn [neigh_update].
    rewrite (has_ip_run k (kind_size k Hk)) by done. cbn [mbind option_bind]. rewrite bool_decide_eq_false_2 by done.
    rewrite E. by destruct (f msg).
Qed.
Lemma entry_at_None ip l : entry_at ip l = None -> ip ∉ e_ip k <$> l.
Proof using.
  intros H%find_first_None. intros (m & -> & Hm)%list_elem_of_fmap. rewrite list.Forall_forall in H.
  specialize (H m Hm). by rewrite bool_decide_eq_false in H.
Qed.

(** The entry as the struct would have it. *)
Definition e_op (m : Msg) : Z := default 0 (nk_get_op 0 (msg_buf m)).
Definition current (m : Msg) (nm mac : buf) : bool :=
  bool_decide (e_op m = NEIGH_SYNC_LIF /\ cstr (e_name m) = nm /\ e_mac k m = mac).

Lemma sized_members m : sized k m ->
  exists op, nk_get_op 0 (msg_buf m) = Some op /\ e_op m = op
    /\ nk_get_ifname 0 (msg_buf m) = Some (e_name m) /\ nk_get_mac k 0 (msg_buf m) = Some (e_mac k m).
Proof using Hk.
  intros Hm. unfold sized in Hm. pose proof (kind_size k Hk) as Hs. unfold ETHER_ADDR_LEN in Hs.
  destruct (rd_total 0 1 (msg_buf m)) as [o Eo]; [lia|].
  unfold e_op, nk_get_op, rd8, nk_get_ifname, nk_get_mac, e_name, e_mac. rewrite Eo. eexists. split; [done|].
  split; [done|]. unfold MAX_L_PORT_NAME, ETHER_ADDR_LEN. cbn [Nat.add]. rewrite !rd_slice by lia. done.
Qed.

Lemma neigh_differs_run b fl nm ip mac m : shows k b NEIGH_SYNC_LIF fl nm ip mac -> sized k m ->
  neigh_differs k b (msg_buf m) = Some (negb (current m nm mac)).
Proof using Hk.
  intros [Hl Ho Hf (raw & Er & _ & Hc) Hi Ha] Hm. destruct (sized_members m Hm) as (op & E1 & E2 & E3 & E4).
  unfold neigh_differs. rewrite Ho, E1, Er, E3, Ha, E4. cbn [mbind option_bind]. f_equal.
  unfold current, streq. rewrite E2, <- Hc.
  destruct (Z.eqb_spec op NEIGH_SYNC_LIF) as [->|Hop]; cbn [negb orb].
  2: { by rewrite bool_decide_eq_false_2 by (intros [? _]; done). }
  destruct (decide (cstr (e_name m) = cstr raw)) as [Hnm|Hnm].
  - rewrite bool_decide_eq_true_2 by done. cbn [negb orb]. destruct (decide (e_mac k m = mac)) as [Hmac|Hmac].
    + rewrite (bool_decide_eq_true_2 (_ /\ _)) by done. by rewrite bool_decide_eq_false_2 by (intros []; done).
    + rewrite (bool_decide_eq_false_2 (_ /\ _)) by (intros (_ & _ & ?); done). by rewrite bool_decide_eq_true_2.
  - rewrite (bool_decide_eq_false_2 (cstr _ = cstr _)) by done. cbn [negb orb].
    by rewrite (bool_decide_eq_false_2 (_ /\ _)) by (intros (_ & ? & _); done).
Qed.

(** A changed entry. *)
Lemma neigh_rewrite_run b op fl nm ip mac m : shows k b op fl nm ip mac -> sized k m -> 0 <= op < 256 ->
  exists m', neigh_rewrite k b m = Some m' /\ sized k m' /\ binding k m' = (e_ip k m, (nm, mac)) /\ e_op m' = op.
Proof using Hk.
  intros [Hl Ho Hf (raw & Er & Hz & Hc) Hi Ha] Hm Hop. pose proof (kind_size k Hk) as Hs. unfold ETHER_ADDR_LEN in Hs.
  pose proof (cstr_nul_length _ Hz) as Hnul. destruct (rd_inv _ _ _ _ Er) as [_ Hraw].
  destruct (rd_inv _ _ _ _ Ha) as [_ Hmac]. unfold neigh_rewrite. rewrite Ho, Er, Ha. cbn [mbind option_bind].
  destruct (wr_total 0 (le_split 1 op) (msg_buf m)) as [e1 E1]; [rewrite length_le_split; unfold sized in Hm; lia|].
  unfold wr8. rewrite E1. cbn [mbind option_bind]. pose proof (wr_length _ _ _ _ E1) as L1.
  unfold sprintf_s. rewrite Hz.
  destruct (wr_total 3 (cstr raw ++ [Byte.x00]) e1) as [e2 E2];
    [rewrite length_app; cbn; unfold MAX_L_PORT_NAME, sized in *; lia|].
  rewrite E2. cbn [mbind option_bind]. pose proof (wr_length _ _ _ _ E2) as L2.
  unfold nk_set_mac, ETHER_ADDR_LEN in *. destruct (wr_total (24 + nk_ip_len k) mac e2) as [e3 E3]; [unfold sized in *; lia|].
  cbn [Nat.add] in *. rewrite E3. cbn [mbind option_bind]. pose proof (wr_length _ _ _ _ E3) as L3.
  eexists. split; [done|]. unfold sized in *.
  assert (E2' : sprintf_s 3 raw e1 = Some e2) by (unfold sprintf_s; by rewrite Hz).
  destruct (name_written k (kind_size k Hk) _ _ _ E2' Hraw) as (_ & Hn & Haft); [lia|].
  unfold MAX_L_PORT_NAME in *. destruct m as [b0 len]. cbn [msg_buf] in *. split; [repeat unfold set; cbn; lia|]. split.
  - repeat unfold set. cbn [msg_buf msg_len]. apply (binding_of k (kind_size k Hk)); [lia| | |].
    + rewrite (rd_wr_before _ _ _ _ _ _ E3), Haft by lia.
      rewrite (rd_wr_after _ _ _ _ _ _ E1) by (rewrite length_le_split; lia).
      unfold e_ip. cbn [msg_buf]. apply rd_slice. lia.
    + unfold MAX_L_PORT_NAME. rewrite <- Hc, <- Hn. f_equal. apply (inj Some). rewrite <- !rd_slice by lia.
      apply (rd_wr_before _ _ _ _ _ _ E3). lia.
    + pose proof (rd_wr_eq _ _ _ _ E3) as R. rewrite Hmac in R. exact R.
  - unfold e_op, nk_get_op. repeat unfold set; cbn [msg_buf]. unfold rd8.
    rewrite (rd_wr_before _ _ _ _ _ _ E3), (rd_wr_before _ _ _ _ _ _ E2) by lia.
    fold (rd8 0 e1). by rewrite (rd8_written 0 op b0 e1 Hop E1).
Qed.
End Table.

(** ** What is learnt, and told *)

Section Learn.
Context (k : NeighKind).
Hypothesis Hk : k = ARP \/ k = ND.
Context (c : ptr) (w : World) (name ip mac : buf).

Definition synchronised (x : CSM) : Prop := ml_current_state (MLACP x) = MLACP_STATE_EXCHANGE.

(** The table is changed by [op] at the address, the peer is told when the switches
    are synchronised, and nothing else of the CSM changes. *)
Record learnt (op : Z) (x x' : CSM) : Prop := mk_learnt {
  ln_only : exists t q, x' = set_MLACP (fun y => nk_set_queue k q (nk_set_table k t y)) x;
  ln_ok : lists_ok k x';
  ln_known : known k x' = upd (mkNeigh op 0 name ip mac) (known k x);
  ln_told : exists ms, nk_queue k (MLACP x') = nk_queue k (MLACP x) ++ ms
    /\ (synchronised x -> exists m, ms = [m] /\ shows k (msg_buf m) op 0 (cstr name) ip mac)
    /\ (~ synchronised x -> ms = []);
}.

Lemma table_set t x : nk_table k (MLACP (set_MLACP (nk_set_table k t) x)) = t
  /\ nk_queue k (MLACP (set_MLACP (nk_set_table k t) x)) = nk_queue k (MLACP x).
Proof using Hk. by destruct Hk as [->| ->]. Qed.

Lemma on_table_run f x t : f (nk_table k (MLACP x)) = Some t ->
  on_table k c f (put_csm c x w) = Some (tt, put_csm c (set_MLACP (nk_set_table k t) x) w).
Proof using.
  intros E. unfold on_table. rewrite (bind_Some _ _ _ _ _ (get_csm_eq c x _ (put_csm_at c x w))).
  rewrite (bind_Some _ _ _ _ _ (lift_Some _ _ _ E)).
  rewrite (set_csm_eq c _ x) by apply put_csm_at. by rewrite put_put_csm.
Qed.

Lemma queue_same x : set_MLACP (fun y => nk_set_queue k (nk_queue k (MLACP x)) y) x = x.
Proof using Hk.
  destruct Hk as [->| ->]; destruct x;
    (match goal with a : AppCSM |- _ => destruct a end); (match goal with m : mLACP |- _ => destruct m end); done.
Qed.

Lemma neigh_tell_run op op0 fl b x : 0 <= op < 256 -> shows k b op0 fl (cstr name) ip mac ->
  exists ms, neigh_tell k c op b (put_csm c x w)
      = Some (tt, put_csm c (set_MLACP (fun y => nk_set_queue k (nk_queue k (MLACP x) ++ ms) y) x) w)
    /\ Forall (sized k) ms
    /\ (synchronised x -> exists m, ms = [m] /\ shows k (msg_buf m) op 0 (cstr name) ip mac)
    /\ (~ synchronised x -> ms = []).
Proof using Hk.
  intros Hop Hb. unfold neigh_tell. rewrite (bind_Some _ _ _ _ _ (get_csm_eq c x _ (put_csm_at c x w))).
  destruct (decide (synchronised x)) as [Hs|Hs].
  - rewrite bool_decide_eq_true_2 by exact Hs. cbn [when].
    destruct (shows_wr8 k Hk 0 op b _ _ _ _ _ Hb) as (b1 & E1 & _ & H1); [lia|lia|].
    destruct (shows_wr8 k Hk 1 0 b1 _ _ _ _ _ H1) as (b2 & E2 & _ & H2); [lia|lia|].
    destruct (shows_copy k Hk b2 _ _ _ _ _ H2) as (m & E3 & Hm & H3).
    rewrite (bind_Some _ _ _ _ _ (lift_Some _ _ _ E1)), (bind_Some _ _ _ _ _ (lift_Some _ _ _ E2)).
    rewrite (bind_Some _ _ _ _ _ (lift_Some _ _ _ E3)). exists [m].
    rewrite (set_csm_eq c _ x) by apply put_csm_at. rewrite put_put_csm.
    split; [by destruct Hk as [->| ->]|]. split; [by constructor|]. split; [eauto|done].
  - rewrite bool_decide_eq_false_2 by exact Hs. cbn [when]. exists []. rewrite app_nil_r.
    rewrite queue_same. done.
Qed.

(** A change of the table, then the message. *)
Lemma learnt_by op op0 fl b x t : 0 <= op < 256 -> lists_ok k x ->
  shows k b op0 fl (cstr name) ip mac ->
  nlist_ok k t -> nmap k t = upd (mkNeigh op 0 name ip mac) (known k x) ->
  exists x', neigh_tell k c op b (put_csm c (set_MLACP (nk_set_table k t) x) w) = Some (tt, put_csm c x' w)
    /\ learnt op x x'.
Proof using Hk.
  intros Hop [Hl1 Hl2] Hb Ht Hm. set (x1 := set_MLACP (nk_set_table k t) x). destruct (table_set t x) as [T1 T2].
  destruct (neigh_tell_run op op0 fl b x1 Hop Hb) as (ms & E & Hms & H1 & H2).
  eexists. split; [exact E|]. fold x1 in T1, T2. rewrite T2.
  assert (Ht' : nk_table k (MLACP (set_MLACP (fun y => nk_set_queue k (nk_queue k (MLACP x) ++ ms) y) x1)) = t
    /\ nk_queue k (MLACP (set_MLACP (fun y => nk_set_queue k (nk_queue k (MLACP x) ++ ms) y) x1)) = nk_queue k (MLACP x) ++ ms)
    by (unfold x1; destruct Hk as [->| ->]; done).
  destruct Ht' as [F1 F2]. split.
  - exists t, (nk_queue k (MLACP x) ++ ms). by unfold x1; destruct Hk as [->| ->].
  - unfold lists_ok. rewrite F1, F2. split; [done|]. by apply Forall_app_2.
  - unfold known. by rewrite F1.
  - exists ms. rewrite F2. split; [done|].
    assert (Hs : synchronised x1 <-> synchronised x) by (unfold x1; by destruct Hk as [->| ->]).
    split; intros H; [by apply H1, Hs|apply H2]. by rewrite Hs.
Qed.

(** ** The three changes *)

Lemma forget_run b op0 fl x msg : lists_ok k x -> shows k b op0 fl (cstr name) ip mac ->
  entry_at k ip (nk_table k (MLACP x)) = Some msg ->
  exists x', (on_entry k c ip (fun _ => Some []);; neigh_tell k c NEIGH_SYNC_DEL b) (put_csm c x w)
      = Some (tt, put_csm c x' w) /\ learnt NEIGH_SYNC_DEL x x'.
Proof using Hk.
  intros Hl Hb He. destruct (entry_at_Some k Hk ip _ msg (proj1 (proj1 Hl)) He) as (l1 & l2 & Et & Hip & Hu).
  assert (Ht := proj1 Hl). rewrite Et in Ht. destruct (nmap_remove k l1 msg l2 Ht) as [H1 H2].
  destruct (learnt_by NEIGH_SYNC_DEL op0 fl b x (l1 ++ l2)) as (x' & E & Hx); [unfold NEIGH_SYNC_DEL; lia|done|done|done| |].
  - rewrite H2, Hip. unfold known. by rewrite Et.
  - exists x'. split; [|done]. erewrite bind_Some; [exact E|]. apply on_table_run. rewrite Hu. done.
Qed.

Lemma refresh_run b fl x msg : lists_ok k x -> shows k b NEIGH_SYNC_LIF fl (cstr name) ip mac ->
  entry_at k ip (nk_table k (MLACP x)) = Some msg ->
  exists t, on_entry k c ip (fun y => z ← neigh_rewrite k b y; Some [z]) (put_csm c x w)
      = Some (tt, put_csm c (set_MLACP (nk_set_table k t) x) w)
    /\ nlist_ok k t /\ nmap k t = upd (mkNeigh NEIGH_SYNC_ADD 0 name ip mac) (known k x).
Proof using Hk.
  intros Hl Hb He. destruct (entry_at_Some k Hk ip _ msg (proj1 (proj1 Hl)) He) as (l1 & l2 & Et & Hip & Hu).
  assert (Ht := proj1 Hl). rewrite Et in Ht.
  destruct (neigh_rewrite_run k Hk b _ _ _ _ _ msg Hb (table_mem k _ _ _ Ht)) as (m' & Er & Hm' & Hbm & _);
    [unfold NEIGH_SYNC_LIF; lia|].
  destruct (nmap_replace k l1 msg m' l2 _ Ht Hm' Hbm) as [H1 H2].
  exists (l1 ++ m' :: l2). split; [|split; [done|]].
  - apply on_table_run. rewrite Hu, Er. done.
  - rewrite H2, Hip. unfold known. by rewrite Et.
Qed.

Lemma enter_run b fl x : lists_ok k x -> shows k b NEIGH_SYNC_LIF fl (cstr name) ip mac ->
  entry_at k ip (nk_table k (MLACP x)) = None ->
  exists t b', neigh_new k c b (put_csm c x w) = Some (b', put_csm c (set_MLACP (nk_set_table k t) x) w)
    /\ shows k b' NEIGH_SYNC_LIF fl (cstr name) ip mac
    /\ nlist_ok k t /\ nmap k t = upd (mkNeigh NEIGH_SYNC_ADD 0 name ip mac) (known k x).
Proof using Hk.
  intros Hl Hb He. apply entry_at_None in He. unfold neigh_new.
  destruct (shows_wr8 k Hk 0 NEIGH_SYNC_LIF b _ _ _ _ _ Hb) as (b1 & E1 & _ & H1); [lia|unfold NEIGH_SYNC_LIF; lia|].
  destruct (shows_wr8 k Hk 2 NEIGH_LOCAL b1 _ _ _ _ _ H1) as (b2 & E2 & _ & H2); [lia|unfold NEIGH_LOCAL; lia|].
  cbn [Nat.eqb] in H1, H2. destruct (shows_copy k Hk b2 _ _ _ _ _ H2) as (m & E3 & Hm & H3).
  destruct (shows_binding k Hk m _ _ _ _ _ Hm H3) as [Hbm Hop].
  assert (Hip : e_ip k m = ip) by (by injection Hbm). rewrite <- Hip in He.
  destruct (nmap_snoc k (nk_table k (MLACP x)) m (cstr name, mac) (proj1 Hl) Hm) as [N1 N2]; [by rewrite Hbm, Hip|done|].
  exists (nk_table k (MLACP x) ++ [m]), b2. split_and!; [|done|done|].
  - rewrite (bind_Some _ _ _ _ _ (lift_Some _ _ _ E1)), (bind_Some _ _ _ _ _ (lift_Some _ _ _ E2)).
    rewrite (bind_Some _ _ _ _ _ (lift_Some _ _ _ E3)). erewrite bind_Some; [done|]. apply on_table_run.
    unfold neigh_enqueue. rewrite Hop. done.
  - rewrite N2, Hip. done.
Qed.
End Learn.

Lemma put_same_csm c x w : w_csms w !! c = Some x -> put_csm c x w = w.
Proof. intros E. unfold put_csm. destruct w as [y cm lm g]. repeat unfold set; cbn in *. by rewrite insert_id. Qed.

(** ** Reports of the kernel *)

Section Kernel.
Context (k : NeighKind).
Hypothesis Hk : k = ARP \/ k = ND.
Context (c : ptr) (w : World) (name ip mac : buf).

(** What a report does to a table: nothing, or an operation at the address. *)
Definition kernel_op (del : bool) (t : list Msg) : option Z :=
  match entry_at k ip t with
  | Some m =>
      if del then Some NEIGH_SYNC_DEL
      else if (nk_family k =? AF_INET) && negb (current k m (cstr name) mac) then Some NEIGH_SYNC_ADD else None
  | None => if del then None else Some NEIGH_SYNC_ADD
  end.

Definition changed (o : option Z) (x x' : CSM) : Prop :=
  match o with None => x' = x | Some op => learnt k name ip mac op x x' end.

Lemma differs_self m : sized k m -> neigh_differs k (msg_buf m) (msg_buf m) = Some false.
Proof using Hk.
  intros Hm. destruct (sized_members k Hk m Hm) as (op & E1 & E2 & E3 & E4). unfold neigh_differs.
  rewrite E1, E3, E4. cbn [mbind option_bind]. rewrite Z.eqb_refl, streq_refl, bool_decide_eq_false_2 by (intros []; done). done.
Qed.

Lemma kernel_differs_run b fl m : shows k b NEIGH_SYNC_LIF fl (cstr name) ip mac -> sized k m ->
  kernel_differs k b (msg_buf m) = Some ((nk_family k =? AF_INET) && negb (current k m (cstr name) mac)).
Proof using Hk.
  intros Hb Hm. unfold kernel_differs. destruct (_ =? AF_INET); [by eapply neigh_differs_run|by apply differs_self].
Qed.

Lemma learn_from_kernel_run del b x : lists_ok k x -> shows k b NEIGH_SYNC_LIF 0 (cstr name) ip mac ->
  exists x', learn_from_kernel k c del b (put_csm c x w) = Some (tt, put_csm c x' w)
    /\ changed (kernel_op del (nk_table k (MLACP x))) x x'.
Proof using Hk.
  intros Hl Hb. unfold learn_from_kernel, kernel_op. assert (Hs := proj1 (proj1 Hl)).
  rewrite (bind_Some _ _ _ _ _ (get_csm_eq c x _ (put_csm_at c x w))).
  rewrite (bind_Some _ _ _ _ _ (lift_Some _ _ _ (sh_ip _ _ _ _ _ _ _ Hb))).
  rewrite (bind_Some _ _ _ _ _ (lift_Some _ _ _ (neigh_find_run k Hk ip _ Hs))).
  destruct (entry_at k ip _) as [msg|] eqn:He.
  - destruct del; [by eapply forget_run|].
    destruct (entry_at_Some k Hk ip _ msg Hs He) as (l1 & l2 & Et & _ & _).
    assert (Hm : sized k msg) by (eapply table_mem; rewrite <- Et; apply Hl).
    rewrite (bind_Some _ _ _ _ _ (lift_Some _ _ _ (kernel_differs_run b 0 msg Hb Hm))).
    destruct ((nk_family k =? AF_INET) && _); cbn [when]; [|by exists x].
    destruct (refresh_run k Hk c w name ip mac b 0 x msg Hl Hb He) as (t & E & H1 & H2).
    destruct (learnt_by k Hk c w name ip mac NEIGH_SYNC_ADD NEIGH_SYNC_LIF 0 b x t) as (x' & E' & Hx);
      [unfold NEIGH_SYNC_ADD; lia|done..|].
    exists x'. split; [|done]. by rewrite (bind_Some _ _ _ _ _ E).
  - destruct del; cbn [negb when]; [by exists x|].
    destruct (enter_run k Hk c w name ip mac b 0 x Hl Hb He) as (t & b' & E & Hb' & H1 & H2).
    destruct (learnt_by k Hk c w name ip mac NEIGH_SYNC_ADD NEIGH_SYNC_LIF 0 b' x t) as (x' & E' & Hx);
      [unfold NEIGH_SYNC_ADD; lia|done..|].
    exists x'. split; [|done]. by rewrite (bind_Some _ _ _ _ _ E).
Qed.
End Kernel.

(** The interface of a report, the CSM it belongs to, and that the address is not
    one of this switch, which [own] decides. *)
Record concerns (own : LocalInterface -> option VLAN_ID -> M World bool) (k : NeighKind) (w : World)
    (ifindex : Z) (ip : buf) (i : LocalInterface) (c : ptr) (x : CSM) : Prop := mk_concerns {
  cn_live : lifs_live w;
  cn_lif : exists l, indexed ifindex w = Some l /\ w_lifs w !! l = Some i;
  cn_name : length (lif_name i) = MAX_L_PORT_NAME /\ has_nul (lif_name i) = true;
  cn_owner : exists ov,
    neigh_owner (u16 (default 0 (scan_after VLAN_PREFIX (lif_name i)))) ifindex (sys_csm_list (w_sys w)) w = Some (Some (c, ov), w)
    /\ own i ov w = Some (false, w);
  cn_csm : w_csms w !! c = Some x;
  cn_lists : lists_ok k x;
  cn_ip : length ip = nk_ip_len k;
}.

(** The attribute holds [v]. *)
Definition attr_is (a : Attr) (v : buf) : Prop := rd 0 (Z.to_nat a.2) a.1 = Some v.

(** The MAC that counts: none in a deletion. *)
Definition report_mac (is_del : bool) (lladdr : option Attr) (mac : buf) : Prop :=
  length mac = ETHER_ADDR_LEN
  /\ match (if is_del then None else lladdr) with None => mac = null_mac | Some a => attr_is a mac end.

(** What a report asks for. *)
Definition report_op (k : NeighKind) (i : LocalInterface) (msgtype : Z) (name ip mac : buf) (t : list Msg) : option Z :=
  let del := msgtype =? RTM_DELNEIGH in
  let bcast := bool_decide (mac = bcast_mac) in
  if (negb del && no_ip k i) || (bcast && negb (nk_family k =? AF_INET)) then None
  else kernel_op k name ip mac (del || bcast) t.

Lemma kernel_struct_shows k name ip mac dst lladdr is_del : k = ARP \/ k = ND ->
  length name = MAX_L_PORT_NAME -> has_nul name = true -> length ip = nk_ip_len k ->
  attr_is dst ip -> report_mac is_del lladdr mac ->
  exists b, kernel_struct k name (Some dst) (if is_del then None else lladdr) = Some b
    /\ shows k b NEIGH_SYNC_LIF 0 (cstr name) ip mac.
Proof.
  intros Hk Hn Hz Hi Hd [Hm Hl]. destruct (fresh_struct k Hk name ip Hn Hz Hi) as (b0 & b1 & b & E0 & E1 & E2 & Hb).
  unfold kernel_struct. rewrite E0. cbn [mbind option_bind]. rewrite E1. cbn [mbind option_bind copy_attr].
  destruct dst as [p n]. unfold attr_is in Hd. cbn [fst snd] in Hd. rewrite Hd. cbn [mbind option_bind]. rewrite E2.
  cbn [mbind option_bind]. destruct (if is_del then None else lladdr) as [[q m]|]; cbn [copy_attr].
  - unfold attr_is in Hl. cbn [fst snd] in Hl. rewrite Hl. cbn [mbind option_bind].
    destruct (shows_set_mac k Hk b _ _ _ _ _ mac Hb Hm) as (b' & E' & Hb'). exists b'. done.
  - subst mac. by exists b.
Qed.

Lemma kernel_report_run k w ifindex ip i c x dst lladdr mac msgtype is_del :
  k = ARP \/ k = ND -> concerns (fun _ ov => own_vlan_ip k ov ip) k w ifindex ip i c x -> attr_is dst ip -> report_mac is_del lladdr mac ->
  exists x', do_neigh_learn_from_kernel k ifindex (Some dst) lladdr msgtype is_del w = Some (tt, put_csm c x' w)
    /\ changed k (lif_name i) ip mac (report_op k i msgtype (lif_name i) ip mac (nk_table k (MLACP x))) x x'.
Proof.
  intros Hk [Hlive (l & Hl & Hi) (Hn & Hz) (ov & Eo & Em) Hx Hok Hip] Hd Hm.
  destruct (kernel_struct_shows k (lif_name i) ip mac dst lladdr is_del Hk Hn Hz Hip Hd Hm) as (b & Eb & Hb).
  unfold do_neigh_learn_from_kernel, report_op.
  rewrite (bind_Some _ _ _ _ _ (find_by_ifindex_run ifindex w Hlive)), Hl.
  rewrite (bind_Some _ _ _ i w) by (unfold w_get_lif; by rewrite Hi).
  rewrite (bind_Some _ _ _ _ _ (lift_Some _ _ _ Eb)).
  rewrite (bind_Some _ _ _ _ _ (lift_Some _ _ _ (sh_mac _ _ _ _ _ _ _ Hb))). cbn zeta.
  assert (Hsame : exists x', Some (tt, w) = Some (tt, put_csm c x' w) /\ x' = x)
    by (exists x; by rewrite (put_same_csm c x w Hx)).
  destruct (negb (msgtype =? RTM_DELNEIGH) && no_ip k i); cbn [orb]; [exact Hsame|].
  destruct (bool_decide (mac = bcast_mac) && negb (nk_family k =? AF_INET)); [exact Hsame|].
  destruct (sh_name _ _ _ _ _ _ _ Hb) as (raw & Er & _ & Hc).
  rewrite (bind_Some _ _ _ _ _ (lift_Some _ _ _ Er)). erewrite bind_Some by reflexivity.
  assert (Hscan : scan_after VLAN_PREFIX raw = scan_after VLAN_PREFIX (lif_name i)) by (unfold scan_after; by rewrite Hc).
  rewrite Hscan, (bind_Some _ _ _ _ _ Eo).
  rewrite (bind_Some _ _ _ _ _ (lift_Some _ _ _ (sh_ip _ _ _ _ _ _ _ Hb))), (bind_Some _ _ _ _ _ Em).
  destruct (learn_from_kernel_run k Hk c w (lif_name i) ip mac
    ((msgtype =? RTM_DELNEIGH) || bool_decide (mac = bcast_mac)) b x Hok Hb) as (x' & E & H).
  rewrite (put_same_csm c x w Hx) in E. by exists x'.
Qed.

(** ** Messages of the kernel *)

(** An attribute with its type, padded to four bytes. *)
Definition enc_attr (a : Z * buf) : buf :=
  le_split 2 (4 + Z.of_nat (length a.2)) ++ le_split 2 a.1 ++ a.2
  ++ replicate (Z.to_nat (RTA_ALIGN (Z.of_nat (length a.2)) - Z.of_nat (length a.2))) Byte.x00.

Definition attr_ok (a : Z * buf) : Prop := 0 <= a.1 < 2 ^ 16 /\ Z.of_nat (length a.2) < 2 ^ 16 - 4.

(** The value of the last attribute of a type. *)
Definition last_attr (t : Z) (o : option buf) (l : list (Z * buf)) : option buf :=
  foldl (fun o a => if a.1 =? t then Some a.2 else o) o l.

Definition attr_holds (oa : option Attr) (ov : option buf) : Prop :=
  match oa, ov with
  | None, None => True
  | Some a, Some v => attr_is a v
  | _, _ => False
  end.

Lemma RTA_ALIGN_eq n : RTA_ALIGN n = (n + 3) / 4 * 4.
Proof.
  unfold RTA_ALIGN. rewrite <- (Z.ldiff_land (n + 3) 3). change 3 with (Z.ones 2) at 2.
  rewrite Z.ldiff_ones_r, Z.shiftl_mul_pow2, Z.shiftr_div_pow2 by lia. done.
Qed.
Lemma RTA_ALIGN_bounds n : n <= RTA_ALIGN n < n + 4 /\ RTA_ALIGN (4 + n) = 4 + RTA_ALIGN n.
Proof.
  rewrite !RTA_ALIGN_eq. split; [pose proof (Z.div_mod (n + 3) 4); pose proof (Z.mod_pos_bound (n + 3) 4); lia|].
  replace (4 + n + 3) with (n + 3 + 1 * 4) by lia. rewrite Z.div_add by lia. lia.
Qed.

Lemma enc_attr_length a : Z.of_nat (length (enc_attr a)) = RTA_ALIGN (4 + Z.of_nat (length a.2)).
Proof.
  unfold enc_attr. rewrite !length_app, !length_le_split, length_replicate.
  destruct (RTA_ALIGN_bounds (Z.of_nat (length a.2))). lia.
Qed.

Lemma attr_fields a r : attr_ok a ->
  rd16 0 (enc_attr a ++ r) = Some (4 + Z.of_nat (length a.2)) /\ rd16 2 (enc_attr a ++ r) = Some a.1
  /\ attr_is (drop 4 (enc_attr a ++ r), Z.of_nat (length a.2)) a.2.
Proof.
  intros [Ht Hl]. unfold enc_attr, attr_is, rd16. rewrite <- !app_assoc. cbn [fst snd]. split_and!.
  - rewrite rd_head by len. cbn. rewrite le_combine_split2 by lia. done.
  - erewrite rd_skip; [|by rewrite length_le_split|lia]. rewrite rd_head by len. cbn. rewrite le_combine_split2 by lia. done.
  - rewrite Nat2Z.id, (app_assoc (le_split 2 _)), drop_app_length' by (rewrite length_app, !length_le_split; done).
    by apply rd_head.
Qed.

(** The parser finds the last attribute of each of the two types. *)
Lemma parse_attrs l : Forall attr_ok l -> forall fuel tb d m r,
  attr_holds tb.1 d -> attr_holds tb.2 m -> (length l < fuel)%nat ->
  exists tb', ifm_parse_rtattr fuel tb (concat (enc_attr <$> l) ++ r) (Z.of_nat (length (concat (enc_attr <$> l)))) = Some tb'
    /\ attr_holds tb'.1 (last_attr NDA_DST d l) /\ attr_holds tb'.2 (last_attr NDA_LLADDR m l).
Proof.
  induction 1 as [|a l Ha Hl IH]; intros fuel tb d m r Hd Hm Hf; (destruct fuel as [|fuel]; [lia|]).
  { exists tb. done. }
  cbn [fmap list_fmap concat ifm_parse_rtattr]. rewrite length_app, Nat2Z.inj_add, enc_attr_length, <- !app_assoc.
  set (n := Z.of_nat (length a.2)). destruct (RTA_ALIGN_bounds n) as [Hb1 Hb2].
  set (tot := Z.of_nat (length (concat (enc_attr <$> l)))).
  rewrite (proj2 (Z.ltb_ge _ _)) by lia. destruct (attr_fields a (concat (enc_attr <$> l) ++ r) Ha) as (E1 & E2 & E3).
  rewrite E1, E2. cbn [mbind option_bind]. fold n. fold n in E3.
  rewrite (proj2 (Z.ltb_ge (4 + n) 4)) by lia. rewrite Z.gtb_ltb, (proj2 (Z.ltb_ge _ (4 + n))) by lia. cbn [orb].
  replace (RTA_ALIGN (4 + n) + tot - RTA_ALIGN (4 + n)) with tot by lia.
  assert (Hen := enc_attr_length a). fold n in Hen.
  rewrite (drop_app_length' (enc_attr a) _ (Z.to_nat (RTA_ALIGN (4 + n)))) by lia.
  replace (4 + n - 4) with n by lia. apply IH; [| |simpl in Hf; lia].
  - unfold set_attr. destruct (a.1 =? NDA_DST); [exact E3|]. by destruct (a.1 =? NDA_LLADDR).
  - unfold set_attr. destruct (Z.eqb_spec a.1 NDA_DST) as [H|]; [by rewrite H|]. by destruct (a.1 =? NDA_LLADDR).
Qed.

Lemma attrs_length l : (length l <= length (concat (enc_attr <$> l)))%nat.
Proof.
  induction l as [|a l IH]; [done|]. cbn [fmap list_fmap concat length]. rewrite length_app.
  pose proof (enc_attr_length a). destruct (RTA_ALIGN_bounds (4 + Z.of_nat (length a.2))). lia.
Qed.

(** A neighbour message: the header of netlink, [struct ndmsg], the attributes. *)
Record NeighMsg := mkNeighMsg {
  nm_type : Z;
  nm_family : Z;
  nm_ifindex : Z;
  nm_state : Z;
  nm_ndm_type : Z;
  nm_attrs : list (Z * buf);
  nm_rest : buf;
}.

(** [nm_rest]: the flags, the sequence number and the port of the header. *)
Definition enc_neigh_msg (m : NeighMsg) : buf :=
  let attrs := concat (enc_attr <$> nm_attrs m) in
  le_split 4 (28 + Z.of_nat (length attrs)) ++ le_split 2 (nm_type m) ++ nm_rest m
  ++ le_split 1 (nm_family m) ++ replicate 3 Byte.x00 ++ le_split 4 (nm_ifindex m)
  ++ le_split 2 (nm_state m) ++ le_split 1 0 ++ le_split 1 (nm_ndm_type m) ++ attrs.

Record neigh_msg_ok (m : NeighMsg) : Prop := mk_neigh_msg_ok {
  nmo_type : 0 <= nm_type m < 2 ^ 16;
  nmo_family : 0 <= nm_family m < 2 ^ 8;
  nmo_ifindex : 0 <= nm_ifindex m < 2 ^ 31;
  nmo_state : 0 <= nm_state m < 2 ^ 16;
  nmo_ndm_type : 0 <= nm_ndm_type m < 2 ^ 8;
  nmo_attrs : Forall attr_ok (nm_attrs m);
  nmo_rest : length (nm_rest m) = 10%nat;
  nmo_length : 28 + Z.of_nat (length (concat (enc_attr <$> nm_attrs m))) < 2 ^ 31;
}.

Lemma rd8_head' x r : 0 <= x < 2 ^ 8 -> rd8 0 (le_split 1 x ++ r) = Some x.
Proof. intros H. unfold rd8. rewrite rd_head by len. cbn [fmap option_fmap option_map]. rewrite le_combine_split. f_equal. by apply Z.mod_small. Qed.

Lemma msg_fields m : neigh_msg_ok m -> let b := enc_neigh_msg m in
  rd32 0 b = Some (28 + Z.of_nat (length (concat (enc_attr <$> nm_attrs m)))) /\ rd16 4 b = Some (nm_type m)
  /\ rd8 16 b = Some (nm_family m) /\ rd32 20 b = Some (nm_ifindex m) /\ rd16 24 b = Some (nm_state m)
  /\ rd8 27 b = Some (nm_ndm_type m) /\ drop 28 b = concat (enc_attr <$> nm_attrs m) ++ [].
Proof.
  intros [H1 H2 H3 H4 H5 _ H7 H8] b. unfold b, enc_neigh_msg. set (attrs := concat _) in *. unfold rd32, rd16.
  split_and!.
  - rewrite rd_head by len. cbn [fmap option_fmap option_map]. rewrite le_combine_split. f_equal. apply Z.mod_small. lia.
  - skip_members. rewrite rd_head by len. cbn [fmap option_fmap option_map]. by rewrite le_combine_split2.
  - unfold rd8. skip_members. by apply rd8_head'.
  - skip_members. rewrite rd_head by len. cbn [fmap option_fmap option_map]. rewrite le_combine_split. f_equal. apply Z.mod_small. lia.
  - skip_members. rewrite rd_head by len. cbn [fmap option_fmap option_map]. by rewrite le_combine_split2.
  - unfold rd8. skip_members. by apply rd8_head'.
  - rewrite app_nil_r. rewrite !app_assoc. apply drop_app_length'.
    rewrite !length_app, !length_le_split, length_replicate, H7. done.
Qed.
(** The states that say that the neighbour is gone, and those that say nothing. *)
Definition state_gone (st : Z) : bool := (st =? NUD_FAILED) || (st =? NUD_INCOMPLETE).
Definition state_silent (st : Z) : bool := (st =? NUD_NOARP) || (st =? NUD_PERMANENT) || (st =? NUD_NONE).

Definition message_op (k : NeighKind) (i : LocalInterface) (m : NeighMsg) (ip mac : buf) (t : list Msg) : option Z :=
  if state_silent (nm_state m) then None
  else report_op k i (if state_gone (nm_state m) then RTM_DELNEIGH else nm_type m) (lif_name i) ip mac t.

Definition message_mac (m : NeighMsg) : buf :=
  if state_gone (nm_state m) then null_mac else default null_mac (last_attr NDA_LLADDR None (nm_attrs m)).

(** C29. A neighbour message of the kernel, as it lies in memory, about an address on an
    interface of a CSM: a deletion or a state of failure removes the address from
    the table, a new address is entered, and a known ARP entry follows its interface
    and MAC; exactly then, and while the switches are synchronised, one message
    with the struct goes to the queue for the peer.  Everything else of the process
    is as it was.  (A known ND entry does not follow: [kernel_op].) *)
Theorem kernel_neighbours_learnt k w m ip i c x :
  k = ARP \/ k = ND -> neigh_msg_ok m -> nm_type m = RTM_NEWNEIGH \/ nm_type m = RTM_DELNEIGH ->
  nm_family m = nk_family k -> nm_ndm_type m = RTN_UNICAST ->
  concerns (fun _ ov => own_vlan_ip k ov ip) k w (nm_ifindex m) ip i c x ->
  last_attr NDA_DST None (nm_attrs m) = Some ip -> length (message_mac m) = ETHER_ADDR_LEN ->
  exists x', do_one_neigh_request (enc_neigh_msg m) w = Some (0, put_csm c x' w)
    /\ changed k (lif_name i) ip (message_mac m) (message_op k i m ip (message_mac m) (nk_table k (MLACP x))) x x'.
Proof.
  intros Hk Hok Hty Hf Hu Hc Hdst Hmac. destruct (msg_fields m Hok) as (F1 & F2 & F3 & F4 & F5 & F6 & F7).
  destruct (parse_attrs (nm_attrs m) (nmo_attrs m Hok) (S (length (enc_neigh_msg m))) (None, None) None None [] I I)
    as (tb & Etb & Htb1 & Htb2).
  { rewrite <- (take_drop 28 (enc_neigh_msg m)), F7, !length_app. pose proof (attrs_length (nm_attrs m)). lia. }
  unfold do_one_neigh_request, message_op. rewrite (bind_Some _ _ _ _ _ (lift_Some _ _ _ F2)).
  assert (negb (nm_type m =? RTM_NEWNEIGH) && negb (nm_type m =? RTM_DELNEIGH) = false) as -> by (by destruct Hty as [-> | ->]).
  unfold system_get_first_csm. erewrite bind_Some by reflexivity.
  assert (bool_decide (head (sys_csm_list (w_sys w)) = None) = false) as ->.
  { destruct Hc as [_ _ _ (ov & Eo & _) _ _ _]. by destruct (sys_csm_list (w_sys w)). }
  rewrite (bind_Some _ _ _ _ _ (lift_Some _ _ _ F1)). destruct Hok as [O1 O2 O3 O4 O5 O6 O7 O8].
  assert (s32 (28 + Z.of_nat (length (concat (enc_attr <$> nm_attrs m)))) = 28 + Z.of_nat (length (concat (enc_attr <$> nm_attrs m)))) as ->
    by (unfold s32; rewrite Z.mod_small by lia; lia).
  cbn zeta. rewrite (proj2 (Z.ltb_ge _ 0)) by lia.
  replace (28 + Z.of_nat (length (concat (enc_attr <$> nm_attrs m))) - 28) with (Z.of_nat (length (concat (enc_attr <$> nm_attrs m)))) by lia.
  rewrite F7, (bind_Some _ _ _ _ _ (lift_Some _ _ _ Etb)), (bind_Some _ _ _ _ _ (lift_Some _ _ _ F5)).
  fold (state_gone (nm_state m)). fold (state_silent (nm_state m)).
  destruct (state_silent (nm_state m)). { exists x. destruct Hc as [_ _ _ _ Hx _ _]. by rewrite (put_same_csm c x w Hx). }
  rewrite (bind_Some _ _ _ _ _ (lift_Some _ _ _ F6)), Hu. rewrite Hdst in Htb1.
  destruct (tb.1) as [dst|] eqn:Edst; [|done]. cbn [attr_holds] in Htb1.
  rewrite bool_decide_eq_false_2 by done. cbn [orb negb]. change (RTN_UNICAST =? RTN_UNICAST) with true. cbn [negb].
  rewrite (bind_Some _ _ _ _ _ (lift_Some _ _ _ F3)), (bind_Some _ _ _ _ _ (lift_Some _ _ _ F4)).
  assert (s32 (nm_ifindex m) = nm_ifindex m) as -> by (unfold s32; rewrite Z.mod_small by lia; lia).
  destruct (kernel_report_run k w (nm_ifindex m) ip i c x dst tb.2 (message_mac m)
    (if state_gone (nm_state m) then RTM_DELNEIGH else nm_type m) (state_gone (nm_state m)) Hk Hc Htb1) as (x' & E & H).
  { split; [done|]. unfold message_mac. destruct (state_gone (nm_state m)); [done|].
    destruct tb.2 as [a|], (last_attr NDA_LLADDR None (nm_attrs m)) as [v|]; done. }
  exists x'. split; [|exact H]. unfold do_arp_learn_from_kernel, do_ndisc_learn_from_kernel. rewrite Hf.
  destruct Hk as [-> | ->]; cbn [nk_family ARP ND Z.eqb AF_INET AF_INET6 Pos.eqb when].
  - rewrite (bind_Some _ _ _ _ _ E). done.
  - erewrite bind_Some by reflexivity. rewrite (bind_Some _ _ _ _ _ E). done.
Qed.

(** ** Packets *)

(** What the kernel is asked to enter, and whether it does. *)
Definition kernel_told (k : NeighKind) (name ip mac : buf) (w : World) : bool * World :=
  if nk_family k =? AF_INET then (true, w)
  else match named name w ≫= (fun p => w_lifs w !! p) with
  | None => (false, w)
  | Some j =>
      let r := default 0 (head (g_nl (w_g w))) in
      (negb ((r <? 0) && negb (r =? ICCP_NLE_SEQ_MISMATCH)),
       w <| w_g ::= fun g => g <| g_acts ::= fun l => l ++ [Act_neigh true AF_INET6 (take 16 ip) mac (lif_ifindex j) false] |>
                               <| g_nl ::= tail |> |>)
  end.

Section Packet.
Context (k : NeighKind).
Hypothesis Hk : k = ARP \/ k = ND.
Context (c : ptr) (w : World) (name ip : buf).

(** Only the table is changed. *)
Definition entered (mac : buf) (x x' : CSM) : Prop :=
  exists t, x' = set_MLACP (nk_set_table k t) x
    /\ nlist_ok k t /\ nmap k t = upd (mkNeigh NEIGH_SYNC_ADD 0 name ip mac) (known k x).

(** The MAC of the packet; for ND, when there is none, the known one. *)
Definition packet_mac (mac_addr : buf) (t : list Msg) : option buf :=
  if negb (nk_family k =? AF_INET) && bool_decide (mac_addr = null_mac) then e_mac k <$> entry_at k ip t
  else Some mac_addr.

Lemma same_table_csm x : set_MLACP (nk_set_table k (nk_table k (MLACP x))) x = x.
Proof using Hk.
  destruct Hk as [->| ->]; destruct x;
    (match goal with a : AppCSM |- _ => destruct a end); (match goal with m : mLACP |- _ => destruct m end); done.
Qed.

(** An entry that agrees is what an addition makes. *)
Lemma current_known x msg mac : lists_ok k x -> entry_at k ip (nk_table k (MLACP x)) = Some msg ->
  current k msg (cstr name) mac = true -> known k x = upd (mkNeigh NEIGH_SYNC_ADD 0 name ip mac) (known k x).
Proof using Hk.
  intros Hl He Hc. apply bool_decide_eq_true in Hc as (_ & Hn & Hm).
  destruct (entry_at_Some k Hk ip _ msg (proj1 (proj1 Hl)) He) as (l1 & l2 & Et & Hip & _).
  assert (Ht := proj1 Hl). rewrite Et in Ht.
  destruct (nmap_replace k l1 msg msg l2 _ Ht (table_mem k _ _ _ Ht) eq_refl) as [_ H].
  unfold known, upd. cbn [n_op n_ip n_ifname n_mac]. change (NEIGH_SYNC_ADD =? NEIGH_SYNC_DEL) with false.
  change (NEIGH_SYNC_ADD =? NEIGH_SYNC_ADD) with true. cbn iota. rewrite Et, <- Hn, <- Hm, <- Hip. exact H.
Qed.

Lemma learn_from_packet_run b x mac_addr : lists_ok k x -> length mac_addr = ETHER_ADDR_LEN ->
  shows k b NEIGH_SYNC_LIF 0 (cstr name) ip mac_addr ->
  match packet_mac mac_addr (nk_table k (MLACP x)) with
  | None => learn_from_packet k c mac_addr b (put_csm c x w) = Some (None, put_csm c x w)
  | Some mac => exists b' x1, learn_from_packet k c mac_addr b (put_csm c x w) = Some (Some b', put_csm c x1 w)
      /\ shows k b' NEIGH_SYNC_LIF 0 (cstr name) ip mac /\ entered mac x x1
  end.
Proof using Hk.
  intros Hl Hmac Hb. unfold learn_from_packet, packet_mac. assert (Hs := proj1 (proj1 Hl)).
  set (no_mac := negb (nk_family k =? AF_INET) && bool_decide (mac_addr = null_mac)).
  rewrite (bind_Some _ _ _ _ _ (get_csm_eq c x _ (put_csm_at c x w))).
  rewrite (bind_Some _ _ _ _ _ (lift_Some _ _ _ (sh_ip _ _ _ _ _ _ _ Hb))).
  rewrite (bind_Some _ _ _ _ _ (lift_Some _ _ _ (neigh_find_run k Hk ip _ Hs))). cbn zeta. fold no_mac.
  destruct (entry_at k ip _) as [msg|] eqn:He; cbn [fmap option_fmap option_map].
  - destruct (entry_at_Some k Hk ip _ msg Hs He) as (l1 & l2 & Et & _ & _).
    assert (Hm : sized k msg) by (eapply table_mem; rewrite <- Et; apply Hl).
    assert (exists b' mac, (if no_mac then mac ← lift (nk_get_mac k 0 (msg_buf msg)); lift (nk_set_mac k 0 mac b) else mret b)
        (put_csm c x w) = Some (b', put_csm c x w) /\ shows k b' NEIGH_SYNC_LIF 0 (cstr name) ip mac
        /\ (if no_mac then Some (e_mac k msg) else Some mac_addr) = Some mac) as (b' & mac & E1 & Hb' & ->).
    { destruct no_mac; [|by exists b, mac_addr]. destruct (sized_members k Hk msg Hm) as (_ & _ & _ & _ & E4).
      destruct (rd_inv _ _ _ _ E4) as [_ L4]. destruct (shows_set_mac k Hk b _ _ _ _ _ _ Hb L4) as (b' & E & Hb').
      exists b', (e_mac k msg). split; [|done]. rewrite (bind_Some _ _ _ _ _ (lift_Some _ _ _ E4)).
      by rewrite (lift_Some _ _ _ E). }
    rewrite (bind_Some _ _ _ _ _ E1).
    rewrite (bind_Some _ _ _ _ _ (lift_Some _ _ _ (neigh_differs_run k Hk b' _ _ _ _ msg Hb' Hm))).
    destruct (current k msg (cstr name) mac) eqn:Hcur; cbn [negb when].
    + exists b', x. erewrite bind_Some by reflexivity. split; [done|]. split; [done|].
      exists (nk_table k (MLACP x)). rewrite same_table_csm. split; [done|]. split; [apply Hl|]. by eapply current_known.
    + destruct (refresh_run k Hk c w name ip mac b' 0 x msg Hl Hb' He) as (t & E & H1 & H2).
      exists b', (set_MLACP (nk_set_table k t) x). rewrite (bind_Some _ _ _ _ _ E). split; [done|]. split; [done|]. by exists t.
  - destruct no_mac; [done|]. destruct (enter_run k Hk c w name ip mac_addr b 0 x Hl Hb He) as (t & b' & E & Hb' & H1 & H2).
    exists b', (set_MLACP (nk_set_table k t) x). rewrite (bind_Some _ _ _ _ _ E). split; [done|]. split; [done|]. by exists t.
Qed.

Lemma packet_to_kernel_run b op fl mac W : lifs_live W -> shows k b op fl (cstr name) ip mac ->
  packet_to_kernel k b W = Some (kernel_told k name ip mac W).
Proof using.
  intros Hlive Hb. unfold packet_to_kernel, kernel_told. destruct (nk_family k =? AF_INET); [done|].
  destruct (sh_name _ _ _ _ _ _ _ Hb) as (raw & Er & _ & Hc).
  rewrite (bind_Some _ _ _ _ _ (lift_Some _ _ _ (sh_ip _ _ _ _ _ _ _ Hb))).
  rewrite (bind_Some _ _ _ _ _ (lift_Some _ _ _ (sh_mac _ _ _ _ _ _ _ Hb))), (bind_Some _ _ _ _ _ (lift_Some _ _ _ Er)).
  set (s := mkCS zero_csm (w_g W) (w_lifs W) (w_sys W) no_csm (w_csms W)).
  assert (Hnm : local_if_find_by_name raw s = Some (named name W, s)).
  { unfold local_if_find_by_name. erewrite bind_Some by reflexivity. change (sys_lif_list (cs_sys s)) with (sys_lif_list (w_sys W)).
    rewrite (lif_by_name_run raw _ s) by exact Hlive.
    unfold named, lif_sat, streq. by rewrite Hc. }
  unfold global. fold s. unfold mbind at 1, M_bind at 1. unfold iccp_netlink_neighbor_request.
  rewrite (bind_Some _ _ _ _ _ Hnm). destruct (named name W) as [p|] eqn:Hp; cbn [mbind option_bind].
  2: { cbn. do 2 f_equal. by destruct W. }
  assert (is_Some (w_lifs W !! p)) as [j Ej].
  { unfold named in Hp. apply find_first_Some in Hp as [Hp _]. by apply Hlive. }
  rewrite Ej. rewrite (bind_Some _ _ _ j s) by (unfold get_lif; cbn; by rewrite Ej).
  done.
Qed.

Lemma packet_to_kernel_put b op fl mac x : lifs_live w -> shows k b op fl (cstr name) ip mac ->
  packet_to_kernel k b (put_csm c x w)
  = Some ((kernel_told k name ip mac w).1, put_csm c x (kernel_told k name ip mac w).2).
Proof using.
  intros Hlive Hb. rewrite (packet_to_kernel_run b op fl mac (put_csm c x w) Hlive Hb). f_equal.
  unfold kernel_told. destruct (nk_family k =? AF_INET); [done|]. change (named name (put_csm c x w)) with (named name w).
  change (w_lifs (put_csm c x w)) with (w_lifs w). by destruct (named name w ≫= _).
Qed.

(** The table is changed, the kernel is asked, the peer is told. *)
Lemma packet_learnt b x mac_addr mac : lifs_live w -> lists_ok k x -> length mac_addr = ETHER_ADDR_LEN ->
  shows k b NEIGH_SYNC_LIF 0 (cstr name) ip mac_addr -> packet_mac mac_addr (nk_table k (MLACP x)) = Some mac ->
  let told := kernel_told k name ip mac w in
  exists x', (ob ← learn_from_packet k c mac_addr b;
              match ob with
              | None => mret tt
              | Some b => go ← packet_to_kernel k b; when (go : bool) (neigh_tell k c NEIGH_SYNC_ADD b)
              end) (put_csm c x w) = Some (tt, put_csm c x' told.2)
    /\ if told.1 then learnt k name ip mac NEIGH_SYNC_ADD x x' else entered mac x x'.
Proof using Hk.
  intros Hlive Hl Hmac Hb Hp told. assert (H := learn_from_packet_run b x mac_addr Hl Hmac Hb). rewrite Hp in H.
  destruct H as (b' & x1 & E & Hb' & (t & -> & H1 & H2)). rewrite (bind_Some _ _ _ _ _ E). clear E.
  assert (E : packet_to_kernel k b' (put_csm c (set_MLACP (nk_set_table k t) x) w)
    = Some (told.1, put_csm c (set_MLACP (nk_set_table k t) x) told.2)).
  { rewrite (packet_to_kernel_put b' _ _ _ _ Hlive Hb'). done. }
  rewrite (bind_Some _ _ _ _ _ E). destruct told.1; cbn [when].
  - apply (learnt_by k Hk c told.2 name ip mac NEIGH_SYNC_ADD NEIGH_SYNC_LIF 0); [unfold NEIGH_SYNC_ADD; lia|done..].
  - eexists. split; [done|]. by exists t.
Qed.
End Packet.

(** C30. A packet about an address that is not this switch's own, on an interface of a
    CSM that has an address itself: the table has the packet's interface and MAC
    (for ND without a MAC, the known one; an unknown address is ignored then), the
    kernel is asked to enter an ND entry, and unless it refuses one message goes to
    the queue for the peer while the switches are synchronised. *)
Theorem packet_neighbours_learnt dump k w ifindex ip i c x mac_addr :
  k = ARP \/ k = ND -> concerns (fun i ov => packet_own_ip dump k i ov ip) k w (s32 ifindex) ip i c x ->
  length mac_addr = ETHER_ADDR_LEN -> mac_addr <> bcast_mac -> no_ip k i = false ->
  match packet_mac k ip mac_addr (nk_table k (MLACP x)) with
  | None => do_neigh_update_from_reply_packet dump k ifindex ip mac_addr w = Some (tt, w)
  | Some mac =>
      let told := kernel_told k (lif_name i) ip mac w in
      exists x', do_neigh_update_from_reply_packet dump k ifindex ip mac_addr w = Some (tt, put_csm c x' told.2)
        /\ if told.1 then learnt k (lif_name i) ip mac NEIGH_SYNC_ADD x x' else entered k (lif_name i) ip mac x x'
  end.
Proof.
  intros Hk [Hlive (l & Hl & Hi) (Hn & Hz) (ov & Eo & Em) Hx Hok Hip] Hm Hb Hno.
  destruct (fresh_struct k Hk (lif_name i) ip Hn Hz Hip) as (b0 & b1 & b2 & E0 & E1 & E2 & H2).
  destruct (shows_set_mac k Hk b2 _ _ _ _ _ mac_addr H2 Hm) as (b & E3 & Hs).
  assert (E : do_neigh_update_from_reply_packet dump k ifindex ip mac_addr w
    = (ob ← learn_from_packet k c mac_addr b;
       match ob with
       | None => mret tt
       | Some b => go ← packet_to_kernel k b; when (go : bool) (neigh_tell k c NEIGH_SYNC_ADD b)
       end) w).
  { unfold do_neigh_update_from_reply_packet.
    rewrite (bind_Some _ _ _ _ _ (find_by_ifindex_run (s32 ifindex) w Hlive)), Hl.
    rewrite (bind_Some _ _ _ i w) by (unfold w_get_lif; by rewrite Hi).
    rewrite E0. cbn [mbind option_bind]. rewrite E1. cbn [mbind option_bind]. rewrite E2. cbn [mbind option_bind].
    rewrite E3. erewrite bind_Some by reflexivity. rewrite Hno, bool_decide_eq_false_2 by done. cbn [orb].
    erewrite bind_Some by reflexivity. by rewrite (bind_Some _ _ _ _ _ Eo), (bind_Some _ _ _ _ _ Em). }
  destruct (packet_mac k ip mac_addr _) as [mac|] eqn:Hp; cbn zeta.
  - destruct (packet_learnt k Hk c w (lif_name i) ip b x mac_addr mac Hlive Hok Hm Hs Hp) as (x' & E' & H').
    rewrite (put_same_csm c x w Hx) in E'. exists x'. by rewrite E.
  - assert (H := learn_from_packet_run k Hk c w (lif_name i) ip b x mac_addr Hok Hm Hs).
    rewrite Hp, (put_same_csm c x w Hx) in H. by rewrite E, (bind_Some _ _ _ _ _ H).
Qed.

(** ** The options of an ND packet *)

(** An option: type, length in units of eight bytes, and the rest of it. *)
Record nd_option_ok (o : buf) (t l : Z) : Prop := mk_nd_option_ok {
  noo_type : rd8 0 o = Some t;
  noo_len : rd8 1 o = Some l;
  noo_pos : 0 < l;
}.

(** One pass over an option that is not the target's address; [n] may be less than
    the length of the option. *)
Lemma nd_option_skip fuel o t l n mac : nd_option_ok o t l -> t <> ND_OPT_TARGET_LL_ADDR -> 2 <= u64 n ->
  nd_options (S fuel) o n mac = nd_options fuel (drop (Z.to_nat (8 * l)) o) (n - 8 * l) mac.
Proof.
  intros [Ht Hl Hp] Hne Hn. cbn [nd_options]. assert (n <> 0) by (intros ->; by vm_compute in Hn).
  rewrite (proj2 (Z.eqb_neq n 0)) by done. rewrite (proj2 (Z.ltb_ge _ _)) by done. rewrite Ht, Hl. cbn [mbind option_bind].
  rewrite Z.shiftl_mul_pow2 by lia. change (2 ^ 3) with 8. rewrite (Z.mul_comm l 8), (proj2 (Z.eqb_neq (8 * l) 0)) by lia.
  by rewrite (proj2 (Z.eqb_neq t _)) by done.
Qed.

Lemma nd_option_target fuel o l n mac : nd_option_ok o ND_OPT_TARGET_LL_ADDR l -> 2 <= u64 n -> length mac = 6%nat ->
  rd 2 6 o = Some mac -> forall m0, nd_options (S fuel) o n m0 = Some (inr mac).
Proof.
  intros [Ht Hl Hp] Hn Hm E m0. cbn [nd_options]. assert (n <> 0) by (intros ->; by vm_compute in Hn).
  rewrite (proj2 (Z.eqb_neq n 0)) by done. rewrite (proj2 (Z.ltb_ge _ _)) by done. rewrite Ht, Hl. cbn [mbind option_bind].
  rewrite Z.shiftl_mul_pow2 by lia. change (2 ^ 3) with 8. rewrite (proj2 (Z.eqb_neq (l * 8) 0)) by lia.
  change (ND_OPT_TARGET_LL_ADDR =? ND_OPT_TARGET_LL_ADDR) with true. cbn iota. unfold ETHER_ADDR_LEN. by rewrite E.
Qed.

(** Complete options that are not the target's address. *)
Definition other_option (o : buf) : Prop :=
  exists t l, nd_option_ok o t l /\ t <> ND_OPT_TARGET_LL_ADDR /\ Z.of_nat (length o) = 8 * l.

Lemma rd8_app off o r x : rd8 off o = Some x -> rd8 off (o ++ r) = Some x.
Proof.
  unfold rd8. intros E. destruct (rd off 1 o) as [v|] eqn:Ev; [|done]. destruct (rd_inv _ _ _ _ Ev) as [H _].
  by rewrite rd_app_l, Ev by lia.
Qed.

Lemma nd_options_skip os r n mac : Forall other_option os -> 0 <= n < 2 ^ 62 -> Z.of_nat (length (concat os)) < 2 ^ 62 ->
  forall fuel, (length os <= fuel)%nat ->
  nd_options fuel (concat os ++ r) (Z.of_nat (length (concat os)) + n) mac
  = nd_options (fuel - length os) r n mac.
Proof.
  intros Hos Hn. induction Hos as [|o os (t & l & Ho & Ht & Hl) Hos IH]; intros Hc fuel Hf.
  { by rewrite Nat.sub_0_r. }
  destruct fuel as [|fuel]; [simpl in Hf; lia|]. cbn [concat] in *. rewrite length_app, <- app_assoc in *.
  rewrite (nd_option_skip fuel _ t l).
  - rewrite drop_app_length' by lia. replace (Z.of_nat (length o + length (concat os)) + n - 8 * l)
      with (Z.of_nat (length (concat os)) + n) by lia.
    rewrite IH by (simpl in Hf; lia). done.
  - destruct Ho as [H1 H2 H3]. by split; [apply rd8_app|apply rd8_app|].
  - done.
  - destruct Ho as [_ _ H3]. unfold u64. rewrite Z.mod_small by lia. lia.
Qed.

Lemma options_long os : Forall other_option os -> (length os <= length (concat os))%nat.
Proof.
  induction 1 as [|x os (t & l & [_ _ Hl] & _ & Hx) Hos IH]; [done|]. cbn [concat length]. rewrite length_app. lia.
Qed.

(** C31. What an ND advertisement teaches.  Behind complete options, the option with the
    target's address gives the MAC.  But when an option is longer than what was
    received, the loop goes on behind the packet: the bytes that happen to lie
    there in the buffer are taken for the target's MAC. *)
Theorem nd_advertisement_mac dump hdr os o rest ifindex w l n mac target :
  length hdr = 24%nat -> rd8 0 hdr = Some NDISC_NEIGHBOUR_ADVERTISEMENT -> rd 8 16 hdr = Some target ->
  sys_csm_list (w_sys w) <> [] -> Forall other_option os -> Z.of_nat (length (concat os)) < 2 ^ 62 -> length mac = 6%nat ->
  let learn := (do_ndisc_update_from_reply_packet dump ifindex target mac;; mret 0) w in
  let packet := hdr ++ concat os ++ o ++ rest in
  let received := 24 + Z.of_nat (length (concat os)) + n in
  (nd_option_ok o ND_OPT_TARGET_LL_ADDR l -> rd 2 6 o = Some mac -> 2 <= n < 2 ^ 62 ->
     iccp_receive_ndisc_packet_handler dump packet received ifindex w = learn)
  /\ (forall t, nd_option_ok o t l -> t <> ND_OPT_TARGET_LL_ADDR -> 2 <= n < 8 * l -> 8 * l < 2 ^ 62 ->
      length o = Z.to_nat (8 * l) -> nd_option_ok rest ND_OPT_TARGET_LL_ADDR 1 -> rd 2 6 rest = Some mac ->
      iccp_receive_ndisc_packet_handler dump packet received ifindex w = learn).
Proof.
  intros Hh Hty Htg Hcs Hos Hlen Hmac learn packet received.
  assert (Hrun : forall m, 2 <= n < 2 ^ 62 -> nd_options (length packet - length os) (o ++ rest) n null_mac = Some (inr m) ->
    iccp_receive_ndisc_packet_handler dump packet received ifindex w
    = (do_ndisc_update_from_reply_packet dump ifindex target m;; mret 0) w).
  { intros m Hn E. unfold iccp_receive_ndisc_packet_handler. rewrite (proj2 (Z.ltb_ge received 0)) by lia.
    unfold system_get_first_csm. erewrite bind_Some by reflexivity.
    assert (Ety : rd8 0 packet = Some NDISC_NEIGHBOUR_ADVERTISEMENT) by (unfold packet; by apply rd8_app).
    rewrite (bind_Some _ _ _ _ _ (lift_Some _ _ _ Ety)).
    rewrite bool_decide_eq_false_2 by (by destruct (sys_csm_list (w_sys w))). cbn [orb].
    change (NDISC_NEIGHBOUR_ADVERTISEMENT =? NDISC_NEIGHBOUR_ADVERTISEMENT) with true. cbn [negb].
    assert (Et : rd 8 16 packet = Some target) by (unfold packet; by rewrite rd_app_l by lia).
    rewrite (bind_Some _ _ _ _ _ (lift_Some _ _ _ Et)). rewrite Z.gtb_ltb, (proj2 (Z.ltb_lt 0 _)) by lia.
    replace (received - 24) with (Z.of_nat (length (concat os)) + n) by lia.
    assert (Ed : drop 24 packet = concat os ++ o ++ rest) by (unfold packet; by apply drop_app_length').
    rewrite Ed. clear Ed.
    assert (Hos' : (length os <= length packet)%nat).
    { unfold packet. rewrite !length_app. assert (H := options_long os Hos). lia. }
    rewrite nd_options_skip by (done || lia). rewrite E. by erewrite bind_Some by reflexivity. }
  assert (Hfuel : exists f, (length packet - length os = S (S f))%nat).
  { exists (length packet - length os - 2)%nat. unfold packet. rewrite length_app, length_app, Hh.
    assert (H := options_long os Hos). lia. }
  destruct Hfuel as [f Hf]. split.
  - intros [Ht Hl Hp] Hm Hn. apply Hrun; [done|]. rewrite Hf.
    apply (nd_option_target _ _ l); [|unfold u64; rewrite Z.mod_small by lia; lia|done|].
    + by split; [apply rd8_app|apply rd8_app|].
    + destruct (rd_inv _ _ _ _ Hm) as [H _]. by rewrite rd_app_l by lia.
  - intros t [Ht Hl Hp] Hne Hn Hbig Ho Hr Hm. apply Hrun; [lia|]. rewrite Hf, (nd_option_skip _ _ t l); [|by split; [apply rd8_app|apply rd8_app|]|done|].
    + rewrite (drop_app_length' o) by lia. apply (nd_option_target _ _ 1); [done| |done|done].
      unfold u64. replace (n - 8 * l) with ((2 ^ 64 + n - 8 * l) + (-1) * 2 ^ 64) by lia.
      rewrite Z.mod_add, Z.mod_small by lia. lia.
    + unfold u64. rewrite Z.mod_small by lia. lia.
Qed.
