(* ===== verification/StageSpec.v ===== *)
(** The synchronisation of two switches as an automaton, and the transit of
    [mlacp_fsm.c] as an implementation of it. *)

From Stdlib Require Import ZArith Lia.
From stdpp Require Import base list gmap numbers option strings.
From coqutil Require Import Byte Word.LittleEndianList.
From S2P Require Import Prelude CBuf State MsgFormat Wire CsmMsg Csm Port SyncPrepare Receive Syncd.
From S2P Require Import AppCsm MacTable Senders LinkState SyncUpdate MlacpFsm StageFrame.

(** ** The automaton *)

(** What a message means to the stages. *)
Inductive Event := Ev_none | Ev_request | Ev_done | Ev_other.

Definition tlv_event (msg : Msg) : option Event :=
  ty ← ICCParameter.get_type TLV (msg_buf msg);
  Some (if ty =? TLV_T_MLACP_SYNC_DATA then
          if bool_decide (ntohs <$> mLACPSyncDataTLV.get_flags (msg_buf msg) = Some 1)
          then Ev_done else Ev_other
        else if ty =? TLV_T_MLACP_SYNC_REQUEST then Ev_request else Ev_other).

(** Application data only. *)
Definition app_event (msg : Msg) : option Event :=
  mt ← LDPHdr.get_msg_type (msg_buf msg);
  if mt =? MSG_T_RG_APP_DATA then tlv_event msg else Some Ev_other.

Definition event (of_msg : Msg -> option Event) (om : option Msg) : option Event :=
  match om with None => Some Ev_none | Some msg => of_msg msg end.

Definition answering (g : Stage) : bool :=
  negb (xorb (bool_decide (sg_state g = MLACP_STATE_STAGE1)) (bool_decide (sg_role g = STP_ROLE_ACTIVE))).

(** All data sent, or all data received. *)
Definition advance (g : Stage) : option Stage :=
  st ← next_stage (sg_state g); Some (g <| sg_state := st |> <| sg_wait := 0 |>).

Definition answer_step (om : option Msg) (g : Stage) : option Stage :=
  if sg_wait g =? 0 then
    ev ← event app_event om;
    match ev with Ev_request => advance g | _ => Some g end
  else Some g.

(** The request goes out first, whatever message is at hand. *)
Definition request_step (om : option Msg) (g : Stage) : option Stage :=
  if sg_wait g =? 0 then Some (g <| sg_wait := 1 |>)
  else
    ev ← event tlv_event om;
    match ev with
    | Ev_done => advance g
    | Ev_request => g ← advance g; advance g
    | _ => Some g
    end.

Definition stage_step (om : option Msg) (g : Stage) : option Stage :=
  if answering g then answer_step om g else request_step om g.

Definition exchange_step (om : option Msg) (g : Stage) : option Stage :=
  ev ← event app_event om;
  match ev with
  | Ev_done => Some (g <| sg_wait := 0 |>)
  | Ev_request => advance g
  | _ => Some g
  end.

Definition state_step (om : option Msg) (g : Stage) : option Stage :=
  match sg_state g with
  | MLACP_STATE_INIT | MLACP_STATE_ERROR => Some g
  | MLACP_STATE_STAGE1 | MLACP_STATE_STAGE2 => stage_step om g
  | MLACP_STATE_EXCHANGE => exchange_step om g
  end.

(** One turn of the loop: start, or take a message. *)
Definition turn (g : Stage) : option (bool * Stage) :=
  if bool_decide (sg_state g = MLACP_STATE_INIT) then
    g ← stage_step None (g <| sg_state := MLACP_STATE_STAGE1 |> <| sg_wait := 0 |>); Some (true, g)
  else
    match sg_queue g with
    | [] => g ← state_step None g; Some (false, g)
    | msg :: q =>
        let g := g <| sg_queue := q |> in
        nak ← is_nak msg;
        if nak : bool then Some (true, g) else g ← state_step (Some msg) g; Some (true, g)
    end.

Fixpoint turns (fuel : nat) (g : Stage) : option Stage :=
  match fuel with
  | O => None
  | S n => r ← turn g; if r.1 : bool then turns n r.2 else Some r.2
  end.

(** ** The implementation *)

(** [m] moves the stage as the partial function [f] says. *)
Definition moves {A} (m : M CS A) (f : Stage -> option Stage) : Prop := forall s a s',
  m s = Some (a, s') -> f (stage (cs_csm s)) = Some (stage (cs_csm s')).

Lemma moves_keeps {A} (m : M CS A) : keeps m -> moves m Some.
Proof. intros H s a s' E. f_equal. symmetry. by eapply keeps_stage. Qed.

Lemma moves_bind {A B} (m : M CS A) (k : A -> M CS B) f g :
  moves m f -> (forall a, moves (k a) g) -> moves (m ≫= k) (fun x => y ← f x; g y).
Proof.
  intros Hm Hk s b s'' (a & s' & E1 & E2)%bind_inv. rewrite (Hm _ _ _ E1). cbn. by eapply Hk.
Qed.

(** Bodies that first do something else. *)
Lemma moves_after {A B} (m : M CS A) (k : A -> M CS B) f :
  keeps m -> (forall a, moves (k a) f) -> moves (m ≫= k) f.
Proof.
  intros Hm Hk s b s'' (a & s' & E1 & E2)%bind_inv.
  rewrite <- (keeps_stage _ _ _ _ Hm E1). by eapply Hk.
Qed.

Lemma moves_before {A B} (m : M CS A) (k : A -> M CS B) f :
  moves m f -> (forall a, keeps (k a)) -> moves (m ≫= k) f.
Proof.
  intros Hm Hk s b s'' (a & s' & E1 & E2)%bind_inv.
  rewrite (Hm _ _ _ E1). f_equal. symmetry. by eapply keeps_stage.
Qed.

(** Reading the CSM, whose stage the rest depends on. *)
Lemma moves_csm {B} (k : CSM -> M CS B) f :
  (forall c s b s', stage (cs_csm s) = stage c -> k c s = Some (b, s') -> f (stage c) = Some (stage (cs_csm s'))) ->
  moves (the_csm ≫= k) f.
Proof. intros H s b s' E. by apply (H (cs_csm s) s b s'). Qed.

Lemma moves_mlacp f g :
  (forall c, g (stage c) = Some (stage (set_MLACP f c))) -> moves (on_mlacp f) g.
Proof. intros H s a s' [= <- <-]. apply H. Qed.

Lemma moves_stage_incr : moves stage_incr (fun g => st ← next_stage (sg_state g); Some (g <| sg_state := st |>)).
Proof.
  intros s a s'. unfold stage_incr. rewrite bind_the_csm. intros (st & s1 & E1 & E2)%bind_inv.
  unfold lift in E1. destruct (next_stage _) as [st'|] eqn:E; [|done]. injection E1 as <- <-.
  by injection E2 as <- <-.
Qed.

Lemma moves_done : moves mlacp_sync_send_syncDoneData (fun g => Some (g <| sg_wait := 0 |>)).
Proof.
  unfold mlacp_sync_send_syncDoneData. eapply moves_before; [by apply moves_mlacp|]. keep.
Qed.

(** The sender of one kind of data, by the kind. *)
Lemma moves_sender s a s' :
  mlacp_sync_sender_handler s = Some (a, s') ->
  stage (cs_csm s') = (if bool_decide (ml_sync_state (MLACP (cs_csm s)) = MLACP_SYNC_DONE)
                       then stage (cs_csm s) <| sg_wait := 0 |> else stage (cs_csm s)).
Proof.
  unfold mlacp_sync_sender_handler. rewrite bind_the_csm.
  destruct (ml_sync_state _); intros E;
    try (apply keeps_stage in E; [exact E|solve [auto with keeps nocore]]).
  apply moves_done in E. by apply (inj Some).
Qed.

Lemma send_all_moves n : moves (send_all_loop n) advance.
Proof.
  induction n as [|n IH]; [by intros s a s'|]. intros s a s'' E. cbn [send_all_loop] in E.
  apply bind_inv in E as ([] & s1 & E1 & E). rewrite bind_the_csm in E.
  apply moves_sender in E1. destruct (bool_decide (ml_sync_state (MLACP (cs_csm s1)) <> _)).
  - apply bind_inv in E as ([] & s2 & E2 & E). apply IH in E. symmetry in E. rewrite E.
    assert (E3 : stage (cs_csm s2) = stage (cs_csm s1)) by (injection E2 as E2; by subst s2).
    rewrite E3, E1. by case_bool_decide.
  - apply bind_inv in E as ([] & s2 & E2 & E). apply moves_stage_incr in E. symmetry in E. rewrite E.
    assert (E3 : stage (cs_csm s2) = stage (cs_csm s1) <| sg_wait := 0 |>) by (injection E2 as E2; by subst s2).
    rewrite E3, E1. unfold advance.
    case_bool_decide; destruct (stage (cs_csm s)); cbn; by destruct (next_stage _).
Qed.

Lemma send_all_handler_moves : moves mlacp_sync_send_all_info_handler advance.
Proof.
  unfold mlacp_sync_send_all_info_handler.
  apply moves_after; [keep|intros _]. apply moves_after; [keep|intros _]. apply send_all_moves.
Qed.

(** ** Messages *)

Definition recv_step (msg : Msg) (g : Stage) : option Stage :=
  ev ← tlv_event msg;
  match ev with
  | Ev_done => Some (g <| sg_wait := 0 |>)
  | Ev_request => advance g
  | _ => Some g
  end.

Lemma moves_lift {A B} (o : option A) (k : A -> M CS B) f :
  (forall a, o = Some a -> moves (k a) f) -> moves (lift o ≫= k) f.
Proof.
  intros H s b s' E. unfold mbind, M_bind, lift in E. destruct o as [a|]; [|done]. by eapply H.
Qed.

Lemma moves_some {A} (m : M CS A) f : keeps m -> (forall g, f g = Some g) -> moves m f.
Proof. intros Hm Hf s a s' E. rewrite Hf. by apply moves_keeps in E. Qed.

Lemma recv_moves msg : moves (mlacp_sync_receiver_handler (Some msg)) (recv_step msg).
Proof.
  apply moves_lift. intros ty Hty. unfold recv_step, tlv_event. rewrite Hty. cbn [mbind option_bind].
  repeat match goal with
  | |- moves (if ty =? TLV_T_MLACP_SYNC_DATA then _ else _) _ => destruct (Z.eqb_spec ty TLV_T_MLACP_SYNC_DATA) as [->|Hd]
  | |- moves (if ty =? TLV_T_MLACP_SYNC_REQUEST then _ else _) _ => destruct (Z.eqb_spec ty TLV_T_MLACP_SYNC_REQUEST) as [->|Hr]
  | |- moves (if ty =? ?t then _ else _) _ => destruct (Z.eqb_spec ty t) as [->|?];
      [apply moves_some; [solve [auto with keeps nocore]|done]|]
  end.
  - apply moves_lift. intros fl Hfl. rewrite Hfl. cbn [fmap option_fmap option_map].
    eapply moves_before; [|keep]. destruct (Z.eqb_spec (ntohs fl) 1) as [->|Hf]; cbn [when].
    + by apply moves_mlacp.
    + rewrite bool_decide_eq_false_2 by congruence. by apply moves_some; [keep|].
  - apply moves_lift. intros nn _. apply moves_after; [keep|intros _].
    eapply moves_before; [apply send_all_handler_moves|keep].
  - apply moves_some; [keep|done].
Qed.

(** ** Stages *)

(** A request is answered with all data; other messages are dropped. *)
Lemma answer_moves msg :
  moves (q ← lift (is_sync_request msg); when q
           (n ← lift (mLACPSyncReqTLV.get_req_num (msg_buf msg));
            on_mlacp (fun m => m <| ml_wait_for_sync_data := 1 |> <| ml_sync_req_num := ntohs n |>);;
            mlacp_sync_send_all_info_handler))
    (fun g => ev ← app_event msg; match ev with Ev_request => advance g | _ => Some g end).
Proof.
  apply moves_lift. intros q Hq. unfold is_sync_request in Hq. unfold app_event, tlv_event.
  destruct (LDPHdr.get_msg_type (msg_buf msg)) as [mt|]; [|done]. cbn [mbind option_bind] in *.
  destruct (mt =? MSG_T_RG_APP_DATA).
  2:{ injection Hq as <-. by apply moves_some; [apply keeps_ret|]. }
  destruct (ICCParameter.get_type TLV (msg_buf msg)) as [ty|]; [|done]. cbn [mbind option_bind] in *.
  injection Hq as <-. destruct (Z.eqb_spec ty TLV_T_MLACP_SYNC_REQUEST) as [->|Hr]; cbn [when].
  - cbn [mbind option_bind]. apply moves_lift. intros nn _.
    intros s a s' ([] & s1 & E1 & E)%bind_inv. apply send_all_handler_moves in E. rewrite <- E.
    assert (E3 : stage (cs_csm s1) = stage (cs_csm s) <| sg_wait := 1 |>) by (injection E1 as E1; by subst s1).
    rewrite E3. unfold advance. destruct (stage (cs_csm s)). cbn. by destruct (next_stage _).
  - apply moves_some; [apply keeps_ret|]. intros g. by repeat case_match.
Qed.


Lemma answer_handler_moves om : moves (mlacp_stage_sync_send_handler om) (answer_step om).
Proof.
  intros s b s' E. unfold mlacp_stage_sync_send_handler in E. rewrite bind_the_csm in E.
  unfold answer_step. change (sg_wait (stage (cs_csm s))) with (ml_wait_for_sync_data (MLACP (cs_csm s))).
  destruct om as [msg|]; cbn [event]; [|destruct (_ =? _); by injection E as <- <-].
  destruct (_ =? _); cbn [when] in E; [|by injection E as <- <-].
  by apply (answer_moves msg) in E.
Qed.

(** Receiving, and what is then expected. *)
Lemma recv_opt_moves om s a s' :
  mlacp_sync_receiver_handler om s = Some (a, s') -> sg_wait (stage (cs_csm s)) <> 0 ->
  exists ev, event tlv_event om = Some ev
    /\ match ev with
        | Ev_done => stage (cs_csm s') = stage (cs_csm s) <| sg_wait := 0 |>
        | Ev_request => advance (stage (cs_csm s)) = Some (stage (cs_csm s'))
        | _ => stage (cs_csm s') = stage (cs_csm s) end
    /\ (sg_wait (stage (cs_csm s')) =? 0) = match ev with Ev_done | Ev_request => true | _ => false end.
Proof.
  intros E Hw. apply Z.eqb_neq in Hw. destruct om as [msg|]; cbn [event].
  2:{ injection E as <- <-. by exists Ev_none. }
  apply recv_moves in E. unfold recv_step in E. destruct (tlv_event msg) as [ev|]; [|done].
  exists ev. split; [done|]. cbn [mbind option_bind] in E.
  destruct ev; try (apply (inj Some) in E as <-; done). split; [done|].
  unfold advance in E. destruct (next_stage _); [|done]. by apply (inj Some) in E as <-.
Qed.

Lemma request_handler_moves om : moves (mlacp_stage_sync_request_handler om) (request_step om).
Proof.
  intros s b s' E. unfold mlacp_stage_sync_request_handler in E. rewrite bind_the_csm in E.
  unfold request_step. change (sg_wait (stage (cs_csm s))) with (ml_wait_for_sync_data (MLACP (cs_csm s))).
  destruct (Z.eqb_spec (ml_wait_for_sync_data (MLACP (cs_csm s))) 0) as [Hw|Hw].
  { apply bind_inv in E as (n & s1 & E1 & E). apply keeps_stage in E1; [|solve [auto with keeps nocore]].
    rewrite <- E1. by injection E as <- <-. }
  apply bind_inv in E as ([] & s1 & E1 & E). rewrite bind_the_csm in E.
  destruct (recv_opt_moves _ _ _ _ E1 Hw) as (ev & -> & H1 & Hk). cbn [mbind option_bind].
  change (ml_wait_for_sync_data (MLACP (cs_csm s1))) with (sg_wait (stage (cs_csm s1))) in E.
  rewrite Hk in E. clear Hk. destruct ev; cbn [when] in E.
  - injection E as <- <-. by rewrite H1.
  - rewrite H1. cbn [mbind option_bind]. apply moves_stage_incr in E. unfold advance in *.
    destruct (next_stage (sg_state (stage (cs_csm s)))) as [st|]; [|done].
    apply (inj Some) in H1. rewrite <- H1 in *. cbn in *. by destruct (next_stage st).
  - apply moves_stage_incr in E. rewrite H1 in E. exact E.
  - injection E as <- <-. by rewrite H1.
Qed.

Lemma stage_handler_moves om : moves (mlacp_stage_handler om) (stage_step om).
Proof.
  apply moves_csm. intros c s b s' Hs E. unfold stage_step, answering.
  change (sg_state (stage c)) with (ml_current_state (MLACP c)).
  change (sg_role (stage c)) with (csm_role_type c).
  destruct (xorb _ _); cbn [negb]; rewrite <- Hs;
    [by apply request_handler_moves in E|by apply answer_handler_moves in E].
Qed.

Lemma exchange_handler_moves om : moves (mlacp_exchange_handler om) (exchange_step om).
Proof.
  unfold mlacp_exchange_handler. eapply moves_before; [|keep].
  unfold exchange_step. destruct om as [msg|]; cbn [event]; [|by apply moves_some; [keep|]].
  apply moves_lift. intros mt Hmt. unfold app_event. rewrite Hmt. cbn [mbind option_bind].
  destruct (mt =? MSG_T_RG_APP_DATA); cbn [when]; [apply recv_moves|by apply moves_some; [keep|]].
Qed.

(** ** Turns *)

Lemma begin_moves :
  moves begin_stages (fun g => Some (if bool_decide (sg_state g = MLACP_STATE_INIT)
                              then g <| sg_state := MLACP_STATE_STAGE1 |> <| sg_wait := 0 |> else g)).
Proof.
  apply moves_csm. intros c s b s' Hs E. rewrite <- Hs.
  change (ml_current_state (MLACP c)) with (sg_state (stage c)) in E. rewrite <- Hs in E.
  destruct (bool_decide _); cbn [when] in E; [|by injection E as <- <-].
  revert E. match goal with |- ?m s = _ -> _ => enough (H : moves m (fun g => Some
    (g <| sg_state := MLACP_STATE_STAGE1 |> <| sg_wait := 0 |>))) by apply H end.
  eapply moves_before; [by apply moves_mlacp|]. keep.
Qed.

Lemma state_handler_moves om : moves (state_handler om) (state_step om).
Proof.
  apply moves_csm. intros c s b s' Hs E. unfold state_step.
  change (sg_state (stage c)) with (ml_current_state (MLACP c)). rewrite <- Hs.
  destruct (ml_current_state (MLACP c));
    [by injection E as <- <-|by apply stage_handler_moves in E..|by apply exchange_handler_moves in E|
     by injection E as <- <-].
Qed.

(** The common end of a turn. *)
Lemma turn_end_moves {A} om (a b : A) s s' :
  (note_state;; begin_stages;; state_handler om;; mret a) s = Some (b, s') ->
  b = a /\ state_step om (if bool_decide (sg_state (stage (cs_csm s)) = MLACP_STATE_INIT)
       then stage (cs_csm s) <| sg_state := MLACP_STATE_STAGE1 |> <| sg_wait := 0 |>
       else stage (cs_csm s)) = Some (stage (cs_csm s')).
Proof.
  intros ([] & s1 & E1 & ([] & s2 & E2 & ([] & s3 & E3 & E4)%bind_inv)%bind_inv)%bind_inv.
  injection E4 as <- <-. split; [done|].
  apply keeps_stage in E1; [|solve [auto with keeps nocore]]. rewrite <- E1.
  apply begin_moves in E2. apply (inj Some) in E2. rewrite E2. by apply state_handler_moves in E3.
Qed.

Lemma turn_moves s more s' :
  transit_turn s = Some (more, s') -> turn (stage (cs_csm s)) = Some (more, stage (cs_csm s')).
Proof.
  intros E. unfold transit_turn in E. rewrite bind_the_csm in E. unfold turn.
  change (ml_current_state (MLACP (cs_csm s))) with (sg_state (stage (cs_csm s))) in E.
  destruct (bool_decide (sg_state (stage (cs_csm s)) = MLACP_STATE_INIT)) eqn:Hi; cbn zeta in E.
  { rewrite (bind_Some (mret None) _ s None s) in E by done.
    rewrite (bind_Some (mret false) _ s false s) in E by done.
    apply turn_end_moves in E as [-> E]. rewrite Hi in E.
    change (state_step None ?g) with (stage_step None g) in E. by rewrite E. }
  unfold mlacp_dequeue_msg in E. rewrite <- bind_assoc, bind_the_csm in E.
  change (sg_queue (stage (cs_csm s))) with (ml_mlacp_msg_list (MLACP (cs_csm s))).
  destruct (ml_mlacp_msg_list (MLACP (cs_csm s))) as [|msg q].
  - rewrite (bind_Some (mret None) _ s None s) in E by done.
    rewrite (bind_Some (mret false) _ s false s) in E by done.
    apply turn_end_moves in E as [-> E]. rewrite Hi in E. by rewrite E.
  - rewrite <- bind_assoc in E. apply bind_inv in E as ([] & s1 & E1 & E).
    assert (Hs : stage (cs_csm s1) = stage (cs_csm s) <| sg_queue := q |>) by (injection E1 as E1; by subst s1).
    rewrite (bind_Some (mret (Some msg)) _ s1 (Some msg) s1) in E by done.
    apply bind_inv in E as (nak & s2 & E2 & E). unfold lift in E2.
    destruct (is_nak msg) as [nk|]; [|done]. injection E2 as <- <-. cbn [mbind option_bind].
    destruct nk.
    + apply bind_inv in E as ([] & s2 & E2 & E). injection E as <- <-.
      apply keeps_stage in E2; [|solve [auto with keeps nocore]]. by rewrite E2, Hs.
    + apply turn_end_moves in E as [-> E]. rewrite Hs in E.
      change (sg_state (stage (cs_csm s) <| sg_queue := q |>)) with (sg_state (stage (cs_csm s))) in E.
      rewrite Hi in E. by rewrite E.
Qed.

(** ** The loop *)

Lemma loop_moves n s a s' :
  transit_loop n s = Some (a, s') -> turns n (stage (cs_csm s)) = Some (stage (cs_csm s')).
Proof.
  revert s. induction n as [|n IH]; intros s E; [done|]. cbn [transit_loop] in E.
  apply bind_inv in E as (more & s1 & E1 & E). apply turn_moves in E1. cbn [turns]. rewrite E1.
  cbn [mbind option_bind fst snd]. destruct more; cbn [when] in E; [by apply IH|by injection E as <- <-].
Qed.

(** Turns that are left: one to start, one for each message, one on the empty queue. *)
Definition turns_left (g : Stage) : nat :=
  (length (sg_queue g) + if bool_decide (sg_state g = MLACP_STATE_INIT) then 2 else 1)%nat.

Lemma advance_queue g g' : advance g = Some g' -> sg_queue g' = sg_queue g /\ sg_state g' <> MLACP_STATE_INIT.
Proof.
  unfold advance. destruct g as [? ? ? ? st ? ?]. cbn. destruct st; cbn; intros E; by simplify_eq.
Qed.

Lemma stage_step_queue om g g' :
  stage_step om g = Some g' -> sg_state g <> MLACP_STATE_INIT ->
  sg_queue g' = sg_queue g /\ sg_state g' <> MLACP_STATE_INIT.
Proof.
  unfold stage_step, answer_step, request_step. intros E Hi.
  destruct (answering g), (sg_wait g =? 0); try (by apply (inj Some) in E as <-).
  - apply obind_Some in E as ([] & _ & E); try (by apply (inj Some) in E as <-). by apply advance_queue.
  - apply obind_Some in E as ([] & _ & E); try (by apply (inj Some) in E as <-); [|by apply advance_queue].
    apply obind_Some in E as (g1 & [<- _]%advance_queue & E). by apply advance_queue.
Qed.

Lemma state_step_queue om g g' :
  state_step om g = Some g' -> sg_state g <> MLACP_STATE_INIT ->
  sg_queue g' = sg_queue g /\ sg_state g' <> MLACP_STATE_INIT.
Proof.
  unfold state_step. destruct (sg_state g) eqn:Hs; intros E Hi; try (by destruct Hi);
    try (apply stage_step_queue in E; [done|by rewrite Hs]); [|apply (inj Some) in E as <-; by rewrite Hs].
  apply obind_Some in E as ([] & _ & E); [..|by apply (inj Some) in E as <-; rewrite Hs];
    [apply (inj Some) in E as <-; by rewrite Hs|by apply advance_queue|].
  apply (inj Some) in E as <-. change (sg_state (g <| sg_wait := 0 |>)) with (sg_state g). by rewrite Hs.
Qed.

Lemma turn_left g more g' :
  turn g = Some (more, g') ->
  if more then (turns_left g' < turns_left g)%nat else sg_queue g' = [].
Proof.
  unfold turn, turns_left. case_bool_decide as Hi.
  - intros (g1 & E & [= <- <-])%obind_Some.
    apply stage_step_queue in E as [Hq Hn]; [|done].
    rewrite bool_decide_eq_false_2, Hq by done. destruct g; cbn. lia.
  - destruct (sg_queue g) as [|msg q] eqn:Hq.
    + intros (g1 & E & [= <- <-])%obind_Some. apply state_step_queue in E as [-> _]; done.
    + intros (nak & E & H)%obind_Some.
      assert (Hg : sg_queue g' = q /\ sg_state g' <> MLACP_STATE_INIT /\ more = true).
      { destruct nak; [injection H as <- <-; by destruct g|].
        apply obind_Some in H as (g1 & H & [= <- <-]). apply state_step_queue in H as [? ?]; by destruct g. }
      destruct Hg as (-> & Hn & ->). rewrite bool_decide_eq_false_2 by done. cbn. lia.
Qed.

(** Fuel beyond the turns left makes no difference. *)
Lemma loop_fuel n m s :
  (turns_left (stage (cs_csm s)) <= n)%nat -> (turns_left (stage (cs_csm s)) <= m)%nat ->
  transit_loop n s = transit_loop m s.
Proof.
  revert m s. induction n as [|n IH]; intros m s Hn Hm.
  { unfold turns_left in Hn. exfalso. case_match; lia. }
  destruct m as [|m]; [unfold turns_left in Hm; exfalso; case_match; lia|].
  cbn [transit_loop]. unfold mbind, M_bind. destruct (transit_turn s) as [[more s1]|] eqn:E; [|done].
  apply turn_moves, turn_left in E. destruct more; cbn [when]; [apply IH; lia|done].
Qed.

Lemma turns_drain n g g' : turns n g = Some g' -> sg_queue g' = [].
Proof.
  revert g. induction n as [|n IH]; intros g; [done|]. cbn [turns].
  intros ([more g1] & E & H)%obind_Some. apply turn_left in E. destruct more; cbn in *; [by apply IH in H|].
  by injection H as <-.
Qed.

(** The loop has started, and the parts before it leave the stage alone. *)
Definition before_loop : M CS unit :=
  csm ← the_csm;
  t ← now;
  when (negb (csm_warm_reboot_disconn_time csm =? 0)
        && (t - csm_warm_reboot_disconn_time csm >=? WARM_REBOOT_TIMEOUT))
    (on_csm (fun c => c <| csm_warm_reboot_disconn_time := 0 |>);; mlacp_peer_disconn_handler);;
  mlacp_sync_send_heartbeat;;
  mlacp_local_lif_state_mac_handler;;
  mlacp_peer_link_learning_handler.

Lemma before_loop_keeps : keeps before_loop.
Proof. unfold before_loop. keep. Qed.

Definition torn (g : Stage) : bool := (sg_fd g <=? 0) || bool_decide (sg_app g <> APP_OPERATIONAL).

(** A pass on a CSM: torn down, or the turns of the automaton. *)
Definition pass (g : Stage) : option Stage :=
  if torn g then
    Some (if bool_decide (sg_state g = MLACP_STATE_INIT) then g
          else g <| sg_state := MLACP_STATE_INIT |> <| sg_queue := [] |>
                 <| sg_fd := if sg_fd g >? 0 then -1 else sg_fd g |>)
  else turns (length (sg_queue g) + 2) g.

Lemma bind_cong {A B} (m : M CS A) (k k' : A -> M CS B) s :
  (forall a s', k a s' = k' a s') -> (m ≫= k) s = (m ≫= k') s.
Proof. intros H. unfold mbind, M_bind. by destruct (m s) as [[a s']|]. Qed.

Lemma transit_parts s :
  mlacp_fsm_transit s
  = if torn (stage (cs_csm s)) then tear_down s
    else (before_loop;;
          n ← gets (fun s => length (ml_mlacp_msg_list (MLACP (cs_csm s)))); transit_loop (n + 2)) s.
Proof.
  unfold mlacp_fsm_transit. rewrite bind_the_csm.
  change ((csm_sock_fd (cs_csm s) <=? 0) || bool_decide (app_current_state (csm_app_csm (cs_csm s)) <> APP_OPERATIONAL))
    with (torn (stage (cs_csm s))).
  destruct (torn _); [done|]. unfold before_loop. rewrite <- bind_assoc, bind_the_csm.
  rewrite <- bind_assoc. apply bind_cong. intros t s1. rewrite <- bind_assoc. apply bind_cong.
  intros [] s2. rewrite <- bind_assoc. apply bind_cong. intros [] s3. by rewrite <- bind_assoc.
Qed.

Lemma reinit_queue_keeps q : keeps (reinit_queue q).
Proof. induction q; cbn [reinit_queue]; keep. Qed.
#[export] Hint Resolve reinit_queue_keeps : keeps.
Lemma mac_reinit_keeps : keeps mlacp_mac_msg_queue_reinit.
Proof. unfold mlacp_mac_msg_queue_reinit. keep. Qed.
#[export] Hint Resolve mac_reinit_keeps : keeps.

Lemma cleanup_moves :
  moves scheduler_csm_socket_cleanup (fun g => Some (if sg_fd g >? 0 then g <| sg_fd := -1 |> else g)).
Proof.
  apply moves_csm. intros c s b s' Hs E. rewrite <- Hs.
  change (csm_sock_fd c) with (sg_fd (stage c)) in E. rewrite <- Hs in E.
  destruct (sg_fd (stage (cs_csm s)) >? 0); cbn [when] in E; [|by injection E as <- <-].
  apply bind_inv in E as ([] & s1 & E1 & E). apply keeps_stage in E1; [|solve [auto with keeps nocore]].
  apply bind_inv in E as (r & s2 & E2 & E). apply keeps_stage in E2; [|solve [auto with keeps nocore]].
  apply bind_inv in E as ([] & s3 & E3 & E). apply keeps_stage in E3; [|keep].
  rewrite <- E1, <- E2, <- E3. by injection E as <- <-.
Qed.

Lemma tear_down_moves s a s' :
  tear_down s = Some (a, s') -> torn (stage (cs_csm s)) = true ->
  pass (stage (cs_csm s)) = Some (stage (cs_csm s')).
Proof.
  intros E Ht. unfold pass. rewrite Ht. unfold tear_down in E. rewrite bind_the_csm in E.
  change (sg_state (stage (cs_csm s))) with (ml_current_state (MLACP (cs_csm s))).
  destruct (decide (ml_current_state (MLACP (cs_csm s)) = MLACP_STATE_INIT)) as [Hi|Hi].
  { rewrite bool_decide_eq_true_2 by done. rewrite bool_decide_eq_false_2 in E by auto.
    by injection E as <- <-. }
  rewrite bool_decide_eq_false_2 by done. rewrite bool_decide_eq_true_2 in E by done. cbn [when] in E.
  apply bind_inv in E as ([] & s1 & E1 & E). apply bind_inv in E1 as ([] & s0 & E0 & E1).
  apply keeps_stage in E1; [|solve [auto with keeps nocore]].
  apply bind_inv in E as ([] & s2 & E2 & E).
  assert (H2 : stage (cs_csm s2) = stage (cs_csm s) <| sg_state := MLACP_STATE_INIT |> <| sg_queue := [] |>).
  { injection E0 as E0. injection E2 as E2. subst s2.
    change (stage (cs_csm s1) <| sg_state := MLACP_STATE_INIT |>
      = stage (cs_csm s) <| sg_state := MLACP_STATE_INIT |> <| sg_queue := [] |>). rewrite E1. by subst s0. }
  change (csm_sock_fd (cs_csm s)) with (sg_fd (stage (cs_csm s))) in E.
  destruct (sg_fd (stage (cs_csm s)) >? 0) eqn:Hf; cbn [when] in E.
  - apply bind_inv in E as ([] & s3 & E3 & E). apply cleanup_moves in E3. apply (inj Some) in E3.
    apply keeps_stage in E; [|solve [auto with keeps nocore]]. rewrite E, <- E3, H2.
    change (sg_fd (_ <| sg_queue := [] |>)) with (sg_fd (stage (cs_csm s))). by rewrite Hf.
  - injection E as <- <-. rewrite H2. by destruct (stage (cs_csm s)).
Qed.

(** A message is dropped in the error state. *)
Lemma error_turn s m r :
  ml_current_state (MLACP (cs_csm s)) = MLACP_STATE_ERROR ->
  ml_mlacp_msg_list (MLACP (cs_csm s)) = m :: r -> is_nak m = Some false ->
  transit_turn s = Some (true, s <| cs_csm ::= set_MLACP (fun a => a <| ml_mlacp_msg_list := r |>) |>
                                 <| cs_g ::= fun g => g <| g_prev_state := MLACP_STATE_ERROR |> |>).
Proof.
  intros Hst Hq Hn. unfold transit_turn. rewrite bind_the_csm, Hst. rewrite bool_decide_eq_false_2 by done.
  cbn zeta. unfold mlacp_dequeue_msg. rewrite <- bind_assoc, bind_the_csm, Hq.
  rewrite <- bind_assoc, (bind_Some (on_csm _) _ s tt _ eq_refl).
  set (s1 := s <| cs_csm ::= _ |>). assert (Hst1 : ml_current_state (MLACP (cs_csm s1)) = MLACP_STATE_ERROR) by exact Hst.
  rewrite (bind_Some (mret (Some m)) _ s1 (Some m) s1 eq_refl).
  rewrite (bind_Some _ _ _ _ _ (lift_Some _ _ s1 Hn)).
  rewrite (bind_Some note_state _ s1 tt (s1 <| cs_g ::= fun g => g <| g_prev_state := MLACP_STATE_ERROR |> |>)).
  2:{ unfold note_state. rewrite bind_the_csm, Hst1.
      rewrite (bind_Some (gets _) _ s1 (g_prev_state (cs_g s1)) s1 eq_refl). cbn zeta.
      destruct (decide (g_prev_state (cs_g s1) = MLACP_STATE_ERROR)) as [Hp|Hp].
      - rewrite bool_decide_eq_false_2 by auto. unfold when, mret, M_ret. do 2 f_equal.
        destruct s1 as [c [] l y p o]. cbn in Hp. by subst.
      - rewrite bool_decide_eq_true_2 by done. cbn [when]. rewrite bool_decide_eq_false_2 by done.
        rewrite (bind_Some (when false _) _ s1 tt s1 eq_refl), bind_the_csm, Hst1. done. }
  clearbody s1. set (s2 := s1 <| cs_g ::= _ |>).
  assert (Hst2 : ml_current_state (MLACP (cs_csm s2)) = MLACP_STATE_ERROR) by exact Hst1. clearbody s2.
  unfold begin_stages. rewrite <- bind_assoc, bind_the_csm, Hst2.
  rewrite (bool_decide_eq_false_2 (MLACP_STATE_ERROR = MLACP_STATE_INIT)) by done.
  rewrite (bind_Some (when false _) _ s2 tt s2 eq_refl). unfold state_handler.
  rewrite <- bind_assoc, bind_the_csm, Hst2. done.
Qed.

(** ** Properties *)

(** C8. The transit of the application implements the automaton of the stages: whatever
    messages wait and whatever they change in tables and interfaces, a pass moves
    role, socket, stage, expectation and queue exactly as the automaton does. *)
Theorem transit_refines_stages s s' :
  mlacp_fsm_transit s = Some (tt, s') -> pass (stage (cs_csm s)) = Some (stage (cs_csm s')).
Proof.
  rewrite transit_parts. destruct (torn (stage (cs_csm s))) eqn:Ht; [by intros E%tear_down_moves|].
  intros ([] & s1 & E1 & E)%bind_inv. apply keeps_stage in E1; [|apply before_loop_keeps].
  unfold pass. rewrite Ht, <- E1. by apply loop_moves in E.
Qed.


