(* ===== verification/StageNet.v ===== *)
(** Two switches that synchronise: the automata of both sides, connected by
    their queues, reach the exchange state under every fair schedule. *)

From Stdlib Require Import ZArith Lia.
From stdpp Require Import base list gmap numbers option.
From S2P Require Import Prelude CBuf State MsgFormat Wire CsmMsg SyncPrepare Senders MlacpFsm.
From coqutil Require Import Byte Word.LittleEndianList.
From S2P Require Import Csm MsgLogRing MacTable SendAll StageFrame StageSpec.

(** What a message is to a switch that waits for data. *)
Definition carries (ev : Event) (m : Msg) : Prop :=
  is_nak m = Some false /\ app_event m = Some ev /\ tlv_event m = Some ev.

(** Messages that mean nothing to the stages: heartbeats, table updates. *)
Definition other : list Msg -> Prop := Forall (carries Ev_other).

Section Net.
(** The request, and the data of each side: messages and a last one, the end marker. *)
Context (req fin_a fin_b : Msg) (data_a data_b : list Msg).
Hypotheses (Hreq : carries Ev_request req) (Hfa : carries Ev_done fin_a) (Hfb : carries Ev_done fin_b)
  (Hda : other data_a) (Hdb : other data_b).

(** What a turn from [g] to [g'] sends: the request when data is awaited from now
    on, all data when an answering switch moves on. *)
Definition emits (data : list Msg) (g g' : Stage) : list Msg :=
  if (sg_wait g' =? 1) && (bool_decide (sg_state g = MLACP_STATE_INIT) || negb (sg_wait g =? 1)) then [req]
  else if bool_decide (sg_state g <> MLACP_STATE_INIT) && (sg_wait g =? 0) && answering g
          && bool_decide (sg_state g' <> sg_state g) then data
  else [].

Definition deliver_all (ms : list Msg) (g : Stage) : Stage := g <| sg_queue ::= fun q => q ++ ms |>.

(** A turn of the active ([true]) or the standby switch. *)
Definition net_step (who : bool) (p : Stage * Stage) : option (Stage * Stage) :=
  if who then
    r ← turn p.1; Some (r.2, deliver_all (emits (data_a ++ [fin_a]) p.1 r.2) p.2)
  else
    r ← turn p.2; Some (deliver_all (emits (data_b ++ [fin_b]) p.2 r.2) p.1, r.2).

(** ** The phases of the synchronisation *)

Context (fda fdb : Z) (cna cnb : ICCP_CONNECTION_STATE) (rb : stp_role_type).
Hypothesis Hrb : rb <> STP_ROLE_ACTIVE.

Definition A st w q := mkStage STP_ROLE_ACTIVE fda cna APP_OPERATIONAL st w q.
Definition B st w q := mkStage rb fdb cnb APP_OPERATIONAL st w q.

Definition la := length data_a.
Definition lb := length data_b.

(** [phase n p]: the turns of [p] that still have something to do are [n] at most. *)
Inductive phase : nat -> Stage * Stage -> Prop :=
  | Ph_start w w' l l' : other l -> other l' ->
      phase (length l + length l' + la + lb + 7) (A MLACP_STATE_INIT w l, B MLACP_STATE_INIT w' l')
  | Ph_active w' l l' : other l -> other l' ->
      phase (length l + length l' + la + lb + 6) (A MLACP_STATE_STAGE1 0 l, B MLACP_STATE_INIT w' l')
  | Ph_standby w l r l' : other l -> other r -> other l' ->
      phase (length l + length r + length l' + la + lb + 6)
        (A MLACP_STATE_INIT w (l ++ req :: r), B MLACP_STATE_STAGE1 1 l')
  | Ph_asked l r l' : other l -> other r -> other l' ->
      phase (length l + length r + length l' + la + lb + 5)
        (A MLACP_STATE_STAGE1 0 (l ++ req :: r), B MLACP_STATE_STAGE1 1 l')
  | Ph_data_a l l' r' : other l -> other l' -> other r' ->
      phase (length l + length l' + length r' + lb + 4)
        (A MLACP_STATE_STAGE2 0 l, B MLACP_STATE_STAGE1 1 (l' ++ fin_a :: r'))
  | Ph_data_a' l l' m' r' : other l -> other l' -> other m' -> other r' ->
      phase (length l + length l' + length m' + length r' + lb + 3)
        (A MLACP_STATE_STAGE2 1 l, B MLACP_STATE_STAGE1 1 (l' ++ fin_a :: m' ++ req :: r'))
  | Ph_second l l' : other l -> other l' ->
      phase (length l + length l' + lb + 3) (A MLACP_STATE_STAGE2 0 l, B MLACP_STATE_STAGE2 0 l')
  | Ph_asked_b l l' r' : other l -> other l' -> other r' ->
      phase (length l + length l' + length r' + lb + 2)
        (A MLACP_STATE_STAGE2 1 l, B MLACP_STATE_STAGE2 0 (l' ++ req :: r'))
  | Ph_data_b l r l' : other l -> other r -> other l' ->
      phase (length l + length r + length l' + 1)
        (A MLACP_STATE_STAGE2 1 (l ++ fin_b :: r), B MLACP_STATE_EXCHANGE 0 l')
  | Ph_done l l' : other l -> other l' ->
      phase (length l + length l') (A MLACP_STATE_EXCHANGE 0 l, B MLACP_STATE_EXCHANGE 0 l').

Lemma not_active : bool_decide (rb = STP_ROLE_ACTIVE) = false.
Proof. by apply bool_decide_eq_false_2. Qed.

(** A turn of either side is computed by the automaton. *)
Ltac decide_closed :=
  match goal with
  | |- context [bool_decide ?P] =>
      match eval vm_compute in (bool_decide P) with
      | true => change (bool_decide P) with true
      | false => change (bool_decide P) with false
      end
  end.

Ltac step :=
  unfold turn, state_step, stage_step, answer_step, request_step, exchange_step, advance, emits, answering;
  repeat (cbn; rewrite ?not_active; repeat decide_closed;
    try match goal with
    | H : is_nak ?m = _ |- context [is_nak ?m] => rewrite H
    | H : app_event ?m = _ |- context [app_event ?m] => rewrite H
    | H : tlv_event ?m = _ |- context [tlv_event ?m] => rewrite H
    end).

Lemma active_starts w q : turn (A MLACP_STATE_INIT w q) = Some (true, A MLACP_STATE_STAGE1 0 q).
Proof using. step. done. Qed.
Lemma standby_starts w q : turn (B MLACP_STATE_INIT w q) = Some (true, B MLACP_STATE_STAGE1 1 q).
Proof using Hrb. step. done. Qed.

(** Situations that only a message changes: to answer, to wait, to exchange. *)
Inductive passive : bool -> MLACP_APP_STATE -> Z -> Prop :=
  | Ps_answer_a : passive true MLACP_STATE_STAGE1 0
  | Ps_answer_b : passive false MLACP_STATE_STAGE2 0
  | Ps_wait_a : passive true MLACP_STATE_STAGE2 1
  | Ps_wait_b : passive false MLACP_STATE_STAGE1 1
  | Ps_exchange who : passive who MLACP_STATE_EXCHANGE 0.

Definition side (who : bool) : MLACP_APP_STATE -> Z -> list Msg -> Stage := if who then A else B.

Lemma idle_turn who st w : passive who st w -> turn (side who st w []) = Some (false, side who st w []).
Proof using Hrb. destruct 1 as [| | | |[]]; unfold side; step; done. Qed.
Lemma other_turn who st w m q : passive who st w -> carries Ev_other m ->
  turn (side who st w (m :: q)) = Some (true, side who st w q).
Proof using Hrb. intros Hp (? & ? & ?). destruct Hp as [| | | |[]]; unfold side; step; done. Qed.

(** A request is answered. *)
Lemma active_answers q : turn (A MLACP_STATE_STAGE1 0 (req :: q)) = Some (true, A MLACP_STATE_STAGE2 0 q).
Proof using Hreq. destruct Hreq as (? & ? & ?). step. done. Qed.
Lemma standby_answers q : turn (B MLACP_STATE_STAGE2 0 (req :: q)) = Some (true, B MLACP_STATE_EXCHANGE 0 q).
Proof using Hreq Hrb. destruct Hreq as (? & ? & ?). step. done. Qed.

(** The active switch asks second; a message that is at hand is lost. *)
Lemma active_asks : turn (A MLACP_STATE_STAGE2 0 []) = Some (false, A MLACP_STATE_STAGE2 1 []).
Proof using. step. done. Qed.
Lemma active_asks' m q : carries Ev_other m ->
  turn (A MLACP_STATE_STAGE2 0 (m :: q)) = Some (true, A MLACP_STATE_STAGE2 1 q).
Proof using. intros (? & ? & ?). step. done. Qed.

(** Data is consumed, up to the end marker. *)
Lemma standby_end q : turn (B MLACP_STATE_STAGE1 1 (fin_a :: q)) = Some (true, B MLACP_STATE_STAGE2 0 q).
Proof using Hfa Hrb. destruct Hfa as (? & ? & ?). step. done. Qed.
Lemma active_end q : turn (A MLACP_STATE_STAGE2 1 (fin_b :: q)) = Some (true, A MLACP_STATE_EXCHANGE 0 q).
Proof using Hfb. destruct Hfb as (? & ? & ?). step. done. Qed.

(** ** Progress *)

Lemma active_net sa sb more sa' : turn sa = Some (more, sa') ->
  net_step true (sa, sb) = Some (sa', deliver_all (emits (data_a ++ [fin_a]) sa sa') sb).
Proof using. intros H. unfold net_step. cbn [fst snd]. by rewrite H. Qed.
Lemma standby_net sa sb more sb' : turn sb = Some (more, sb') ->
  net_step false (sa, sb) = Some (deliver_all (emits (data_b ++ [fin_b]) sb sb') sa, sb').
Proof using. intros H. unfold net_step. cbn [fst snd]. by rewrite H. Qed.

(** A turn moves to a lower phase. *)
Definition lowers (n : nat) (p : Stage * Stage) (who : bool) : Prop :=
  exists n' p', net_step who p = Some p' /\ phase n' p' /\ (n' < n)%nat.

(** The new pair, its messages delivered. *)
Lemma lowers_to n n' p q p' who :
  net_step who p = Some q -> phase n' p' -> q = p' -> (n' < n)%nat -> lowers n p who.
Proof using. intros ? ? ->. by exists n', p'. Qed.

Ltac delivered := unfold deliver_all; step; unfold A, B; repeat unfold set; cbn; rewrite ?app_nil_r; repeat (rewrite <- app_assoc; cbn [app]); reflexivity.
Ltac net H := first [rewrite (active_net _ _ _ _ H)|rewrite (standby_net _ _ _ _ H)].
Ltac goes H C := right; eapply lowers_to; [net H; reflexivity|exact C|delivered|cbn [length]; unfold la, lb; lia].

(** Nothing to do. *)
Definition idle (who : bool) (p : Stage * Stage) : Prop :=
  exists st w, passive who st w /\ (if who then p.1 else p.2) = side who st w [].

Lemma idle_stays who p : idle who p -> net_step who p = Some p.
Proof using Hrb.
  destruct p as [sa sb]. intros (st & w & Hp & E). pose proof (idle_turn who st w Hp) as Ht.
  destruct who; cbn in E; subst; [destruct sb|destruct sa]; net Ht; f_equal; inversion Hp; subst; unfold side; delivered.
Qed.

(** A message at the head of a queue, before the one that counts. *)
Lemma active_drops n' n st w m q sb :
  passive true st w -> carries Ev_other m -> phase n' (A st w q, sb) -> (n' < n)%nat ->
  lowers n (A st w (m :: q), sb) true.
Proof using Hrb.
  intros Hp Hm Hn Hl. eapply lowers_to; [net (other_turn true st w m q Hp Hm); reflexivity|exact Hn| |done].
  destruct sb. inversion Hp; subst; unfold side; delivered.
Qed.
Lemma standby_drops n' n st w m q sa :
  passive false st w -> carries Ev_other m -> phase n' (sa, B st w q) -> (n' < n)%nat ->
  lowers n (sa, B st w (m :: q)) false.
Proof using Hrb.
  intros Hp Hm Hn Hl. eapply lowers_to; [net (other_turn false st w m q Hp Hm); reflexivity|exact Hn| |done].
  destruct sa. inversion Hp; subst; unfold side; delivered.
Qed.

Ltac stays := left; eexists _, _; split; [constructor|reflexivity].
Ltac lower := rewrite ?length_app; cbn [length]; unfold la, lb; lia.
Ltac others := unfold other in *; repeat first [assumption|apply Forall_nil_2|apply Forall_app_2|apply Forall_cons_2].
Ltac goes H C ::= right; eapply lowers_to; [net H; reflexivity|apply C; others|delivered|lower].
Ltac drops D C := right; eapply D; [constructor|done|apply C; others|lower].

Lemma active_lowers n p : phase n p -> idle true p \/ lowers n p true.
Proof using All.
  intros Hp. destruct Hp as [w w' l l' Hl Hl'|w' l l' Hl Hl'|w l r l' Hl Hr Hl'|l r l' Hl Hr Hl'|l l' r' Hl Hl' Hr'|
    l l' m' r' Hl Hl' Hm' Hr'|l l' Hl Hl'|l l' r' Hl Hl' Hr'|l r l' Hl Hr Hl'|l l' Hl Hl'].
  - goes (active_starts w l) (Ph_active w' l l').
  - destruct Hl as [|m l Hm Hl]; [stays|]. drops active_drops (Ph_active w' l l').
  - goes (active_starts w (l ++ req :: r)) (Ph_asked l r l').
  - destruct Hl as [|m l Hm Hl]; [|drops active_drops (Ph_asked l r l')].
    goes (active_answers r) (Ph_data_a r (l' ++ data_a) []).
  - destruct Hl as [|m l Hm Hl].
    + goes active_asks (Ph_data_a' [] l' r' []).
    + goes (active_asks' m l Hm) (Ph_data_a' l l' r' []).
  - destruct Hl as [|m l Hm Hl]; [stays|]. drops active_drops (Ph_data_a' l l' m' r').
  - destruct Hl as [|m l Hm Hl].
    + goes active_asks (Ph_asked_b [] l' []).
    + goes (active_asks' m l Hm) (Ph_asked_b l l' []).
  - destruct Hl as [|m l Hm Hl]; [stays|]. drops active_drops (Ph_asked_b l l' r').
  - destruct Hl as [|m l Hm Hl]; [|drops active_drops (Ph_data_b l r l')].
    goes (active_end r) (Ph_done r l').
  - destruct Hl as [|m l Hm Hl]; [stays|]. drops active_drops (Ph_done l l').
Qed.

Lemma standby_lowers n p : phase n p -> idle false p \/ lowers n p false.
Proof using All.
  intros Hp. destruct Hp as [w w' l l' Hl Hl'|w' l l' Hl Hl'|w l r l' Hl Hr Hl'|l r l' Hl Hr Hl'|l l' r' Hl Hl' Hr'|
    l l' m' r' Hl Hl' Hm' Hr'|l l' Hl Hl'|l l' r' Hl Hl' Hr'|l r l' Hl Hr Hl'|l l' Hl Hl'].
  - goes (standby_starts w' l') (Ph_standby w l [] l').
  - goes (standby_starts w' l') (Ph_asked l [] l').
  - destruct Hl' as [|m l' Hm Hl']; [stays|]. drops standby_drops (Ph_standby w l r l').
  - destruct Hl' as [|m l' Hm Hl']; [stays|]. drops standby_drops (Ph_asked l r l').
  - destruct Hl' as [|m l' Hm Hl']; [|drops standby_drops (Ph_data_a l l' r')].
    goes (standby_end r') (Ph_second l r').
  - destruct Hl' as [|m l' Hm Hl']; [|drops standby_drops (Ph_data_a' l l' m' r')].
    goes (standby_end (m' ++ req :: r')) (Ph_asked_b l m' r').
  - destruct Hl' as [|m l' Hm Hl']; [stays|]. drops standby_drops (Ph_second l l').
  - destruct Hl' as [|m l' Hm Hl']; [|drops standby_drops (Ph_asked_b l l' r')].
    goes (standby_answers r') (Ph_data_b (l ++ data_b) [] r').
  - destruct Hl' as [|m l' Hm Hl']; [stays|]. drops standby_drops (Ph_data_b l r l').
  - destruct Hl' as [|m l' Hm Hl']; [stays|]. drops standby_drops (Ph_done l l').
Qed.

Lemma phase_lowers n p who : phase n p -> idle who p \/ lowers n p who.
Proof using All. destruct who; [apply active_lowers|apply standby_lowers]. Qed.

(** Before the end some side has something to do. *)
Lemma phase_busy n p : phase n p -> n <> 0%nat -> exists who, ~ idle who p.
Proof using Hrb.
  intros Hp Hn. assert (Hb : forall (who : bool) (p : Stage * Stage) st w q, (if who then p.1 else p.2) = side who st w q ->
    q <> [] \/ ~ passive who st w -> ~ idle who p).
  { intros who sp st w q E Hq (st' & w' & Hp' & E'). rewrite E in E'.
    destruct who; injection E' as -> -> ->; by destruct Hq. }
  destruct Hp as [w w' l l' Hl Hl'|w' l l' Hl Hl'|w l r l' Hl Hr Hl'|l r l' Hl Hr Hl'|l l' r' Hl Hl' Hr'|
    l l' m' r' Hl Hl' Hm' Hr'|l l' Hl Hl'|l l' r' Hl Hl' Hr'|l r l' Hl Hr Hl'|l l' Hl Hl'];
    [exists true|exists false|exists true|exists true|exists false|exists false|exists true|exists false|
     exists true|destruct l as [|m l]; [exists false|exists true]];
    (eapply Hb; [reflexivity|]); first [right; intros H; by inversion H|left; by destruct l|left; by destruct l'].
Qed.

(** ** Other messages *)

Definition arrives (who : bool) (ms : list Msg) (p : Stage * Stage) : Stage * Stage :=
  if who then (deliver_all ms p.1, p.2) else (p.1, deliver_all ms p.2).

Lemma phase_at n p p' n' : phase n' p' -> p = p' -> (n' <= n)%nat -> exists n', phase n' p /\ (n' <= n)%nat.
Proof using. intros ? -> ?. by exists n'. Qed.

Ltac arrive C :=
  eapply phase_at; [apply C; others|
    unfold arrives, deliver_all, A, B; repeat unfold set; cbn; repeat (rewrite <- app_assoc; cbn [app]); reflexivity|
    lower].

Lemma phase_arrives n p who ms : phase n p -> other ms ->
  exists n', phase n' (arrives who ms p) /\ (n' <= n + length ms)%nat.
Proof using.
  intros Hp Hms.
  destruct Hp as [w w' l l' Hl Hl'|w' l l' Hl Hl'|w l r l' Hl Hr Hl'|l r l' Hl Hr Hl'|l l' r' Hl Hl' Hr'|
    l l' m' r' Hl Hl' Hm' Hr'|l l' Hl Hl'|l l' r' Hl Hl' Hr'|l r l' Hl Hr Hl'|l l' Hl Hl']; destruct who.
  - arrive (Ph_start w w' (l ++ ms) l').
  - arrive (Ph_start w w' l (l' ++ ms)).
  - arrive (Ph_active w' (l ++ ms) l').
  - arrive (Ph_active w' l (l' ++ ms)).
  - arrive (Ph_standby w l (r ++ ms) l').
  - arrive (Ph_standby w l r (l' ++ ms)).
  - arrive (Ph_asked l (r ++ ms) l').
  - arrive (Ph_asked l r (l' ++ ms)).
  - arrive (Ph_data_a (l ++ ms) l' r').
  - arrive (Ph_data_a l l' (r' ++ ms)).
  - arrive (Ph_data_a' (l ++ ms) l' m' r').
  - arrive (Ph_data_a' l l' m' (r' ++ ms)).
  - arrive (Ph_second (l ++ ms) l').
  - arrive (Ph_second l (l' ++ ms)).
  - arrive (Ph_asked_b (l ++ ms) l' r').
  - arrive (Ph_asked_b l l' (r' ++ ms)).
  - arrive (Ph_data_b l (r ++ ms) l').
  - arrive (Ph_data_b l r (l' ++ ms)).
  - arrive (Ph_done (l ++ ms) l').
  - arrive (Ph_done l (l' ++ ms)).
Qed.

Lemma idle_arrives who who' ms p : ~ idle who p -> ~ idle who (arrives who' ms p).
Proof using.
  intros Hn (st & w & Hp & E). apply Hn. exists st, w. split; [done|].
  assert (Hd : forall g, deliver_all ms g = side who st w [] -> g = side who st w []).
  { intros [? ? ? ? ? ? q]. unfold deliver_all, side. destruct who; intros H;
      injection H as -> -> -> -> -> -> [-> ->]%app_eq_nil; done. }
  destruct who, who'; cbn in E; auto.
Qed.

(** ** Schedules *)

Inductive NetEv := Turn (who : bool) | Other (who : bool) (ms : list Msg).

Definition ev_step (e : NetEv) (p p' : Stage * Stage) : Prop :=
  match e with
  | Turn who => net_step who p = Some p'
  | Other who ms => other ms /\ p' = arrives who ms p
  end.

Inductive ev_run : list NetEv -> Stage * Stage -> Stage * Stage -> Prop :=
  | Run_nil p : ev_run [] p p
  | Run_cons e es p p' p'' : ev_step e p p' -> ev_run es p' p'' -> ev_run (e :: es) p p''.

Definition noise (es : list NetEv) : nat :=
  sum_list_with (fun e => match e with Other _ ms => length ms | Turn _ => 0%nat end) es.

(** A run never loses ground, and gains if a side with something to do has a turn. *)
Lemma run_gains es p p' n who :
  ev_run es p p' -> phase n p -> exists n', phase n' p' /\ (n' <= n + noise es)%nat
    /\ (Turn who ∈ es -> ~ idle who p -> (n' < n + noise es)%nat).
Proof using All.
  intros Hr. revert n. induction Hr as [p|e es p p1 p2 Hs Hr IH]; intros n Hp.
  { exists n. split; [done|]. split; [lia|]. by intros ?%elem_of_nil. }
  unfold noise. cbn [sum_list_with]. fold (noise es). destruct e as [w|w ms]; cbn in Hs.
  - destruct (phase_lowers n p w Hp) as [Hi|(n1 & q & E & Hq & Hl)].
    + rewrite (idle_stays w p Hi) in Hs. injection Hs as <-.
      destruct (IH n Hp) as (n' & H1 & H2 & H3). exists n'. split; [done|]. split; [lia|].
      intros [[= ->]|Hin]%elem_of_cons Hni; [done|]. by apply H3.
    + rewrite E in Hs. injection Hs as <-. destruct (IH n1 Hq) as (n' & H1 & H2 & _).
      exists n'. split; [done|]. lia.
  - destruct Hs as [Hms ->]. destruct (phase_arrives n p w ms Hp Hms) as (n1 & Hq & Hl).
    destruct (IH n1 Hq) as (n' & H1 & H2 & H3). exists n'. split; [done|]. split; [lia|].
    intros [[=]|Hin]%elem_of_cons Hni. apply Nat.lt_le_trans with (n1 + noise es)%nat; [|lia].
    apply H3; [done|]. by apply idle_arrives.
Qed.

Definition exchanging (p : Stage * Stage) : Prop := exists l l', other l /\ other l'
  /\ p = (A MLACP_STATE_EXCHANGE 0 l, B MLACP_STATE_EXCHANGE 0 l').

Lemma phase_zero p : phase 0 p -> exchanging p.
Proof using. intros H. inversion H; subst; try lia. by exists l, l'. Qed.

Lemma exchanging_step e p p' : exchanging p -> ev_step e p p' -> exchanging p'.
Proof using Hrb.
  intros (l & l' & Hl & Hl' & ->). destruct e as [who|who ms]; cbn [ev_step].
  - destruct who; [destruct Hl as [|m l Hm Hl]|destruct Hl' as [|m l' Hm Hl']].
    + rewrite (idle_stays true) by (eexists _, _; split; [constructor|done]). intros H. apply (inj Some) in H as <-.
      exists [], l'. split_and!; [others|done|done].
    + net (other_turn true MLACP_STATE_EXCHANGE 0 m l ltac:(constructor) Hm).
      intros H. apply (inj Some) in H as <-. exists l, l'. split_and!; [done..|]. delivered.
    + rewrite (idle_stays false) by (eexists _, _; split; [constructor|done]). intros H. apply (inj Some) in H as <-.
      exists l, []. split_and!; [done|others|done].
    + net (other_turn false MLACP_STATE_EXCHANGE 0 m l' ltac:(constructor) Hm).
      intros H. apply (inj Some) in H as <-. exists l, l'. split_and!; [done..|]. delivered.
  - intros [Hms ->]. destruct who; [exists (l ++ ms), l'|exists l, (l' ++ ms)]; split_and!; solve [done|others].
Qed.

Lemma exchanging_run es p p' : exchanging p -> ev_run es p p' -> exchanging p'.
Proof using Hrb. intros Hx Hr. induction Hr as [|e es p p1 p2 Hs Hr IH]; [done|]. eauto using exchanging_step. Qed.

Lemma run_app es es' p p'' :
  ev_run (es ++ es') p p'' -> exists p', ev_run es p p' /\ ev_run es' p' p''.
Proof using.
  revert p. induction es as [|e es IH]; intros p Hr; cbn [app] in Hr.
  - exists p. split; [constructor|done].
  - inversion Hr as [|? ? ? p1 ? Hs Hr']; subst. destruct (IH _ Hr') as (p' & H1 & H2).
    exists p'. split; [by econstructor|done].
Qed.

Definition net_round (r : list NetEv) : Prop := Turn true ∈ r /\ Turn false ∈ r.

Lemma rounds_complete rs p p' n :
  Forall net_round rs -> ev_run (concat rs) p p' -> phase n p ->
  (n + noise (concat rs) <= length rs)%nat -> exchanging p'.
Proof using All.
  intros Hrs. revert p n. induction Hrs as [|r rs [Hr1 Hr2] Hrs IH]; intros p n Hr Hp Hl.
  { inversion Hr; subst. cbn in Hl. apply phase_zero. by replace 0%nat with n by lia. }
  cbn [concat] in *. apply run_app in Hr as (p1 & H1 & H2).
  assert (Hn : noise (r ++ concat rs) = (noise r + noise (concat rs))%nat) by apply sum_list_with_app.
  destruct (decide (n = 0%nat)) as [->|Hz].
  { apply phase_zero in Hp. eauto using exchanging_run. }
  destruct (phase_busy n p Hp Hz) as (who & Hb).
  destruct (run_gains r p p1 n who H1 Hp) as (n1 & Hp1 & _ & H3). apply (IH p1 n1); [done..|].
  cbn [length] in Hl. enough (n1 < n + noise r)%nat by lia. apply H3; [by destruct who|done].
Qed.
End Net.

(** ** What the stages send *)

Definition received (id rg n : Z) (t : Tlv) : Msg := mkMsg (rx_app id rg t MSG_T_RG_APP_DATA) n.

Definition tlv_kind (t : Tlv) : Event :=
  match t with
  | T_SyncRequest => Ev_request
  | T_SyncData _ f => if u16 f =? 1 then Ev_done else Ev_other
  | _ => Ev_other
  end.

Lemma received_flags id rg n q f :
  ntohs <$> mLACPSyncDataTLV.get_flags (msg_buf (received id rg n (T_SyncData q f))) = Some (u16 f).
Proof.
  unfold mLACPSyncDataTLV.get_flags, received, rx_app, rx_hdr, rd16, TLV, ICCHdr.sizeof.
  cbn [Nat.add msg_buf wire_payload]. rewrite <- !app_assoc. bop. cbn. by rewrite ntohs_be.
Qed.

Lemma received_req_num id rg n :
  ntohs <$> mLACPSyncReqTLV.get_req_num (msg_buf (received id rg n T_SyncRequest)) = Some 0.
Proof.
  unfold mLACPSyncReqTLV.get_req_num, received, rx_app, rx_hdr, rd16, TLV, ICCHdr.sizeof.
  cbn [Nat.add msg_buf wire_payload]. rewrite <- !app_assoc. bop. cbn. by rewrite ntohs_be.
Qed.

Lemma received_event id rg n t : tlv_event (received id rg n t) = Some (tlv_kind t).
Proof.
  unfold tlv_event. cbn [received msg_buf]. rewrite rx_app_param. cbn [mbind option_bind].
  destruct t; try done. change (wire_type _ =? TLV_T_MLACP_SYNC_DATA) with true. cbn iota.
  pose proof (received_flags id rg n req_num flags) as H. cbn [received msg_buf] in H. rewrite H.
  cbn [tlv_kind]. f_equal. case_bool_decide as E; [injection E as ->; done|].
  destruct (Z.eqb_spec (u16 flags) 1); [|done]. congruence.
Qed.

Lemma received_carries id rg n t : carries (tlv_kind t) (received id rg n t).
Proof.
  unfold carries, is_nak, app_event. cbn [received msg_buf].
  rewrite rx_app_type by done. cbn [mbind option_bind].
  change (MSG_T_RG_APP_DATA =? MSG_T_NOTIFICATION) with false. rewrite Z.eqb_refl.
  split_and!; [done|apply received_event..].
Qed.

Lemma received_request id rg n : is_sync_request (received id rg n T_SyncRequest) = Some true.
Proof.
  unfold is_sync_request. cbn [received msg_buf]. rewrite rx_app_type by done. cbn [mbind option_bind].
  rewrite Z.eqb_refl, rx_app_param. done.
Qed.

(** The reply is data up to its last message. *)
Lemma all_info_kinds s ca cn : exists data, all_info s ca cn = data ++ [T_SyncData (ml_sync_req_num (MLACP (cs_csm s))) 1]
  /\ Forall (fun t => tlv_kind t = Ev_other) data.
Proof.
  unfold all_info, peer_link_tlvs. cbn zeta. eexists. split; [by rewrite !app_assoc|].
  repeat apply Forall_app_2; try (apply Forall_fmap, Forall_true; by intros ?); repeat constructor.
  destruct (csm_peer_link_if _) as [l|]; [destruct (cs_lifs s !! l)|]; repeat constructor.
Qed.

Lemma mlacp_ready f s : ready s -> ready (s <| cs_csm ::= set_MLACP f |>).
Proof. intros [H1 H2 H3 H4 H5]. split; [exact H1|exact H2|exact H3|exact H4|exact H5]. Qed.
Lemma mlacp_sent f s : ready s -> sent [] s (s <| cs_csm ::= set_MLACP f |>).
Proof. intros H. apply sent_quiet; [by apply mlacp_ready|reflexivity..]. Qed.

Section Handlers.
Context (s : CS) (Hr : ready s).
Hypothesis Hw : ml_wait_for_sync_data (MLACP (cs_csm s)) = 0.

Lemma request_sends om : answering (stage (cs_csm s)) = false ->
  exists s', mlacp_stage_handler om s = Some (tt, s') /\ sent [T_SyncRequest] s s'
    /\ stage (cs_csm s') = stage (cs_csm s) <| sg_wait := 1 |>.
Proof using Hr Hw.
  intros Ha.
  destruct (send_prepared_run mlacp_prepare_for_sync_request_tlv
    (set_MLACP (fun m => m <| ml_sync_req_num := 0 |>)) T_SyncRequest s Hr) as (s1 & E & Hs & _);
    [done|apply prepare_sync_request_wire|].
  set (s2 := s1 <| cs_csm ::= set_MLACP (fun m => m <| ml_wait_for_sync_data := 1 |>) |>).
  assert (Eh : mlacp_stage_handler om s = Some (tt, s2)).
  { unfold mlacp_stage_handler. rewrite bind_the_csm. unfold answering in Ha.
    change (sg_state (stage (cs_csm s))) with (ml_current_state (MLACP (cs_csm s))) in Ha.
    change (sg_role (stage (cs_csm s))) with (csm_role_type (cs_csm s)) in Ha.
    apply negb_false_iff in Ha. rewrite Ha. unfold mlacp_stage_sync_request_handler.
    rewrite bind_the_csm, Hw, Z.eqb_refl. by rewrite (bind_Some _ _ _ _ _ E). }
  exists s2. split; [done|]. split.
  - eapply (sent_trans [T_SyncRequest] []); [exact Hs|]. apply mlacp_sent. apply Hs.
  - apply stage_handler_moves in Eh. unfold stage_step in Eh. rewrite Ha in Eh. unfold request_step in Eh.
    change (sg_wait (stage (cs_csm s))) with (ml_wait_for_sync_data (MLACP (cs_csm s))) in Eh.
    rewrite Hw, Z.eqb_refl in Eh. apply (inj Some) in Eh. symmetry. exact Eh.
Qed.

Lemma answer_sends id rg n arps nds next :
  answering (stage (cs_csm s)) = true -> sendable s ->
  Forall2 (fun m e => arp_of (msg_buf m) = Some e) (ml_arp_msg_list (MLACP (cs_csm s))) arps ->
  Forall2 (fun m e => nd_of (msg_buf m) = Some e) (ml_ndisc_msg_list (MLACP (cs_csm s))) nds ->
  next_stage (ml_current_state (MLACP (cs_csm s))) = Some next ->
  exists ca cn s', mlacp_stage_handler (Some (received id rg n T_SyncRequest)) s = Some (tt, s')
    /\ batched 40 arps ca /\ batched 40 nds cn
    /\ sent (all_info (s <| cs_csm ::= set_MLACP (fun m => m <| ml_sync_req_num := 0 |>) |>) ca cn) s s'
    /\ stage (cs_csm s') = stage (cs_csm s) <| sg_state := next |>.
Proof using Hr Hw.
  intros Ha Hsd Harp Hnd Hnext.
  set (s1 := s <| cs_csm ::= set_MLACP (fun m => m <| ml_wait_for_sync_data := 1 |> <| ml_sync_req_num := 0 |>) |>).
  assert (Hsd1 : sendable s1) by (destruct Hsd as [H1 H2 H3 H4]; split; [exact H1|exact H2|exact H3|exact H4]).
  destruct (send_all_reply s1 arps nds next (mlacp_ready _ s Hr) Hsd1 Harp Hnd Hnext)
    as (ca & cn & s2 & E & Hca & Hcn & [Hs _ _]).
  assert (Eh : mlacp_stage_handler (Some (received id rg n T_SyncRequest)) s = Some (tt, s2)).
  { unfold mlacp_stage_handler. rewrite bind_the_csm. unfold answering in Ha.
    change (sg_state (stage (cs_csm s))) with (ml_current_state (MLACP (cs_csm s))) in Ha.
    change (sg_role (stage (cs_csm s))) with (csm_role_type (cs_csm s)) in Ha.
    apply negb_true_iff in Ha. rewrite Ha. unfold mlacp_stage_sync_send_handler.
    rewrite bind_the_csm, Hw, Z.eqb_refl. cbn [when].
    rewrite (bind_Some _ _ _ _ _ (lift_Some _ _ _ (received_request id rg n))). cbn [when].
    pose proof (received_req_num id rg n) as Hn.
    destruct (mLACPSyncReqTLV.get_req_num _) as [x|]; [|done]. injection Hn as Hn.
    rewrite (bind_Some _ _ _ _ _ (lift_Some _ _ _ eq_refl)), Hn.
    by rewrite (bind_Some (on_mlacp _) _ s tt s1 eq_refl). }
  exists ca, cn, s2. split; [exact Eh|]. split; [exact Hca|]. split; [exact Hcn|]. split.
  - change (sent (all_info s1 ca cn) s s2). eapply (sent_trans []); [|exact Hs]. by apply mlacp_sent.
  - apply stage_handler_moves in Eh. unfold stage_step in Eh. rewrite Ha in Eh. unfold answer_step in Eh.
    change (sg_wait (stage (cs_csm s))) with (ml_wait_for_sync_data (MLACP (cs_csm s))) in Eh.
    rewrite Hw, Z.eqb_refl in Eh. cbn [event] in Eh.
    destruct (received_carries id rg n T_SyncRequest) as (_ & Hev & _). rewrite Hev in Eh.
    cbn [mbind option_bind tlv_kind] in Eh. unfold advance in Eh.
    change (sg_state (stage (cs_csm s))) with (ml_current_state (MLACP (cs_csm s))) in Eh.
    rewrite Hnext in Eh. cbn [mbind option_bind] in Eh. apply (inj Some) in Eh. rewrite <- Eh.
    unfold stage. cbn. by rewrite Hw.
Qed.
End Handlers.

(** ** Two switches *)

Section Peers.
Context (req fin_a fin_b : Msg) (data_a data_b : list Msg).

Definition stages2 (p : CS * CS) : Stage * Stage := (stage (cs_csm p.1), stage (cs_csm p.2)).

(** [s] has a turn, and what it sends to [t] waits there. *)
Definition peer_turn (data : list Msg) (s t s' t' : CS) : Prop :=
  (exists more, transit_turn s = Some (more, s'))
  /\ stage (cs_csm t') = deliver_all (emits req data (stage (cs_csm s)) (stage (cs_csm s'))) (stage (cs_csm t)).

(** Between turns a switch may do anything that leaves the stage alone, and other
    messages may arrive. *)
Definition peers_step (e : NetEv) (p p' : CS * CS) : Prop :=
  match e with
  | Turn true => peer_turn (data_a ++ [fin_a]) p.1 p.2 p'.1 p'.2
  | Turn false => peer_turn (data_b ++ [fin_b]) p.2 p.1 p'.2 p'.1
  | Other who ms => other ms /\ stages2 p' = arrives who ms (stages2 p)
  end.

Inductive peers_run : list NetEv -> CS * CS -> CS * CS -> Prop :=
  | Peers_nil p : peers_run [] p p
  | Peers_cons e es p p' p'' : peers_step e p p' -> peers_run es p' p'' -> peers_run (e :: es) p p''.

Lemma peers_step_stages e p p' :
  peers_step e p p' -> ev_step req fin_a fin_b data_a data_b e (stages2 p) (stages2 p').
Proof.
  destruct e as [[]|who ms]; cbn [peers_step ev_step]; [intros [[more E] H]..|done];
    apply turn_moves in E; unfold net_step, stages2; cbn [fst snd]; rewrite E; cbn [mbind option_bind snd];
    by rewrite H.
Qed.

Lemma peers_run_stages es p p' :
  peers_run es p p' -> ev_run req fin_a fin_b data_a data_b es (stages2 p) (stages2 p').
Proof.
  induction 1 as [|e es p p1 p2 H1 _ IH]; [constructor|].
  econstructor; [by apply peers_step_stages|exact IH].
Qed.
End Peers.

(** An operational session whose application has not started. *)
Definition starting (s : CS) : Prop :=
  sg_app (stage (cs_csm s)) = APP_OPERATIONAL /\ sg_state (stage (cs_csm s)) = MLACP_STATE_INIT
  /\ other (sg_queue (stage (cs_csm s))).

(** ** Properties *)


