(* ===== verification/ShowRows.v ===== *)
(** What the rows of the show commands say: the ARP, ND and MAC tables entry by
    entry, VLAN lists as ranges, and where the commands go wrong. *)

From Stdlib Require Import ZArith Lia Ascii.
From stdpp Require Import base list gmap numbers option strings pretty.
From coqutil Require Import Byte Word.LittleEndianList.
From S2P Require Import Prelude CBuf State MsgFormat Wire CsmMsg Csm Port SyncPrepare Receive Syncd.
From S2P Require Import AppCsm MacTable Kernel Senders Neigh LinkMac Isolation LinkState SyncUpdate MlacpFsm Session.
From S2P Require Import Decode MacInv NeighSpec Lifecycle SyncdRecv Config Show Mclagdctl ShowSpec.

(** ** Texts without terminator *)

(** At most [n] characters, none of them the terminator. *)
Definition plain (n : nat) (s : buf) : Prop := (length s <= n)%nat /\ has_nul s = false.

Lemma plain_app n m s t : plain n s -> plain m t -> plain (n + m) (s ++ t).
Proof.
  intros [H1 H2] [H3 H4]. split; [rewrite length_app; lia|]. unfold has_nul in *. by rewrite existsb_app, H2, H4.
Qed.
Lemma plain_mono n m s : (n <= m)%nat -> plain n s -> plain m s.
Proof. intros H [H1 H2]. split; [lia|done]. Qed.

Lemma plain_joined n c ws : is_nul c = false -> Forall (plain n) ws -> plain (length ws * S n) (joined_by c ws).
Proof.
  intros Hc. induction 1 as [|w ws Hw Hws IH]; [by split|]. cbn [joined_by length].
  destruct ws as [|w' ws]; [eapply plain_mono, Hw; cbn; lia|].
  eapply plain_mono; [|apply (plain_app n (S (length (w' :: ws) * S n)) w); [done|]].
  - cbn [length Nat.mul]. lia.
  - destruct IH as [H1 H2]. split; [cbn [length] in *; lia|]. cbn [has_nul existsb]. by rewrite Hc.
Qed.

Lemma dec_byte c : plain 3 (dec (byte.unsigned c)).
Proof. destruct c; by split; [apply Nat.leb_le|]. Qed.

Lemma ntop4_plain ip : length ip = 4%nat -> plain 15 (ntop4 ip).
Proof.
  intros H. destruct ip as [|a [|b [|c [|d [|]]]]]; try done. unfold ntop4. cbn [fmap list_fmap joined_by].
  assert (Hd : plain 1 [dot]) by done.
  assert (E : forall x y z t : buf, x ++ dot :: y ++ dot :: z ++ dot :: t = x ++ [dot] ++ y ++ [dot] ++ z ++ [dot] ++ t) by done.
  rewrite E. apply (plain_mono (3 + (1 + (3 + (1 + (3 + (1 + 3))))))); [lia|].
  repeat (apply plain_app; [apply dec_byte || done|]). apply dec_byte.
Qed.

Lemma hex_digit_nul n : 0 <= n < 16 -> is_nul (hex_digit n) = false.
Proof.
  intros H. rewrite <- (Z2Nat.id n) by lia. assert (Z.to_nat n < 16)%nat as Hn by lia.
  generalize dependent (Z.to_nat n). intros k Hk. do 16 (destruct k as [|k]; [done|]). lia.
Qed.

Lemma hex_word_plain n : 0 <= n < 2 ^ 16 -> plain 4 (hex_word n).
Proof.
  intros Hn. pose proof (Z.div_le_upper_bound n 4096 15 ltac:(lia)) as H1. pose proof (Z.div_pos n 4096 ltac:(lia) ltac:(lia)) as H2.
  pose proof (hex_digit_nul _ (Z.mod_pos_bound (n / 256) 16 ltac:(lia))) as E2.
  pose proof (hex_digit_nul _ (Z.mod_pos_bound (n / 16) 16 ltac:(lia))) as E3.
  pose proof (hex_digit_nul _ (Z.mod_pos_bound n 16 ltac:(lia))) as E4.
  assert (E1 : is_nul (hex_digit (n / 4096)) = false) by (apply hex_digit_nul; split; [lia|apply Z.div_lt_upper_bound; lia]).
  unfold hex_word, plain, has_nul. cbv zeta. repeat case_match; cbn [drop fmap list_fmap existsb length];
    rewrite ?E1, ?E2, ?E3, ?E4; split; (done || lia).
Qed.

Lemma words_ok b : Forall (fun n => 0 <= n < 2 ^ 16) (words_of b) /\ (2 * length (words_of b) <= length b)%nat.
Proof.
  revert b. fix IH 1. intros [|x [|y b]]; [by split; [|cbn; lia]|by split; [|cbn; lia]|].
  cbn [words_of length]. destruct (IH b) as [H1 H2]. split; [|lia].
  constructor; [|done]. pose proof (byte.unsigned_range x). pose proof (byte.unsigned_range y). lia.
Qed.

Lemma hex_words_plain ws : Forall (fun n => 0 <= n < 2 ^ 16) ws -> plain (length ws * 5) (joined_by colon (hex_word <$> ws)).
Proof.
  intros H. rewrite <- (length_fmap hex_word ws). apply plain_joined; [done|]. apply Forall_fmap.
  eapply Forall_impl; [exact H|]. intros n Hn. by apply hex_word_plain.
Qed.

Lemma ntop6_plain ip : length ip = 16%nat -> plain 45 (ntop6 ip).
Proof.
  intros Hip. destruct (words_ok ip) as [Hw Hl]. unfold ntop6. destruct (best_run 0 (words_of ip) (0%nat, 1%nat)) as [base len].
  set (ws := words_of ip) in *. cbv zeta. destruct (Nat.ltb_spec len 2) as [Hs|Hs].
  - eapply plain_mono; [|by apply hex_words_plain]. lia.
  - set (tail := drop (base + len) ws).
    assert (Ht : Forall (fun n => 0 <= n < 2 ^ 16) tail) by by apply Forall_drop.
    assert (Hf : plain (length (take base ws) * 5) (joined_by colon (hex_word <$> take base ws)))
      by by apply hex_words_plain, Forall_take.
    pose proof (length_take ws base) as L1. pose proof (length_drop ws (base + len)) as L2. fold tail in L2.
    destruct ((base =? 0)%nat && _) eqn:E4.
    + apply andb_true_iff in E4 as [->%Nat.eqb_eq E4]. cbn [take fmap list_fmap joined_by app].
      apply (plain_mono (2 + (length ((hex_word <$> take (6 - len) tail) ++ [ntop4 (drop 12 ip)]) * 16))).
      * assert (5 <= len)%nat by (apply orb_true_iff in E4 as [?%Nat.eqb_eq|[?%Nat.eqb_eq _]%andb_true_iff]; lia).
        rewrite length_app, length_fmap, length_take. cbn [length]. lia.
      * apply (plain_app 2 _ [colon; colon]); [by split; [cbn; lia|]|]. apply plain_joined; [done|].
        apply Forall_app. split; [|constructor; [apply ntop4_plain; rewrite length_drop; lia|done]].
        apply Forall_fmap, Forall_take. eapply Forall_impl; [exact Ht|]. intros n Hn.
        eapply plain_mono; [|by apply hex_word_plain]. lia.
    + apply (plain_mono (length (take base ws) * 5 + (2 + length tail * 5))); [lia|].
      apply (plain_app _ _ _ _ Hf), (plain_app 2 _ [colon; colon]); [by split; [cbn; lia|]|by apply hex_words_plain].
Qed.

(** ** Structs *)

(** A member is written into its zeroed place. *)
Lemma put_seg h off n t x fs : length h = off -> (length x <= n)%nat ->
  put_fields (fld off x :: fs) (h ++ replicate n Byte.x00 ++ t) = put_fields fs (h ++ pad n x ++ t).
Proof.
  intros Hh Hx. cbn [put_fields fld]. rewrite (wr_shift0 h _ _ _ Hh).
  pose proof (wr_pad n x t Hx) as E. unfold zeros in E. rewrite Nat2Z.id in E. by rewrite E.
Qed.

Lemma pad_exact n x : length x = n -> pad n x = x.
Proof. intros <-. unfold pad. by rewrite Nat.sub_diag, app_nil_r. Qed.
Lemma pad_pad n m x : (n <= m)%nat -> (length x <= n)%nat -> pad m (pad n x) = pad m x.
Proof.
  intros H1 H2. unfold pad. rewrite length_app, length_replicate, <- (assoc_L (++)), <- replicate_add. do 2 f_equal. lia.
Qed.
Lemma pad_size n x : length (pad n x) = Nat.max n (length x).
Proof. unfold pad. rewrite length_app, length_replicate. lia. Qed.

(** The sides of a place in a struct. *)
Ltac placed := rewrite ?length_app, ?pad_size, ?length_le_split, ?length_replicate; cbn [length]; lia.

(** A text in a member with room behind it. *)
Lemma c_string_pad n m x t : plain n x -> (n < m)%nat -> c_string (pad m x ++ t) = Some x.
Proof.
  intros [H1 H2] H. unfold c_string, pad. destruct (m - length x)%nat as [|k] eqn:E; [lia|]. cbn [replicate].
  rewrite <- (assoc_L (++)). cbn [app]. rewrite has_nul_app'. cbn [has_nul existsb]. rewrite orb_true_r. by rewrite cstr_ends.
Qed.

Lemma c_string_name a n x : c_string a = Some x -> length a = n -> plain (n - 1) x.
Proof.
  unfold c_string. destruct (has_nul a) eqn:E; [|done]. intros [= <-] <-. split; [|apply cstr_no_nul].
  pose proof (cstr_nul_length a E). lia.
Qed.

Lemma carray_pad n x : (0 < n)%nat -> plain (n - 1) x -> carray n x = pad n x.
Proof. intros Hn [H1 H2]. unfold carray, pad. by rewrite cstr_whole, take_ge by done. Qed.

(** A member of a struct that is given member by member. *)
Lemma seg_at i segs (x : buf) : segs !! i = Some x -> exists t, concat segs = concat (take i segs) ++ x ++ t.
Proof.
  intros H. exists (concat (drop (S i) segs)). rewrite <- (take_drop i segs) at 1. rewrite concat_app. f_equal.
  by rewrite (drop_S _ _ _ H).
Qed.

Lemma rd_seg i segs (x : buf) off n : segs !! i = Some x -> length (concat (take i segs)) = off -> length x = n ->
  rd off n (concat segs) = Some x.
Proof. intros [t ->]%seg_at Ho Hn. rewrite (rd_shift0 _ _ _ _ Ho). by apply rd_head. Qed.

Lemma str_seg i segs m n x off : segs !! i = Some (pad m x) -> length (concat (take i segs)) = off -> plain n x -> (n < m)%nat ->
  str_at off (concat segs) = Some x.
Proof.
  intros [t ->]%seg_at <- Hx Hn. unfold str_at. rewrite drop_app_length. by eapply c_string_pad.
Qed.

(** ** The MAC table *)

(** A line for an entry, the [n]-th from 0. *)
Definition mac_line (n : nat) (m : MACMsg) : buf :=
  padded 6 (dec (Z.of_nat n + 1)) ++ padded 5 (if u8 (mac_fdb_type m) =? 1 then str "S" else str "D")
  ++ padded 20 (mac_addr_to_str (mac_addr m)) ++ padded 5 (dec (u16 (mac_vid m))) ++ padded 20 (cstr (mac_ifname m))
  ++ padded 20 (cstr (mac_origin_ifname m)) ++ padded 5 (age_str (u8 (mac_age_flag m))) ++ newline.

Definition mac_bytes (m : MACMsg) : list buf :=
  [le_split 1 (mac_op_type m); le_split 1 (mac_fdb_type m); mac_addr m; le_split 2 (mac_vid m);
   pad 32 (cstr (mac_ifname m)); pad 32 (cstr (mac_origin_ifname m)); le_split 1 (mac_age_flag m); [Byte.x00]].

Lemma mac_record_bytes m : entry_ok m -> mac_record m = Some (concat (mac_bytes m)).
Proof.
  intros ((Ha & Ho & Hon) & Hi & Hin). unfold mac_record, c_string. rewrite Hon, Hin. cbn [mbind option_bind].
  rewrite rd_full by done. cbn [mbind option_bind]. unfold struct_of.
  pose proof (cstr_nul_length _ Hon) as L1. pose proof (cstr_nul_length _ Hin) as L2. unfold MAX_L_PORT_NAME, ETHER_ADDR_LEN in *.
  change (replicate mclagd_mac_msg_size Byte.x00)
    with ([] ++ replicate 1 Byte.x00 ++ replicate 1 Byte.x00 ++ replicate 6 Byte.x00 ++ replicate 2 Byte.x00
          ++ replicate 32 Byte.x00 ++ replicate 32 Byte.x00 ++ replicate 1 Byte.x00 ++ [Byte.x00]).
  rewrite put_seg by placed.
  do 6 (rewrite (assoc_L (++)), put_seg by placed).
  cbn [put_fields]. rewrite !(pad_exact 1), (pad_exact 2), (pad_exact 6) by done. unfold mac_bytes. cbn [concat].
  by rewrite <- !(assoc_L (++)), app_nil_r.
Qed.

Lemma mac_row_bytes n m : entry_ok m -> mac_row n (concat (mac_bytes m)) = Some (mac_line n m).
Proof.
  intros ((Ha & Ho & Hon) & Hi & Hin).
  assert (H1 : plain 19 (cstr (mac_ifname m))) by (apply (c_string_name (mac_ifname m) 20); [unfold c_string; by rewrite Hin|done]).
  assert (H2 : plain 19 (cstr (mac_origin_ifname m)))
    by (apply (c_string_name (mac_origin_ifname m) 20); [unfold c_string; by rewrite Hon|done]).
  pose proof (proj1 H1) as L1. pose proof (proj1 H2) as L2. unfold ETHER_ADDR_LEN, MAX_L_PORT_NAME in *.
  unfold mac_row, mac_line, mac_at, rd8, rd16, ETHER_ADDR_LEN.
  rewrite (rd_seg 1 _ (le_split 1 (mac_fdb_type m)) 1), (rd_seg 2 _ (mac_addr m) 2), (rd_seg 3 _ (le_split 2 (mac_vid m)) 8),
    (rd_seg 6 _ (le_split 1 (mac_age_flag m)) 74),
    (str_seg 4 _ 32 19 (cstr (mac_ifname m)) 10), (str_seg 5 _ 32 19 (cstr (mac_origin_ifname m)) 42)
    by (reflexivity || done || (unfold mac_bytes; cbn [take concat]; placed)).
  cbn [mbind option_bind fmap option_fmap option_map]. rewrite !le_combine_split. done.
Qed.

(** ** Neighbours *)

Section Neighbours.
Context (k : NeighKind).

(** The address as text, and the width of its member and of its column. *)
Definition ip_text (ip : buf) : buf := if nk_family k =? AF_INET then ntop4 ip else ntop6 ip.
Definition ip_member : nat := if nk_family k =? AF_INET then 32%nat else 64%nat.
Definition ip_column : nat := if nk_family k =? AF_INET then 20%nat else 52%nat.

Definition e_learn (m : Msg) : Z := default 0 (rd8 2 (msg_buf m)).

(** An entry of the table: the size of its struct, and its name has an end. *)
Definition entry_shown (m : Msg) : Prop :=
  length (msg_buf m) = nk_size k /\ has_nul (e_name m) = true.

Definition neigh_line (n : nat) (m : Msg) : buf :=
  padded 6 (dec (Z.of_nat n + 1)) ++ padded ip_column (ip_text (e_ip k m)) ++ mac_addr_to_str (e_mac k m) ++ str "   "
  ++ padded 20 (cstr (e_name m)) ++ flag_str (e_learn m) ++ newline.

Definition neigh_bytes (m : Msg) : list buf :=
  [take 1 (msg_buf m); pad 32 (cstr (e_name m)); pad ip_member (ip_text (e_ip k m)); e_mac k m; take 1 (drop 2 (msg_buf m))].
End Neighbours.

(** The two kinds. *)
Definition neigh_kind (k : NeighKind) : Prop := k = ARP \/ k = ND.

Lemma neigh_fits k : neigh_kind k -> (24 + nk_ip_len k + ETHER_ADDR_LEN <= nk_size k)%nat.
Proof. by intros [-> | ->]; apply Nat.leb_le. Qed.

Lemma ip_plain k ip : neigh_kind k -> length ip = nk_ip_len k -> plain (ip_member k - 17) (ip_text k ip).
Proof.
  intros [-> | ->] Hip; [by apply ntop4_plain|]. eapply plain_mono; [|by apply ntop6_plain].
  apply Nat.leb_le. reflexivity.
Qed.

Lemma neigh_fields p (op fl name ip mac : buf) : length op = 1%nat -> length fl = 1%nat -> (length name <= 32)%nat ->
  (length ip <= p)%nat -> length mac = 6%nat ->
  struct_of (40 + p) [fld 0 op; fld (39 + p) fl; fld 1 name; fld 33 ip; fld (33 + p) mac]
  = Some (concat [op; pad 32 name; pad p ip; mac; fl]).
Proof.
  intros Hop Hfl Hn Hip Hm. unfold struct_of.
  assert (E : replicate (40 + p) Byte.x00 = [] ++ replicate 1 Byte.x00 ++ replicate 32 Byte.x00 ++ replicate p Byte.x00
            ++ replicate 6 Byte.x00 ++ replicate 1 Byte.x00 ++ []).
  { rewrite app_nil_r. cbn [app]. rewrite <- !replicate_add. f_equal. lia. }
  rewrite E, put_seg by placed. rewrite (pad_exact 1 op) by done. cbn [app].
  assert (E2 : forall a b c d t : buf, op ++ a ++ b ++ c ++ d ++ t = (op ++ a ++ b ++ c) ++ d ++ t) by (intros; by rewrite <- !(assoc_L (++))).
  rewrite E2, put_seg by placed. rewrite (pad_exact 1 fl) by done. rewrite <- E2.
  rewrite put_seg by placed. do 2 (rewrite (assoc_L (++)), put_seg by placed). cbn [put_fields concat].
  rewrite (pad_exact 6) by done. by rewrite <- !(assoc_L (++)).
Qed.

(** A text from its static array. *)
Lemma carray_member n p x : (0 < n <= p)%nat -> plain (n - 1) x -> pad p (carray n x) = pad p x /\ (length (carray n x) <= p)%nat.
Proof.
  intros Hn Hx. rewrite carray_pad by (done || lia). destruct Hx as [Hx _]. split; [apply pad_pad; lia|rewrite pad_size; lia].
Qed.

Lemma neigh_show_bytes k m : neigh_kind k -> entry_shown k m -> neigh_show k (msg_buf m) = Some (concat (neigh_bytes k m)).
Proof.
  intros Hk [Hs Hn]. pose proof (neigh_fits k Hk) as Hf. unfold ETHER_ADDR_LEN in Hf.
  unfold neigh_show, nk_get_op, nk_get_ifname, nk_get_ip, nk_get_mac, rd8, MAX_L_PORT_NAME, ETHER_ADDR_LEN.
  rewrite !rd_slice by lia. cbn [mbind option_bind fmap option_fmap option_map Nat.add].
  change (take (nk_ip_len k) (drop 24 (msg_buf m))) with (e_ip k m).
  change (take 6 (drop (24 + nk_ip_len k) (msg_buf m))) with (e_mac k m).
  change (c_string (take 20 (drop 3 (msg_buf m)))) with (c_string (e_name m)). unfold c_string. rewrite Hn. cbn [mbind option_bind].
  rewrite !(le_split_combine 1) by (rewrite length_take, length_drop; lia).
  assert (Lip : length (e_ip k m) = nk_ip_len k) by (unfold e_ip; rewrite length_take, length_drop; lia).
  assert (Lmac : length (e_mac k m) = 6%nat) by (unfold e_mac, ETHER_ADDR_LEN; rewrite length_take, length_drop; lia).
  assert (Ln : (length (cstr (e_name m)) <= 20)%nat).
  { pose proof (cstr_nul_length _ Hn) as L. unfold e_name, MAX_L_PORT_NAME in *. rewrite length_take in L. lia. }
  pose proof (ip_plain k _ Hk Lip) as Hp. unfold neigh_bytes.
  destruct Hk as [-> | ->]; cbn [nk_family nk_ip_len ARP ND] in *.
  - change (AF_INET =? AF_INET) with true. cbv iota. unfold show_ip_str. rewrite (le_split_combine 4) by done.
    destruct (carray_member INET_ADDRSTRLEN 32 (ntop4 (e_ip ARP m)) ltac:(unfold INET_ADDRSTRLEN; lia) Hp) as [Ep Lp].
    rewrite (neigh_fields 32), Ep; [done|..]; rewrite ?length_take, ?length_drop; lia || done.
  - change (AF_INET6 =? AF_INET) with false. cbv iota. unfold show_ipv6_str.
    destruct (carray_member INET6_ADDRSTRLEN 64 (ntop6 (e_ip ND m))) as [Ep Lp];
      [unfold INET6_ADDRSTRLEN; lia|apply ntop6_plain, Lip|].
    rewrite (neigh_fields 64), Ep; [done|..]; rewrite ?length_take, ?length_drop; lia || done.
Qed.

Lemma neigh_row_bytes k n m : neigh_kind k -> entry_shown k m ->
  neigh_row (ip_column k) (33 + ip_member k) (39 + ip_member k) n (concat (neigh_bytes k m)) = Some (neigh_line k n m).
Proof.
  intros Hk [Hs Hn]. pose proof (neigh_fits k Hk) as Hf. unfold ETHER_ADDR_LEN in Hf.
  assert (Lip : length (e_ip k m) = nk_ip_len k) by (unfold e_ip; rewrite length_take, length_drop; lia).
  pose proof (ip_plain k _ Hk Lip) as Hp.
  assert (Hname : plain 19 (cstr (e_name m))).
  { apply (c_string_name (e_name m) 20); [unfold c_string; by rewrite Hn|].
    unfold e_name, MAX_L_PORT_NAME. rewrite length_take, length_drop. lia. }
  assert (Hm : (ip_member k = 32 \/ ip_member k = 64)%nat) by (destruct Hk as [-> | ->]; auto).
  pose proof (proj1 Hp) as L1. pose proof (proj1 Hname) as L2.
  assert (L3 : length (e_mac k m) = 6%nat) by (unfold e_mac, ETHER_ADDR_LEN; rewrite length_take, length_drop; lia).
  assert (L4 : length (take 1 (msg_buf m)) = 1%nat) by (rewrite length_take; lia).
  assert (L5 : length (take 1 (drop 2 (msg_buf m))) = 1%nat) by (rewrite length_take, length_drop; lia).
  unfold neigh_row, neigh_line, mac_at, rd8, ETHER_ADDR_LEN.
  rewrite (str_seg 2 _ (ip_member k) (ip_member k - 17) (ip_text k (e_ip k m)) 33), (rd_seg 3 _ (e_mac k m) (33 + ip_member k)),
    (str_seg 1 _ 32 19 (cstr (e_name m)) 1), (rd_seg 4 _ (take 1 (drop 2 (msg_buf m))) (39 + ip_member k))
    by (reflexivity || done || (unfold neigh_bytes; cbn [take concat]; placed) || lia).
  cbn [mbind option_bind fmap option_fmap option_map]. unfold e_learn, rd8. by rewrite rd_slice by lia.
Qed.

(** ** VLAN lists *)

(** The identifiers as ranges, as long as they can be. *)
Fixpoint runs (vids : list Z) : list (Z * Z) :=
  match vids with
  | [] => []
  | v :: vs =>
      match runs vs with
      | (a, b) :: rs => if a =? v + 1 then (v, b) :: rs else (v, v) :: (a, b) :: rs
      | [] => [(v, v)]
      end
  end.

(** The end of a range that has one. *)
Definition run_end (shown : bool) (b : Z) : buf := if shown then str "- " ++ dec b ++ str " " else [].
Definition run_text (r : Z * Z) : buf := dec r.1 ++ str " " ++ run_end (r.1 <? r.2) r.2.
Definition runs_text (rs : list (Z * Z)) : buf := concat (run_text <$> rs).

(** What is still printed behind the identifier [p]; [r]: it continues a range. *)
Fixpoint rest (p : Z) (r : bool) (vids : list Z) : buf :=
  match vids with
  | [] => run_end r p
  | v :: vs => if v =? p + 1 then rest v true vs else run_end r p ++ dec v ++ str " " ++ rest v false vs
  end.

Lemma runs_cons p vids : exists b rs, runs (p :: vids) = (p, b) :: rs /\ p <= b
  /\ forall r, rest p r vids = run_end (r || (p <? b)) b ++ runs_text rs.
Proof.
  revert p. induction vids as [|v vs IH]; intros p.
  - exists p, []. split_and!; [done|lia|]. intros r. by rewrite Z.ltb_irrefl, orb_false_r, app_nil_r.
  - destruct (IH v) as (b & rs & E & Hb & Hr).
    assert (Ep : runs (p :: v :: vs) = if v =? p + 1 then (p, b) :: rs else (p, p) :: (v, b) :: rs) by (cbn [runs] in E |- *; by rewrite E).
    rewrite Ep. destruct (Z.eqb_spec v (p + 1)) as [->|Hv].
    + exists b, rs. split_and!; [done|lia|]. intros r. cbn [rest]. rewrite Z.eqb_refl, Hr. cbn [orb].
      by rewrite (proj2 (Z.ltb_lt p b)), orb_true_r by lia.
    + exists p, ((v, b) :: rs). split_and!; [done|lia|]. intros r. cbn [rest]. rewrite (proj2 (Z.eqb_neq _ _) Hv), Hr.
      rewrite Z.ltb_irrefl, orb_false_r. cbn [orb]. unfold runs_text. cbn [fmap list_fmap concat]. unfold run_text at 2. cbn [fst snd].
      by rewrite <- !(assoc_L (++)).
Qed.

Lemma runs_expand vids : (r ← runs vids; seqZ r.1 (r.2 - r.1 + 1)) = vids.
Proof.
  induction vids as [|v vs IH]; [done|]. cbn [runs]. destruct vs as [|v' vs]; [cbn; by rewrite Z.sub_diag|].
  destruct (runs_cons v' vs) as (b & rs & E & Hb & _). rewrite E in *. cbn [mbind list_bind fst snd] in *.
  destruct (Z.eqb_spec v' (v + 1)) as [->|Hv]; cbn [mbind list_bind fst snd].
  - rewrite (seqZ_cons v) by lia. cbn [app]. f_equal. rewrite <- IH. f_equal. f_equal; lia.
  - rewrite IH, Z.sub_diag. done.
Qed.

(** What is printed into the array when there is room. *)
Lemma vl_print_run t s p r q : (length (t ++ s) < 63)%nat ->
  vl_print s (mkVL (pad 64 t) (Z.of_nat (length t)) p r q) = Some (mkVL (pad 64 (t ++ s)) (Z.of_nat (length (t ++ s))) p r q).
Proof.
  rewrite length_app. intros H. unfold vl_print, snprintf_s_at, vl_str_size, MCLAGDCTL_PARA3_LEN.
  cbn [vl_len vl_buf vl_prev vl_range vl_to_be_printed]. unfold u64. rewrite Z.mod_small by lia.
  rewrite (proj2 (Z.eqb_neq _ 0)), (proj2 (Z.ltb_ge _ _)), Nat2Z.id by lia. unfold pad at 1.
  rewrite (wr_shift0 t _ _ _ eq_refl). replace (64 - length t)%nat with (length (s ++ [Byte.x00]) + (63 - length t - length s))%nat
    by (rewrite length_app; cbn [length]; lia).
  rewrite replicate_add, wr_head by (by rewrite length_replicate). cbn [fmap option_fmap option_map mbind option_bind].
  do 2 f_equal; [|lia]. unfold pad. rewrite <- !(assoc_L (++)). do 2 f_equal. rewrite length_app.
  by replace (64 - (length t + length s))%nat with (S (63 - length t - length s)) by lia.
Qed.

Definition vl_at (t : buf) (p : Z) (r : bool) : VlanList := mkVL (pad 64 t) (Z.of_nat (length t)) p r r.

Lemma vlan_last_run t p r : p <> 0 -> (length (t ++ run_end r p) <= 50)%nat ->
  vlan_last (vl_at t p r) = Some (mkVL (pad 64 (t ++ run_end r p)) (Z.of_nat (length (t ++ run_end r p))) p r r).
Proof.
  intros Hp Hl. unfold vlan_last, vl_at. cbn [vl_to_be_printed vl_len vl_range vl_prev]. rewrite (proj2 (Z.eqb_neq _ _) Hp).
  destruct r; cbn [andb run_end] in *; [|by rewrite app_nil_r]. unfold vl_str_size, MCLAGDCTL_PARA3_LEN.
  assert (length t <= 50)%nat by (rewrite length_app in Hl; lia).
  rewrite (proj2 (Z.gtb_lt _ _)) by lia. cbn [andb negb]. rewrite vl_print_run by lia. done.
Qed.

Lemma vlan_loop_run vids t p r : 0 < p -> Forall (fun v => 0 < v) vids -> (length (t ++ rest p r vids) <= 50)%nat ->
  exists v, vlan_loop vids (vl_at t p r) = Some v /\ (vl_buf <$> vlan_last v) = Some (pad 64 (t ++ rest p r vids)).
Proof.
  intros Hp Hv. revert t p r Hp. induction Hv as [|v vs Hv Hvs IH]; intros t p r Hp Hl; cbn [rest] in *.
  - eexists. split; [done|]. rewrite vlan_last_run by (done || lia). done.
  - cbn [vlan_loop]. unfold vl_at, vl_str_size, MCLAGDCTL_PARA3_LEN. cbn [vl_len vl_prev vl_range].
    assert (Lt : (length t <= 50)%nat) by (rewrite length_app in Hl; lia).
    rewrite (proj2 (Z.ltb_ge _ 4)), (proj2 (Z.ltb_ge _ 12)), (proj2 (Z.eqb_neq p 0)) by lia. cbn [orb]. rewrite andb_false_r.
    destruct (Z.eqb_spec v (p + 1)) as [->|Hne]; cbn [negb]; [cbn [vl_buf]; apply IH; [lia|done]|].
    rewrite !(assoc_L (++)) in Hl. assert (Hend : (length (t ++ run_end r p) <= 50)%nat) by (rewrite !length_app in *; lia).
    assert (E : (if r then vl_print (str "- " ++ dec p ++ str " ") (vl_at t p r) else Some (vl_at t p r))
      = Some (mkVL (pad 64 (t ++ run_end r p)) (Z.of_nat (length (t ++ run_end r p))) p r r)).
    { destruct r; cbn [run_end] in *; [apply vl_print_run; lia|by rewrite app_nil_r]. }
    unfold vl_at in E. rewrite E. cbn [mbind option_bind].
    rewrite vl_print_run by (rewrite !length_app in *; lia). cbn [mbind option_bind vl_buf vl_len].
    edestruct (IH ((t ++ run_end r p) ++ dec v ++ str " ") v false Hv) as (x & E1 & E2); [by rewrite !(assoc_L (++))|].
    exists x. split; [exact E1|]. rewrite E2. by rewrite !(assoc_L (++)).
Qed.

Lemma vlanlist_run vids : Forall (fun v => 0 < v) vids -> (length (runs_text (runs vids)) <= 50)%nat ->
  vlanlist vids = Some (pad 64 (runs_text (runs vids))).
Proof.
  destruct vids as [|v vs]; [done|]. intros [Hv Hvs]%Forall_cons. destruct (runs_cons v vs) as (b & rs & -> & _ & Hr).
  assert (E : runs_text ((v, b) :: rs) = (dec v ++ str " ") ++ rest v false vs).
  { rewrite (Hr false). unfold runs_text. cbn [fmap list_fmap concat]. unfold run_text at 1. cbn [fst snd orb]. by rewrite !(assoc_L (++)). }
  rewrite E. intros Hl. unfold vlanlist. cbn [vlan_loop vl_len vl_prev vl_range]. unfold vl_str_size, MCLAGDCTL_PARA3_LEN at 1.
  cbn [orb andb]. change (64 - 1 - 0 <? 4) with false. change (0 =? 0) with true. cbn [orb andb mbind option_bind].
  pose proof (vl_print_run [] (dec v ++ str " ") 0 false false ltac:(rewrite !length_app in *; cbn [length app]; lia)) as E1.
  change (pad 64 []) with (zeros MCLAGDCTL_PARA3_LEN) in E1. cbn [length app] in E1. change (Z.of_nat 0) with 0 in E1. rewrite E1.
  cbn [mbind option_bind vl_buf vl_len].
  destruct (vlan_loop_run vs (dec v ++ str " ") v false Hv Hvs Hl) as (x & E2 & E3). unfold vl_at in E2. rewrite E2. cbn [mbind option_bind].
  destruct (vlan_last x) as [y|]; [|done]. change (Some (vl_buf y) = Some (pad 64 ((dec v ++ str " ") ++ rest v false vs))) in E3. exact E3.
Qed.

Lemma pretty_char_nul d : (d < 10)%N -> is_nul (Ascii.byte_of_ascii (pretty_N_char d)) = false.
Proof.
  intros H. rewrite <- (N2Nat.id d). assert (N.to_nat d < 10)%nat as Hd by lia. generalize dependent (N.to_nat d).
  intros k Hk. do 10 (destruct k as [|k]; [done|]). lia.
Qed.

Lemma pretty_nul x s : has_nul (str s) = false -> has_nul (str (pretty_N_go x s)) = false.
Proof.
  revert s. induction (N.lt_wf_0 x) as [x _ IH]; intros s Hs. destruct (decide (0 < x)%N) as [Hx|Hx].
  - rewrite pretty_N_go_step by done. apply IH; [apply N.div_lt; lia|].
    change (is_nul (Ascii.byte_of_ascii (pretty_N_char (x mod 10))) || has_nul (str s) = false).
    by rewrite pretty_char_nul by (apply N.mod_lt; lia).
  - assert (x = 0%N) as -> by lia. by rewrite pretty_N_go_0.
Qed.

Lemma dec_nul n : has_nul (dec n) = false.
Proof.
  assert (H : forall p, has_nul (str (pretty (N.pos p))) = false) by (intros p; apply (pretty_nul (N.pos p) ""); done).
  unfold dec. destruct n as [|p|p]; [done|apply H|]. change (has_nul (Byte.x2d :: str (pretty (N.pos p))) = false). apply H.
Qed.

Lemma runs_text_nul rs : has_nul (runs_text rs) = false.
Proof.
  induction rs as [|[a b] rs IH]; [done|]. unfold runs_text in *. cbn [fmap list_fmap concat]. unfold run_text at 1, run_end. cbn [fst snd].
  rewrite !has_nul_app', IH, dec_nul. destruct (a <? b); [|done]. by rewrite !has_nul_app', dec_nul.
Qed.

(** C34. A VLAN list that takes at most 50 characters is shown as its ranges, each as long
    as it can be: the client finds this text in the array, and the identifiers that
    the ranges stand for are those of the list, in its order. *)
Theorem vlan_ranges_shown vids : Forall (fun v => 0 < v) vids -> (length (runs_text (runs vids)) <= 50)%nat ->
  exists b, vlanlist vids = Some b /\ c_string b = Some (runs_text (runs vids))
  /\ (r ← runs vids; seqZ r.1 (r.2 - r.1 + 1)) = vids.
Proof.
  intros Hv Hl. eexists. split; [by apply vlanlist_run|]. split; [|apply runs_expand].
  rewrite <- (app_nil_r (pad _ _)). eapply (c_string_pad 50); [|lia]. split; [done|apply runs_text_nul].
Qed.

(** ** The tables, entry by entry *)

(** Numbered lines. *)
Definition lines {A} (line : nat -> A -> buf) (xs : list A) : buf := concat (imap line xs).

(** What the commands show of a domain's tables. *)
Definition table_lines (t : Table) (c : CSM) : option buf :=
  match t with
  | T_arp => Some (neigh_title "IP" 20 ++ lines (neigh_line ARP) (ml_arp_list (MLACP c)))
  | T_nd => Some (neigh_title "IPv6" 52 ++ lines (neigh_line ND) (ml_ndisc_list (MLACP c)))
  | T_mac =>
      ms ← mapM (fun p => ml_mac_heap (MLACP c) !! p) (ml_mac_rb (MLACP c));
      Some (mac_title ++ lines mac_line ms)
  | _ => None
  end.

(** The entries have their shape, and there are not too many for a reply. *)
Definition tables_sound (c : CSM) : Prop :=
  Forall (entry_shown ARP) (ml_arp_list (MLACP c)) /\ Forall (entry_shown ND) (ml_ndisc_list (MLACP c))
  /\ (forall p m, ml_mac_heap (MLACP c) !! p = Some m -> entry_ok m)
  /\ Z.of_nat (length (ml_arp_list (MLACP c))) < 2 ^ 24 /\ Z.of_nat (length (ml_ndisc_list (MLACP c))) < 2 ^ 24
  /\ Z.of_nat (length (ml_mac_rb (MLACP c))) < 2 ^ 24.

Lemma rows_lines {A} (f : A -> option buf) (bytes : A -> buf) row line (P : A -> Prop) xs n :
  (forall x, P x -> f x = Some (bytes x)) -> (forall n x, P x -> row n (bytes x) = Some (line n x)) -> Forall P xs ->
  mapM f xs = Some (bytes <$> xs) /\ rows_from row n (bytes <$> xs) = Some (concat (imap (fun i => line (n + i)%nat) xs)).
Proof.
  intros Hf Hr H. revert n. induction H as [|x xs Hx Hxs IH]; intros n; [done|]. cbn [mapM fmap list_fmap rows_from].
  destruct (IH (S n)) as [-> E]. rewrite (Hf x Hx), (Hr n x Hx), E. cbn [mbind option_bind]. split; [done|].
  cbn [imap concat]. rewrite Nat.add_0_r. do 3 f_equal. apply imap_ext. intros i y _. unfold compose. f_equal. lia.
Qed.

Lemma neigh_lines k c rows : neigh_kind k -> Forall (entry_shown k) (nk_table k (MLACP c)) ->
  rows = neigh_row (ip_column k) (33 + ip_member k) (39 + ip_member k) ->
  exists recs, neigh_rows k c = Some recs /\ length recs = length (nk_table k (MLACP c))
    /\ rows_from rows 0 recs = Some (lines (neigh_line k) (nk_table k (MLACP c))).
Proof.
  intros Hk H ->.
  edestruct (rows_lines (fun m => neigh_show k (msg_buf m)) (fun m => concat (neigh_bytes k m))
    (neigh_row (ip_column k) (33 + ip_member k) (39 + ip_member k)) (neigh_line k)) as [E1 E2];
    [intros x; by apply neigh_show_bytes|intros n x; by apply neigh_row_bytes|exact H|].
  eexists. split; [exact E1|]. split; [apply length_fmap|exact E2].
Qed.

Lemma mac_lines c ms : (forall p m, ml_mac_heap (MLACP c) !! p = Some m -> entry_ok m) ->
  mapM (fun p => ml_mac_heap (MLACP c) !! p) (ml_mac_rb (MLACP c)) = Some ms ->
  exists recs, mac_rows c = Some recs /\ length recs = length (ml_mac_rb (MLACP c))
    /\ rows_from mac_row 0 recs = Some (lines mac_line ms).
Proof.
  intros Hok Hm.
  assert (Hms : Forall entry_ok ms).
  { apply Forall_lookup_2. intros i m Hi. apply mapM_Some in Hm. destruct (Forall2_lookup_r _ _ _ _ _ Hm Hi) as (p & _ & Hp). by eapply Hok. }
  destruct (rows_lines mac_record (fun m => concat (mac_bytes m)) mac_row mac_line entry_ok ms 0) as [E1 E2];
    [exact mac_record_bytes|exact mac_row_bytes|exact Hms|].
  eexists. split; [|split; [|exact E2]].
  - unfold mac_rows. rewrite <- E1. clear -Hm. revert ms Hm. induction (ml_mac_rb (MLACP c)) as [|p ps IH]; intros ms; cbn [mapM].
    + by intros [= <-].
    + destruct (ml_mac_heap (MLACP c) !! p) as [m|]; [|done]. cbn [mbind option_bind]. destruct (mapM _ ps) as [ms'|] eqn:E; [|done].
      intros [= <-]. cbn [mapM]. by rewrite (IH _ eq_refl).
  - rewrite length_fmap. symmetry. by eapply Forall2_length, mapM_Some.
Qed.

Lemma table_lines_rows t lv w c text : tables_sound c -> table_lines t c = Some text ->
  exists recs, table_records t lv w [c] = Some recs /\ Z.of_nat (length recs) < 2 ^ 24 /\ table_text t recs = Some text.
Proof.
  intros (H1 & H2 & H3 & B1 & B2 & B3) Ht.
  assert (E : forall rows (recs : list buf), rows c = Some recs -> @concat buf <$> mapM rows [c] = Some recs).
  { intros rows recs E. cbn [mapM]. rewrite E. cbn. by rewrite app_nil_r. }
  destruct t; try done; cbn [table_lines] in Ht; cbn [table_records]; unfold table_text.
  - injection Ht as <-. destruct (neigh_lines ARP c (neigh_row 20 65 71) (or_introl eq_refl) H1 eq_refl) as (recs & E1 & E2 & E3).
    exists recs. cbn [table_row]. rewrite E2, E3. split; [by apply E|]. by split.
  - injection Ht as <-. destruct (neigh_lines ND c (neigh_row 52 97 103) (or_intror eq_refl) H2 eq_refl) as (recs & E1 & E2 & E3).
    exists recs. cbn [table_row]. rewrite E2, E3. split; [by apply E|]. by split.
  - destruct (mapM _ _) as [ms|] eqn:Em; [|done]. injection Ht as <-.
    destruct (mac_lines c ms H3 Em) as (recs & E1 & E2 & E3).
    exists recs. cbn [table_row]. rewrite E2, E3. split; [by apply E|]. by split.
Qed.

(** C33. The commands for the ARP, the ND and the MAC table of a domain print a title and,
    numbered from one, a line for each entry in the order of the daemon's table: with
    the address, the MAC, the interface and the flags of that entry. *)
Theorem tables_shown (malloc : nat -> buf) dbg lv w t id arg argv0 argv cut writes writes' csms c text :
  (forall n, length (malloc n) = n) -> (forall b, pieces (cut b) b) ->
  Forall (fun k => 0 < k) writes -> Forall (fun k => 0 < k) writes' ->
  0 < id < 2 ^ 31 -> atoi arg = id -> Forall2 abbreviates argv (table_words t) ->
  domains w = Some csms -> selected id csms = [c] -> tables_sound c -> table_lines t c = Some text ->
  mclagdctl_main argv0 [Opt_i arg] argv true writes (answers malloc dbg lv w cut writes') = Some (EXIT_SUCCESS, text).
Proof.
  intros Hm Hcut Hw Hw' Hid Harg Ha Hd Hsel Hok Ht.
  destruct (table_lines_rows t lv w c text Hok Ht) as (recs & E1 & E2 & E3). rewrite <- Hsel in E1.
  rewrite (show_run malloc dbg lv w t id arg argv0 argv cut writes writes' csms recs text); try done.
  - assert (table_result t id csms = EXEC_TYPE_SUCCESS) as ->; [|done].
    destruct t; try done; unfold table_result, result_of, known; rewrite Hsel; by rewrite orb_true_r.
  - rewrite (concat_size _ _ (table_sizes malloc Hm t lv id w csms recs Hd E1)).
    assert (Z.of_nat (table_size t) <= 104) by by destruct t. nia.
Qed.

(** ** The log level *)

Lemma config_loglevel_run (malloc : nat -> buf) lv : (forall n, length (malloc n) = n) ->
  mclagd_ctl_handle_config_loglevel malloc lv = Some (u8 lv, reply_bytes INFO_TYPE_CONFIG_LOGLEVEL EXEC_TYPE_SUCCESS []).
Proof.
  intros Hm. unfold mclagd_ctl_handle_config_loglevel. rewrite <- (app_nil_r (malloc MCLAGD_REPLY_INFO_HDR)).
  by rewrite put_reply by apply Hm.
Qed.

Lemma loglevel_process (malloc : nat -> buf) dbg lv new chunks w : (forall n, length (malloc n) = n) -> 0 <= new < 2 ^ 8 ->
  pieces chunks (request_bytes INFO_TYPE_CONFIG_LOGLEVEL new) ->
  mclagd_ctl_interactive_process malloc dbg lv chunks w
  = Some (Some (reply_bytes INFO_TYPE_CONFIG_LOGLEVEL EXEC_TYPE_SUCCESS [], new), w).
Proof.
  intros Hm Hn Hp. unfold mclagd_ctl_interactive_process.
  destruct (sock_read_run mclagdctl_req_hdr_size _ _ Hp) as (cs & -> & _); [done|].
  assert (E4 : rd32 4 (take mclagdctl_req_hdr_size (request_bytes INFO_TYPE_CONFIG_LOGLEVEL new)) = Some (le_combine (le_split 4 new))) by reflexivity.
  rewrite (bind_Some _ _ _ INFO_TYPE_CONFIG_LOGLEVEL w eq_refl), (bind_Some _ _ _ _ _ (lift_Some _ _ _ E4)).
  rewrite s32_le_split by lia.
  pose proof (config_loglevel_run malloc new Hm) as E. unfold u8 in E. rewrite Z.mod_small in E by lia.
  exact (bind_Some _ (fun r => mret (Some (r.2, r.1))) w _ w (lift_Some _ _ _ E)).
Qed.

(** The command to set the log level reaches the daemon, which stores the level and
    replies; the client then reads the result from behind the end of the reply. *)
Theorem loglevel_result_unread (malloc : nat -> buf) dbg lv w arg c argv0 argv cut writes writes' :
  (forall n, length (malloc n) = n) -> (forall b, pieces (cut b) b) ->
  Forall (fun k => 0 < k) writes -> Forall (fun k => 0 < k) writes' ->
  head arg = Some c -> [tolower c] ∈ level_letters.*1 -> Forall2 abbreviates argv [str "config"; str "loglevel"] ->
  (exists new, 0 <= new <= 5 /\ mclagd_ctl_interactive_process malloc dbg lv (cut (request_bytes INFO_TYPE_CONFIG_LOGLEVEL new)) w
     = Some (Some (reply_bytes INFO_TYPE_CONFIG_LOGLEVEL EXEC_TYPE_SUCCESS [], new), w)
   /\ mclagdctl_options [Opt_l arg] 0 = inr new)
  /\ mclagdctl_main argv0 [Opt_l arg] argv true writes (answers malloc dbg lv w cut writes') = None.
Proof.
  intros Hm Hcut Hw Hw' Hc Hin Ha.
  assert (Hopt : exists new, 0 <= new <= 5 /\ mclagdctl_options [Opt_l arg] 0 = inr new).
  { cbn [mclagdctl_options]. rewrite Hc. change (default Byte.x00 (Some c)) with c. cbn [level_letters fmap list_fmap fst] in Hin.
    repeat (apply elem_of_cons in Hin as [E | Hin]; [rewrite E; eexists; split; [|reflexivity]; done|]). by apply not_elem_of_nil in Hin. }
  destruct Hopt as (new & Hn & Eo). pose proof (loglevel_process malloc dbg lv new _ w Hm ltac:(lia) (Hcut _)) as Hp.
  split; [by exists new|]. unfold mclagdctl_main. rewrite Eo.
  erewrite (command_found INFO_TYPE_CONFIG_LOGLEVEL _ [str "config"; str "loglevel"] argv);
    [|apply list_elem_of_In; vm_compute; tauto|reflexivity|vm_compute; reflexivity|exact Ha].
  cbn [cmd_run cmd_info_type negb].
  assert (s32 new = new) as -> by (unfold s32; rewrite Z.mod_small by lia; lia).
  unfold mclagdctl_enca_config_loglevel. rewrite enca_run. unfold mclagdctl_sock_write. rewrite sock_write_run by done. cbn [fst snd].
  rewrite (proj2 (Nat.leb_gt _ 0)) by (unfold request_bytes; rewrite length_app, length_le_split; lia).
  unfold answers. rewrite Hp, sock_write_run by done. cbn [fst].
  rewrite (receive_run INFO_TYPE_CONFIG_LOGLEVEL EXEC_TYPE_SUCCESS []); [done|done|by left|done|apply Hcut].
Qed.

(** ** The ports of the second domain *)

Lemma wr_keeps_head off x b b' : (0 < off)%nat -> wr off x b = Some b' -> head b' = head b.
Proof.
  intros Ho E. destruct b as [|c b]; [by destruct b'; [|apply wr_length in E]|].
  unfold wr in E. destruct (_ <=? _)%nat; [|done]. injection E as <-. destruct off; [lia|done].
Qed.

Lemma enabled_po_loop_head ls len b w b' w' : 0 < len -> enabled_po_loop ls len b w = Some (b', w') -> head b' = head b.
Proof.
  revert len b w. induction ls as [|l ls IH]; intros len b w Hl; cbn [enabled_po_loop]; [by intros [= <- _]|].
  destruct (_ <? _); [by intros [= <- _]|]. intros (i & w1 & _ & E)%bind_inv. destruct (_ =? _); [|by eapply IH].
  apply bind_inv in E as (name & w2 & _ & E). apply bind_inv in E as (b1 & w3 & E1 & E).
  apply IH in E; [|lia]. rewrite E. apply lift_inv in E1. unfold snprintf_s_at in E1.
  destruct (_ =? 0); [by injection E1 as <-|]. eapply wr_keeps_head, E1. lia.
Qed.

(** The names of the port channels of a domain that is shown behind one with port
    channels: none, because they are written behind the length of the other's. *)
Lemma second_domain_ports_hidden ls len w b n w' : 0 < len -> enabled_po ls len w = Some ((b, n), w') -> c_string b = Some [] /\ n = 0.
Proof.
  intros Hl. unfold enabled_po. intros (b1 & w1 & E1 & E)%bind_inv. apply enabled_po_loop_head in E1; [|done].
  destruct b1 as [|c b1]; [done|]. injection E1 as ->.
  apply bind_inv in E as (s & w2 & Es & E). apply lift_inv in Es. injection Es as <-.
  apply bind_inv in E as (b2 & w3 & E2 & E). apply lift_inv in E2. injection E2 as <-. by injection E as <- <- _.
Qed.
