(* ===== verification/Witnesses.v ===== *)
(** Concrete states and messages at which the theorems of the development apply. *)

From Stdlib Require Import ZArith Lia Sorted Strings.Byte.
From stdpp Require Import base list gmap numbers option fin_sets.
From coqutil Require Import Byte Word.LittleEndianList.
From S2P Require Import Prelude CBuf State MsgFormat Wire CsmMsg Port AppCsm Csm MsgLogRing.
From S2P Require Import SyncPrepare Receive Handshake MacTable MacInv Decode MacSync Senders.
From S2P Require Import MacSend SendAll PortSync Consistency Syncd LinkMac LinkMacInv LinkMacSpec Isolation.

(** ** Sample objects *)

(** "PortChannel1", "PortChannel2" and "PortChannel9" *)
Definition po_name (d : byte) : buf :=
  [x50; x6f; x72; x74; x43; x68; x61; x6e; x6e; x65; x6c; d].

Definition mac_a : buf := [x00; x11; x22; x33; x44; x55].

Definition sample_lif (d : byte) (po : Z) (vs : list Z) : LocalInterface :=
  mkLif (100 + po) IF_T_PORT_CHANNEL (pad 20 (po_name d)) mac_a mac_a PORT_STATE_UP
    0x0a000001 24 [0; 0; 0; 0] 0 [0; 0; 0; 0] 0 0 mac_a 0 [] 0 po 1 MLACP_STATE_INIT 0 0
    (Some 1%nat) 0 0 false false (Z.of_nat (length vs)) 0
    (map (fun v => mkVlan v 0 None) vs).

Definition sample_info : IccpInfo := mkInfo 7 (pad MAX_L_ICC_SENDER_NAME (po_name x31)) 0 0 0 1 0 0.

(** An entry learnt on PortChannel1. *)
Definition sample_mac (flags : Z) : MACMsg :=
  mkMac 10 mac_a MAC_SYNC_ADD MAC_TYPE_DYNAMIC (pad 20 (po_name x31)) (pad 20 (po_name x31)) flags 0 1.

(** PortChannel1 as the peer described it. *)
Definition sample_pif : PeerInterface :=
  zero_pif <| pif_type := IF_T_PORT_CHANNEL |> <| pif_po_id := 1 |>
    <| pif_name := pad 20 (po_name x31) |> <| pif_vlan_tree := [mkVlan 10 0 None; mkVlan 30 0 None] |>.

Definition sample_mlacp (macs : gmap ptr MACMsg) (rb q : list ptr) (st : MLACP_APP_STATE) : mLACP :=
  zero_mlacp <| ml_mac_heap := macs |> <| ml_mac_rb := rb |> <| ml_mac_msg_list := q |>
    <| ml_current_state := st |> <| ml_lif_list := [1; 2]%nat |>
    <| ml_pif_list := [sample_pif] |>.

Definition sample_csm (m : mLACP) (st : ICCP_CONNECTION_STATE) : CSM :=
  zero_csm <| csm_sock_fd := 5 |> <| csm_iccp_info := sample_info |> <| csm_current_state := st |>
    <| csm_session_timeout := 15 |> <| csm_peer_link_if := Some 9%nat |>
    <| csm_peer_itf_name := pad IFNAMSIZ (po_name x39) |> <| csm_app_csm := zero_app <| app_mlacp := m |> |>.

Definition sample_sys : System := mkSys 3 4 [1%nat] [1; 2; 9]%nat [] [] [] 0 0 [] 0.

Definition sample_lifs : gmap ptr LocalInterface :=
  <[1%nat := sample_lif x31 1 [10; 20]]> (<[2%nat := sample_lif x32 2 [20]]>
    (<[9%nat := sample_lif x39 9 [10; 20; 30]]> ∅)).

Definition sample_of (csm : CSM) (rd : list RecvEv) : CS :=
  mkCS csm (mkG 1 [] 100 [] [] rd 0 ∅ [] [] [] ∅ MLACP_STATE_INIT 0) sample_lifs sample_sys 1%nat ∅.

Definition sample (macs : gmap ptr MACMsg) (rb q : list ptr) (st : MLACP_APP_STATE) : CS :=
  sample_of (sample_csm (sample_mlacp macs rb q st) ICCP_INITIALIZED) [].

Definition empty_table : CS := sample ∅ [] [] MLACP_STATE_EXCHANGE.
Definition one_mac (flags : Z) : CS :=
  sample {[5%nat := sample_mac flags]} [5%nat] [] MLACP_STATE_EXCHANGE.

(** ** The sample states are well formed *)

Lemma sample_ready macs rb q st : ready (sample macs rb q st).
Proof. split; (done || by vm_compute || (split; vm_compute; (done || lia))). Qed.

Lemma empty_wf : WF empty_table.
Proof. split; [set_solver|constructor|constructor|done]. Qed.

Lemma sample_mac_ok f : entry_ok (sample_mac f).
Proof. done. Qed.

Lemma one_mac_wf m f :
  ml_mac_heap m = {[5%nat := sample_mac f]} -> ml_mac_rb m = [5%nat] -> ml_mac_msg_list m = [] ->
  mac_wf m.
Proof.
  intros Eh Er Eq. split; rewrite ?Eh, ?Er, ?Eq.
  - intros p [->%list_elem_of_singleton|?]; set_solver.
  - repeat constructor.
  - constructor.
  - intros p e [_ <-]%lookup_singleton_Some. apply sample_mac_ok.
Qed.

Lemma one_wf f : WF (one_mac f).
Proof. by apply (one_mac_wf _ f). Qed.

Lemma links_of csm rd :
  ml_lif_list (MLACP csm) = [1; 2]%nat -> csm_peer_link_if csm = Some 9%nat ->
  length (csm_peer_itf_name csm) = IFNAMSIZ -> has_nul (csm_peer_itf_name csm) = true ->
  links_ok (sample_of csm rd).
Proof.
  intros H1 H2 H3 H4. split; cbn; [| |done|done].
  - rewrite H1. unfold sample_lifs. set_solver.
  - rewrite H2. intros l [= <-]. unfold sample_lifs. set_solver.
Qed.

Lemma one_links f : links_ok (one_mac f). Proof. by apply links_of. Qed.
Lemma empty_links : links_ok empty_table. Proof. by apply links_of. Qed.
Lemma one_ready f : ready (one_mac f). Proof. exact (sample_ready _ _ _ _). Qed.

(** ** Connections *)

(** An RG Connect of group 8, which is not the group 7 of the sample. *)
Definition stray_connect : Msg := mkMsg (rx_msg MSG_T_RG_CONNECT 3 8 (T_SenderName (po_name x31))) 40.

Lemma rg_mismatch_never_operational_witness :
  exists s', passes [[stray_connect]; []] empty_table = Some (tt, s')
    /\ csm_current_state (cs_csm s') <> ICCP_OPERATIONAL.
Proof.
  apply (rg_mismatch_never_operational 7 empty_table).
  - split; [apply sample_ready|done|constructor|done|done|by left].
  - repeat constructor; lia.
Defined.

(** A notification of 20 bytes. *)
Lemma recv_notification_out_of_bounds_witness :
  iccp_csm_correspond_from_msg
    (mkMsg (rx_msg MSG_T_NOTIFICATION 3 7 (T_Nak STATUS_CODE_U_ICCP_RG 2)) 28) empty_table = None.
Proof. apply recv_notification_out_of_bounds; [done|]. vm_compute. lia. Defined.

Lemma connection_messages_roundtrip_witness :
  exists a', iccp_csm_prepare_capability_msg empty_table = Some (16, a')
   /\ rd 0 16 (g_csm_buf (cs_g a')) = Some (wire_capability 1 1)
   /\ exists q, iccp_csm_enqueue_msg (mkMsg (wire_capability 1 1) 16) empty_table
        = Some (tt, queued q empty_table)
      /\ iccp_csm_correspond_from_msg q empty_table
        = Some (tt, on_info (fun i => i <| peer_capability_flag := 1 |>) empty_table).
Proof.
  apply (connection_messages_roundtrip empty_table empty_table 16 40); [by split|by vm_compute|done].
Defined.

Definition log_entries : list MsgTypeSet := [mkLog 1 MSG_T_RG_APP_DATA TLV_T_MLACP_MAC_INFO; mkLog 2 1 2].

Definition log_two : MsgLog := default zero_log (log_of log_entries).

Lemma log_finds_recent_witness : find_log 1 log_two = Some (mkLog 1 MSG_T_RG_APP_DATA TLV_T_MLACP_MAC_INFO).
Proof.
  apply (log_finds_recent log_entries log_two 0 (mkLog 1 MSG_T_RG_APP_DATA TLV_T_MLACP_MAC_INFO)); try done.
  - repeat constructor; set_solver.
  - vm_compute. lia.
Defined.

Definition logged : CS := empty_table <| cs_csm ::= fun c => c <| csm_msg_log := log_two |> |>.

Lemma enqueue_routes_witness :
  iccp_csm_enqueue_msg (mkMsg (wire_msg MSG_T_NOTIFICATION 9 7 (T_Nak 1 1)) 28) logged
  = Some (tt, logged <| cs_csm ::=
      mlacp_enqueue_msg (mkMsg (rx_app 9 7 (T_Nak 1 1) MSG_T_NOTIFICATION) 28) |>).
Proof.
  apply (enqueue_routes 9 7 T_Heartbeat 1 (mkLog 1 MSG_T_RG_APP_DATA TLV_T_MLACP_MAC_INFO) 28 logged);
    [cbn; lia|done].
Defined.

Definition caprec : CS := empty_table <| cs_csm ::= fun c => c <| csm_current_state := ICCP_CAPREC |> |>.

Lemma connection_nak_names_group_witness :
  exists a', iccp_csm_correspond_from_msg stray_connect caprec = Some (tt, a')
    /\ expected_iccp_msg a' = Some (wire_msg MSG_T_NOTIFICATION 1 7 (T_Nak STATUS_CODE_U_ICCP_RG 8)).
Proof.
  apply (connection_nak_names_group caprec 8 stray_connect); [by split|lia|done|done|].
  by exists 3, (po_name x31), 40.
Defined.

(** ** Reading *)

Definition heartbeat_msg : buf := wire_msg MSG_T_RG_APP_DATA 1 7 T_Heartbeat.

(** The bytes arrive in two chunks, with a retry between them. *)
Definition heartbeat_script : list RecvEv := [Rx_data (take 8 heartbeat_msg); Rx_again; Rx_data (drop 8 heartbeat_msg)].

Definition heartbeat_arrives : CS := empty_table <| cs_g ::= fun g => g <| g_rd := heartbeat_script |> |>.

Lemma heartbeat_feeds :
  feeds (take 8 heartbeat_msg) 0 heartbeat_script (tail heartbeat_script)
  /\ feeds (drop 8 heartbeat_msg) 1 (tail heartbeat_script) [].
Proof.
  split.
  - rewrite <- (app_nil_r (take 8 heartbeat_msg)). apply feeds_chunk; [done|constructor].
  - apply feeds_again; [done|]. rewrite <- (app_nil_r (drop 8 heartbeat_msg)).
    apply feeds_chunk; [done|constructor].
Qed.

Lemma read_callback_reassembles_witness :
  exists t c, csm_read_message heartbeat_arrives
    = take_message heartbeat_msg (after_read []
        (heartbeat_msg ++ zeros (CSM_BUFFER_SIZE - Z.of_nat (length heartbeat_msg))) t c heartbeat_arrives).
Proof.
  apply (read_callback_reassembles heartbeat_msg 1 (tail heartbeat_script) [] heartbeat_arrives).
  - split; [vm_compute; lia|]. by split.
  - done.
  - by vm_compute.
  - apply heartbeat_feeds.
  - apply heartbeat_feeds.
  - done.
Defined.

Lemma read_loops_terminate_witness :
  let s := empty_table <| cs_g ::= fun g => g <| g_csm_buf := zeros CSM_BUFFER_SIZE |> |> in
  (exists h s', read_header LDPHdr.sizeof 0 s = Some (h, s'))
  /\ (exists d s', read_data (100 + 11) 0 100 (mkRetry 0 0) s = Some (d, s')).
Proof.
  intros s. apply (read_loops_terminate s 100); [by vm_compute|apply length_replicate|unfold CSM_BUFFER_SIZE; lia].
Defined.

(** A message of 65537 bytes: its length field still fits 16 bits. *)
Definition big_msg : buf := be 2 MSG_T_RG_APP_DATA ++ be 2 65533 ++ be 4 1 ++ zeros 65529.

Definition big_script : list RecvEv := [Rx_data (take 8 big_msg); Rx_data (drop 8 big_msg)].

Lemma big_length : length big_msg = Z.to_nat 65537.
Proof. unfold big_msg. autorewrite with len. lia. Qed.

Lemma oversized_message_overflows_witness :
  csm_read_message (empty_table <| cs_g ::= fun g => g <| g_rd := big_script |> |>) = None.
Proof.
  apply (oversized_message_overflows big_msg 0 [Rx_data (drop 8 big_msg)] []).
  - split; [rewrite big_length; lia|]. rewrite big_length. split; [lia|]. by vm_compute.
  - rewrite big_length. unfold CSM_BUFFER_SIZE. lia.
  - by vm_compute.
  - rewrite <- (app_nil_r (take 8 big_msg)). apply feeds_chunk; [done|constructor].
  - rewrite <- (app_nil_r (drop 8 big_msg)) at 1. apply feeds_chunk; [|constructor].
    intros E%(f_equal length). rewrite length_drop, big_length in E. cbn [length] in E. lia.
  - done.
Defined.

(** ** The handshake *)

Lemma empty_fresh : fresh_session empty_table.
Proof. split; [apply sample_ready|done..]. Qed.


Lemma handshake_reaches_operational_witness :
  exists a' b', peers_run (concat (replicate 8 [true; false])) (empty_table, empty_table) = Some (a', b')
    /\ csm_current_state (cs_csm a') = ICCP_OPERATIONAL
    /\ csm_current_state (cs_csm b') = ICCP_OPERATIONAL.
Proof.
  apply (handshake_reaches_operational empty_table empty_table (replicate 8 [true; false]));
    [apply empty_fresh|apply empty_fresh|done|by vm_compute| |vm_compute; lia].
  apply Forall_replicate. split; set_solver.
Defined.

(** ** The MAC table *)

Definition mac_key_a : Z := data_key (mkMacData MAC_SYNC_ADD MAC_TYPE_DYNAMIC mac_a 10 (pad 20 (po_name x31))).

(** The peer deletes an address that aged out here. *)
Lemma peer_delete_ages_entry_witness :
  exists s', mlacp_fsm_update_mac_entry_from_peer
      (mkMacData MAC_SYNC_DEL MAC_TYPE_DYNAMIC mac_a 10 (pad 20 (po_name x31))) (one_mac MAC_AGE_LOCAL)
      = Some (tt, s') /\ table s' = ∅.
Proof.
  destruct (peer_delete_ages_entry (one_mac MAC_AGE_LOCAL)
    (mkMacData MAC_SYNC_DEL MAC_TYPE_DYNAMIC mac_a 10 (pad 20 (po_name x31))) (sample_mac MAC_AGE_LOCAL))
    as (s' & E & _ & _ & H); [apply one_wf|apply one_links|done|done|done|by vm_compute|done|].
  exists s'. split; [done|]. destruct H as [-> _]. apply map_eq. intros k. by vm_compute.
Defined.

(** The peer reports an address that this switch does not know, on PortChannel2. *)
Definition report_a (d : byte) : MacData := mkMacData MAC_SYNC_ADD MAC_TYPE_DYNAMIC mac_a 10 (pad 20 (po_name d)).

Lemma unknown_mac_learnt_witness :
  exists s', mlacp_fsm_update_mac_entry_from_peer (report_a x32) empty_table = Some (tt, s')
    /\ is_Some (table s' !! data_key (report_a x32)).
Proof.
  destruct (unknown_mac_learnt empty_table (report_a x32))
    as (s' & E & _ & H); [apply empty_wf|apply empty_links|done|done|done|by vm_compute|by vm_compute|done|].
  exists s'. split; [done|]. destruct H as [-> _]. rewrite lookup_insert_eq. done.
Defined.

Definition entry_a : MacEntry := mkMacEntry MAC_SYNC_ADD MAC_TYPE_DYNAMIC mac_a 10 (po_name x32).


(** No peer link is configured and the sessions are still synchronising. *)
Definition no_link : CS :=
  sample_of (sample_csm (sample_mlacp {[5%nat := sample_mac 0]} [5%nat] [] MLACP_STATE_STAGE1) ICCP_OPERATIONAL
    <| csm_peer_itf_name := replicate IFNAMSIZ x00 |>) [].

Lemma no_link_wf : WF no_link. Proof. by apply (one_mac_wf _ 0). Qed.
Lemma no_link_links : links_ok no_link. Proof. by apply links_of. Qed.


Lemma queue_reinit_defined_witness :
  mlacp_mac_msg_queue_reinit (one_mac 0) = None
  <-> exists p, p ∈ rb (one_mac 0) /\ released (one_mac 0) (queue (one_mac 0)) p.
Proof. apply (queue_reinit_defined (one_mac 0)), one_wf. Defined.

Lemma aged_entry_dangles_at_teardown_witness :
  exists s', (age ← set_mac_local_age_flag 5%nat 1 1; set_mac 5%nat (fun m => m <| mac_age_flag := age |>))
      (one_mac 0) = Some (tt, s')
    /\ WF s' /\ mac_age_flag <$> heap s' !! 5%nat = Some MAC_AGE_LOCAL
    /\ mlacp_mac_msg_queue_reinit s' = None.
Proof.
  apply (aged_entry_dangles_at_teardown (one_mac 0) 5%nat (sample_mac 0));
    [apply one_wf|set_solver|done|done|done].
Defined.

Lemma resync_queues_live_entries_witness :
  exists s', mlacp_sync_mac (one_mac 0) = Some (tt, s') /\ WF s'
    /\ queue s' = queue (one_mac 0) ++ List.filter (requeued (one_mac 0)) (rb (one_mac 0))
    /\ table s' = resynced <$> table (one_mac 0).
Proof. apply (resync_queues_live_entries (one_mac 0)), one_wf. Defined.

(** ** Sending *)

Definition arp_a : ArpEntry := mkArpEntry 0 0 (po_name x31) 0x0100000a mac_a.
Definition nd_a : NdEntry := mkNdEntry 0 0 (po_name x31) (replicate 16 x01) mac_a.

Definition busy_mlacp : mLACP :=
  sample_mlacp {[5%nat := sample_mac 0]} [5%nat] [5%nat] MLACP_STATE_STAGE1
    <| ml_arp_msg_list := [mkMsg (wire_arp arp_a) 36; mkMsg (wire_arp arp_a) 36] |>
    <| ml_ndisc_msg_list := [mkMsg (wire_nd nd_a) 48] |>.

(** A session with two ARP entries, one ND entry and one MAC entry to send. *)
Definition busy : CS := sample_of (sample_csm busy_mlacp ICCP_OPERATIONAL) [].

Lemma sample_of_ready m st : ready (sample_of (sample_csm m st) []).
Proof. split; (done || by vm_compute || (split; vm_compute; (done || lia))). Qed.

Lemma busy_arps :
  Forall2 (fun m e => arp_of (msg_buf m) = Some e) (ml_arp_msg_list (MLACP (cs_csm busy))) [arp_a; arp_a].
Proof. repeat constructor. Qed.

Lemma busy_nds :
  Forall2 (fun m e => nd_of (msg_buf m) = Some e) (ml_ndisc_msg_list (MLACP (cs_csm busy))) [nd_a].
Proof. repeat constructor. Qed.

Lemma neighbour_queues_sent_witness :
  exists css s', mlacp_sync_send_syncArpInfo busy = Some (tt, s')
    /\ sent (T_ArpInfo <$> css) busy s' /\ batched 40 [arp_a; arp_a] css.
Proof.
  destruct (neighbour_queues_sent busy [arp_a; arp_a] [nd_a] (sample_of_ready _ _) busy_arps busy_nds)
    as [(css & s' & E & Hs & Hb & _) _].
  exists css, s'. exact (conj E (conj Hs Hb)).
Defined.

Lemma busy_wf : WF busy.
Proof.
  split.
  - cbn. intros p [Hp%list_elem_of_singleton|Hp%list_elem_of_singleton]; subst p; set_solver.
  - repeat constructor.
  - repeat constructor. set_solver.
  - change (forall p e, ({[5%nat := sample_mac 0]} : gmap ptr MACMsg) !! p = Some e -> entry_ok e).
    intros p e [_ <-]%lookup_singleton_Some. apply sample_mac_ok.
Qed.


Lemma sample_lif_fields d po vs :
  has_nul (pad 20 (po_name d)) = true -> 0 <= po < 2 ^ 16 -> (length vs < 100)%nat ->
  StronglySorted Z.lt vs -> Forall (fun v => 0 <= v < 2 ^ 16) vs ->
  lif_fields_ok (sample_lif d po vs).
Proof.
  intros Hd Hp Hl Hs Hr. assert (E : vids (lif_vlan_tree (sample_lif d po vs)) = vs).
  { unfold vids. cbn. rewrite map_map. apply map_id. }
  split; [done|unfold sorted_vids; by rewrite E|done|by vm_compute|by vm_compute|].
  cbn. rewrite length_map. unfold CSM_BUFFER_SIZE. lia.
Qed.

Lemma busy_sendable : sendable busy.
Proof.
  split.
  - intros l Hl. change (l ∈ [1; 2]%nat) in Hl. change (l ∈ dom sample_lifs). set_solver.
  - repeat constructor; by vm_compute.
  - intros l [= <-]. by eexists.
  - done.
Qed.

Lemma send_all_info_witness :
  exists ca cn s', mlacp_sync_send_all_info_handler busy = Some (tt, s')
    /\ batched 40 [arp_a; arp_a] ca /\ batched 40 [nd_a] cn
    /\ progress busy (all_info busy ca cn) (after_all MLACP_STATE_STAGE2) s'.
Proof.
  exact (send_all_info busy [arp_a; arp_a] [nd_a] MLACP_STATE_STAGE2 (sample_of_ready _ _) busy_sendable
    busy_arps busy_nds eq_refl).
Defined.

(** ** Interfaces *)

Lemma interface_messages_encoded_witness :
  mlacp_prepare_for_Aggport_state (sample_lif x31 1 [10; 20]) empty_table
  = Some (35, with_msg empty_table (wire_msg MSG_T_RG_APP_DATA (cur_id empty_table) (rg_id empty_table)
      (T_AggState (lif_po_id (sample_lif x31 1 [10; 20])) (lif_state (sample_lif x31 1 [10; 20]))))).
Proof.
  destruct (interface_messages_encoded empty_table (sample_lif x31 1 [10; 20]) 0
    (sample_lif x31 1 [] <| lif_type := IF_T_PORT |>)) as (_ & H & _); [done..|]. exact H.
Defined.

Definition one_entry_built : CS :=
  empty_table <| cs_g ::= fun g => g <| g_csm_buf := mac_buf 1 7 [mac_entry (sample_mac 0)] |> |>.

Lemma table_messages_grow_witness :
  mlacp_prepare_for_mac_info_to_peer (sample_mac 0) (Z.of_nat (length [mac_entry (sample_mac 0)])) one_entry_built
  = Some (list_size 30 2, with_buf one_entry_built
      (mac_buf (cur_id one_entry_built) (rg_id one_entry_built) ([mac_entry (sample_mac 0)] ++ [mac_entry (sample_mac 0)]))).
Proof.
  destruct (table_messages_grow one_entry_built (sample_mac 0) [mac_entry (sample_mac 0)]
    (wire_arp arp_a) arp_a [] (wire_nd nd_a) nd_a [] 1 7) as (H & _);
    [done|by repeat constructor|done|constructor|done|constructor|].
  exact (H eq_refl).
Defined.

Lemma local_vlans_kept_witness :
  lif_vlans_ok (lif_add_vlan 15 None (sample_lif x31 1 [10; 20]))
  /\ forall x, x ∈ vids (lif_vlan_tree (lif_add_vlan 15 None (sample_lif x31 1 [10; 20])))
       <-> x = 15 \/ x ∈ [10; 20].
Proof.
  apply (local_vlans_kept 15 None (sample_lif x31 1 [10; 20])). split; [repeat constructor|done].
Defined.

(** The peer's record of PortChannel1 had VLANs 10 and 30; the message brings 10 and 20. *)
Lemma port_channel_mirrored_witness :
  exists r' p' l1 l2,
    mlacp_fsm_update_port_channel_info
      (mkMsg (rx_app 1 7 (port_channel_tlv (sample_lif x31 1 [10; 20])) MSG_T_RG_APP_DATA) 56) empty_table
      = Some (0, r')
    /\ r' = empty_table <| cs_csm ::= set_MLACP (fun m => m <| ml_pif_list := l1 ++ p' :: l2 |>) |>
    /\ mirrors (sample_lif x31 1 [10; 20]) p'.
Proof.
  destruct (port_channel_mirrored empty_table (sample_lif x31 1 [10; 20]) empty_table
    sample_pif 56)
    as (m & r' & p' & l1 & l2 & _ & _ & E & _ & Er & Hm & _).
  - apply sample_lif_fields; [done|lia|cbn; lia|repeat constructor|repeat constructor; lia].
  - done.
  - by vm_compute.
  - repeat constructor.
  - exists r', p', l1, l2. exact (conj E (conj Er Hm)).
Defined.

(** A process whose PortChannel1 has one VLAN more than the peer's. *)
Definition sample_world : World :=
  mkW sample_sys {[1%nat := cs_csm empty_table]} sample_lifs (cs_g empty_table).

Lemma consistency_check_decides_witness :
  iccp_consistency_check (pad 20 (po_name x31)) sample_world
  = Some (REASON_PEER_IF_IP_IS_ASYNC, sample_world).
Proof.
  destruct (consistency_check_decides sample_world (pad 20 (po_name x31)) (sample_lif x31 1 [10; 20])
    sample_pif) as [E _]; [..|etrans; [exact E|by vm_compute]].
  - split.
    + intros l Hl. change (l ∈ [1; 2; 9]%nat) in Hl. change (l ∈ dom sample_lifs). set_solver.
    + by exists 1%nat.
    + by exists 1%nat, (cs_csm empty_table).
  - repeat constructor.
  - repeat constructor.
Defined.

(** ** Requests to mclagsyncd *)

Definition sample_requests : list Request :=
  [R_iccp_role 7 true mac_a; R_remote_if_state 7 (po_name x31) true; R_iccp_state 7 false].

Lemma sample_acc : acc empty_table.
Proof. done. Qed.

Lemma requests_decode_witness :
  exists s' frames, run_requests sample_requests empty_table = Some ([0; 0; 0], s')
    /\ syncd_out (g_acts (cs_g s'))
       = syncd_out (g_acts (cs_g empty_table)) ++ concat (request_frame <$> sample_requests)
    /\ parse_stream 3 (concat (request_frame <$> sample_requests)) = Some frames
    /\ mapM (fun f => subs ← parse_subs 3 f.2; Some (f.1, subs)) frames
       = Some (request_subs <$> sample_requests).
Proof.
  apply (requests_decode sample_requests empty_table); [apply sample_acc|].
  repeat constructor; vm_compute; lia.
Defined.

Lemma remote_requests_counted_twice_witness :
  exists s', run_request (R_del_remote_if 7 (po_name x31)) empty_table = Some (0, s')
    /\ tx_count 13 SYNCD_DBG_CNTR_STS_OK (g_syncd_tx (cs_g s')) = 2.
Proof.
  destruct (remote_requests_counted_twice (R_del_remote_if 7 (po_name x31)) empty_table)
    as (s' & E & H); [apply sample_acc|vm_compute; lia|done|].
  exists s'. split; [exact E|exact H].
Defined.

(** ** Events on the MAC table *)

Lemma one_table_ok f : table_ok (one_mac f).
Proof. split; [apply one_wf|apply one_links|]. cbn. unfold sample_lifs. set_solver. Qed.

Definition learn_event : FdbEvent := mkFdb mac_a 20 (pad 20 (po_name x32)) MAC_TYPE_DYNAMIC MAC_SYNC_ADD.


(** An address known to both sides becomes local. *)
Lemma session_down_settles_table_witness :
  exists s', mlacp_peer_disconn_fdb_handler (one_mac 0) = Some (tt, s')
    /\ table s' = omap (disconn_entry (pad IFNAMSIZ (po_name x39))) (table (one_mac 0)).
Proof.
  destruct (session_down_settles_table (one_mac 0)) as (s' & E & _ & H & _); [apply one_wf|done| |].
  - intros k e He. apply table_lookup in He as (p & _ & He & _); [|apply one_wf].
    change (({[5%nat := sample_mac 0]} : gmap ptr MACMsg) !! p = Some e) in He.
    apply lookup_singleton_Some in He as [_ <-]. done.
  - exists s'. split; [exact E|exact H].
Defined.

Lemma switch_learns_address_witness :
  exists s', mac_update_from_syncd (Some 2%nat) learn_event empty_table = Some (tt, s')
    /\ table s' = <[event_key learn_event := learnt learn_event]> (table empty_table).
Proof.
  destruct (switch_learns_address empty_table (Some 2%nat) learn_event 2%nat (sample_lif x32 2 [20]))
    as (s' & E & _ & H & _); [apply empty_wf|done|done|done|by vm_compute|by vm_compute|done|by vm_compute|done|].
  exists s'. split; [exact E|exact H].
Defined.

(** ** Port isolation *)

Lemma sample_live l : l ∈ [1; 2]%nat -> l ∈ dom sample_lifs.
Proof. unfold sample_lifs. set_solver. Qed.

Lemma sample_isolating : isolating empty_table 9%nat (sample_lif x39 9 [10; 20; 30]).
Proof. split; (done || (by vm_compute; lia) || exact sample_live). Qed.


(** PortChannel1 isolated, with 510 bytes of members. *)
Definition many_members : CS :=
  empty_table <| cs_lifs ::= <[1%nat := sample_lif x31 1 [] <| lif_isolate_to_peer_link := 1 |>
    <| lif_portchannel_member_buf := pad 512 (replicate 510 x61) |>]> |>.

Lemma isolation_list_overflows_witness :
  update_peerlink_isolate_from_all_csm_lif many_members = None.
Proof.
  apply (isolation_list_overflows many_members 9%nat (sample_lif x39 9 [10; 20; 30])); try done.
  - intros l Hl. apply sample_live in Hl. cbn. rewrite dom_insert. set_solver.
  - repeat constructor; by vm_compute.
  - apply Nat.ltb_lt. by vm_compute.
Defined.
