(* ===== verification/StageWitnesses.v ===== *)
(** Concrete states at which the theorems about synchronisation, sessions and
    neighbours apply. *)

From Stdlib Require Import ZArith Lia Strings.Byte.
From stdpp Require Import base list gmap numbers option.
From coqutil Require Import Byte Word.LittleEndianList.
From S2P Require Import Prelude CBuf State MsgFormat Wire CsmMsg Csm MsgLogRing SyncPrepare Receive MacTable.
From S2P Require Import Senders SendAll Kernel Neigh LinkState SyncUpdate MlacpFsm Session.
From S2P Require Import StageFrame NeighSpec StageSpec StageNet Witnesses.

(** A computation that returns. *)
Definition returns {A} (o : option A) : bool := match o with Some _ => true | None => false end.
Lemma returns_Some {A} (o : option A) : returns o = true -> exists a, o = Some a.
Proof. destruct o; [eauto|done]. Qed.

(** A switch of the given role in the given stage, with messages from the peer. *)
Definition switch (r : stp_role_type) (st : MLACP_APP_STATE) (ms : list Msg) : CS :=
  sample_of (sample_csm (zero_mlacp <| ml_current_state := st |> <| ml_mlacp_msg_list := ms |>) ICCP_OPERATIONAL
    <| csm_role_type := r |> <| csm_peer_link_if := None |>
    <| csm_app_csm ::= fun a => a <| app_current_state := APP_OPERATIONAL |> |>) [].

Definition request_msg : Msg := received 1 7 28 T_SyncRequest.
Definition end_msg : Msg := received 2 7 24 (T_SyncData 0 1).
Definition beat_msg : Msg := received 3 7 21 T_Heartbeat.

Definition asked_switch : CS := switch STP_ROLE_ACTIVE MLACP_STATE_STAGE1 [beat_msg; request_msg].

Lemma asked_transit : exists s', mlacp_fsm_transit asked_switch = Some (tt, s').
Proof.
  destruct (returns_Some (mlacp_fsm_transit asked_switch)) as [[[] s'] E]; [by vm_compute|by exists s'].
Qed.

Lemma transit_refines_stages_witness :
  exists s', mlacp_fsm_transit asked_switch = Some (tt, s')
    /\ pass (stage (cs_csm asked_switch)) = Some (stage (cs_csm s')).
Proof.
  destruct asked_transit as [s' E]. exists s'. split; [exact E|].
  exact (transit_refines_stages asked_switch s' E).
Defined.


Definition exchanging_switch : CS := switch STP_ROLE_STANDBY MLACP_STATE_EXCHANGE [request_msg].


(** ** Messages of the stages *)

Lemma switch_ready r st ms : ready (switch r st ms).
Proof. split; (done || by vm_compute || (split; vm_compute; (done || lia))). Qed.


(** ** A run of two switches *)

Definition deliver_to (ms : list Msg) (s : CS) : CS :=
  s <| cs_csm ::= set_MLACP (fun m => m <| ml_mlacp_msg_list ::= fun q => q ++ ms |>) |>.

Lemma deliver_stage ms s : stage (cs_csm (deliver_to ms s)) = deliver_all ms (stage (cs_csm s)).
Proof. by destruct s as [[] ? ? ? ? ?]. Qed.

Fixpoint exec (es : list bool) (p : CS * CS) : option (CS * CS) :=
  match es with
  | [] => Some p
  | true :: es' =>
      r ← transit_turn p.1;
      exec es' (r.2, deliver_to (emits request_msg [end_msg] (stage (cs_csm p.1)) (stage (cs_csm r.2))) p.2)
  | false :: es' =>
      r ← transit_turn p.2;
      exec es' (deliver_to (emits request_msg [end_msg] (stage (cs_csm p.2)) (stage (cs_csm r.2))) p.1, r.2)
  end.

Lemma exec_run es p p' :
  exec es p = Some p' -> peers_run request_msg end_msg end_msg [] [] (Turn <$> es) p p'.
Proof.
  revert p. induction es as [|[] es IH]; intros p E; cbn [exec] in E; [injection E as <-; constructor|..];
    apply obind_Some in E as ([more s'] & E1 & E); rewrite fmap_cons; econstructor; [|by apply IH| |by apply IH];
    (split; [by exists more|apply deliver_stage]).
Qed.


(** ** The end of a session *)

Definition rebooting : CS :=
  switch STP_ROLE_STANDBY MLACP_STATE_EXCHANGE [] <| cs_csm ::= fun c => c <| csm_peer_warm_reboot_time := 40 |> |>.


(** ** Neighbours *)

Definition neigh_a : Neigh := mkNeigh NEIGH_SYNC_ADD 0 (pad 20 (po_name x31)) [x0a; x00; x00; x01] mac_a.

Lemma neighbour_tables_are_maps_witness :
  exists s', neigh_record ARP neigh_a empty_table = Some (tt, s')
    /\ known ARP (cs_csm s') !! n_ip neigh_a = Some (po_name x31, mac_a).
Proof.
  destruct (proj1 (neighbour_tables_are_maps ARP empty_table (or_introl eq_refl)
    (conj (conj (Forall_nil_2 _) (NoDup_nil_2)) (Forall_nil_2 _))) neigh_a) as (s' & E & _ & H & _).
  - by split_and!.
  - by vm_compute.
  - exists s'. split; [exact E|]. rewrite H. exact (lookup_insert_eq _ _ _).
Defined.
