(* ===== verification/ConfigWitnesses.v ===== *)
(** Concrete processes at which the theorems about configuration messages, new
    domains and new interfaces apply. *)

From Stdlib Require Import ZArith Lia Strings.Byte.
From stdpp Require Import base list gmap numbers option strings.
From coqutil Require Import Byte Word.LittleEndianList.
From S2P Require Import Prelude CBuf State MsgFormat Wire CsmMsg Csm Port Receive Syncd SyncdRecv.
From S2P Require Import Isolation Kernel Lifecycle LifecycleSpec Config ConfigSpec Witnesses.

(** A kernel without team devices. *)
Definition no_teams (_ : Z) : option (list (Z * bool)) := None.

Definition eth0 : buf := str "Ethernet0".
Lemma eth0_ok : (length eth0 < 20)%nat /\ existsb is_nul eth0 = false.
Proof. split; [vm_compute; lia|done]. Qed.

(** ** VLAN members from mclagsyncd *)

Definition member_msg (u : Z * bool) : Z * buf :=
  (MCLAG_SYNCD_MSG_TYPE_VLAN_MBR_UPDATES,
   concat (enc_named <$> [(if u.2 then MCLAG_CFG_OPER_ADD else MCLAG_CFG_OPER_DEL, u.1, eth0)])).

Lemma sample_no_eth0 : lifs_live sample_world /\ named eth0 sample_world = None.
Proof.
  split; [|by vm_compute]. intros l Hl. change (l ∈ [1; 2; 9]%nat) in Hl.
  change (is_Some (sample_lifs !! l)). apply elem_of_dom. vm_compute in Hl. 
  assert (dom sample_lifs = {[1; 2; 9]}%nat) as -> by (by vm_compute). set_solver.
Qed.

Lemma member_msgs_taken us : Forall (fun u => 0 <= u.1 < 2 ^ 16) us -> forall o j,
  takes (syncd_dispatch no_teams 0) (member_msg <$> us) (with_pending (plist eth0 [] o) (slept j sample_world)).
Proof.
  destruct sample_no_eth0 as [Hl Hn].
  induction 1 as [|[v b] us Hu Hus IH]; intros o j; [done|]. intros k rest.
  exists (with_pending (plist eth0 [] (pend_step o (v, b))) (slept (j + k) sample_world)). split; [|apply IH].
  change (slept k (with_pending (plist eth0 [] o) (slept j sample_world)))
    with (with_pending (plist eth0 [] o) (slept k (slept j sample_world))).
  rewrite slept_slept. unfold member_msg, syncd_dispatch. cbn [fst snd Z.eqb Pos.eqb MCLAG_SYNCD_MSG_TYPE_VLAN_MBR_UPDATES
    MCLAG_SYNCD_MSG_TYPE_FDB_OPERATION MCLAG_SYNCD_MSG_TYPE_CFG_MCLAG_DOMAIN MCLAG_SYNCD_MSG_TYPE_CFG_MCLAG_IFACE
    MCLAG_SYNCD_MSG_TYPE_CFG_MCLAG_UNIQUE_IP].
  cbn [fst] in Hu. change MCLAG_SYNCD_MSG_TYPE_VLAN_MBR_UPDATES with 4 in *.
  etrans; [apply member_message_applied|].
  - constructor; [|done]. split; [|split; [|apply eth0_ok]]; cbn [fst snd].
    + unfold int_ok, MCLAG_CFG_OPER_ADD, MCLAG_CFG_OPER_DEL. destruct b; lia.
    + lia.
  - cbn. lia.
  - cbn [foreach fst snd]. rewrite (bind_Some _ _ _ tt (with_pending (plist eth0 [] (pend_step o (v, b))) (slept (j + k) sample_world))); [done|].
    assert (E := pending_update no_teams eth0 eth0_ok [] o (v, b) (slept (j + k) sample_world) Hl Hn eq_refl Hu).
    cbn [fst snd] in E. unfold vlan_mbr_update. destruct b; cbn [Z.eqb Pos.eqb MCLAG_CFG_OPER_ADD MCLAG_CFG_OPER_DEL when]; exact E.
Qed.

(** Two updates in one call; the last two bytes come after a pause. *)
Definition member_a : Z * buf := member_msg (10, true).
Definition member_b : Z * buf := member_msg (20, false).
Definition member_b_bytes : buf := frame member_b.1 member_b.2.

Lemma member_ok_all : Forall msg_ok [member_a; member_b].
Proof. repeat constructor; try done; by vm_compute. Qed.

Lemma members_fit bs : (length bs <= 96)%nat -> (length (A := byte) bs <= recv_cap)%nat.
Proof. assert (H := recv_cap_spec). unfold MCLAG_MAX_MSG_LEN, ICCP_MLAGSYNCD_RECV_MSG_BUFFER_SIZE, MCLAG_MAX_MSG_LEN in H. lia. Qed.

Lemma syncd_stream_delivered_witness : exists w' c' b',
  delivered (syncd_dispatch no_teams 0) [member_a; member_b] (sample_world, ∅) (w', c')
  /\ iccp_mclagsyncd_msg_handler no_teams 0
       (mkRx sample_world [Rx_data (stream [member_a] ++ take 30 member_b_bytes); Rx_again; Rx_data (drop 30 member_b_bytes)] [] ∅)
     = Some (0, mkRx w' [] b' c').
Proof.
  apply (syncd_stream_delivered (syncd_dispatch no_teams 0) [member_a] member_b (take 30 member_b_bytes)
    (drop 30 member_b_bytes) 1 [Rx_again; Rx_data (drop 30 member_b_bytes)] []).
  - rewrite <- (slept_0 sample_world).
    apply (member_msgs_taken [(10, true); (20, false)] ltac:(repeat constructor; cbn; lia) None 0).
  - exact member_ok_all.
  - by rewrite take_drop.
  - vm_compute. lia.
  - apply members_fit. vm_compute. lia.
  - constructor; [done|]. by apply feeds_one.
  - done.
Defined.

(** Three bytes of the second header come first. *)
Lemma torn_message_lost_witness : exists w' c' b',
  delivered (syncd_dispatch no_teams 0) [member_a] (sample_world, ∅) (w', c')
  /\ iccp_mclagsyncd_msg_handler no_teams 0
       (mkRx sample_world (Rx_data (stream [member_a] ++ take 3 member_b_bytes)
          :: Rx_data (drop 3 member_b_bytes) :: replicate 6 Rx_again) [] ∅)
     = Some (MCLAG_ERROR, mkRx (counted_up CNT_RX_RETRY_FAIL w') [] b' c').
Proof.
  apply (torn_message_lost (syncd_dispatch no_teams 0) [member_a] member_b).
  - rewrite <- (slept_0 sample_world).
    apply (member_msgs_taken [(10, true)] ltac:(repeat constructor; cbn; lia) None 0).
  - exact member_ok_all.
  - apply members_fit. vm_compute. lia.
  - apply (torn_header _ _ _ (take 1 (drop 3 member_b_bytes)) (drop 4 member_b_bytes)); try by vm_compute.
    + vm_compute. lia.
    + rewrite app_nil_r. by apply feeds_one.
Defined.

(** ** The other theorems *)

Lemma mac_string_roundtrip_witness :
  parseMacString (joined_by colon (hex2 <$> mac_a)) (zeros 6) = (mac_a, 0)
  /\ exists sep, mac_sep sep /\ map lower (cstr (joined_by colon (hex2 <$> mac_a))) = joined_by sep (hex2 <$> mac_a).
Proof.
  split; [by apply (proj1 mac_string_roundtrip); [left|..]|].
  apply (proj2 mac_string_roundtrip (joined_by colon (hex2 <$> mac_a)) (zeros 6)); [done|].
  by apply (proj1 mac_string_roundtrip); [left|..].
Defined.

Definition domain_8 : mclag_domain_cfg_info :=
  mkDomainCfg MCLAG_CFG_OPER_ADD 8 5 (-1) (str "10.0.0.1") (str "10.0.0.2") [] mac_a 0x1b.

Lemma domain_8_ok : domain_ok domain_8.
Proof. split; try (vm_compute; split; done); try done; (split; [vm_compute; lia|done]). Qed.

Lemma config_messages_applied_witness :
  iccp_mclagsyncd_mclag_domain_cfg_handler no_teams 0
    (frame MCLAG_SYNCD_MSG_TYPE_CFG_MCLAG_DOMAIN (concat (enc_domain <$> [domain_8])) ++ zeros 4) sample_world
  = foreach (domain_cfg no_teams 0) [domain_8] sample_world
  /\ iccp_mclagsyncd_vlan_mbr_update_handler no_teams
       (frame MCLAG_SYNCD_MSG_TYPE_VLAN_MBR_UPDATES (concat (enc_named <$> [(MCLAG_CFG_OPER_ADD, 10, eth0)])) ++ []) sample_world
     = foreach (fun r => vlan_mbr_update no_teams r.1.1 r.1.2 r.2) [(MCLAG_CFG_OPER_ADD, 10, eth0)] sample_world.
Proof.
  destruct (config_messages_applied no_teams 0 (zeros 4) sample_world) as (Hd & _ & _).
  destruct (config_messages_applied no_teams 0 [] sample_world) as (_ & _ & Hm).
  split; [apply Hd|apply Hm].
  - constructor; [exact domain_8_ok|done].
  - cbn. lia.
  - constructor; [|done]. split; [|split; [|apply eth0_ok]]; vm_compute; split; done.
  - cbn. lia.
Defined.


Lemma pending_vlans_delivered_witness : exists l i, w_lifs sample_world !! l = None
  /\ (foreach (fun u => vlan_mbrship_change_handler no_teams u.1 eth0 u.2) [(10, true); (20, true); (10, false)];;
      local_if_create no_teams 30 eth0 IF_T_PORT PORT_STATE_UP) sample_world
     = Some (Some l, put_lif l i (sample_world <| w_sys ::= fun y => y <| sys_lif_list ::= cons l |> |>))
  /\ sorted_vids (lif_vlan_tree i)
  /\ (forall v, v ∈ vids (lif_vlan_tree i) <-> member_after [(10, true); (20, true); (10, false)] v = true)
  /\ lif_vlan_count i = Z.of_nat (length (lif_vlan_tree i)) /\ lif_name i = carray MAX_L_PORT_NAME eth0.
Proof.
  destruct sample_no_eth0 as [Hl Hn].
  eapply (pending_vlans_delivered no_teams eth0 eth0_ok _ [] 30 IF_T_PORT PORT_STATE_UP); try done.
  - intros c Hc. change (c ∈ [1%nat]) in Hc. apply list_elem_of_singleton in Hc as ->.
    exists (cs_csm empty_table). split; [done|]. split; [by vm_compute|by vm_compute; constructor].
  - right. by vm_compute.
  - by left.
  - repeat constructor; cbn; lia.
Defined.
