(* ===== verification/ProcWitnesses.v ===== *)
(** Concrete processes at which the theorems about neighbours, connections and the
    whole process apply. *)

From Stdlib Require Import ZArith Lia Strings.Byte.
From stdpp Require Import base list gmap numbers option strings relations.
From coqutil Require Import Byte Word.LittleEndianList.
From S2P Require Import Prelude CBuf State MsgFormat Wire CsmMsg Csm Port SyncPrepare Receive Syncd SyncdRecv.
From S2P Require Import AppCsm Kernel Neigh Isolation Session Lifecycle LifecycleSpec Config ConfigSpec Learn LinkEvents Connect.
From S2P Require Import StageFrame ProcInv ConnectSpec NeighSpec LearnSpec Witnesses ConfigWitnesses.

(** ** A turn of the scheduler *)

(** A switch that is configured, but has seen neither interfaces nor its peer. *)
Definition ip_a : buf := pad 16 (str "10.0.1.1").
Definition ip_b : buf := pad 16 (str "10.0.0.2").
Definition idle_csm (sender peer : buf) : CSM :=
  zero_csm <| csm_mlag_id := 7 |> <| csm_sender_ip := sender |> <| csm_peer_ip := peer |>
    <| csm_connTimePrev := 50 |> <| csm_sock_fd := -1 |>
    <| csm_app_csm := zero_app <| app_mlacp := zero_mlacp <| ml_system_id := mac_a |> |> |>.
Definition bare_world : World :=
  mkW (sample_sys <| sys_lif_list := [] |>) {[1%nat := idle_csm ip_a ip_b]} ∅ (cs_g empty_table).

Definition vlan10 : rtnl_link := mkLink 10 IF_OPER_UP (str "Vlan10") (Some mac_a) IFF_LOWER_UP 0.
Definition vlan10_addr : rtnl_addr := mkAddr 10 AF_INET [x0a; x00; x00; x01] 24.
Definition socket_7 : ConnRes := mkConnRes 7 0 0 0.

(** The kernel reports a VLAN interface and its address; the peer accepts. *)
Definition first_events : list Event := [Ev_route (Rt_newlink vlan10); Ev_route (Rt_newaddr vlan10_addr)].
Definition first_turn : option (bool * World) :=
  scheduler_turn no_teams 0 (-1, -1) first_events (fun _ => socket_7) bare_world.

(** What the turn shows of a world. *)
Definition seen {A} (f : World -> A) : option A := f ∘ snd <$> first_turn.

Lemma bare_ok : proc_ok bare_world.
Proof. split_and!; [done| |done]. unfold cores_ok. cbn [w_csms bare_world].
  rewrite map_fmap_singleton. apply map_Forall_singleton. by split.
Qed.

Lemma first_turn_taken : exists w, rtc turn_to bare_world w /\ forall A (f : World -> A), seen f = Some (f w).
Proof.
  destruct first_turn as [[go w]|] eqn:E; [|by vm_compute in E]. exists w. split.
  - apply rtc_once. exists no_teams, 0, (-1, -1), first_events, (fun _ => socket_7), go. split; [|exact E].
    repeat constructor. by vm_compute.
  - intros A f. unfold seen. by rewrite E.
Qed.

Lemma layer3_flags_witness : exists w l i, rtc turn_to bare_world w
  /\ w_lifs w !! l = Some i /\ local_if_is_l3_mode i = true /\ lif_l3_mode i = of_bool (local_if_is_l3_mode i).
Proof.
  destruct first_turn_taken as (w & Hw & Hs). exists w, 1%nat.
  set (f w := local_if_is_l3_mode <$> w_lifs w !! 1%nat). assert (E : seen f = Some (Some true)) by (by vm_compute).
  rewrite (Hs _ f) in E. injection E as E. unfold f in E. clear f.
  destruct (w_lifs w !! 1%nat) as [i|] eqn:Ei; [|done]. exists i.
  split_and!; [done..| |exact (layer3_flags _ _ bare_ok Hw 1%nat i Ei)].
  by injection E as E.
Defined.


(** ** Two switches *)

(** 10.0.1.1 and 10.0.0.2: the higher address is the lower number in network order. *)
Definition box (sender peer : buf) : CS :=
  mkCS (idle_csm sender peer) (cs_g empty_table) ∅ (sample_sys <| sys_lif_list := [] |>) 1%nat ∅.

Lemma box_may a b : 0 < strlen a -> 0 < strlen b -> may_connect (box a b).
Proof.
  intros Ha Hb. split; [done|done|by left|done|done|]. split; [done|]. vm_compute. by intros [=].
Qed.

Lemma socket_7_good : reachable_peer socket_7.
Proof. by split. Qed.


(** ** Neighbours *)

(** 10.0.0.9 on PortChannel1, an interface of the CSM with an address. *)
Definition host_ip : buf := [x0a; x00; x00; x09].
Definition po1 : LocalInterface := sample_lif x31 1 [10; 20].
Definition the_sample_csm : CSM := cs_csm empty_table.

Definition host_msg : NeighMsg :=
  mkNeighMsg RTM_NEWNEIGH AF_INET 101 2 RTN_UNICAST [(NDA_DST, host_ip); (NDA_LLADDR, mac_a)] (zeros 10).

Lemma host_msg_ok : neigh_msg_ok host_msg.
Proof. split; try done. repeat constructor; by vm_compute. Qed.

Lemma host_concerned own ip : own po1 None sample_world = Some (false, sample_world) -> length ip = nk_ip_len ARP ->
  concerns own ARP sample_world 101 ip po1 1%nat the_sample_csm.
Proof.
  intros Ho Hl. split; [apply sample_no_eth0|by exists 1%nat|by vm_compute| |done|by repeat constructor|done].
  exists None. split; [by vm_compute|exact Ho].
Qed.

Lemma kernel_neighbours_learnt_witness : exists x',
  do_one_neigh_request (enc_neigh_msg host_msg) sample_world = Some (0, put_csm 1%nat x' sample_world)
  /\ changed ARP (lif_name po1) host_ip mac_a (Some NEIGH_SYNC_ADD) the_sample_csm x'.
Proof.
  exact (kernel_neighbours_learnt ARP sample_world host_msg host_ip po1 1%nat the_sample_csm (or_introl eq_refl) host_msg_ok
    (or_introl eq_refl) eq_refl eq_refl (host_concerned (fun _ ov => own_vlan_ip ARP ov host_ip) host_ip eq_refl eq_refl) eq_refl eq_refl).
Defined.

(** The same host in an ARP reply; the kernel lists no addresses. *)
Lemma packet_neighbours_learnt_witness : exists x',
  do_neigh_update_from_reply_packet [] ARP 101 host_ip mac_a sample_world = Some (tt, put_csm 1%nat x' sample_world)
  /\ learnt ARP (lif_name po1) host_ip mac_a NEIGH_SYNC_ADD the_sample_csm x'.
Proof.
  exact (packet_neighbours_learnt [] ARP sample_world 101 host_ip po1 1%nat the_sample_csm mac_a (or_introl eq_refl)
    (host_concerned (fun i ov => packet_own_ip [] ARP i ov host_ip) host_ip eq_refl eq_refl) eq_refl ltac:(done) eq_refl).
Defined.

(** An advertisement whose first option, of type 1, claims 16 bytes while 8 were
    received: the MAC is taken from behind the packet. *)
Definition nd_target : buf := replicate 16 x20.
Definition nd_header : buf := [x88; x00; x00; x00; x00; x00; x00; x00] ++ nd_target.
Definition nd_opt : buf := [x01; x02] ++ replicate 14 x00.
Definition nd_left_over : buf := [x02; x01] ++ mac_a.

Lemma nd_advertisement_mac_witness :
  iccp_receive_ndisc_packet_handler [] (nd_header ++ nd_opt ++ nd_left_over) 32 101 sample_world
  = (do_ndisc_update_from_reply_packet [] 101 nd_target mac_a;; mret 0) sample_world.
Proof.
  destruct (nd_advertisement_mac [] nd_header [] nd_opt nd_left_over 101 sample_world 2 8 mac_a nd_target) as [_ H];
    [done|by vm_compute|by vm_compute|done|constructor|done|done|].
  apply (H 1); [by split|done|lia|lia|done|by split|by vm_compute].
Defined.
