(* ===== verification/ShowWitnesses.v ===== *)
(** A concrete process and client at which the theorems about the show commands
    apply. *)

From Stdlib Require Import ZArith Lia Strings.Byte.
From stdpp Require Import base list gmap numbers option strings.
From coqutil Require Import Byte Word.LittleEndianList.
From S2P Require Import Prelude CBuf State MsgFormat Wire CsmMsg Csm Port SyncPrepare Receive Syncd.
From S2P Require Import AppCsm MacTable Kernel Senders Neigh NeighSpec MacInv Lifecycle SyncdRecv Config.
From S2P Require Import Show Mclagdctl ShowSpec ShowRows Witnesses.

(** Domain 7 has two ARP entries, an ND and a MAC entry; domain 8 has none. *)
Definition shown_csm : CSM :=
  sample_csm (busy_mlacp <| ml_arp_list := [mkMsg (wire_arp arp_a) 36; mkMsg (wire_arp arp_a) 36] |>
                         <| ml_ndisc_list := [mkMsg (wire_nd nd_a) 48] |>) ICCP_OPERATIONAL <| csm_mlag_id := 7 |>.
Definition other_csm : CSM := cs_csm empty_table <| csm_mlag_id := 8 |>.
Definition shown_world : World :=
  mkW (mkSys 3 4 [2; 1]%nat [1; 2; 9]%nat [] [] [] 0 0 [] 0) (<[1%nat := shown_csm]> {[2%nat := other_csm]}) sample_lifs (cs_g empty_table).

Definition dirty (n : nat) : buf := replicate n x5a.
Definition bytewise (b : buf) : list buf := (fun x => [x]) <$> b.

Lemma dirty_size n : length (dirty n) = n.
Proof. apply length_replicate. Qed.

Lemma bytewise_pieces b : pieces (bytewise b) b.
Proof.
  split; [induction b as [|x b IH]; [done|]; cbn; by f_equal|]. unfold bytewise. apply Forall_fmap, Forall_forall. by intros x _.
Qed.

Lemma shown_domains : domains shown_world = Some [other_csm; shown_csm].
Proof. reflexivity. Qed.

Lemma abbreviates_run a w : a <> [] -> take (length a) w = a -> abbreviates a w.
Proof. intros H E. split; [done|]. exists (drop (length a) w). rewrite <- E at 1. by rewrite take_drop. Qed.

Ltac words := repeat (apply Forall2_cons; split; [apply abbreviates_run; done|]); apply Forall2_nil; done.

(** Of the interfaces of the peer, with the words written out. *)
Lemma show_command_prints_witness : exists text reply,
  mclagdctl_main (str "mclagdctl") [Opt_i (str "7")] [str "dump"; str "portlist"; str "peer"] true [1; 2; 500]
    (answers dirty [] 3 shown_world bytewise [100]) = Some (EXIT_SUCCESS, text)
  /\ mclagd_ctl_interactive_process dirty [] 3 (bytewise (request_bytes INFO_TYPE_DUMP_PEER_PORTLIST 7)) shown_world
     = Some (Some (reply, 3), shown_world).
Proof.
  edestruct (show_command_prints dirty [] 3 shown_world T_peer 7 (str "7") (str "mclagdctl")
    [str "dump"; str "portlist"; str "peer"] bytewise [1; 2; 500] [100] [other_csm; shown_csm]) as [E [reply Hr]];
    [exact dirty_size|exact bytewise_pieces|repeat constructor|repeat constructor|lia|reflexivity| |exact shown_domains
    |vm_compute; reflexivity|vm_compute; reflexivity|vm_compute; reflexivity|].
  - words.
  - eexists _, reply. split; [|exact Hr]. etrans; [exact E|]. reflexivity.
Defined.

(** The MAC table, with the words cut short. *)
Lemma tables_shown_witness :
  mclagdctl_main (str "mclagdctl") [Opt_i (str "7")] [str "d"; str "m"] true [1; 2; 500]
    (answers dirty [] 3 shown_world bytewise [100]) = Some (EXIT_SUCCESS, mac_title ++ mac_line 0 (sample_mac 0)).
Proof.
  apply (tables_shown dirty [] 3 shown_world T_mac 7 (str "7") (str "mclagdctl") [str "d"; str "m"] bytewise [1; 2; 500] [100]
    [other_csm; shown_csm] shown_csm);
    [exact dirty_size|exact bytewise_pieces|repeat constructor|repeat constructor|lia|reflexivity|words|exact shown_domains
    |reflexivity| |vm_compute; reflexivity].
  split_and!; try (vm_compute; reflexivity).
  - repeat constructor.
  - repeat constructor.
  - intros p m Hm. change (({[5%nat := sample_mac 0]} : gmap ptr MACMsg) !! p = Some m) in Hm.
    apply lookup_singleton_Some in Hm as [_ <-]. apply sample_mac_ok.
Defined.

Lemma vlan_ranges_shown_witness : exists b, vlanlist [10; 20; 21; 22; 30; 31] = Some b /\ c_string b = Some (str "10 20 - 22 30 - 31 ").
Proof.
  destruct (vlan_ranges_shown [10; 20; 21; 22; 30; 31]) as (b & E & Hb & _).
  - repeat constructor.
  - apply Nat.leb_le. vm_compute. reflexivity.
  - exists b. split; [exact E|]. etrans; [exact Hb|]. vm_compute. reflexivity.
Defined.

Lemma loglevel_result_unread_witness : mclagdctl_options [Opt_l (str "Debug")] 0 = inr 5
  /\ mclagdctl_main (str "mclagdctl") [Opt_l (str "Debug")] [str "config"; str "loglevel"] true []
       (answers dirty [] 3 shown_world bytewise []) = None.
Proof.
  edestruct (loglevel_result_unread dirty [] 3 shown_world (str "Debug") x44 (str "mclagdctl") [str "config"; str "loglevel"] bytewise [] [])
    as [_ E]; [exact dirty_size|exact bytewise_pieces|constructor|constructor|reflexivity|vm_compute; set_solver|words|].
  split; [reflexivity|exact E].
Defined.
